(* ===== verification/_CoqProject ===== *)
-Q . S2P
Prelude.v
Errors.v
GoTime.v
GoStrings.v
Money.v
Identifier.v
Ledger.v
Wallet.v
Transaction.v
Event.v
Sha256.v
Idempotency.v
Encoding.v
Rfc3339.v
Json.v
JsonFacts.v
Identity.v
Ports.v
Store.v
StoreInv.v
Policy.v
Recorder.v
Reversal.v
Submit.v
Storable.v
SubmitSpec.v
SubmitProof.v
SubmitExecute.v
SubmitFacts.v
Opening.v
Reconcile.v
Queries.v
Worker.v
Publisher.v
Consumer.v
Locks.v
Loops.v
Lifecycle.v
Schema.v
Postgres.v
Rows.v
PostgresLaws.v
PostgresWrites.v
Guard.v
PostgresQueues.v
UowLaws.v
Readings.v
PostgresReads.v
Quiet.v
System.v
Adapter.v
Http.v
HttpFacts.v
MoneyJson.v
Oidc.v
Oidctest.v
Program.v
Edge.v
Url.v
Settings.v
SettingsFacts.v
Startup.v
Sqs.v
Metrics.v
Measured.v
RequestLog.v
Sessions.v
Services.v
Scenarios.v
EdgeScenarios.v
Backlog.v
