(* ===== verification/Prelude.v ===== *)
(** * wagering-core: a verification development

    The service keeps the wallets of players: providers submit operations
    (bets, wins, losses, refunds, rollbacks) over HTTP or a queue, every
    movement of money is an entry of an append-only ledger, and what happened
    is announced through an outbox.  This library translates the program into
    executable definitions, file by file, and proves what makes it correct.
    The sources are under [src/]; every definition keeps the name it has there
    (a method [T.m] is [T_m]).

    ** How the program is put together, and where it is modelled

    - The domain, [internal/domain]: pure values and rules.  [Money] (currency
      codes, decimal amounts as [int64] minor units), [Identifier], [Ledger]
      (directions and entries), [Wallet] (the aggregate), [Transaction] (the
      operation and its life), [Event] (what is announced), [Errors];
      [MoneyJson] the amounts as JSON.
    - The application, [internal/app]: use cases over ports.  [Ports] has the
      ports; [Identity] the caller and the scopes; [Idempotency] the payload
      hash over [Sha256]; [Policy] the waiting and retry policies; [Recorder]
      the events of an outcome; [Reversal] and [Submit] the submission of an
      operation; [Opening], [Reconcile] and [Queries] the other requests;
      [Worker] the reversals that wait; [Publisher] the outbox; [Consumer] the
      queue; [Loops] the [Run] methods of these three; [Locks] the wallets
      that a transaction locks.
    - The PostgreSQL adapter, [internal/adapter/postgres], and the tables,
      [migrations]: [Schema] (rows, CHECK, UNIQUE and FOREIGN KEY
      constraints), [Postgres] (every statement, the translation of errors,
      the unit of work with its retries, the read-only snapshot; the clock and
      the identifiers of [internal/adapter/system]), [Guard] (any statement,
      also those the program never sends, and the triggers that refuse some).
    - The HTTP edge, [internal/adapter/http]: [Http] (bodies, handlers, the
      error table, authentication, routes, the correlation id), over [Json],
      [Rfc3339] and [Encoding], which model what the program uses of Go's
      [encoding/json], [time], [encoding/base64] and [strconv]; [RequestLog]
      the lines it writes about a request.
    - The identity provider, [internal/adapter/oidc]: [Oidc] (discovery, the
      cached key set, verification, claims); [Oidctest] the issuer of the
      tests.
    - The transport, [internal/adapter/sqs]: [Sqs] (the queues and their
      redrive policies, sending, receiving, settling, the envelope of an event
      on the wire).
    - Measurement, [internal/adapter/metrics]: [Metrics] (the counters, the
      use cases and requests with their recorder), [Measured] (what is counted
      inside a transaction).
    - The settings, [internal/config] and the constructors of [internal/
      platform]: [Settings] (every environment variable, its default and its
      refusals, the connection string, the policies built from them) over
      [Url], what it uses of Go's [net/url].
    - The composition, [internal/platform] and [cmd]: [System] and [Program]
      wire the use cases over the adapter, [Edge] wires the HTTP service;
      [Startup] opens the database and runs the migrations; [Lifecycle] has
      the graph of constructors and the hooks, and the process that starts,
      serves and stops, as a step relation.

    ** How effects are modelled

    A computation that may fail is [M W A]: a function of the world [W]
    returning a value or an error and the next world.  [Ports] states every
    port as a class or a record of such computations.  [Store] states what
    each port promises as laws against an abstract store of domain objects;
    the use cases are proved against those laws ([SubmitProof],
    [SubmitExecute], and the second halves of [Opening], [Worker],
    [Publisher], [Consumer], [Queries], [Reconcile]), and [PostgresLaws],
    [PostgresWrites], [PostgresQueues], [PostgresReads] and [UowLaws] prove
    that the adapter keeps them.

    PostgreSQL, its driver, the clock, the entropy and the other sessions are
    an [Environment] of [Postgres]: functions of a counter, so that each
    consultation may answer differently.  [EnvironmentLaws] is their
    documented behaviour: a fault is not a refused constraint, a UUID has 36
    bytes, the clock is past the first microsecond of year 1, other sessions
    keep the invariant, an instant is stored to the microsecond.  Any
    statement may fail, any commit may be refused or lose its reply, the
    caller may go away.  Other sessions commit before each transaction and
    before each read on the pool, not between two statements of one transaction:
    this is a choice of the model, and what it leaves out is said below.
    [Sessions] derives what the laws say of other sessions for sessions that run
    this program.  [Readings] ties the instants that calls go by to what the
    clock shows during them.  [Quiet] has concrete environments that satisfy the
    laws.

    A callback of [UnitOfWork.Do] may run several times; the variables it
    captures are threaded through the attempts ([Callback]), so a value left
    by a failed attempt is seen by the next one, as in the code.

    ** What is proved

    - The books ([StoreInv], [Services]): whatever requests, messages and
      workers run, under any faults and beside any other instances of the
      program ([Sessions]), every wallet's balance is the sum of its ledger and
      never negative, entries are only appended, an operation never leaves a
      terminal status, a reversal undoes one operation once.
    - Submission ([SubmitSpec], [SubmitFacts], [System]): atomicity, replay,
      refusal of other content, the decision on a bet, the effect of a
      reversal, isolation of providers.
    - The queue ([Services]): a message is applied with its inbox record or
      not at all, once, and never lost.
    - Wallets, reconciliation, reads, waiting reversals, events ([Services]): a
      look at a waiting reversal decides it or puts it off by the clock of the
      call, and so many looks decide it; the publisher's loop, alone and without
      failures, catches up with its backlog ([Backlog]).
    - The process: the pool is closed after everything that uses it, unless a
      time ran out ([Lifecycle]); a start that fails leaves nothing open
      ([Startup]).
    - The edge ([HttpFacts], [Edge]): who is served, what a client that
      resends is told, the same operation through either port, the closed set
      of error answers, the cursors.
    - The keys of the issuer ([Oidc]): the set in use is what its document says,
      member by member, and when it is asked again; and that the issuer of the tests is read
      as it publishes, also after it rolls its key ([Oidctest]).
    - The settings ([SettingsFacts]): the connection string read back gives
      the settings, no secret is printed, what is accepted is what each variable
      says, and what the components run with.
    - The transport ([Sqs]): the message of an event has the members of the
      contract, with what was recorded; the dead-letter policy names the queue.  Measurement ([Metrics]): the series
      are bounded whatever requests say, and measuring changes nothing
      ([Measured]).  A request is logged once, with the status and the
      correlation id of its answer ([RequestLog]).
    - The domain ([Money], [Wallet], [Transaction], [Idempotency], [Identity],
      [Policy]) and the adapter ([Adapter]): grammar and exact arithmetic of
      amounts, the movement against a reference on unbounded integers, the
      life of an operation, the payload hash, backoff bounds, rows read back
      as written, the schema refusing exactly the conflicts, bounded retries.
    - Concurrency ([Locks]): a transaction touches the row of one wallet,
      locked before anything else, so that transactions beside each other do
      not deadlock on wallets.
    - The schema alone ([Guard]): whatever statements anyone sends, balances
      stay non-negative, entries add up and are never changed or removed, and
      nothing is applied, opened or reversed twice.
    - [Scenarios] and [EdgeScenarios] run the program on concrete inputs: each
      theorem with hypotheses is applied where they hold, and a few examples
      show where the code differs from what its comments say.

    ** Integers, bounds and fuel

    [int64] values are [Z] with the wrap-around written out ([i64], [u64] in
    [Prelude]); durations are [int64] nanoseconds; an instant is an unbounded
    count of nanoseconds.  The recursions of the program are structural except
    these: the attempts of a unit of work are bounded by its policy, a batch of
    the worker by its batch size, and a client that follows cursors by a fuel
    larger than the number of entries.  The JSON parser has twice the length of
    its input as fuel, which [JsonFacts.parse_enough] shows never to decide;
    a loop of the process is run for a number of turns, and whether it has
    returned is part of the answer ([Loops.ticking_returns] says when it has);
    [time.ParseDuration] has one more than the length of its text, and every
    turn of its loop consumes a byte.

    ** What is not modelled

    - Transactions whose statements alternate.  The program opens READ COMMITTED
      transactions, where each statement sees what was committed before it; here
      a transaction sees what was committed when it began, and its own changes.
      So a read before the first lock that another session makes stale, as the
      look for an earlier submission in [ExecuteIn], never is; in the program the
      unique indexes of [Schema] refuse what such a read missed, and they are
      modelled ([Adapter]).  That [FOR UPDATE] makes a transaction wait is not
      modelled either: the books do not rest on it (an update of a balance names
      the version it read), and [Locks] has its order.  A sequence number that
      becomes visible after a higher one, because its transaction commits later,
      is excluded too.
    - The log lines of the use cases and loops, and the one of an internal
      error: no branch of the program reads them.  The text of an error is a
      parameter.
    - The timeout put on one publication.
    - The path matching of [http.ServeMux], which is the standard library's: a
      request names the pattern it matched.
    - The JWT library, HTTP connections to the issuer, the AWS SDK and the
      Prometheus registry are parameters ([Oidc.Jwt], [Oidc.Issuer],
      [Sqs.AWS], [Sqs.SQS], [Metrics.Registry]), and so is the reading of addresses
      in brackets ([Url.LiteralHosts]); the queue that a consumer reads and
      the broker that a publisher writes to are ports ([Ports], [Consumer]).
    - Fx, which runs the constructors and the hooks: [Lifecycle] relies on the
      order it documents ([built], [FxLaws]).  The drivers and goose are
      classes ([Startup.Pgx], [Startup.Goose]).
    - [strconv.Quote] of characters that are not printable, in messages.
    - Statements that change the schema itself, and the indexes that only
      serve speed. *)

From stdpp Require Export base tactics option list strings gmap.
From stdpp Require Import sorting.
From Stdlib Require Export ZArith Lia Ascii.

#[export] Set Default Goal Selector "!".
#[global] Open Scope Z_scope.

(** ** Go integers at their width

    [int64] and [uint64] values are integers kept in range by an explicit
    wrap-around; [int] is 64 bits wide on the platforms the service runs on. *)
Definition MaxInt64 : Z := 9223372036854775807.
Definition MinInt64 : Z := -9223372036854775808.
Definition two64 : Z := 18446744073709551616.

Definition u64 (z : Z) : Z := z mod two64.
Definition i64 (z : Z) : Z := (z - MinInt64) mod two64 + MinInt64.

Definition is_i64 (z : Z) : Prop := MinInt64 <= z <= MaxInt64.
Definition is_u64 (z : Z) : Prop := 0 <= z < two64.

#[global] Instance is_i64_dec z : Decision (is_i64 z).
Proof. unfold is_i64. apply _. Defined.
#[global] Instance is_u64_dec z : Decision (is_u64 z).
Proof. unfold is_u64. apply _. Defined.

(** ** Bytes of a Go string *)
Definition byte_val (b : ascii) : Z := Z.of_N (N_of_ascii b).
Definition byte_of (z : Z) : ascii := ascii_of_N (Z.to_N z).

(** The decimal digit character of a number below ten. *)
Definition digit_char (d : Z) : ascii := byte_of (48 + d).

(** ** Automation *)
Create HintDb wager.

(** Case analysis on every test in the context, closing the impossible
    branches. *)
Ltac break_step :=
  match goal with
  | H : context [if ?b then _ else _] |- _ => destruct b eqn:?; simplify_eq/=
  | H : context [match ?x with _ => _ end] |- _ => destruct x eqn:?; simplify_eq/=
  end.
Ltac break := repeat break_step.

Ltac width := unfold is_i64, is_u64, i64, u64, MaxInt64, MinInt64, two64 in *.

(** ** Arithmetic at the width *)
Lemma i64_id z : is_i64 z -> i64 z = z.
Proof. width. intros. rewrite Z.mod_small; lia. Qed.

Lemma u64_id z : is_u64 z -> u64 z = z.
Proof. width. intros. rewrite Z.mod_small; lia. Qed.

Lemma i64_range z : is_i64 (i64 z).
Proof. width. pose proof (Z.mod_pos_bound (z - -9223372036854775808) 18446744073709551616). lia. Qed.

Lemma u64_range z : is_u64 (u64 z).
Proof. width. apply Z.mod_pos_bound. lia. Qed.

(** A sum of two [int64]s wraps by at most one turn. *)
Lemma i64_add_cases a b :
  is_i64 a -> is_i64 b ->
  (is_i64 (a + b) /\ i64 (a + b) = a + b) \/
  (MaxInt64 < a + b /\ i64 (a + b) = a + b - two64) \/
  (a + b < MinInt64 /\ i64 (a + b) = a + b + two64).
Proof.
  intros Ha Hb. destruct (decide (is_i64 (a + b))) as [Hr|Hr].
  { left. auto using i64_id. }
  right. width. destruct (decide (a + b > 0)); [left|right]; split; try lia.
  - rewrite <- (Z_mod_plus_full _ (-1)). rewrite Z.mod_small; lia.
  - rewrite <- (Z_mod_plus_full _ 1). rewrite Z.mod_small; lia.
Qed.

Lemma i64_sub_cases a b :
  is_i64 a -> is_i64 b ->
  (is_i64 (a - b) /\ i64 (a - b) = a - b) \/
  (MaxInt64 < a - b /\ i64 (a - b) = a - b - two64) \/
  (a - b < MinInt64 /\ i64 (a - b) = a - b + two64).
Proof.
  intros Ha Hb. destruct (decide (is_i64 (a - b))) as [Hr|Hr].
  { left. auto using i64_id. }
  right. width. destruct (decide (a - b > 0)); [left|right]; split; try lia.
  - rewrite <- (Z_mod_plus_full _ (-1)). rewrite Z.mod_small; lia.
  - rewrite <- (Z_mod_plus_full _ 1). rewrite Z.mod_small; lia.
Qed.

(** ** Bytes *)
Lemma byte_val_range b : 0 <= byte_val b < 256.
Proof. unfold byte_val. pose proof (N_ascii_bounded b). lia. Qed.

Lemma byte_val_of z : 0 <= z < 256 -> byte_val (byte_of z) = z.
Proof.
  intros. unfold byte_val, byte_of. rewrite N_ascii_embedding; lia.
Qed.

Lemma byte_of_val b : byte_of (byte_val b) = b.
Proof. unfold byte_val, byte_of. rewrite N2Z.id. apply ascii_N_embedding. Qed.

Lemma byte_val_inj a b : byte_val a = byte_val b -> a = b.
Proof. intros H. by rewrite <- (byte_of_val a), <- (byte_of_val b), H. Qed.

#[export] Hint Resolve i64_id u64_id i64_range u64_range byte_val_range : wager.

(** ** Strings *)
Lemma string_app_cons c (s1 s2 : string) : String c s1 +:+ s2 = String c (s1 +:+ s2).
Proof. done. Qed.

Lemma string_app_nil_l (s : string) : "" +:+ s = s.
Proof. done. Qed.

Lemma string_app_assoc (s1 s2 s3 : string) :
  (s1 +:+ s2) +:+ s3 = s1 +:+ (s2 +:+ s3).
Proof. induction s1 as [|c s1 IH]; [done|]. by rewrite !string_app_cons, IH. Qed.

Lemma string_app_nil_r (s : string) : s +:+ "" = s.
Proof. induction s as [|c s IH]; [done|]. by rewrite !string_app_cons, IH. Qed.

Lemma string_length_app (s1 s2 : string) :
  String.length (s1 +:+ s2) = (String.length s1 + String.length s2)%nat.
Proof. induction s1 as [|c s1 IH]; [done|]. rewrite string_app_cons. cbn. by rewrite IH. Qed.

(** Equal-length prefixes of equal strings are equal. *)
Lemma string_app_inj_length (a b c d : string) :
  String.length a = String.length c -> a +:+ b = c +:+ d -> a = c /\ b = d.
Proof.
  revert c. induction a as [|x a IH]; intros [|y c] Hl He; try done.
  rewrite !string_app_cons in He. cbn in Hl. simplify_eq.
  destruct (IH c) as [-> ->]; auto.
Qed.

(** ** Filtering *)
Lemma filter_none {A} (P : A -> Prop) `{!forall x, Decision (P x)} (l : list A) :
  (forall x, x ∈ l -> ~ P x) -> filter P l = [].
Proof.
  induction l as [|x l IH]; intros Hno; [done|]. rewrite filter_cons, decide_False by (apply Hno; left).
  apply IH. intros y Hy. apply Hno. by right.
Qed.

Lemma filter_every {A} (P : A -> Prop) `{!forall x, Decision (P x)} (l : list A) :
  (forall x, x ∈ l -> P x) -> filter P l = l.
Proof.
  induction l as [|x l IH]; intros HP; [done|]. rewrite filter_cons, decide_True by (apply HP; left).
  f_equal. apply IH. intros y Hy. apply HP. by right.
Qed.

Lemma filter_map {A B} (f : A -> B) (P : B -> Prop) (Q : A -> Prop)
    `{!forall x, Decision (P x), !forall x, Decision (Q x)} (l : list A) :
  (forall x, P (f x) <-> Q x) -> filter P (f <$> l) = f <$> filter Q l.
Proof.
  intros HPQ. induction l as [|x l IH]; [done|]. rewrite fmap_cons, !filter_cons, IH.
  destruct (decide (Q x)); [rewrite decide_True by by apply HPQ|rewrite decide_False by by rewrite HPQ]; done.
Qed.

(** A prefix misses an element only by being full. *)
Lemma elem_of_take_full {A} n (l : list A) x : x ∈ l -> x ∈ take n l \/ length (take n l) = n.
Proof.
  intros Hx. destruct (decide (length l <= n)%nat).
  - left. by rewrite take_ge.
  - right. rewrite length_take. lia.
Qed.

(** ** Lists sorted by a key *)
Lemma sorted_filter {A} (key : A -> Z) (P : A -> Prop) `{!forall x, Decision (P x)} (l : list A) :
  StronglySorted Z.lt (key <$> l) -> StronglySorted Z.lt (key <$> filter P l).
Proof.
  induction l as [|x l IH]; intros Hl; [done|]. cbn in Hl. apply StronglySorted_cons in Hl as [Hx Hl].
  rewrite filter_cons. case_decide; [|by apply IH]. cbn. constructor; [by apply IH|].
  rewrite Forall_fmap, Forall_forall in Hx |- *. intros y [_ Hy]%list_elem_of_filter. by apply Hx.
Qed.

Lemma sorted_take {A} (key : A -> Z) n (l : list A) :
  StronglySorted Z.lt (key <$> l) -> StronglySorted Z.lt (key <$> take n l).
Proof. rewrite <- (take_drop n l) at 1. rewrite fmap_app. apply StronglySorted_app_1_l. Qed.

Lemma sorted_app_lt {A} (key : A -> Z) (l1 l2 : list A) x y :
  StronglySorted Z.lt (key <$> l1 ++ l2) -> x ∈ l1 -> y ∈ l2 -> key x < key y.
Proof.
  rewrite fmap_app. induction l1 as [|z l1 IH]; intros Hs Hx Hy; [by apply not_elem_of_nil in Hx|].
  cbn in Hs. apply StronglySorted_cons in Hs as [Hz Hs]. apply elem_of_cons in Hx as [->|Hx]; [|by apply IH].
  rewrite Forall_forall in Hz. apply Hz, elem_of_app. right. by apply list_elem_of_fmap_2.
Qed.

(** What lies after the last key of a prefix is the rest. *)
Lemma filter_after {A} (key : A -> Z) (l1 l2 : list A) k :
  StronglySorted Z.lt (key <$> l1 ++ l2) -> last (key <$> l1) = Some k ->
  filter (fun x => k < key x) (l1 ++ l2) = l2.
Proof.
  intros Hs Hk. rewrite fmap_last in Hk. destruct (last l1) as [z|] eqn:Ez; [|done]. injection Hk as <-.
  apply last_Some in Ez as [l ->]. rewrite filter_app.
  assert (H1 : filter (fun x => key z < key x) (l ++ [z]) = []).
  { apply filter_none. intros x [Hx|Hx%list_elem_of_singleton]%elem_of_app; [|subst; lia].
    rewrite <- app_assoc in Hs.
    assert (key x < key z) by (eapply (sorted_app_lt key l ([z] ++ l2)); [exact Hs|done|by left]). lia. }
  assert (H2 : filter (fun x => key z < key x) l2 = l2).
  { apply filter_every. intros y Hy. eapply sorted_app_lt; [exact Hs| |exact Hy].
    apply elem_of_app. right. by left. }
  by rewrite H1, H2.
Qed.
