(* ===== verification/Errors.v ===== *)
(** * Errors: rejection codes, error values and the result monad

    [internal/domain/errors.go] and [internal/app/errors.go].  A Go [error] is
    a chain: a domain rejection carries a [Code], the application layer has
    sentinels and a [ConstraintError] naming a database rule, and
    [fmt.Errorf "...%w..."] wraps one of them.  The human-readable detail of an
    error is not modelled: no branch of the program reads it. *)

From S2P Require Import Prelude.

#[local] Open Scope string_scope.
#[local] Open Scope list_scope.

Abbreviation Code := string (only parsing).

Definition CodeInvalidCurrency : Code := "INVALID_CURRENCY".
Definition CodeInvalidAmount : Code := "INVALID_AMOUNT".
Definition CodeNegativeAmount : Code := "NEGATIVE_AMOUNT".
Definition CodeAmountOverflow : Code := "AMOUNT_OVERFLOW".
Definition CodeCurrencyMismatch : Code := "CURRENCY_MISMATCH".
Definition CodeInvalidIdentifier : Code := "INVALID_IDENTIFIER".
Definition CodeInvalidTimestamp : Code := "INVALID_TIMESTAMP".
Definition CodeInvalidDirection : Code := "INVALID_DIRECTION".
Definition CodeNonPositiveAmount : Code := "NON_POSITIVE_AMOUNT".
Definition CodeInconsistentEntry : Code := "INCONSISTENT_LEDGER_ENTRY".
Definition CodeInsufficientFunds : Code := "INSUFFICIENT_FUNDS".
Definition CodeInvalidVersion : Code := "INVALID_VERSION".
Definition CodeInvalidKind : Code := "INVALID_KIND".
Definition CodeInvalidStatus : Code := "INVALID_STATUS".
Definition CodeInvalidTransition : Code := "INVALID_TRANSITION".
Definition CodeInvalidAmountForKind : Code := "INVALID_AMOUNT_FOR_KIND".
Definition CodeMissingReference : Code := "MISSING_REFERENCE".
Definition CodeUnexpectedReference : Code := "UNEXPECTED_REFERENCE".
Definition CodeReferenceNotFound : Code := "REFERENCE_NOT_FOUND".
Definition CodeReferenceMismatch : Code := "REFERENCE_MISMATCH".
Definition CodeReferenceAmountMismatch : Code := "REFERENCE_AMOUNT_MISMATCH".
Definition CodeReferenceNotReversible : Code := "REFERENCE_NOT_REVERSIBLE".
Definition CodeAlreadyReversed : Code := "ALREADY_REVERSED".
Definition CodeReversalExceedsBalance : Code := "REVERSAL_EXCEEDS_BALANCE".

(** Every code the domain declares, in source order. *)
Definition all_codes : list Code :=
  [CodeInvalidCurrency; CodeInvalidAmount; CodeNegativeAmount; CodeAmountOverflow;
   CodeCurrencyMismatch; CodeInvalidIdentifier; CodeInvalidTimestamp;
   CodeInvalidDirection; CodeNonPositiveAmount; CodeInconsistentEntry;
   CodeInsufficientFunds; CodeInvalidVersion; CodeInvalidKind; CodeInvalidStatus;
   CodeInvalidTransition; CodeInvalidAmountForKind; CodeMissingReference;
   CodeUnexpectedReference; CodeReferenceNotFound; CodeReferenceMismatch;
   CodeReferenceAmountMismatch; CodeReferenceNotReversible; CodeAlreadyReversed;
   CodeReversalExceedsBalance].

(** The sentinels of the application layer. *)
Inductive Sentinel :=
| ErrUnauthenticated
| ErrForbidden
| ErrNotFound
| ErrConflict
| ErrInvariantViolated
| ErrVersionMismatch
| ErrSerializationFailure
| ErrInvalidInput
| ErrNotImplemented
| ErrNestedUnitOfWork.

#[global] Instance Sentinel_eq_dec : EqDecision Sentinel.
Proof. solve_decision. Defined.

(** A Go [error] value.  [Wrapped] is [fmt.Errorf] with a [%w] verb; [Opaque]
    is an error no code inspects (a driver error, a plain [fmt.Errorf]). *)
Inductive error :=
| DomainError (code : Code)
| SentinelError (s : Sentinel)
| ConstraintError (name : string) (kind : Sentinel)
| Wrapped (inner : error)
| Opaque (what : string).

#[global] Instance error_eq_dec : EqDecision error.
Proof. solve_decision. Defined.

(** The sentinels of the domain are rejections without a detail. *)
Definition ErrInvalidCurrency : error := DomainError CodeInvalidCurrency.
Definition ErrInvalidAmount : error := DomainError CodeInvalidAmount.
Definition ErrNegativeAmount : error := DomainError CodeNegativeAmount.
Definition ErrAmountOverflow : error := DomainError CodeAmountOverflow.
Definition ErrCurrencyMismatch : error := DomainError CodeCurrencyMismatch.
Definition ErrInvalidIdentifier : error := DomainError CodeInvalidIdentifier.
Definition ErrInvalidTimestamp : error := DomainError CodeInvalidTimestamp.
Definition ErrInvalidDirection : error := DomainError CodeInvalidDirection.
Definition ErrNonPositiveAmount : error := DomainError CodeNonPositiveAmount.
Definition ErrInconsistentEntry : error := DomainError CodeInconsistentEntry.
Definition ErrInsufficientFunds : error := DomainError CodeInsufficientFunds.
Definition ErrInvalidVersion : error := DomainError CodeInvalidVersion.
Definition ErrInvalidKind : error := DomainError CodeInvalidKind.
Definition ErrInvalidStatus : error := DomainError CodeInvalidStatus.
Definition ErrInvalidTransition : error := DomainError CodeInvalidTransition.
Definition ErrInvalidAmountForKind : error := DomainError CodeInvalidAmountForKind.
Definition ErrMissingReference : error := DomainError CodeMissingReference.
Definition ErrUnexpectedReference : error := DomainError CodeUnexpectedReference.
Definition ErrReferenceNotFound : error := DomainError CodeReferenceNotFound.
Definition ErrReferenceMismatch : error := DomainError CodeReferenceMismatch.
Definition ErrReferenceAmountMismatch : error := DomainError CodeReferenceAmountMismatch.
Definition ErrReferenceNotReversible : error := DomainError CodeReferenceNotReversible.
Definition ErrAlreadyReversed : error := DomainError CodeAlreadyReversed.
Definition ErrReversalExceedsBalance : error := DomainError CodeReversalExceedsBalance.

(** Every sentinel of the domain, in source order. *)
Definition rejections : list error :=
  [ErrInvalidCurrency; ErrInvalidAmount; ErrNegativeAmount; ErrAmountOverflow;
   ErrCurrencyMismatch; ErrInvalidIdentifier; ErrInvalidTimestamp; ErrInvalidDirection;
   ErrNonPositiveAmount; ErrInconsistentEntry; ErrInsufficientFunds; ErrInvalidVersion;
   ErrInvalidKind; ErrInvalidStatus; ErrInvalidTransition; ErrInvalidAmountForKind;
   ErrMissingReference; ErrUnexpectedReference; ErrReferenceNotFound; ErrReferenceMismatch;
   ErrReferenceAmountMismatch; ErrReferenceNotReversible; ErrAlreadyReversed;
   ErrReversalExceedsBalance].

(** [Error.Is]: same code. *)
Definition Error_Is (code : Code) (target : error) : bool :=
  match target with
  | DomainError c => bool_decide (c = code)
  | _ => false
  end.

(** [errors.Is], walking the chain with [Error.Is] and
    [ConstraintError.Unwrap]. *)
Fixpoint errors_Is (e target : error) : bool :=
  match e with
  | DomainError code => Error_Is code target
  | SentinelError s => bool_decide (target = SentinelError s)
  | ConstraintError _ kind => bool_decide (target = SentinelError kind)
  | Wrapped inner => errors_Is inner target
  | Opaque _ => false
  end.

(** [errors.As(err, &de)] for [*domain.Error]. *)
Fixpoint As_domain (e : error) : option Code :=
  match e with
  | DomainError code => Some code
  | Wrapped inner => As_domain inner
  | _ => None
  end.

(** [errors.As(err, &ce)] for [*ConstraintError]. *)
Fixpoint As_constraint (e : error) : option string :=
  match e with
  | ConstraintError name _ => Some name
  | Wrapped inner => As_constraint inner
  | _ => None
  end.

Definition is_sentinel (e : error) (s : Sentinel) : bool := errors_Is e (SentinelError s).

Definition NewConflict (constraint : string) : error := ConstraintError constraint ErrConflict.
Definition NewInvariantViolation (constraint : string) : error :=
  ConstraintError constraint ErrInvariantViolated.

(** ** A Go function returning a value and an error *)
Inductive result (A : Type) :=
| Ok (a : A)
| Err (e : error).
Arguments Ok {_} _.
Arguments Err {_} _.

#[global] Instance result_eq_dec {A} `{EqDecision A} : EqDecision (result A).
Proof. solve_decision. Defined.

#[global] Instance result_ret : MRet result := fun _ a => Ok a.
#[global] Instance result_bind : MBind result := fun _ _ f m =>
  match m with Ok a => f a | Err e => Err e end.
#[global] Instance result_fmap : FMap result := fun _ _ f m =>
  match m with Ok a => Ok (f a) | Err e => Err e end.

(** [fail(code, ...)] *)
Definition fail {A} (code : Code) : result A := Err (DomainError code).

(** [fmt.Errorf("...: %w", err)] around a failing call. *)
Definition wrap_err {A} (r : result A) : result A :=
  match r with Ok a => Ok a | Err e => Err (Wrapped e) end.

Definition is_Ok {A} (r : result A) : bool := match r with Ok _ => true | Err _ => false end.

(** Go's guard sequences [if c then fail ... else ...]: split on each guard of
    hypothesis [H], closing the failed guards when [H] is a success and
    keeping the rejection's code when it is an error. *)
Ltac guards H :=
  repeat match type of H with
  | (if ?b then _ else _) = _ =>
    let E := fresh "G" in
    destruct b eqn:E;
    [first [discriminate H | injection H as <-; first [discriminate | reflexivity]]|]
  end.

(** ** Lemmas *)
Lemma result_bind_Ok {A B} (m : result A) (f : A -> result B) b :
  m ≫= f = Ok b <-> exists a, m = Ok a /\ f a = Ok b.
Proof. destruct m; cbn; naive_solver. Qed.

Lemma result_bind_Err {A B} (m : result A) (f : A -> result B) e :
  m ≫= f = Err e <-> m = Err e \/ exists a, m = Ok a /\ f a = Err e.
Proof. destruct m; cbn; naive_solver. Qed.

Lemma fail_not_Ok {A} c (a : A) : fail c <> Ok a.
Proof. done. Qed.

(** A rejection is one sentinel: every code has its own, and an error that
    wraps a rejection with a detail is that sentinel and no other. *)
Lemma rejections_are_codes : rejections = map DomainError all_codes /\ NoDup rejections.
Proof. split; [reflexivity|]. by apply (bool_decide_eq_true_1 _). Qed.

Lemma a_rejection_is_one_sentinel e c target : As_domain e = Some c -> target ∈ rejections ->
  errors_Is e target = true <-> target = DomainError c.
Proof.
  intros He Ht. destruct rejections_are_codes as [Hr _]. rewrite Hr in Ht. apply list_elem_of_fmap in Ht as (c' & -> & _).
  induction e; cbn in *; simplify_eq; [|by auto]. rewrite bool_decide_eq_true. naive_solver.
Qed.

(** A sentinel test never succeeds on a domain rejection, so the two families
    of errors cannot be confused. *)
Lemma As_domain_not_sentinel e c s : As_domain e = Some c -> is_sentinel e s = false.
Proof.
  unfold is_sentinel. induction e; cbn; intros; simplify_eq; auto.
Qed.

