(* ===== verification/GoTime.v ===== *)
(** * GoTime: the part of Go's [time] package the program uses

    An instant is a count of nanoseconds since the zero [time.Time] (1 January
    of year 1, UTC), with the location it is presented in.  [UTC] is the
    representation with a nil location pointer, so [(time.Time{}).UTC()] is
    [time.Time{}] itself.  Instants are unbounded. *)

From S2P Require Import Prelude.

Inductive Location := UTC | Zone (offset : Z).

#[global] Instance Location_eq_dec : EqDecision Location.
Proof. solve_decision. Defined.

Record Time := mkTime { instant : Z; loc : Location }.

#[global] Instance Time_eq_dec : EqDecision Time.
Proof. solve_decision. Defined.

(** [time.Time{}] *)
Definition zeroTime : Time := mkTime 0 UTC.

Definition Time_IsZero (t : Time) : bool := instant t =? 0.
Definition Time_UTC (t : Time) : Time := mkTime (instant t) UTC.
Definition Time_Before (t u : Time) : bool := instant t <? instant u.

(** A [time.Duration] is an [int64] of nanoseconds. *)
Abbreviation Duration := Z (only parsing).

Definition Time_Add (t : Time) (d : Duration) : Time := mkTime (instant t + d) (loc t).

(** [t.Sub(u)] saturates at the limits of a duration. *)
Definition Time_Sub (t u : Time) : Duration :=
  Z.max MinInt64 (Z.min MaxInt64 (instant t - instant u)).

Definition Millisecond : Duration := 1000000.
Definition Second : Duration := 1000 * Millisecond.
Definition Minute : Duration := 60 * Second.

(** A stored instant is always presented in UTC. *)
Definition is_utc (t : Time) : Prop := loc t = UTC.

Lemma Time_UTC_is_utc t : is_utc (Time_UTC t).
Proof. done. Qed.

Lemma Time_UTC_id t : is_utc t -> Time_UTC t = t.
Proof. destruct t; unfold is_utc, Time_UTC; cbn; by intros ->. Qed.

Lemma Time_IsZero_UTC t : Time_IsZero (Time_UTC t) = Time_IsZero t.
Proof. done. Qed.

Lemma Time_IsZero_utc_zero t : is_utc t -> Time_IsZero t = true -> t = zeroTime.
Proof. destruct t; unfold is_utc, Time_IsZero, zeroTime; cbn. intros -> H. f_equal. lia. Qed.

#[export] Hint Resolve Time_UTC_is_utc : wager.
