(* ===== verification/GoStrings.v ===== *)
(** * GoStrings: the part of Go's [strings] package the program uses

    [strings.TrimSpace] cuts Unicode white space at both ends.  A Go string is
    a sequence of bytes; the white-space runes are listed by their UTF-8
    encodings, and an encoding found at an end of the string is the rune found
    there, because none of these encodings can be a part of a longer one. *)

From S2P Require Import Prelude.

#[local] Open Scope list_scope.
#[local] Open Scope Z_scope.

Abbreviation bytes := (list ascii) (only parsing).

(** The runes for which [unicode.IsSpace] holds. *)
Definition white_space : list bytes :=
  map (map byte_of)
    ([[9]; [10]; [11]; [12]; [13]; [32]; [194; 133]; [194; 160]; [225; 154; 128]] ++
     map (fun b => [226; 128; b]) [128; 129; 130; 131; 132; 133; 134; 135; 136; 137; 138; 168; 169; 175] ++
     [[226; 129; 159]; [227; 128; 128]]).

(** [strip p s]: [s] without the prefix [p], when it has it. *)
Fixpoint strip (p s : bytes) : option bytes :=
  match p, s with
  | [], _ => Some s
  | b :: p, c :: s => if bool_decide (b = c) then strip p s else None
  | _ :: _, [] => None
  end.

Fixpoint strip_any (ps : list bytes) (s : bytes) : option bytes :=
  match ps with
  | [] => None
  | p :: ps => match strip p s with Some r => Some r | None => strip_any ps s end
  end.

(** Every rune has at least one byte, so the length bounds the loop. *)
Fixpoint trim_left (fuel : nat) (ps : list bytes) (s : bytes) : bytes :=
  match fuel with
  | O => s
  | S fuel => match strip_any ps s with
              | Some r => trim_left fuel ps r
              | None => s
              end
  end.

Definition TrimSpace (s : string) : string :=
  let l := String.list_ascii_of_string s in
  let l := trim_left (length l) white_space l in
  let r := trim_left (length l) (map (@rev ascii) white_space) (rev l) in
  String.string_of_list_ascii (rev r).

(** [strings.Fields]: what is between runs of white space. *)
Definition flush (cur : bytes) : list string :=
  match cur with [] => [] | _ => [String.string_of_list_ascii cur] end.

Fixpoint fields_loop (fuel : nat) (cur s : bytes) : list string :=
  match fuel, s with
  | S fuel, b :: s' =>
    match strip_any white_space s with
    | Some r => flush cur ++ fields_loop fuel [] r
    | None => fields_loop fuel (cur ++ [b]) s'
    end
  | _, _ => flush cur
  end.

Definition Fields (s : string) : list string :=
  let l := String.list_ascii_of_string s in fields_loop (length l) [] l.

(** [strings.TrimSuffix] of one byte. *)
Definition TrimSuffix (s : string) (b : ascii) : string :=
  match rev (String.list_ascii_of_string s) with
  | c :: r => if bool_decide (c = b) then String.string_of_list_ascii (rev r) else s
  | [] => s
  end.

(** [strings.Cut] around a byte. *)
Fixpoint Cut (s : string) (sep : ascii) : option (string * string) :=
  match s with
  | EmptyString => None
  | String b s =>
    if (b =? sep)%char then Some ("", s)
    else '(before, after) ← Cut s sep; Some (String b before, after)
  end.

(** The same around its last occurrence. *)
Fixpoint CutLast (s : string) (sep : ascii) : option (string * string) :=
  match s with
  | EmptyString => None
  | String b s =>
    match CutLast s sep with
    | Some (before, after) => Some (String b before, after)
    | None => if (b =? sep)%char then Some ("", s) else None
    end
  end.

(** [strings.Split] around a byte. *)
Fixpoint Split (s : string) (sep : ascii) : list string :=
  match s with
  | EmptyString => [""]
  | String b s =>
    if (b =? sep)%char then "" :: Split s sep
    else match Split s sep with
         | piece :: pieces => String b piece :: pieces
         | [] => [String b ""]
         end
  end.

(** [strings.TrimPrefix] of one byte. *)
Definition TrimPrefix (s : string) (b : ascii) : string :=
  match s with
  | String c rest => if (c =? b)%char then rest else s
  | EmptyString => s
  end.

(** [strings.Contains] of one byte, and the number of its occurrences. *)
Fixpoint Count (s : string) (b : ascii) : nat :=
  match s with
  | EmptyString => 0
  | String c s => if (c =? b)%char then S (Count s b) else Count s b
  end.

Definition Contains (s : string) (b : ascii) : bool := negb (Count s b =? 0)%nat.

(** Every byte satisfies a test. *)
Fixpoint every_byte (test : ascii -> bool) (s : string) : bool :=
  match s with
  | EmptyString => true
  | String b s => test b && every_byte test s
  end.

(** A byte of a set. *)
Definition one_of (set : string) (b : ascii) : bool := Contains set b.

(** ** Lemmas *)

Lemma strip_any_None ps b s :
  Forall (fun p => match p with c :: _ => c <> b | [] => False end) ps -> strip_any ps (b :: s) = None.
Proof.
  induction 1 as [|[|c p] ps Hc _ IH]; [done|done|]. cbn. rewrite bool_decide_eq_false_2 by done. done.
Qed.

Lemma trim_left_stop n ps b s :
  Forall (fun p => match p with c :: _ => c <> b | [] => False end) ps ->
  trim_left n ps (b :: s) = b :: s.
Proof. intros H. destruct n as [|n]; [done|]. cbn. by rewrite (strip_any_None _ _ _ H). Qed.

(** A byte that starts and ends no white-space rune. *)
Definition plain (b : ascii) : Prop :=
  Forall (fun p => match p with c :: _ => c <> b | [] => False end) white_space /\
  Forall (fun p => match p with c :: _ => c <> b | [] => False end) (map (@rev ascii) white_space).

(** A string whose first and last bytes are plain is already trimmed. *)
Lemma TrimSpace_id a l b :
  plain a -> plain b ->
  TrimSpace (String.string_of_list_ascii (a :: l ++ [b])) =
    String.string_of_list_ascii (a :: l ++ [b]).
Proof.
  intros [Ha _] [_ Hb]. unfold TrimSpace. rewrite String.list_ascii_of_string_of_list_ascii.
  rewrite trim_left_stop by done.
  replace (rev (a :: l ++ [b])) with (b :: rev (a :: l)) at 1
    by (cbn [rev]; by rewrite rev_app_distr).
  rewrite trim_left_stop by done. cbn [rev]. by rewrite rev_app_distr, rev_involutive.
Qed.

Lemma plain_between b : 33 <= byte_val b <= 126 -> plain b.
Proof.
  intros H. unfold plain.
  assert (Hc : forall z, 0 <= z < 256 -> (z <= 32 \/ 127 <= z) -> byte_of z <> b).
  { intros z Hz Hr <-. rewrite byte_val_of in H by done. lia. }
  split; unfold white_space; cbn [map app rev]; repeat constructor; apply Hc; lia.
Qed.

(** A test that holds of the 256 bytes, one by one. *)
Lemma every_ascii (test : ascii -> bool) :
  forallb (fun n => test (ascii_of_nat n)) (seq 0 256) = true -> forall b, test b = true.
Proof.
  intros H b. rewrite forallb_forall in H. rewrite <- (ascii_nat_embedding b). apply H, in_seq.
  pose proof (nat_ascii_bounded b). lia.
Qed.

Lemma every_byte_app test s1 s2 : every_byte test (s1 +:+ s2) = every_byte test s1 && every_byte test s2.
Proof.
  induction s1 as [|b s1 IH]; [done|]. rewrite string_app_cons. cbn [every_byte]. by rewrite IH, andb_assoc.
Qed.

Lemma every_byte_impl (p q : ascii -> bool) s :
  (forall b, p b = true -> q b = true) -> every_byte p s = true -> every_byte q s = true.
Proof.
  intros Hpq. induction s as [|b s IH]; [done|]. cbn [every_byte].
  intros [Hb Hs]%andb_prop. by rewrite (Hpq b Hb), (IH Hs).
Qed.

(** No byte of a string is [sep]. *)
Abbreviation without sep s := (every_byte (fun b => negb (b =? sep)%char) s = true) (only parsing).

Lemma Cut_without sep s : without sep s -> Cut s sep = None.
Proof.
  induction s as [|b s IH]; [done|]. cbn [every_byte Cut]. intros [Hb Hs]%andb_prop.
  apply negb_true_iff in Hb. by rewrite Hb, (IH Hs).
Qed.

Lemma Cut_app sep s rest : without sep s -> Cut (s +:+ String sep rest) sep = Some (s, rest).
Proof.
  induction s as [|b s IH]; intros H.
  - rewrite string_app_nil_l. cbn [Cut]. by rewrite Ascii.eqb_refl.
  - rewrite string_app_cons. cbn [every_byte Cut] in *. apply andb_prop in H as [Hb Hs].
    apply negb_true_iff in Hb. by rewrite Hb, (IH Hs).
Qed.

Lemma CutLast_without sep s : without sep s -> CutLast s sep = None.
Proof.
  induction s as [|b s IH]; [done|]. cbn [every_byte CutLast]. intros [Hb Hs]%andb_prop.
  apply negb_true_iff in Hb. by rewrite (IH Hs), Hb.
Qed.

Lemma CutLast_app sep s rest : without sep rest -> CutLast (s +:+ String sep rest) sep = Some (s, rest).
Proof.
  intros H. induction s as [|b s IH].
  - rewrite string_app_nil_l. cbn [CutLast]. by rewrite (CutLast_without _ _ H), Ascii.eqb_refl.
  - rewrite string_app_cons. cbn [CutLast]. by rewrite IH.
Qed.

Lemma Count_without sep s : without sep s -> Count s sep = 0%nat.
Proof.
  induction s as [|b s IH]; [done|]. cbn [every_byte Count]. intros [Hb Hs]%andb_prop.
  apply negb_true_iff in Hb. rewrite Hb. by apply IH.
Qed.

Lemma Count_app sep s1 s2 : Count (s1 +:+ s2) sep = (Count s1 sep + Count s2 sep)%nat.
Proof.
  induction s1 as [|b s1 IH]; [done|]. rewrite string_app_cons. cbn [Count]. rewrite IH.
  by destruct (b =? sep)%char.
Qed.

Lemma Contains_without sep s : without sep s -> Contains s sep = false.
Proof. intros H. unfold Contains. by rewrite (Count_without _ _ H). Qed.

Lemma Split_without sep s : without sep s -> Split s sep = [s].
Proof.
  induction s as [|b s IH]; [done|]. cbn [every_byte Split]. intros [Hb Hs]%andb_prop.
  apply negb_true_iff in Hb. by rewrite Hb, (IH Hs).
Qed.
