(* ===== verification/Money.v ===== *)
(** * Money: [internal/domain/money.go]

    Currency codes, the decimal parser that never touches a float, the
    canonical rendering, and checked [int64] arithmetic in one currency. *)

From S2P Require Import Prelude Errors.

#[local] Open Scope string_scope.
#[local] Open Scope list_scope.
#[local] Open Scope Z_scope.

(** ** Definitions *)

Definition Scale : Z := 2.
Definition scaleFactor : Z := 100.

Record Currency := mkCurrency { cur_code : string }.

#[global] Instance Currency_eq_dec : EqDecision Currency.
Proof. solve_decision. Defined.
#[global] Instance Currency_countable : Countable Currency :=
  inj_countable' cur_code mkCurrency (fun '(mkCurrency _) => eq_refl).

Definition zeroCurrency : Currency := mkCurrency "".

(** The loop of [ParseCurrency]: every byte is in ['A'..'Z']. *)
Fixpoint all_uppercase (s : string) : bool :=
  match s with
  | EmptyString => true
  | String b s => if (byte_val b <? 65) || (90 <? byte_val b) then false else all_uppercase s
  end.

Definition ParseCurrency (s : string) : result Currency :=
  if negb (Nat.eqb (String.length s) 3) then fail CodeInvalidCurrency
  else if negb (all_uppercase s) then fail CodeInvalidCurrency
  else Ok (mkCurrency s).

Definition Currency_IsZero (c : Currency) : bool := bool_decide (cur_code c = "").

Record Money := mkMoney { minor : Z; currency : Currency }.

#[global] Instance Money_eq_dec : EqDecision Money.
Proof. solve_decision. Defined.

(** [Money{}]: no currency. *)
Definition noMoney : Money := mkMoney 0 zeroCurrency.

Definition ZeroMoney (c : Currency) : result Money :=
  if Currency_IsZero c then fail CodeInvalidCurrency else Ok (mkMoney 0 c).

Definition NewMoneyFromMinor (m : Z) (c : Currency) : result Money :=
  if Currency_IsZero c then fail CodeInvalidCurrency else Ok (mkMoney m c).

(** [digit]: the value of an ASCII digit. *)
Definition digit (b : ascii) : option Z :=
  if (byte_val b <? 48) || (57 <? byte_val b) then None else Some (u64 (byte_val b - 48)).

(** [acc*10+d] in [uint64], refused before it could exceed [limit]. *)
Definition pushDigit (acc d limit : Z) : option Z :=
  if u64 (limit - d) / 10 <? acc then None else Some (u64 (u64 (acc * 10) + d)).

(** The first loop of [parseMinor]: digits up to the point or the end.  It
    returns the accumulator, the number of digits and what is left. *)
Fixpoint int_loop (s : string) (acc limit intDigits : Z) : result (Z * Z * string) :=
  match s with
  | EmptyString => Ok (acc, intDigits, "")
  | String b s' =>
    if bool_decide (b = "."%char) then Ok (acc, intDigits, s)
    else match digit b with
         | None => fail CodeInvalidAmount
         | Some d => match pushDigit acc d limit with
                     | None => fail CodeAmountOverflow
                     | Some acc => int_loop s' acc limit (intDigits + 1)
                     end
         end
  end.

(** The second loop: the digits after the point. *)
Fixpoint frac_loop (s : string) (acc limit fracDigits : Z) : result (Z * Z) :=
  match s with
  | EmptyString => Ok (acc, fracDigits)
  | String b s' =>
    match digit b with
    | None => fail CodeInvalidAmount
    | Some d => if fracDigits =? Scale then fail CodeInvalidAmount
                else match pushDigit acc d limit with
                     | None => fail CodeAmountOverflow
                     | Some acc => frac_loop s' acc limit (fracDigits + 1)
                     end
    end
  end.

(** The padding loop, [todo] being [Scale - fracDigits]. *)
Fixpoint pad_loop (todo : nat) (acc limit : Z) : result Z :=
  match todo with
  | O => Ok acc
  | S todo => match pushDigit acc 0 limit with
              | None => fail CodeAmountOverflow
              | Some acc => pad_loop todo acc limit
              end
  end.

(** [parseMinor] after the sign has been read. *)
Definition parse_magnitude (s : string) (limit : Z) : result Z :=
  '(acc, intDigits, rest) ← int_loop s 0 limit 0;
  if intDigits =? 0 then fail CodeInvalidAmount
  else
    '(acc, fracDigits) ←
      match rest with
      | EmptyString => Ok (acc, 0)
      | String _ rest =>
        '(acc, fracDigits) ← frac_loop rest acc limit 0;
        if fracDigits =? 0 then fail CodeInvalidAmount else Ok (acc, fracDigits)
      end;
    pad_loop (Z.to_nat (Scale - fracDigits)) acc limit.

Definition parseMinor (s : string) : result Z :=
  match s with
  | EmptyString => fail CodeInvalidAmount
  | String b s' =>
    if bool_decide (b = "+"%char) then fail CodeInvalidAmount
    else
      let negative := bool_decide (b = "-"%char) in
      let limit := if negative then u64 (u64 MaxInt64 + 1) else u64 MaxInt64 in
      acc ← parse_magnitude (if negative then s' else s) limit;
      if negb negative then Ok (i64 acc)
      else if acc =? u64 (u64 MaxInt64 + 1) then Ok MinInt64
      else Ok (i64 (- i64 acc))
  end.

Definition ParseMoney (amount : string) (c : Currency) : result Money :=
  if Currency_IsZero c then fail CodeInvalidCurrency
  else m ← parseMinor amount; Ok (mkMoney m c).

Definition ParseExternalMoney (amount : string) (c : Currency) : result Money :=
  m ← ParseMoney amount c;
  if minor m <? 0 then fail CodeNegativeAmount else Ok m.

Definition Money_IsZero (m : Money) : bool := minor m =? 0.
Definition Money_IsPositive (m : Money) : bool := 0 <? minor m.
Definition Money_IsNegative (m : Money) : bool := minor m <? 0.
Definition Money_IsInitialised (m : Money) : bool := negb (Currency_IsZero (currency m)).

(** [strconv.FormatUint(n, 10)]; twenty digits are enough for a [uint64]. *)
Fixpoint format_digits (fuel : nat) (n : Z) (acc : string) : string :=
  match fuel with
  | O => acc
  | S fuel =>
    let acc := String (digit_char (n mod 10)) acc in
    if n <? 10 then acc else format_digits fuel (n / 10) acc
  end.
Definition FormatUint (n : Z) : string := format_digits 20 n "".

(** The magnitude of an [int64] in [uint64], without negating [MinInt64]. *)
Definition magnitude (m : Z) : Z :=
  if m <? 0 then u64 (u64 (i64 (- i64 (m + 1))) + 1) else u64 m.

Definition Money_String (m : Money) : string :=
  let units := magnitude (minor m) / scaleFactor in
  let fraction := magnitude (minor m) mod scaleFactor in
  (if minor m <? 0 then "-" else "") +:+ FormatUint units +:+ "." +:+
  (if fraction <? 10 then "0" else "") +:+ FormatUint fraction.

Definition requireComparable (m other : Money) : result unit :=
  if negb (Money_IsInitialised m) || negb (Money_IsInitialised other)
  then fail CodeInvalidCurrency
  else if negb (bool_decide (currency m = currency other)) then fail CodeCurrencyMismatch
  else Ok ().

Definition Money_Add (m other : Money) : result Money :=
  _ ← requireComparable m other;
  let sum := i64 (minor m + minor other) in
  if ((0 <? minor other) && (sum <? minor m)) || ((minor other <? 0) && (minor m <? sum))
  then fail CodeAmountOverflow
  else Ok (mkMoney sum (currency m)).

Definition Money_Sub (m other : Money) : result Money :=
  _ ← requireComparable m other;
  let diff := i64 (minor m - minor other) in
  if ((minor other <? 0) && (diff <? minor m)) || ((0 <? minor other) && (minor m <? diff))
  then fail CodeAmountOverflow
  else Ok (mkMoney diff (currency m)).

Definition Money_Neg (m : Money) : result Money :=
  if negb (Money_IsInitialised m) then fail CodeInvalidCurrency
  else if minor m =? MinInt64 then fail CodeAmountOverflow
  else Ok (mkMoney (i64 (- minor m)) (currency m)).

Definition Money_Cmp (m other : Money) : result Z :=
  _ ← requireComparable m other;
  if minor m <? minor other then Ok (-1)
  else if minor other <? minor m then Ok 1
  else Ok 0.

(** ** Reference definitions

    The decimal grammar, independent of the parser: an optional minus, at least
    one digit, and optionally a point followed by one or two digits. *)

Definition is_digit (d : Z) : Prop := 0 <= d <= 9.

Definition render (ds : list Z) : string := foldr (fun d s => String (digit_char d) s) "" ds.

(** The number a digit sequence denotes, starting from [acc]. *)
Definition dval (acc : Z) (ds : list Z) : Z := foldl (fun a d => a * 10 + d) acc ds.

Inductive decimal : string -> Z -> Prop :=
| decimal_intro (neg : bool) (ds fs : list Z) :
    ds <> [] -> Forall is_digit ds -> Forall is_digit fs -> (length fs <= 2)%nat ->
    decimal
      ((if neg then "-" else "") +:+ render ds +:+
       (if decide (fs = []) then "" else "." +:+ render fs))
      ((if neg then -1 else 1) * dval 0 (ds ++ fs ++ replicate (2 - length fs) 0)).

(** The mathematical sum of two amounts, refused outside [int64]. *)
Definition add_ref (m other : Money) : result Money :=
  _ ← requireComparable m other;
  if decide (is_i64 (minor m + minor other))
  then Ok (mkMoney (minor m + minor other) (currency m)) else fail CodeAmountOverflow.

Definition sub_ref (m other : Money) : result Money :=
  _ ← requireComparable m other;
  if decide (is_i64 (minor m - minor other))
  then Ok (mkMoney (minor m - minor other) (currency m)) else fail CodeAmountOverflow.

(** What an operation on the amounts [m] and [o] has to answer, said on the
    three-letter codes and on unbounded integers and without a function of the
    program: [invalid_currency] when an amount was never initialised,
    [currency_mismatch] when the codes differ, the exact result [a] when it
    [fits] and [amount_overflow] when it does not. The cases exclude each
    other, so the relation leaves one answer. *)
Inductive answers {A} (m o : Money) (fits : Prop) (a : A) : result A -> Prop :=
| answers_uninitialised :
    cur_code (currency m) = "" \/ cur_code (currency o) = "" ->
    answers m o fits a (Err (DomainError CodeInvalidCurrency))
| answers_mismatch :
    cur_code (currency m) <> "" -> cur_code (currency o) <> "" ->
    cur_code (currency m) <> cur_code (currency o) ->
    answers m o fits a (Err (DomainError CodeCurrencyMismatch))
| answers_overflow :
    cur_code (currency m) <> "" -> cur_code (currency m) = cur_code (currency o) -> ~ fits ->
    answers m o fits a (Err (DomainError CodeAmountOverflow))
| answers_exact :
    cur_code (currency m) <> "" -> cur_code (currency m) = cur_code (currency o) -> fits ->
    answers m o fits a (Ok a).

(** A value of the type: what every constructor returns. *)
Definition money_ok (m : Money) : Prop := is_i64 (minor m).

(** ** The digits of a string *)

Lemma digit_char_digit d : is_digit d -> digit (digit_char d) = Some d.
Proof.
  unfold is_digit, digit, digit_char. intros H. rewrite byte_val_of by lia.
  case_match; [lia|]. f_equal. rewrite u64_id; width; lia.
Qed.

Lemma digit_Some b d : digit b = Some d -> is_digit d /\ b = digit_char d.
Proof.
  unfold digit, is_digit, digit_char. pose proof (byte_val_range b).
  case_match; intros; simplify_eq. rewrite u64_id by (width; lia).
  split; [lia|]. replace (48 + (byte_val b - 48)) with (byte_val b) by lia. by rewrite byte_of_val.
Qed.

Lemma digit_char_not_dot d : is_digit d -> digit_char d <> "."%char.
Proof. intros H%digit_char_digit E. rewrite E in H. vm_compute in H. done. Qed.

Lemma digit_char_not_sign d :
  is_digit d -> digit_char d <> "-"%char /\ digit_char d <> "+"%char.
Proof. intros H%digit_char_digit; split; intros E; rewrite E in H; vm_compute in H; done. Qed.

Lemma render_cons d ds : render (d :: ds) = String (digit_char d) (render ds).
Proof. done. Qed.

Lemma dval_cons a d ds : dval a (d :: ds) = dval (a * 10 + d) ds.
Proof. done. Qed.

Lemma dval_app a ds es : dval a (ds ++ es) = dval (dval a ds) es.
Proof. unfold dval. apply foldl_app. Qed.

Lemma dval_mono a ds : 0 <= a -> Forall is_digit ds -> a <= dval a ds.
Proof.
  intros Ha Hds. revert a Ha. induction Hds as [|d ds Hd _ IH]; intros a Ha; [cbn; lia|].
  rewrite dval_cons. unfold is_digit in Hd. specialize (IH (a * 10 + d)). lia.
Qed.

(** The limit of a parse: the magnitude of one of the two ends of [int64]. *)
Definition limit_ok (limit : Z) : Prop := MaxInt64 <= limit <= MaxInt64 + 1.

Lemma pushDigit_spec acc d limit :
  limit_ok limit -> 0 <= acc <= limit -> is_digit d ->
  pushDigit acc d limit =
    if decide (acc * 10 + d <= limit) then Some (acc * 10 + d) else None.
Proof.
  unfold limit_ok, is_digit, pushDigit. intros Hl Ha Hd.
  rewrite (u64_id (limit - d)) by (width; lia).
  pose proof (Z.div_mod (limit - d) 10 ltac:(lia)).
  pose proof (Z.mod_pos_bound (limit - d) 10 ltac:(lia)).
  destruct (Z.ltb_spec ((limit - d) / 10) acc); case_decide; try lia; [done|].
  rewrite (u64_id (acc * 10)) by (width; lia). rewrite u64_id by (width; lia). done.
Qed.

(** ** The loops of [parseMinor] *)

Section loops.
Context (limit : Z) (Hlimit : limit_ok limit).

Lemma int_loop_stop rest acc n :
rest = "" \/ (exists r, rest = String "." r) ->
int_loop rest acc limit n = Ok (acc, n, rest).
Proof. by intros [->|[r ->]]. Qed.

Lemma int_loop_render ds rest acc n :
0 <= acc <= limit -> Forall is_digit ds ->
int_loop (render ds +:+ rest) acc limit n =
  if decide (dval acc ds <= limit)
  then int_loop rest (dval acc ds) limit (n + Z.of_nat (length ds))
  else fail CodeAmountOverflow.
Proof.
intros Ha Hds. revert acc n Ha. induction Hds as [|d ds Hd Hds IH]; intros acc n Ha.
{ cbn [render foldr dval foldl]. rewrite decide_True by lia. cbn. f_equal. lia. }
rewrite render_cons, string_app_cons, dval_cons. cbn [int_loop].
rewrite bool_decide_eq_false_2 by auto using digit_char_not_dot.
rewrite digit_char_digit by done. rewrite pushDigit_spec by done.
pose proof (dval_mono (acc * 10 + d) ds). unfold is_digit in Hd.
case_decide as E1.
- rewrite IH by lia. case_decide; [|done]. f_equal. cbn [length]. lia.
- rewrite decide_False; [done|]. intros ?. assert (acc * 10 + d <= dval (acc * 10 + d) ds); [|lia].
  auto with lia.
Qed.

Lemma int_loop_inv s acc n acc' n' rest :
0 <= acc <= limit -> int_loop s acc limit n = Ok (acc', n', rest) ->
exists ds, Forall is_digit ds /\ s = render ds +:+ rest /\ acc' = dval acc ds /\
  acc' <= limit /\ n' = n + Z.of_nat (length ds) /\
  (rest = "" \/ exists r, rest = String "." r).
Proof.
revert acc n. induction s as [|b s IH]; intros acc n Ha H; cbn [int_loop] in H.
{ simplify_eq. exists []. cbn. repeat split; auto; lia. }
case_bool_decide; subst.
{ simplify_eq. exists []. cbn. repeat split; eauto; lia. }
destruct (digit b) as [d|] eqn:Hd; [|done]. apply digit_Some in Hd as [Hd ->].
rewrite pushDigit_spec in H by done. case_decide as E; [|done].
unfold is_digit in Hd. apply IH in H as (ds & Hds & -> & -> & Hle & -> & Hr); [|lia].
exists (d :: ds). rewrite render_cons, string_app_cons, dval_cons. cbn [length].
repeat split; auto; lia.
Qed.

Lemma frac_loop_render fs acc n :
0 <= acc <= limit -> Forall is_digit fs -> 0 <= n -> n + Z.of_nat (length fs) <= Scale ->
frac_loop (render fs) acc limit n =
  if decide (dval acc fs <= limit)
  then Ok (dval acc fs, n + Z.of_nat (length fs))
  else fail CodeAmountOverflow.
Proof.
intros Ha Hfs Hn. revert acc n Ha Hn. unfold Scale.
induction Hfs as [|d fs Hd Hfs IH]; intros acc n Ha Hn Hle.
{ cbn [render foldr dval foldl length]. rewrite decide_True by lia. cbn. do 2 f_equal. lia. }
cbn [length] in Hle. rewrite render_cons, dval_cons. cbn [frac_loop].
rewrite digit_char_digit by done. unfold Scale. destruct (Z.eqb_spec n 2); [lia|].
rewrite pushDigit_spec by done. pose proof (dval_mono (acc * 10 + d) fs). unfold is_digit in Hd.
case_decide as E1.
- rewrite IH by lia. case_decide; [|done]. do 2 f_equal. cbn [length]. lia.
- rewrite decide_False; [done|]. intros ?. assert (acc * 10 + d <= dval (acc * 10 + d) fs); [|lia].
  auto with lia.
Qed.

Lemma frac_loop_inv s acc n acc' n' :
0 <= acc <= limit -> 0 <= n <= Scale -> frac_loop s acc limit n = Ok (acc', n') ->
exists fs, Forall is_digit fs /\ s = render fs /\ acc' = dval acc fs /\
  acc' <= limit /\ n' = n + Z.of_nat (length fs) /\ n' <= Scale.
Proof.
revert acc n. induction s as [|b s IH]; intros acc n Ha Hn H; cbn [frac_loop] in H.
{ simplify_eq. exists []. cbn. repeat split; auto; lia. }
destruct (digit b) as [d|] eqn:Hd; [|done]. apply digit_Some in Hd as [Hd ->].
destruct (Z.eqb_spec n Scale); [done|].
rewrite pushDigit_spec in H by done. case_decide as E; [|done]. unfold is_digit in Hd.
apply IH in H as (fs & Hfs & -> & -> & Hle & -> & Hr); [|lia..].
exists (d :: fs). rewrite render_cons, dval_cons. cbn [length]. repeat split; auto; lia.
Qed.

Lemma pad_loop_spec k acc :
0 <= acc <= limit ->
pad_loop k acc limit =
  if decide (dval acc (replicate k 0) <= limit) then Ok (dval acc (replicate k 0))
  else fail CodeAmountOverflow.
Proof.
revert acc. induction k as [|k IH]; intros acc Ha; cbn [pad_loop replicate].
{ cbn. rewrite decide_True by lia. done. }
assert (Hz : Forall is_digit (replicate k 0)).
{ apply Forall_replicate. unfold is_digit. lia. }
rewrite pushDigit_spec; [|done|done|unfold is_digit; lia]. rewrite dval_cons.
pose proof (dval_mono (acc * 10 + 0) (replicate k 0)).
case_decide; [by rewrite IH by lia|]. rewrite decide_False; [done|].
intros ?. assert (acc * 10 + 0 <= dval (acc * 10 + 0) (replicate k 0)); [|lia]. auto with lia.
Qed.

(** [parse_magnitude] on a string of the grammar. *)
Lemma parse_magnitude_render ds fs :
ds <> [] -> Forall is_digit ds -> Forall is_digit fs -> (length fs <= 2)%nat ->
parse_magnitude (render ds +:+ (if decide (fs = []) then "" else "." +:+ render fs)) limit =
  let v := dval 0 (ds ++ fs ++ replicate (2 - length fs) 0) in
  if decide (v <= limit) then Ok v else fail CodeAmountOverflow.
Proof.
intros Hne Hds Hfs Hlen. unfold parse_magnitude.
assert (H0 : 0 <= 0 <= limit) by (unfold limit_ok in Hlimit; width; lia).
rewrite int_loop_render by done. cbv zeta.
set (pad := replicate _ 0). assert (Hpad : Forall is_digit pad).
{ apply Forall_replicate. unfold is_digit. lia. }
rewrite !dval_app.
assert (Hv0 : 0 <= dval 0 ds) by (apply dval_mono; auto; lia).
pose proof (dval_mono (dval 0 ds) fs Hv0 Hfs) as Hv1.
pose proof (dval_mono (dval (dval 0 ds) fs) pad ltac:(lia) Hpad) as Hv2.
case_decide as E1; [|rewrite decide_False by lia; done].
assert (Hlen' : length ds <> 0%nat) by (by destruct ds).
case_decide as E2.
- subst fs. rewrite int_loop_stop by auto. cbn [mbind result_bind].
  rewrite (proj2 (Z.eqb_neq _ _)) by lia. apply (pad_loop_spec 2 (dval 0 ds)). lia.
- change ("." +:+ render fs) with (String "." (render fs)).
  rewrite int_loop_stop by eauto. cbn [mbind result_bind].
  rewrite (proj2 (Z.eqb_neq _ _)) by lia.
  rewrite frac_loop_render by (unfold Scale; auto; lia).
  case_decide as E3; [|rewrite decide_False by lia; done]. cbn [mbind result_bind].
  assert (length fs <> 0%nat) by (by destruct fs).
  rewrite (proj2 (Z.eqb_neq _ _)) by lia. cbn [mbind result_bind].
  replace (Z.to_nat (Scale - _)) with (2 - length fs)%nat by (unfold Scale; lia).
  apply pad_loop_spec. lia.
Qed.

(** What [parse_magnitude] accepts is in the grammar. *)
Lemma parse_magnitude_inv s v :
parse_magnitude s limit = Ok v ->
exists ds fs, ds <> [] /\ Forall is_digit ds /\ Forall is_digit fs /\ (length fs <= 2)%nat /\
  s = render ds +:+ (if decide (fs = []) then "" else "." +:+ render fs) /\
  v = dval 0 (ds ++ fs ++ replicate (2 - length fs) 0) /\ v <= limit.
Proof.
assert (H0 : 0 <= 0 <= limit) by (unfold limit_ok in Hlimit; width; lia).
unfold parse_magnitude. intros ([[acc n] rest] & Hi & H)%result_bind_Ok.
apply int_loop_inv in Hi as (ds & Hds & -> & -> & Hle & -> & Hr); [|done].
destruct (Z.eqb_spec (0 + Z.of_nat (length ds)) 0); [done|].
assert (Hne : ds <> []) by (intros ->; cbn in *; lia).
assert (Hv0 : 0 <= dval 0 ds) by (apply dval_mono; auto; lia).
apply result_bind_Ok in H as ([acc' nf] & Hf & H).
assert (exists fs, Forall is_digit fs /\ (length fs <= 2)%nat /\
  rest = (if decide (fs = []) then "" else "." +:+ render fs) /\
  acc' = dval (dval 0 ds) fs /\ acc' <= limit /\ nf = Z.of_nat (length fs)) as
  (fs & Hfs & Hlen & -> & -> & Hle' & ->).
{ destruct Hr as [->|[r ->]].
  { simplify_eq. exists []. cbn. repeat split; auto; lia. }
  apply result_bind_Ok in Hf as ([a k] & Hf & Hk).
  apply frac_loop_inv in Hf as (fs & Hfs & -> & -> & Hle' & -> & Hs); [|lia|unfold Scale; lia].
  destruct (Z.eqb_spec (0 + Z.of_nat (length fs)) 0); [done|]. simplify_eq.
  exists fs. unfold Scale in Hs. rewrite decide_False by (intros ->; cbn in *; lia).
  repeat split; auto; lia. }
pose proof (dval_mono (dval 0 ds) fs Hv0 Hfs) as Hv1.
rewrite pad_loop_spec in H by lia. case_decide; [|done]. simplify_eq.
exists ds, fs. rewrite !dval_app.
replace (Z.to_nat (Scale - Z.of_nat (length fs))) with (2 - length fs)%nat in * by (unfold Scale; lia).
repeat split; auto; lia.
Qed.

(** The only errors of the scan. *)
Lemma int_loop_Err s acc n e :
int_loop s acc limit n = Err e ->
e = DomainError CodeInvalidAmount \/ e = DomainError CodeAmountOverflow.
Proof. revert acc n. induction s; cbn; intros; break; unfold fail in *; simplify_eq; eauto. Qed.

Lemma frac_loop_Err s acc n e :
frac_loop s acc limit n = Err e ->
e = DomainError CodeInvalidAmount \/ e = DomainError CodeAmountOverflow.
Proof. revert acc n. induction s; cbn; intros; break; unfold fail in *; simplify_eq; eauto. Qed.

Lemma pad_loop_Err k acc e : pad_loop k acc limit = Err e -> e = DomainError CodeAmountOverflow.
Proof. revert acc. induction k; cbn; intros; break; unfold fail in *; simplify_eq; eauto. Qed.
End loops.

(** ** [parseMinor] *)

Definition sign_limit (neg : bool) : Z := if neg then MaxInt64 + 1 else MaxInt64.

Lemma sign_limit_ok neg : limit_ok (sign_limit neg).
Proof. unfold limit_ok, sign_limit. destruct neg; lia. Qed.

(** The sign of a parse, and the rest as one magnitude. *)
Definition parse_signed (neg : bool) (s : string) : result Z :=
  v ← parse_magnitude s (sign_limit neg); Ok ((if neg then -1 else 1) * v).

Lemma parse_magnitude_range neg s v :
  parse_magnitude s (sign_limit neg) = Ok v -> 0 <= v <= sign_limit neg.
Proof.
  intros (ds & fs & _ & Hds & Hfs & _ & _ & -> & Hle)%parse_magnitude_inv;
    [|apply sign_limit_ok]. split; [|done]. apply dval_mono; [done|].
  apply Forall_app; split; [done|]. apply Forall_app; split; [done|].
  apply Forall_replicate. unfold is_digit. lia.
Qed.

Lemma parseMinor_neg s : parseMinor (String "-" s) = parse_signed true s.
Proof.
  unfold parse_signed. cbn [parseMinor]. rewrite bool_decide_eq_false_2 by done.
  rewrite bool_decide_eq_true_2 by done. change (u64 (u64 MaxInt64 + 1)) with (sign_limit true).
  destruct (parse_magnitude s (sign_limit true)) as [v|e] eqn:E; [|done].
  apply parse_magnitude_range in E as Hr. cbn. unfold sign_limit in *.
  destruct (Z.eqb_spec v (MaxInt64 + 1)) as [->|]; [done|].
  rewrite (i64_id v), i64_id by (width; lia). f_equal; lia.
Qed.

Lemma parseMinor_pos b s :
  b <> "-"%char -> b <> "+"%char -> parseMinor (String b s) = parse_signed false (String b s).
Proof.
  intros Hm Hp. unfold parse_signed. cbn [parseMinor]. rewrite !bool_decide_eq_false_2 by done.
  change (u64 MaxInt64) with (sign_limit false).
  destruct (parse_magnitude _ (sign_limit false)) as [v|e] eqn:E; [|done].
  apply parse_magnitude_range in E as Hr. unfold sign_limit in *. unfold mbind, result_bind.
  cbn [negb]. rewrite i64_id by (width; lia). f_equal; lia.
Qed.

Lemma parseMinor_decimal s v :
  decimal s v -> parseMinor s = if decide (is_i64 v) then Ok v else fail CodeAmountOverflow.
Proof.
  intros [neg ds fs Hne Hds Hfs Hlen].
  set (m := dval _ _). set (body := render ds +:+ _).
  assert (parseMinor ((if neg then "-" else "") +:+ body) = parse_signed neg body) as ->.
  { destruct neg; [apply parseMinor_neg|]. rewrite string_app_nil_l. subst body.
    destruct ds as [|d ds]; [done|]. rewrite render_cons, string_app_cons.
    inversion Hds; subst. apply parseMinor_pos; by apply digit_char_not_sign. }
  unfold parse_signed. subst body.
  rewrite parse_magnitude_render by auto using sign_limit_ok. fold m. cbv zeta.
  assert (Hm : 0 <= m).
  { apply dval_mono; [done|]. apply Forall_app; split; [done|]. apply Forall_app; split; [done|].
    apply Forall_replicate. unfold is_digit. lia. }
  unfold sign_limit. destruct neg; repeat case_decide; cbn; try done; width; exfalso; lia.
Qed.

Lemma parse_signed_decimal neg s v :
  parse_signed neg s = Ok v -> decimal ((if neg then "-" else "") +:+ s) v /\ is_i64 v.
Proof.
  unfold parse_signed. intros (m & Hm & Hv)%result_bind_Ok. simplify_eq.
  apply parse_magnitude_range in Hm as Hr.
  apply parse_magnitude_inv in Hm as (ds & fs & Hne & Hds & Hfs & Hlen & -> & -> & _);
    [|apply sign_limit_ok].
  split; [by constructor|]. unfold sign_limit in Hr. width. destruct neg; lia.
Qed.

(** ** Rendering *)

Lemma format_digits_acc fuel n ds0 :
  0 <= n < 10 ^ Z.of_nat fuel -> (fuel <> 0)%nat ->
  exists ds, ds <> [] /\ Forall is_digit ds /\
    format_digits fuel n (render ds0) = render (ds ++ ds0) /\ dval 0 ds = n.
Proof.
  revert n ds0. induction fuel as [|fuel IH]; [done|]. intros n ds0 Hn _.
  assert (Hd : is_digit (n mod 10)) by (unfold is_digit; pose proof (Z.mod_pos_bound n 10); lia).
  cbn [format_digits]. rewrite <- (render_cons (n mod 10) ds0).
  destruct (Z.ltb_spec n 10).
  { exists [n mod 10]. repeat split; auto. cbn. apply Z.mod_small. lia. }
  rewrite Nat2Z.inj_succ, Z.pow_succ_r in Hn by lia.
  destruct (IH (n / 10) (n mod 10 :: ds0)) as (ds & Hne & Hds & -> & Hv).
  { split; [apply Z.div_pos; lia|apply Z.div_lt_upper_bound; lia]. }
  { intros ->. cbn in *. lia. }
  exists (ds ++ [n mod 10]). rewrite <- app_assoc. repeat split; auto.
  - by destruct ds.
  - rewrite Forall_app. auto.
  - rewrite dval_app, Hv. cbn. rewrite (Z.div_mod n 10) at 3 by lia. lia.
Qed.

Lemma format_digits_spec fuel n :
  0 <= n < 10 ^ Z.of_nat fuel -> (fuel <> 0)%nat ->
  exists ds, ds <> [] /\ Forall is_digit ds /\ format_digits fuel n "" = render ds /\ dval 0 ds = n.
Proof.
  intros Hn Hf. destruct (format_digits_acc fuel n [] Hn Hf) as (ds & ? & ? & Hr & ?).
  rewrite app_nil_r in Hr. eauto.
Qed.

Lemma FormatUint_digits n :
  0 <= n < 10 ^ 20 ->
  exists ds, ds <> [] /\ Forall is_digit ds /\ FormatUint n = render ds /\ dval 0 ds = n.
Proof. intros. by apply (format_digits_spec 20). Qed.

(** The two decimal places of a rendering. *)
Lemma fraction_digits f :
  0 <= f < 100 ->
  (if f <? 10 then "0" else "") +:+ FormatUint f = render [f / 10; f mod 10].
Proof.
  intros Hf. unfold FormatUint. change 20%nat with (S (S 18)).
  cbn [format_digits]. destruct (Z.ltb_spec f 10).
  - rewrite (Z.div_small f 10), (Z.mod_small f 10) by lia. done.
  - destruct (Z.ltb_spec (f / 10) 10) as [|Hge].
    + rewrite string_app_nil_l. rewrite (Z.mod_small (f / 10)); [done|].
      split; [apply Z.div_pos|]; lia.
    + assert (f / 10 < 10) by (apply Z.div_lt_upper_bound; lia). lia.
Qed.

Lemma magnitude_spec m : is_i64 m -> magnitude m = Z.abs m.
Proof.
  intros Hm. unfold magnitude. destruct (Z.ltb_spec m 0).
  - rewrite (i64_id (m + 1)), (i64_id (- (m + 1))) by (width; lia).
    rewrite (u64_id (- (m + 1))), u64_id by (width; lia). lia.
  - rewrite u64_id by (width; lia). lia.
Qed.

Lemma Money_String_decimal m : money_ok m -> decimal (Money_String m) (minor m).
Proof.
  unfold money_ok. intros Hm. unfold Money_String. rewrite magnitude_spec by done.
  set (a := Z.abs (minor m)). unfold scaleFactor.
  pose proof (Z.div_mod a 100 ltac:(lia)) as Hdm.
  pose proof (Z.mod_pos_bound a 100 ltac:(lia)) as Hf.
  destruct (FormatUint_digits (a / 100)) as (ds & Hne & Hds & -> & Hv).
  { width. split; [apply Z.div_pos|apply Z.div_lt_upper_bound]; lia. }
  rewrite fraction_digits by done. set (fs := [_; _]).
  assert (Hfs : Forall is_digit fs).
  { unfold fs, is_digit. pose proof (Z.mod_pos_bound (a mod 100) 10).
    pose proof (Z.div_pos (a mod 100) 10).
    pose proof (Z.div_lt_upper_bound (a mod 100) 10 10).
    repeat (apply List.Forall_cons; [lia|]). constructor. }
  pose proof (decimal_intro (minor m <? 0) ds fs Hne Hds Hfs ltac:(cbn; lia)) as Hd.
  rewrite decide_False in Hd by done.
  replace (_ * _) with (minor m) in Hd; [exact Hd|].
  rewrite !dval_app, Hv. cbn. pose proof (Z.div_mod (a mod 100) 10 ltac:(lia)).
  subst a. destruct (Z.ltb_spec (minor m) 0); lia.
Qed.

Lemma ParseMoney_minor s c m :
  ParseMoney s c = Ok m <->
  Currency_IsZero c = false /\ currency m = c /\ parseMinor s = Ok (minor m).
Proof.
  unfold ParseMoney. destruct m as [v c']; cbn.
  destruct (Currency_IsZero c); [naive_solver|]. destruct (parseMinor s); cbn; naive_solver.
Qed.

Lemma ParseMoney_ok s c m : ParseMoney s c = Ok m -> money_ok m.
Proof.
  intros (_ & _ & H)%ParseMoney_minor. unfold money_ok.
  unfold parseMinor in H. destruct s as [|b s]; [done|]. case_bool_decide; [done|].
  apply result_bind_Ok in H as (acc & Ha & H).
  destruct (negb _); [|destruct (_ =? _)]; injection H as <-; first [apply i64_range|by vm_compute].
Qed.

Lemma Money_String_parse m :
  money_ok m -> Money_IsInitialised m = true -> ParseMoney (Money_String m) (currency m) = Ok m.
Proof.
  intros Hm Hi. apply ParseMoney_minor. unfold Money_IsInitialised in Hi.
  rewrite (parseMinor_decimal _ _ (Money_String_decimal m Hm)), decide_True by done.
  by destruct (Currency_IsZero _).
Qed.

(** ** Arithmetic *)

Lemma requireComparable_Ok m o u :
  requireComparable m o = Ok u <->
  Money_IsInitialised m = true /\ Money_IsInitialised o = true /\ currency m = currency o.
Proof.
  unfold requireComparable. destruct u.
  destruct (Money_IsInitialised m), (Money_IsInitialised o); cbn; try naive_solver.
  case_bool_decide; cbn; naive_solver.
Qed.

Lemma Money_Add_exact m o : money_ok m -> money_ok o -> Money_Add m o = add_ref m o.
Proof.
  unfold money_ok, Money_Add, add_ref. intros Hm Ho.
  destruct (requireComparable m o); [|done]. cbn -[i64].
  destruct (i64_add_cases (minor m) (minor o) Hm Ho) as [[H ->]|[[H ->]|[H ->]]];
    width; case_decide; try lia;
    repeat match goal with |- context [?a <? ?b] => destruct (Z.ltb_spec a b); cbn end; try lia; done.
Qed.

Lemma Money_Sub_exact m o : money_ok m -> money_ok o -> Money_Sub m o = sub_ref m o.
Proof.
  unfold money_ok, Money_Sub, sub_ref. intros Hm Ho.
  destruct (requireComparable m o); [|done]. cbn -[i64].
  destruct (i64_sub_cases (minor m) (minor o) Hm Ho) as [[H ->]|[[H ->]|[H ->]]];
    width; case_decide; try lia;
    repeat match goal with |- context [?a <? ?b] => destruct (Z.ltb_spec a b); cbn end; try lia; done.
Qed.

Lemma add_ref_Ok m o r :
  add_ref m o = Ok r <->
  requireComparable m o = Ok () /\ money_ok r /\
  minor r = minor m + minor o /\ currency r = currency m.
Proof.
  unfold add_ref, money_ok. destruct (requireComparable m o) as [[]|]; cbn; [|naive_solver].
  destruct r as [v c]; cbn. case_decide; unfold fail; naive_solver.
Qed.

Lemma sub_ref_Ok m o r :
  sub_ref m o = Ok r <->
  requireComparable m o = Ok () /\ money_ok r /\
  minor r = minor m - minor o /\ currency r = currency m.
Proof.
  unfold sub_ref, money_ok. destruct (requireComparable m o) as [[]|]; cbn; [|naive_solver].
  destruct r as [v c]; cbn. case_decide; unfold fail; naive_solver.
Qed.

Lemma Money_Add_Ok m o r :
  money_ok m -> money_ok o ->
  Money_Add m o = Ok r <->
  requireComparable m o = Ok () /\ money_ok r /\
  minor r = minor m + minor o /\ currency r = currency m.
Proof. intros. rewrite Money_Add_exact by done. apply add_ref_Ok. Qed.

Lemma Money_Sub_Ok m o r :
  money_ok m -> money_ok o ->
  Money_Sub m o = Ok r <->
  requireComparable m o = Ok () /\ money_ok r /\
  minor r = minor m - minor o /\ currency r = currency m.
Proof. intros. rewrite Money_Sub_exact by done. apply sub_ref_Ok. Qed.

Lemma parse_magnitude_Err s neg e :
  parse_magnitude s (sign_limit neg) = Err e ->
  e = DomainError CodeInvalidAmount \/ e = DomainError CodeAmountOverflow.
Proof.
  unfold parse_magnitude, fail. intros [H|([[acc n] rest] & _ & H)]%result_bind_Err.
  { by eapply int_loop_Err. }
  destruct (n =? 0); [naive_solver|].
  apply result_bind_Err in H as [H|([acc' k] & _ & H)]; [|right; by eapply pad_loop_Err].
  destruct rest as [|b r]; [done|]. apply result_bind_Err in H as [H|([a k] & _ & H)].
  - by eapply frac_loop_Err.
  - destruct (k =? 0); naive_solver.
Qed.

Lemma parseMinor_Err s e :
  parseMinor s = Err e ->
  e = DomainError CodeInvalidAmount \/ e = DomainError CodeAmountOverflow.
Proof.
  destruct s as [|b s]; [cbn; unfold fail; naive_solver|].
  destruct (decide (b = "+"%char)) as [->|]; [cbn; unfold fail; naive_solver|].
  destruct (decide (b = "-"%char)) as [->|]; [rewrite parseMinor_neg|rewrite parseMinor_pos by done];
    unfold parse_signed; intros [H|(? & _ & ?)]%result_bind_Err; try done;
    by eapply parse_magnitude_Err.
Qed.

Lemma parseMinor_iff s v : parseMinor s = Ok v <-> decimal s v /\ is_i64 v.
Proof.
  split.
  - intros H. destruct s as [|b s]; [done|].
    destruct (decide (b = "+"%char)) as [->|]; [done|].
    destruct (decide (b = "-"%char)) as [->|].
    + rewrite parseMinor_neg in H. apply (parse_signed_decimal true _ _ H).
    + rewrite parseMinor_pos in H by done. apply (parse_signed_decimal false _ _ H).
  - intros [Hd Hr]. by rewrite (parseMinor_decimal _ _ Hd), decide_True.
Qed.

(** ** Properties *)

(** C32: [parseMinor] accepts exactly the decimal grammar with at most two
    places whose value fits in [int64] minor units, and returns that value;
    a well-formed amount out of range is an overflow, and every refusal is
    one of the two documented codes. *)
Theorem parseMinor_decides_grammar s :
  (forall v, parseMinor s = Ok v <-> decimal s v /\ is_i64 v) /\
  (forall v, decimal s v /\ ~ is_i64 v -> parseMinor s = Err (DomainError CodeAmountOverflow)) /\
  (parseMinor s = Err (DomainError CodeInvalidAmount) \/
   parseMinor s = Err (DomainError CodeAmountOverflow) \/
   exists v, parseMinor s = Ok v).
Proof.
  split; [intros v; apply parseMinor_iff|split].
  - intros v [Hd Hr]. by rewrite (parseMinor_decimal _ _ Hd), decide_False.
  - destruct (parseMinor s) as [v|e] eqn:E; [eauto|].
    apply parseMinor_Err in E as [->| ->]; auto.
Qed.

(** Parsing the canonical rendering of any initialised amount, the
    smallest [int64] included, gives the amount back. *)
Theorem Money_String_roundtrip m :
  money_ok m -> Money_IsInitialised m = true ->
  ParseMoney (Money_String m) (currency m) = Ok m.
Proof. apply Money_String_parse. Qed.

Lemma Money_String_roundtrip_witness :
  ParseMoney (Money_String (mkMoney MinInt64 (mkCurrency "BRL"))) (mkCurrency "BRL")
    = Ok (mkMoney MinInt64 (mkCurrency "BRL")).
Proof.
  apply (Money_String_roundtrip (mkMoney MinInt64 (mkCurrency "BRL"))); [|reflexivity].
  unfold money_ok, is_i64, MinInt64, MaxInt64; cbn; lia.
Defined.

(** What an accepted spelling renders to is accepted, for the same money. *)
Lemma ParseMoney_canonical s c m :
  ParseMoney s c = Ok m -> ParseMoney (Money_String m) c = Ok m.
Proof.
  intros H. pose proof H as (Hc & <- & _)%ParseMoney_minor.
  apply Money_String_parse; [by eapply ParseMoney_ok|]. unfold Money_IsInitialised. by rewrite Hc.
Qed.

(** The canonical form decides equality: two accepted spellings of an
    amount in one currency render alike exactly when they denote the same
    money, and rendering is idempotent under reparsing. *)
Theorem canonical_form_decides_equality s1 s2 c m1 m2 :
  ParseMoney s1 c = Ok m1 -> ParseMoney s2 c = Ok m2 ->
  (Money_String m1 = Money_String m2 <-> m1 = m2) /\
  ParseMoney (Money_String m1) c = Ok m1.
Proof.
  intros H1%ParseMoney_canonical H2%ParseMoney_canonical. split; [|done]. split; [|by intros ->].
  intros E. rewrite E in H1. congruence.
Qed.

Lemma canonical_form_decides_equality_witness :
  (Money_String (mkMoney 2500 (mkCurrency "BRL")) = Money_String (mkMoney 2500 (mkCurrency "BRL"))
   <-> mkMoney 2500 (mkCurrency "BRL") = mkMoney 2500 (mkCurrency "BRL")) /\
  ParseMoney (Money_String (mkMoney 2500 (mkCurrency "BRL"))) (mkCurrency "BRL")
    = Ok (mkMoney 2500 (mkCurrency "BRL")).
Proof.
  apply (canonical_form_decides_equality "25" "025.0" (mkCurrency "BRL")); vm_compute; reflexivity.
Defined.

Lemma answers_comparable {A} m o (fits : Prop) `{!Decision fits} (a : A) :
  answers m o fits a
    (_ ← requireComparable m o; if decide fits then Ok a else fail CodeAmountOverflow).
Proof.
  destruct m as [v [c]], o as [w [d]].
  unfold requireComparable, Money_IsInitialised, Currency_IsZero, fail; cbn.
  repeat case_bool_decide; simplify_eq; cbn; try (apply answers_uninitialised; cbn; by auto).
  - case_decide; [by apply answers_exact|by apply answers_overflow].
  - apply answers_mismatch; cbn; congruence.
Qed.

Lemma Money_Neg_answers m :
  money_ok m ->
  answers m m (minor m <> MinInt64) (mkMoney (- minor m) (currency m)) (Money_Neg m).
Proof.
  destruct m as [v [c]]. unfold money_ok, Money_Neg, Money_IsInitialised, Currency_IsZero, fail; cbn.
  intros Hv. case_bool_decide; cbn; [apply answers_uninitialised; cbn; by auto|].
  destruct (Z.eqb_spec v MinInt64) as [->|Hn]; [apply answers_overflow; cbn; by auto|].
  rewrite i64_id by (width; lia). by apply answers_exact.
Qed.

Lemma Money_Cmp_answers m o :
  answers m o True (Z.sgn (minor m - minor o)) (Money_Cmp m o).
Proof.
  pose proof (answers_comparable m o True (Z.sgn (minor m - minor o))) as H.
  unfold Money_Cmp. destruct (requireComparable m o); cbn in *; [|done].
  rewrite decide_True in H by done.
  destruct (Z.ltb_spec (minor m) (minor o)); [|destruct (Z.ltb_spec (minor o) (minor m))].
  - by rewrite <- (Z.sgn_neg (minor m - minor o)) by lia.
  - by rewrite <- (Z.sgn_pos (minor m - minor o)) by lia.
  - by rewrite <- (proj2 (Z.sgn_null_iff (minor m - minor o))) by lia.
Qed.

(** C34: [Add], [Sub], [Neg] and [Cmp] on [int64] amounts answer the exact
    integer sum, difference, opposite and sign of the difference; they refuse
    with [amount_overflow] precisely when the mathematical result leaves the
    range, with [currency_mismatch] precisely when two initialised amounts have
    different codes, and with [invalid_currency] precisely when one was never
    initialised. Subtraction undoes addition, and the opposite of the opposite
    is the amount. *)
Theorem money_arithmetic_exact m o :
  money_ok m -> money_ok o ->
  answers m o (MinInt64 <= minor m + minor o <= MaxInt64)
    (mkMoney (minor m + minor o) (currency m)) (Money_Add m o) /\
  answers m o (MinInt64 <= minor m - minor o <= MaxInt64)
    (mkMoney (minor m - minor o) (currency m)) (Money_Sub m o) /\
  answers m m (minor m <> MinInt64) (mkMoney (- minor m) (currency m)) (Money_Neg m) /\
  answers m o True (Z.sgn (minor m - minor o)) (Money_Cmp m o) /\
  (forall r, Money_Add m o = Ok r -> Money_Sub r o = Ok m) /\
  (forall r, Money_Neg m = Ok r -> Money_Neg r = Ok m).
Proof.
  intros Hm Ho. split_and!.
  - rewrite Money_Add_exact by done. apply (answers_comparable m o (is_i64 (minor m + minor o))).
  - rewrite Money_Sub_exact by done. apply (answers_comparable m o (is_i64 (minor m - minor o))).
  - by apply Money_Neg_answers.
  - apply Money_Cmp_answers.
  - intros r (Hc & Hr & Hv & Hcur)%Money_Add_Ok; [|done..]. apply requireComparable_Ok in Hc as (? & ? & ?).
    rewrite Money_Sub_Ok by done. rewrite requireComparable_Ok. unfold Money_IsInitialised in *.
    rewrite Hcur. split_and!; auto; lia.
  - intros r. unfold Money_Neg, Money_IsInitialised, money_ok in *.
    destruct m as [v c]; cbn in *. destruct (Currency_IsZero c) eqn:Hc; [done|]. cbn.
    destruct (Z.eqb_spec v MinInt64); [done|]. intros H. injection H as <-. cbn.
    rewrite Hc, i64_id by (width; lia). cbn.
    destruct (Z.eqb_spec (- v) MinInt64); [width; lia|].
    by rewrite Z.opp_involutive, i64_id.
Qed.

Lemma money_arithmetic_exact_witness :
  Money_Neg (mkMoney 250 (mkCurrency "BRL")) = Ok (mkMoney (- 250) (mkCurrency "BRL")) /\
  answers (mkMoney MaxInt64 (mkCurrency "BRL")) (mkMoney 1 (mkCurrency "BRL"))
    (MinInt64 <= MaxInt64 + 1 <= MaxInt64) (mkMoney (MaxInt64 + 1) (mkCurrency "BRL"))
    (Money_Add (mkMoney MaxInt64 (mkCurrency "BRL")) (mkMoney 1 (mkCurrency "BRL"))) /\
  Money_Add (mkMoney MaxInt64 (mkCurrency "BRL")) (mkMoney 1 (mkCurrency "BRL"))
    = Err (DomainError CodeAmountOverflow).
Proof.
  split_and!; [vm_compute; reflexivity| |vm_compute; reflexivity].
  refine (proj1 (money_arithmetic_exact _ _ _ _)); split; vm_compute; discriminate.
Defined.
