(* ===== verification/Identifier.v ===== *)
(** * Identifier: [internal/domain/identifier.go]

    The opaque identifiers.  The Go types are distinct structs around one
    string; here they are one record indexed by a phantom kind, so passing a
    player where a wallet belongs is a type error in the model too. *)

From S2P Require Import Prelude Errors.

#[local] Open Scope string_scope.
#[local] Open Scope Z_scope.

Definition maxIdentifierLength : Z := 128.

(** [len(s)] of a Go string. *)
Definition len (s : string) : Z := Z.of_nat (String.length s).

Inductive id_kind :=
| KWallet | KPlayer | KTransaction | KLedgerEntry | KProvider | KRound | KGame
| KExternalTransaction | KIdempotencyKey | KPayloadHash.

Record identifier (k : id_kind) := mkId { id_value : string }.
Arguments mkId {_} _.
Arguments id_value {_} _.

#[global] Instance identifier_eq_dec k : EqDecision (identifier k).
Proof. solve_decision. Defined.
#[global] Instance identifier_countable k : Countable (identifier k) :=
  inj_countable' id_value mkId (fun '(mkId _) => eq_refl).

Definition zeroId {k} : identifier k := mkId "".

Definition id_IsZero {k} (i : identifier k) : bool := bool_decide (id_value i = "").

Abbreviation WalletID := (identifier KWallet).
Abbreviation PlayerID := (identifier KPlayer).
Abbreviation TransactionID := (identifier KTransaction).
Abbreviation LedgerEntryID := (identifier KLedgerEntry).
Abbreviation ProviderID := (identifier KProvider).
Abbreviation RoundID := (identifier KRound).
Abbreviation GameID := (identifier KGame).
Abbreviation ExternalTransactionID := (identifier KExternalTransaction).
Abbreviation IdempotencyKey := (identifier KIdempotencyKey).
Abbreviation PayloadHash := (identifier KPayloadHash).

Definition parseIdentifier (k : id_kind) (s : string) : result (identifier k) :=
  if bool_decide (s = "") then fail CodeInvalidIdentifier
  else if maxIdentifierLength <? len s then fail CodeInvalidIdentifier
  else Ok (mkId s).

Definition ParseWalletID (s : string) : result WalletID := parseIdentifier KWallet s.
Definition ParsePlayerID (s : string) : result PlayerID := parseIdentifier KPlayer s.
Definition ParseTransactionID (s : string) : result TransactionID := parseIdentifier KTransaction s.
Definition ParseLedgerEntryID (s : string) : result LedgerEntryID := parseIdentifier KLedgerEntry s.
Definition ParseProviderID (s : string) : result ProviderID := parseIdentifier KProvider s.
Definition ParseRoundID (s : string) : result RoundID := parseIdentifier KRound s.
Definition ParseGameID (s : string) : result GameID := parseIdentifier KGame s.
Definition ParseExternalTransactionID (s : string) : result ExternalTransactionID :=
  parseIdentifier KExternalTransaction s.
Definition ParseIdempotencyKey (s : string) : result IdempotencyKey :=
  parseIdentifier KIdempotencyKey s.
Definition ParsePayloadHash (s : string) : result PayloadHash := parseIdentifier KPayloadHash s.

(** ** Lemmas *)

(** A set identifier: what every parser returns. *)
Definition id_ok {k} (i : identifier k) : Prop :=
  id_value i <> "" /\ len (id_value i) <= maxIdentifierLength.

Lemma parseIdentifier_iff k s i :
  parseIdentifier k s = Ok i <-> id_ok i /\ id_value i = s.
Proof.
  unfold parseIdentifier, id_ok, maxIdentifierLength. destruct i as [v]; cbn.
  case_bool_decide; [unfold fail; naive_solver|].
  destruct (Z.ltb_spec 128 (len s)); unfold fail; split.
  - intros H'. discriminate H'.
  - intros [[_ ?] <-]. lia.
  - intros H'. injection H' as <-. auto.
  - by intros [_ <-].
Qed.

Lemma parseIdentifier_value k (i : identifier k) : id_ok i -> parseIdentifier k (id_value i) = Ok i.
Proof. intros. by apply parseIdentifier_iff. Qed.

Lemma parseIdentifier_Err k s e : parseIdentifier k s = Err e -> e = DomainError CodeInvalidIdentifier.
Proof. unfold parseIdentifier, fail. repeat case_match; naive_solver. Qed.

Lemma id_value_inj {k} (i j : identifier k) : id_value i = id_value j -> i = j.
Proof. destruct i, j; cbn. by intros ->. Qed.

Lemma id_IsZero_false {k} (i : identifier k) : id_IsZero i = false <-> id_value i <> "".
Proof. unfold id_IsZero. apply bool_decide_eq_false. Qed.

Lemma id_IsZero_true {k} (i : identifier k) : id_IsZero i = true <-> i = zeroId.
Proof.
  unfold id_IsZero, zeroId. rewrite bool_decide_eq_true. destruct i; cbn. naive_solver.
Qed.

Lemma id_ok_not_zero {k} (i : identifier k) : id_ok i -> id_IsZero i = false.
Proof. intros [? _]. by apply id_IsZero_false. Qed.

#[export] Hint Resolve id_ok_not_zero parseIdentifier_value : wager.
