(* ===== verification/Ledger.v ===== *)
(** * Ledger: [internal/domain/ledger.go]

    Directions, immutable ledger entries, and the one definition of what a
    direction does to a balance. *)

From S2P Require Import Prelude Errors GoTime Money Identifier.

#[local] Open Scope string_scope.
#[local] Open Scope list_scope.
#[local] Open Scope Z_scope.

(** ** Definitions *)

(** [type Direction string]: any string can be converted to one. *)
Abbreviation Direction := string (only parsing).

Definition Debit : Direction := "DEBIT".
Definition Credit : Direction := "CREDIT".

Definition Direction_Valid (d : Direction) : bool :=
  bool_decide (d = Debit) || bool_decide (d = Credit).

Definition Direction_Opposite (d : Direction) : Direction :=
  if bool_decide (d = Debit) then Credit else Debit.

Record LedgerEntryParams := mkLedgerEntryParams {
  lp_ID : LedgerEntryID;
  lp_WalletID : WalletID;
  lp_TransactionID : TransactionID;
  lp_Direction : Direction;
  lp_Amount : Money;
  lp_BalanceBefore : Money;
  lp_BalanceAfter : Money;
  lp_CreatedAt : Time
}.

Record LedgerEntry := mkLedgerEntry {
  le_id : LedgerEntryID;
  le_walletID : WalletID;
  le_transactionID : TransactionID;
  le_direction : Direction;
  le_amount : Money;
  le_balanceBefore : Money;
  le_balanceAfter : Money;
  le_createdAt : Time
}.

#[global] Instance LedgerEntry_eq_dec : EqDecision LedgerEntry.
Proof. solve_decision. Defined.

(** [LedgerEntry{}] *)
Definition noEntry : LedgerEntry :=
  mkLedgerEntry zeroId zeroId zeroId "" noMoney noMoney noMoney zeroTime.

Definition applyDirection (d : Direction) (balance amount : Money) : result Money :=
  if bool_decide (d = Debit) then Money_Sub balance amount
  else if bool_decide (d = Credit) then Money_Add balance amount
  else fail CodeInvalidDirection.

Definition NewLedgerEntry (p : LedgerEntryParams) : result LedgerEntry :=
  if id_IsZero (lp_ID p) then fail CodeInvalidIdentifier
  else if id_IsZero (lp_WalletID p) then fail CodeInvalidIdentifier
  else if id_IsZero (lp_TransactionID p) then fail CodeInvalidIdentifier
  else if negb (Direction_Valid (lp_Direction p)) then fail CodeInvalidDirection
  else if Time_IsZero (lp_CreatedAt p) then fail CodeInvalidTimestamp
  else if negb (Money_IsInitialised (lp_Amount p)) || negb (Money_IsPositive (lp_Amount p))
  then fail CodeNonPositiveAmount
  else if negb (Money_IsInitialised (lp_BalanceBefore p)) ||
          negb (Money_IsInitialised (lp_BalanceAfter p))
  then fail CodeInvalidCurrency
  else
    let cur := currency (lp_Amount p) in
    if negb (bool_decide (currency (lp_BalanceBefore p) = cur)) ||
       negb (bool_decide (currency (lp_BalanceAfter p) = cur))
    then fail CodeCurrencyMismatch
    else
      expected ← applyDirection (lp_Direction p) (lp_BalanceBefore p) (lp_Amount p);
      if negb (bool_decide (expected = lp_BalanceAfter p)) then fail CodeInconsistentEntry
      else Ok {|
        le_id := lp_ID p;
        le_walletID := lp_WalletID p;
        le_transactionID := lp_TransactionID p;
        le_direction := lp_Direction p;
        le_amount := lp_Amount p;
        le_balanceBefore := lp_BalanceBefore p;
        le_balanceAfter := lp_BalanceAfter p;
        le_createdAt := Time_UTC (lp_CreatedAt p)
      |}.

Definition SignedAmount (e : LedgerEntry) : result Money :=
  if bool_decide (le_direction e = Debit) then Money_Neg (le_amount e) else Ok (le_amount e).

(** ** The arithmetic of an entry *)

(** The sign a direction gives to an amount. *)
Definition signed (d : Direction) (v : Z) : Z := if decide (d = Debit) then - v else v.

(** What every constructed entry satisfies: one currency, a positive amount,
    and balances that differ by the signed amount. *)
Record entry_ok (e : LedgerEntry) : Prop := {
  eo_id : id_IsZero (le_id e) = false;
  eo_walletID : id_IsZero (le_walletID e) = false;
  eo_transactionID : id_IsZero (le_transactionID e) = false;
  eo_direction : le_direction e = Debit \/ le_direction e = Credit;
  eo_createdAt : Time_IsZero (le_createdAt e) = false;
  eo_utc : is_utc (le_createdAt e);
  eo_initialised : Money_IsInitialised (le_amount e) = true;
  eo_positive : 0 < minor (le_amount e);
  eo_before_currency : currency (le_balanceBefore e) = currency (le_amount e);
  eo_after_currency : currency (le_balanceAfter e) = currency (le_amount e);
  eo_amount_ok : money_ok (le_amount e);
  eo_before_ok : money_ok (le_balanceBefore e);
  eo_after_ok : money_ok (le_balanceAfter e);
  eo_arithmetic : minor (le_balanceAfter e) =
    minor (le_balanceBefore e) + signed (le_direction e) (minor (le_amount e))
}.

(** The parameters an entry was built from. *)
Definition entry_params (e : LedgerEntry) : LedgerEntryParams :=
  mkLedgerEntryParams (le_id e) (le_walletID e) (le_transactionID e) (le_direction e)
    (le_amount e) (le_balanceBefore e) (le_balanceAfter e) (le_createdAt e).

Lemma signed_Debit v : signed Debit v = - v.
Proof. done. Qed.
Lemma signed_Credit v : signed Credit v = v.
Proof. done. Qed.

Lemma Direction_Valid_iff d : Direction_Valid d = true <-> d = Debit \/ d = Credit.
Proof. unfold Direction_Valid. rewrite orb_true_iff, !bool_decide_eq_true. done. Qed.

Lemma applyDirection_Ok d b a r :
  money_ok b -> money_ok a ->
  applyDirection d b a = Ok r <->
  (d = Debit \/ d = Credit) /\ requireComparable b a = Ok () /\ money_ok r /\
  minor r = minor b + signed d (minor a) /\ currency r = currency b.
Proof.
  intros Hb Ha. unfold applyDirection, signed.
  destruct (decide (d = Debit)) as [->|Hd].
  { rewrite bool_decide_eq_true_2 by done. rewrite Money_Sub_Ok by done.
    split; intros; destruct_and?; split_and!; auto; lia. }
  rewrite bool_decide_eq_false_2 by done.
  case_bool_decide; [|unfold fail; naive_solver].
  rewrite Money_Add_Ok by done. naive_solver.
Qed.

Lemma NewLedgerEntry_Ok p e :
  money_ok (lp_Amount p) -> money_ok (lp_BalanceBefore p) -> money_ok (lp_BalanceAfter p) ->
  NewLedgerEntry p = Ok e -> entry_ok e /\ entry_params e =
    mkLedgerEntryParams (lp_ID p) (lp_WalletID p) (lp_TransactionID p) (lp_Direction p)
      (lp_Amount p) (lp_BalanceBefore p) (lp_BalanceAfter p) (Time_UTC (lp_CreatedAt p)).
Proof.
  intros Ha Hb Hf. destruct p as [i w t d a b f at_]; cbn in *.
  unfold NewLedgerEntry; cbn [lp_ID lp_WalletID lp_TransactionID lp_Direction lp_Amount
    lp_BalanceBefore lp_BalanceAfter lp_CreatedAt].
  destruct (id_IsZero i) eqn:Hi; [done|]. destruct (id_IsZero w) eqn:Hw; [done|].
  destruct (id_IsZero t) eqn:Ht; [done|]. destruct (Direction_Valid d) eqn:Hd; [|done].
  destruct (Time_IsZero at_) eqn:Hat; [done|].
  destruct (Money_IsInitialised a) eqn:Hai; [|done]. destruct (Money_IsPositive a) eqn:Hap; [|done].
  destruct (Money_IsInitialised b); [|done]. destruct (Money_IsInitialised f); [|done].
  cbn [negb orb]. repeat (case_bool_decide; cbn [negb orb]; [|done]).
  intros (x & Hx & He)%result_bind_Ok. case_bool_decide; cbn [negb] in He; [|done]. simplify_eq.
  apply applyDirection_Ok in Hx as (Hdir & _ & _ & Hv & _); [|done..].
  unfold Money_IsPositive in Hap. split; [|done].
  constructor; cbn; auto with wager; lia.
Qed.

(** Re-reading an entry re-checks it and returns it unchanged. *)
Lemma NewLedgerEntry_rehydrate e : entry_ok e -> NewLedgerEntry (entry_params e) = Ok e.
Proof.
  destruct e as [i w t d a b f at_].
  intros [Hi Hw Ht Hd Hat Hutc Hai Hap Hbc Hfc Hao Hbo Hfo Hv]; cbn in *.
  unfold NewLedgerEntry, entry_params; cbn.
  rewrite Hi, Hw, Ht, Hat. apply Direction_Valid_iff in Hd as Hd'. rewrite Hd'. cbn.
  unfold Money_IsInitialised, Money_IsPositive in *. rewrite Hbc, Hfc, Hai. cbn.
  destruct (Z.ltb_spec 0 (minor a)); [|lia]. cbn. rewrite !bool_decide_eq_true_2 by done. cbn.
  assert (applyDirection d b a = Ok f) as ->.
  { apply applyDirection_Ok; [done..|]. rewrite requireComparable_Ok. unfold Money_IsInitialised.
    rewrite Hbc, Hai. split_and!; auto; congruence. }
  cbn. rewrite bool_decide_eq_true_2 by done. cbn. by rewrite Time_UTC_id.
Qed.

(** Rejections of an entry are domain rejections. *)
Lemma Money_op_Err m o e :
  Money_Add m o = Err e \/ Money_Sub m o = Err e -> As_domain e <> None.
Proof.
  unfold Money_Add, Money_Sub, requireComparable, fail.
  intros [H|H]; revert H; repeat case_match; cbn; repeat case_match; naive_solver.
Qed.

Lemma applyDirection_Err d b a e : applyDirection d b a = Err e -> As_domain e <> None.
Proof.
  unfold applyDirection. intros Hx.
  case_bool_decide; [apply (Money_op_Err b a); by right|].
  case_bool_decide; [apply (Money_op_Err b a); by left|]. by injection Hx as <-.
Qed.

Lemma NewLedgerEntry_Err p e : NewLedgerEntry p = Err e -> As_domain e <> None.
Proof.
  unfold NewLedgerEntry, fail. intros H. guards H.
  apply result_bind_Err in H as [H|(x & _ & H)]; [by eapply applyDirection_Err|]. by guards H.
Qed.

Lemma SignedAmount_Ok e :
  entry_ok e ->
  SignedAmount e = Ok (mkMoney (minor (le_balanceAfter e) - minor (le_balanceBefore e))
                         (currency (le_amount e))).
Proof.
  intros [? ? ? Hd ? ? Hai Hap ? ? Hao Hbo Hfo Hv]. unfold SignedAmount, signed in *.
  case_decide as E.
  - rewrite bool_decide_eq_true_2 by done. unfold Money_Neg. rewrite Hai. cbn.
    unfold money_ok in *. destruct (Z.eqb_spec (minor (le_amount e)) MinInt64); [width; lia|].
    rewrite i64_id by (width; lia). do 2 f_equal. lia.
  - rewrite bool_decide_eq_false_2 by done. destruct (le_amount e); cbn in *. do 2 f_equal. lia.
Qed.

(** ** Properties *)

(** A ledger entry that was accepted is arithmetically consistent (one
    currency, a positive amount, balances that differ by the signed amount),
    reading it back re-validates to the same entry, and its signed amount is
    the difference of its two balances. *)
Theorem ledger_entry_consistent p e :
  money_ok (lp_Amount p) -> money_ok (lp_BalanceBefore p) -> money_ok (lp_BalanceAfter p) ->
  NewLedgerEntry p = Ok e ->
  entry_ok e /\ NewLedgerEntry (entry_params e) = Ok e /\
  SignedAmount e = Ok (mkMoney (minor (le_balanceAfter e) - minor (le_balanceBefore e))
                         (currency (le_amount e))).
Proof.
  intros Ha Hb Hf H. apply NewLedgerEntry_Ok in H as [He _]; [|done..].
  auto using NewLedgerEntry_rehydrate, SignedAmount_Ok.
Qed.

Definition example_entry_params : LedgerEntryParams :=
  mkLedgerEntryParams (mkId "e1") (mkId "w1") (mkId "t1") Debit
    (mkMoney 2500 (mkCurrency "BRL")) (mkMoney 10000 (mkCurrency "BRL"))
    (mkMoney 7500 (mkCurrency "BRL")) (mkTime 5 (Zone 3)).

Lemma ledger_entry_consistent_witness :
  exists e, NewLedgerEntry example_entry_params = Ok e /\
    SignedAmount e = Ok (mkMoney (-2500) (mkCurrency "BRL")).
Proof.
  eexists. split; [vm_compute; reflexivity|].
  refine (proj2 (proj2 (ledger_entry_consistent example_entry_params _ _ _ _ _)));
    [split; vm_compute; discriminate..|vm_compute; reflexivity].
Defined.
