(* ===== verification/Wallet.v ===== *)
(** * Wallet: [internal/domain/wallet.go]

    The root of the financial aggregate.  A movement returns a new wallet and
    the ledger entry that records it; a refused one returns an error and
    leaves the caller's value alone. *)

From S2P Require Import Prelude Errors GoTime Money Identifier Ledger.

#[local] Open Scope string_scope.
#[local] Open Scope list_scope.
#[local] Open Scope Z_scope.

(** ** Definitions *)

Record Wallet := mkWallet {
  w_id : WalletID;
  w_playerID : PlayerID;
  w_currency : Currency;
  w_balance : Money;
  w_version : Z;
  w_createdAt : Time;
  w_updatedAt : Time
}.

#[global] Instance Wallet_eq_dec : EqDecision Wallet.
Proof. solve_decision. Defined.

(** [Wallet{}] *)
Definition noWallet : Wallet :=
  mkWallet zeroId zeroId zeroCurrency noMoney 0 zeroTime zeroTime.

Record Movement := mkMovement { mv_Wallet : Wallet; mv_Entry : LedgerEntry }.
Record Opening := mkOpening { op_Wallet : Wallet; op_Entries : list LedgerEntry }.

Definition noMovement : Movement := mkMovement noWallet noEntry.

Record OpenWalletParams := mkOpenWalletParams {
  ow_ID : WalletID;
  ow_PlayerID : PlayerID;
  ow_InitialBalance : Money;
  ow_OpeningTransactionID : TransactionID;
  ow_OpeningEntryID : LedgerEntryID;
  ow_CreatedAt : Time
}.

Definition OpenWallet (p : OpenWalletParams) : result Opening :=
  if id_IsZero (ow_ID p) then fail CodeInvalidIdentifier
  else if id_IsZero (ow_PlayerID p) then fail CodeInvalidIdentifier
  else if Time_IsZero (ow_CreatedAt p) then fail CodeInvalidTimestamp
  else if negb (Money_IsInitialised (ow_InitialBalance p)) then fail CodeInvalidCurrency
  else if Money_IsNegative (ow_InitialBalance p) then fail CodeNegativeAmount
  else
    let at_ := Time_UTC (ow_CreatedAt p) in
    let cur := currency (ow_InitialBalance p) in
    zero ← ZeroMoney cur;
    let wallet := {|
      w_id := ow_ID p;
      w_playerID := ow_PlayerID p;
      w_currency := cur;
      w_balance := ow_InitialBalance p;
      w_version := 1;
      w_createdAt := at_;
      w_updatedAt := at_
    |} in
    if Money_IsZero (ow_InitialBalance p) then Ok (mkOpening wallet [])
    else
      entry ← NewLedgerEntry {|
        lp_ID := ow_OpeningEntryID p;
        lp_WalletID := ow_ID p;
        lp_TransactionID := ow_OpeningTransactionID p;
        lp_Direction := Credit;
        lp_Amount := ow_InitialBalance p;
        lp_BalanceBefore := zero;
        lp_BalanceAfter := ow_InitialBalance p;
        lp_CreatedAt := at_
      |};
      Ok (mkOpening wallet [entry]).

Record RehydrateWalletParams := mkRehydrateWalletParams {
  rw_ID : WalletID;
  rw_PlayerID : PlayerID;
  rw_Balance : Money;
  rw_Version : Z;
  rw_CreatedAt : Time;
  rw_UpdatedAt : Time
}.

Definition RehydrateWallet (p : RehydrateWalletParams) : result Wallet :=
  if id_IsZero (rw_ID p) then fail CodeInvalidIdentifier
  else if id_IsZero (rw_PlayerID p) then fail CodeInvalidIdentifier
  else if negb (Money_IsInitialised (rw_Balance p)) then fail CodeInvalidCurrency
  else if Money_IsNegative (rw_Balance p) then fail CodeInconsistentEntry
  else if rw_Version p <? 1 then fail CodeInvalidVersion
  else if Time_IsZero (rw_CreatedAt p) then fail CodeInvalidTimestamp
  else if Time_IsZero (rw_UpdatedAt p) then fail CodeInvalidTimestamp
  else Ok {|
    w_id := rw_ID p;
    w_playerID := rw_PlayerID p;
    w_currency := currency (rw_Balance p);
    w_balance := rw_Balance p;
    w_version := rw_Version p;
    w_createdAt := Time_UTC (rw_CreatedAt p);
    w_updatedAt := Time_UTC (rw_UpdatedAt p)
  |}.

Definition Wallet_IsInitialised (w : Wallet) : bool := negb (id_IsZero (w_id w)).

Definition Wallet_move (w : Wallet) (d : Direction) (entryID : LedgerEntryID)
    (txID : TransactionID) (amount : Money) (at_ : Time) : result Movement :=
  if negb (Wallet_IsInitialised w) then fail CodeInvalidIdentifier
  else if Time_IsZero at_ then fail CodeInvalidTimestamp
  else if negb (Money_IsInitialised amount) || negb (Money_IsPositive amount)
  then fail CodeNonPositiveAmount
  else if negb (bool_decide (currency amount = w_currency w)) then fail CodeCurrencyMismatch
  else
    after ← applyDirection d (w_balance w) amount;
    if Money_IsNegative after then fail CodeInsufficientFunds
    else
      entry ← NewLedgerEntry {|
        lp_ID := entryID;
        lp_WalletID := w_id w;
        lp_TransactionID := txID;
        lp_Direction := d;
        lp_Amount := amount;
        lp_BalanceBefore := w_balance w;
        lp_BalanceAfter := after;
        lp_CreatedAt := at_
      |};
      Ok (mkMovement {|
        w_id := w_id w;
        w_playerID := w_playerID w;
        w_currency := w_currency w;
        w_balance := after;
        w_version := i64 (w_version w + 1);
        w_createdAt := w_createdAt w;
        w_updatedAt := Time_UTC at_
      |} entry).

Definition Wallet_Debit (w : Wallet) := Wallet_move w Debit.
Definition Wallet_Credit (w : Wallet) := Wallet_move w Credit.

(** ** Invariant *)

(** A wallet that came from a constructor. *)
Record wallet_ok (w : Wallet) : Prop := {
  wo_id : id_IsZero (w_id w) = false;
  wo_playerID : id_IsZero (w_playerID w) = false;
  wo_currency : currency (w_balance w) = w_currency w;
  wo_initialised : Money_IsInitialised (w_balance w) = true;
  wo_balance : 0 <= minor (w_balance w) <= MaxInt64;
  wo_version : 1 <= w_version w <= MaxInt64;
  wo_createdAt : Time_IsZero (w_createdAt w) = false /\ is_utc (w_createdAt w);
  wo_updatedAt : Time_IsZero (w_updatedAt w) = false /\ is_utc (w_updatedAt w)
}.

(** The parameters a wallet is stored as. *)
Definition wallet_params (w : Wallet) : RehydrateWalletParams :=
  mkRehydrateWalletParams (w_id w) (w_playerID w) (w_balance w) (w_version w)
    (w_createdAt w) (w_updatedAt w).

(** Reference semantics of a movement: which precondition fails first, and
    otherwise the exact new state. *)
Definition move_ref (w : Wallet) (d : Direction) (entryID : LedgerEntryID)
    (txID : TransactionID) (amount : Money) (at_ : Time) : result Movement :=
  let v := minor (w_balance w) + signed d (minor amount) in
  if Time_IsZero at_ then fail CodeInvalidTimestamp
  else if negb (Money_IsInitialised amount && (0 <? minor amount)) then fail CodeNonPositiveAmount
  else if decide (currency amount <> w_currency w) then fail CodeCurrencyMismatch
  else if decide (MaxInt64 < v) then fail CodeAmountOverflow
  else if decide (v < 0) then fail CodeInsufficientFunds
  else if id_IsZero entryID || id_IsZero txID then fail CodeInvalidIdentifier
  else Ok (mkMovement
    (mkWallet (w_id w) (w_playerID w) (w_currency w) (mkMoney v (w_currency w))
       (i64 (w_version w + 1)) (w_createdAt w) (Time_UTC at_))
    (mkLedgerEntry entryID (w_id w) txID d amount (w_balance w) (mkMoney v (w_currency w))
       (Time_UTC at_))).

(** A history of a wallet: successive accepted movements, oldest first. *)
Inductive history : Wallet -> list LedgerEntry -> Wallet -> Prop :=
| history_nil w : history w [] w
| history_snoc w es w1 d eid tid amount at_ mv :
    history w es w1 ->
    d = Debit \/ d = Credit -> money_ok amount ->
    Wallet_move w1 d eid tid amount at_ = Ok mv ->
    history w (es ++ [mv_Entry mv]) (mv_Wallet mv).

(** What a list of entries adds up to: credits minus debits. *)
Definition entries_sum (es : list LedgerEntry) : Z :=
  foldr (fun e acc => signed (le_direction e) (minor (le_amount e)) + acc) 0 es.

(** Each entry starts from the balance the previous one ended on. *)
Fixpoint chained (before : Z) (es : list LedgerEntry) (after : Z) : Prop :=
  match es with
  | [] => before = after
  | e :: es => minor (le_balanceBefore e) = before /\ chained (minor (le_balanceAfter e)) es after
  end.

(** ** Lemmas *)

Lemma wallet_ok_money w : wallet_ok w -> money_ok (w_balance w).
Proof. intros []. unfold money_ok. width. lia. Qed.

Lemma wallet_ok_initialised w : wallet_ok w -> Wallet_IsInitialised w = true.
Proof. intros []. unfold Wallet_IsInitialised. by rewrite wo_id0. Qed.

#[export] Hint Resolve wallet_ok_money wallet_ok_initialised : wager.

(** [applyDirection] on a wallet's balance and a positive amount in its
    currency. *)
Lemma applyDirection_wallet w d a :
  wallet_ok w -> money_ok a -> d = Debit \/ d = Credit ->
  Money_IsInitialised a = true -> 0 < minor a -> currency a = w_currency w ->
  let v := minor (w_balance w) + signed d (minor a) in
  applyDirection d (w_balance w) a =
    if decide (MaxInt64 < v) then fail CodeAmountOverflow
    else Ok (mkMoney v (w_currency w)).
Proof.
  intros Hw Ha Hd Hi Hp Hc v. pose proof (wallet_ok_money w Hw) as Hb. destruct Hw.
  unfold applyDirection. assert (Hcmp : requireComparable (w_balance w) a = Ok ()).
  { apply requireComparable_Ok. split_and!; [done|done|congruence]. }
  destruct Hd as [->| ->].
  - rewrite bool_decide_eq_true_2 by done. rewrite Money_Sub_exact by done. unfold sub_ref.
    rewrite Hcmp. cbn -[signed] in *. unfold v. rewrite signed_Debit.
    unfold money_ok in *. rewrite decide_True by (width; lia).
    rewrite decide_False by (width; lia). do 2 f_equal; first [done|lia].
  - rewrite bool_decide_eq_false_2 by done. rewrite bool_decide_eq_true_2 by done.
    rewrite Money_Add_exact by done. unfold add_ref. rewrite Hcmp. cbn -[signed] in *.
    unfold v. rewrite signed_Credit. unfold money_ok in *.
    destruct (decide (MaxInt64 < _)).
    + rewrite decide_False by (width; lia). done.
    + rewrite decide_True by (width; lia). do 2 f_equal; done.
Qed.

Lemma NewLedgerEntry_wallet w d a eid tid at_ v :
  wallet_ok w -> money_ok a -> d = Debit \/ d = Credit ->
  Money_IsInitialised a = true -> 0 < minor a -> currency a = w_currency w ->
  Time_IsZero at_ = false ->
  v = minor (w_balance w) + signed d (minor a) -> is_i64 v ->
  NewLedgerEntry (mkLedgerEntryParams eid (w_id w) tid d a (w_balance w)
      (mkMoney v (w_currency w)) at_) =
    if id_IsZero eid || id_IsZero tid then fail CodeInvalidIdentifier
    else Ok (mkLedgerEntry eid (w_id w) tid d a (w_balance w) (mkMoney v (w_currency w))
               (Time_UTC at_)).
Proof.
  intros Hw Ha Hd Hi Hp Hc Ht Hv Hr.
  pose proof (applyDirection_wallet w d a Hw Ha Hd Hi Hp Hc) as Happ. cbn zeta in Happ.
  rewrite <- Hv, decide_False in Happ by (width; lia).
  unfold NewLedgerEntry; cbn -[applyDirection]. destruct Hw.
  destruct (id_IsZero eid); [done|]. rewrite wo_id0. destruct (id_IsZero tid); [done|].
  apply Direction_Valid_iff in Hd. rewrite Hd, Ht. cbn -[applyDirection].
  rewrite Hi, wo_initialised0. unfold Money_IsPositive. destruct (Z.ltb_spec 0 (minor a)); [|lia].
  unfold Money_IsInitialised in *. cbn -[applyDirection]. rewrite <- Hc, Hi. cbn -[applyDirection].
  rewrite wo_currency0, <- Hc, !bool_decide_eq_true_2 by done. cbn -[applyDirection].
  rewrite Happ. cbn. rewrite Hc, bool_decide_eq_true_2 by done. done.
Qed.

Lemma Wallet_move_exact w d eid tid a at_ :
  wallet_ok w -> money_ok a -> d = Debit \/ d = Credit ->
  Wallet_move w d eid tid a at_ = move_ref w d eid tid a at_.
Proof.
  intros Hw Ha Hd. unfold Wallet_move, move_ref. rewrite wallet_ok_initialised by done.
  cbn [negb]. destruct (Time_IsZero at_) eqn:Ht; [done|].
  destruct (Money_IsInitialised a) eqn:Hi; [|done]. unfold Money_IsPositive.
  destruct (Z.ltb_spec 0 (minor a)) as [Hp|]; [|done]. cbn [negb orb andb].
  case_bool_decide as Hc; cbn [negb]; [|by rewrite decide_True].
  rewrite decide_False by auto. rewrite applyDirection_wallet by done. cbn zeta.
  set (v := minor (w_balance w) + signed d (minor a)).
  destruct (decide (MaxInt64 < v)); [done|]. cbn [mbind result_bind].
  unfold Money_IsNegative. cbn [minor]. destruct (Z.ltb_spec v 0).
  { by rewrite decide_True. }
  rewrite decide_False by lia. rewrite NewLedgerEntry_wallet; [|done..|width; lia].
  destruct (id_IsZero eid || id_IsZero tid); done.
Qed.

(** An accepted movement, spelled out. *)
Lemma Wallet_move_Ok w d eid tid a at_ mv :
  wallet_ok w -> money_ok a -> d = Debit \/ d = Credit ->
  Wallet_move w d eid tid a at_ = Ok mv ->
  entry_ok (mv_Entry mv) /\
  mv_Wallet mv = mkWallet (w_id w) (w_playerID w) (w_currency w) (le_balanceAfter (mv_Entry mv))
    (i64 (w_version w + 1)) (w_createdAt w) (Time_UTC at_) /\
  mv_Entry mv = mkLedgerEntry eid (w_id w) tid d a (w_balance w)
    (mkMoney (minor (w_balance w) + signed d (minor a)) (w_currency w)) (Time_UTC at_) /\
  0 <= minor (w_balance w) + signed d (minor a) <= MaxInt64 /\
  0 < minor a /\ currency a = w_currency w /\ Time_IsZero at_ = false.
Proof.
  intros Hw Ha Hd H. rewrite Wallet_move_exact in H by done. unfold move_ref in H.
  destruct (Time_IsZero at_) eqn:Ht; [done|].
  destruct (Money_IsInitialised a) eqn:Hi; [|done]. cbn in H.
  destruct (Z.ltb_spec 0 (minor a)); [|done]. cbn in H.
  destruct (decide (currency a <> w_currency w)) as [|Hc]; [done|].
  destruct (decide (currency a = w_currency w)); [|done].
  destruct (decide (MaxInt64 < _)); [done|]. destruct (decide (_ < 0)); [done|].
  destruct (id_IsZero eid) eqn:He; [done|]. destruct (id_IsZero tid) eqn:Htx; [done|].
  cbn in H. injection H as <-. cbn. split_and!; try done; try lia.
  pose proof (wallet_ok_money w Hw). destruct Hw.
  constructor; cbn; auto with wager; first [congruence|unfold money_ok; width; cbn; lia].
Qed.

Lemma Wallet_move_preserves w d eid tid a at_ mv :
  wallet_ok w -> money_ok a -> d = Debit \/ d = Credit -> w_version w < MaxInt64 ->
  Wallet_move w d eid tid a at_ = Ok mv -> wallet_ok (mv_Wallet mv).
Proof.
  intros Hw Ha Hd Hv H. apply Wallet_move_Ok in H as (_ & -> & -> & Hb & _ & _ & Ht); [|done..].
  destruct Hw. cbn. constructor; cbn; try done.
  - unfold Money_IsInitialised in *. cbn. by rewrite <- wo_currency0.
  - rewrite i64_id by (width; lia). lia.
Qed.

Lemma Wallet_move_Err w d eid tid a at_ e :
  Wallet_move w d eid tid a at_ = Err e -> As_domain e <> None.
Proof.
  unfold Wallet_move, fail. intros H. guards H.
  apply result_bind_Err in H as [H|(x & _ & H)]; [by eapply applyDirection_Err|]. guards H.
  apply result_bind_Err in H as [H|(y & _ & H)]; [by eapply NewLedgerEntry_Err|done].
Qed.

Lemma entries_sum_app es1 es2 : entries_sum (es1 ++ es2) = entries_sum es1 + entries_sum es2.
Proof. unfold entries_sum. induction es1 as [|e es1 IH]; cbn; [done|]. rewrite IH. lia. Qed.

Lemma entries_sum_singleton e : entries_sum [e] = signed (le_direction e) (minor (le_amount e)).
Proof. unfold entries_sum. cbn. lia. Qed.

Lemma chained_snoc before es mid e after :
  chained before es mid -> minor (le_balanceBefore e) = mid -> minor (le_balanceAfter e) = after ->
  chained before (es ++ [e]) after.
Proof.
  revert before. induction es as [|e' es IH]; cbn; intros before H H1 H2; [by subst|].
  destruct H. auto.
Qed.

Lemma OpenWallet_Ok p o :
  money_ok (ow_InitialBalance p) -> OpenWallet p = Ok o ->
  wallet_ok (op_Wallet o) /\
  op_Wallet o = mkWallet (ow_ID p) (ow_PlayerID p) (currency (ow_InitialBalance p))
    (ow_InitialBalance p) 1 (Time_UTC (ow_CreatedAt p)) (Time_UTC (ow_CreatedAt p)) /\
  Forall entry_ok (op_Entries o) /\
  op_Entries o = if minor (ow_InitialBalance p) =? 0 then [] else
    [mkLedgerEntry (ow_OpeningEntryID p) (ow_ID p) (ow_OpeningTransactionID p) Credit
       (ow_InitialBalance p) (mkMoney 0 (currency (ow_InitialBalance p))) (ow_InitialBalance p)
       (Time_UTC (ow_CreatedAt p))].
Proof.
  intros Hm H. unfold OpenWallet in H.
  destruct (id_IsZero (ow_ID p)) eqn:Hid; [done|].
  destruct (id_IsZero (ow_PlayerID p)) eqn:Hp; [done|].
  destruct (Time_IsZero (ow_CreatedAt p)) eqn:Ht; [done|].
  destruct (Money_IsInitialised _) eqn:Hi; [|done]. cbn [negb] in H.
  unfold Money_IsNegative in H. destruct (Z.ltb_spec (minor (ow_InitialBalance p)) 0); [done|].
  unfold ZeroMoney in H. unfold Money_IsInitialised in Hi.
  destruct (Currency_IsZero _) eqn:Hc; [done|]. cbn [mbind result_bind] in H.
  assert (Hok : wallet_ok (mkWallet (ow_ID p) (ow_PlayerID p) (currency (ow_InitialBalance p))
    (ow_InitialBalance p) 1 (Time_UTC (ow_CreatedAt p)) (Time_UTC (ow_CreatedAt p)))).
  { unfold money_ok in Hm. constructor; cbn; try done.
    - unfold Money_IsInitialised. by rewrite Hc.
    - width. lia. }
  unfold Money_IsZero in H. destruct (Z.eqb_spec (minor (ow_InitialBalance p)) 0).
  { injection H as <-. split_and!; done. }
  apply result_bind_Ok in H as (e & He & H). injection H as <-. cbn.
  apply NewLedgerEntry_Ok in He as [He Hpar]; [|done|by vm_compute|done]. cbn in Hpar.
  destruct e; unfold entry_params in Hpar; cbn in Hpar. injection Hpar as -> -> -> -> -> -> -> ->.
  split_and!; [done|done|by apply Forall_singleton|done].
Qed.

Lemma wallet_ok_bounds w : wallet_ok w -> 0 <= minor (w_balance w) <= MaxInt64 /\ 1 <= w_version w.
Proof. intros []. lia. Qed.

(** Everything a history guarantees, as one invariant of rule induction. *)
Lemma history_inv w es w' :
  wallet_ok w -> w_version w + Z.of_nat (length es) <= MaxInt64 -> history w es w' ->
  wallet_ok w' /\ Forall entry_ok es /\
  Forall (fun e => le_walletID e = w_id w) es /\
  w_id w' = w_id w /\ w_playerID w' = w_playerID w /\ w_currency w' = w_currency w /\
  w_version w' = w_version w + Z.of_nat (length es) /\
  minor (w_balance w') = minor (w_balance w) + entries_sum es /\
  chained (minor (w_balance w)) es (minor (w_balance w')).
Proof.
  intros Hw Hlen Hh. induction Hh as [w|w es w1 d eid tid a at_ mv _ IH Hd Ha Hmv].
  { split_and!; try done; cbn; lia. }
  rewrite length_app in Hlen. cbn [length] in Hlen.
  destruct IH as (Hw1 & Hes & Hids & Hid & Hpl & Hcur & Hver & Hsum & Hch); [done|lia|].
  assert (w_version w1 < MaxInt64) by lia.
  pose proof (Wallet_move_preserves _ _ _ _ _ _ _ Hw1 Ha Hd ltac:(lia) Hmv) as Hok.
  apply Wallet_move_Ok in Hmv as (He & Hmw & Hme & Hb & _); [|done..].
  split_and!; [done| | | | | | | |].
  - apply Forall_app. by rewrite Forall_singleton.
  - apply Forall_app. rewrite Forall_singleton. split; [done|]. by rewrite Hme.
  - by rewrite Hmw.
  - by rewrite Hmw.
  - by rewrite Hmw.
  - rewrite Hmw. cbn [w_version]. pose proof (wallet_ok_bounds w1 Hw1).
    rewrite i64_id by (width; lia). rewrite length_app. cbn [length]. lia.
  - rewrite entries_sum_app, entries_sum_singleton, Hmw, Hme. cbn -[signed]. lia.
  - eapply chained_snoc; [done|by rewrite Hme|by rewrite Hmw].
Qed.

(** ** Properties *)

(** Opening a wallet yields version 1, a non-negative balance in the
    wallet's currency, and entries that add up to the balance: none when it
    opens at zero, one credit from zero otherwise. *)
Theorem OpenWallet_establishes p o :
  money_ok (ow_InitialBalance p) -> OpenWallet p = Ok o ->
  wallet_ok (op_Wallet o) /\ w_version (op_Wallet o) = 1 /\
  w_balance (op_Wallet o) = ow_InitialBalance p /\
  entries_sum (op_Entries o) = minor (w_balance (op_Wallet o)) /\
  chained 0 (op_Entries o) (minor (w_balance (op_Wallet o))) /\
  (op_Entries o = [] <-> minor (ow_InitialBalance p) = 0).
Proof.
  intros Hm (Hok & Hw & _ & He)%OpenWallet_Ok; [|done]. rewrite Hw, He in *. cbn [op_Wallet w_version w_balance].
  split_and!; [done..| | |]; destruct (Z.eqb_spec (minor (ow_InitialBalance p)) 0); cbn; unfold signed; try done.
  rewrite decide_False by done. lia.
Qed.

Definition example_open : OpenWalletParams :=
  mkOpenWalletParams (mkId "w1") (mkId "p1") (mkMoney 10000 (mkCurrency "BRL")) (mkId "t0")
    (mkId "e0") (mkTime 7 UTC).

Definition example_wallet : Wallet :=
  mkWallet (mkId "w1") (mkId "p1") (mkCurrency "BRL") (mkMoney 10000 (mkCurrency "BRL")) 1
    (mkTime 7 UTC) (mkTime 7 UTC).

Lemma OpenWallet_establishes_witness :
  exists o, OpenWallet example_open = Ok o /\ wallet_ok (op_Wallet o) /\
    entries_sum (op_Entries o) = 10000.
Proof.
  eexists. split; [vm_compute; reflexivity|]. split; [|vm_compute; reflexivity].
  refine (proj1 (OpenWallet_establishes example_open _ _ _)); [|vm_compute; reflexivity].
  split; vm_compute; discriminate.
Defined.

(** C35: a debit or a credit on a valid wallet is exactly the reference
    movement on unbounded integers: the first violated precondition decides
    the code, a debit is refused with INSUFFICIENT_FUNDS precisely when it
    would leave a negative balance, and a success changes the balance by the
    signed amount, advances the version by one and records both balances. *)
Theorem Wallet_movement_refines w eid tid amount at_ :
  wallet_ok w -> money_ok amount ->
  Wallet_Debit w eid tid amount at_ = move_ref w Debit eid tid amount at_ /\
  Wallet_Credit w eid tid amount at_ = move_ref w Credit eid tid amount at_.
Proof. intros. split; apply Wallet_move_exact; auto. Qed.

Lemma example_wallet_ok : wallet_ok example_wallet.
Proof. constructor; vm_compute; try (split; congruence); congruence. Qed.

Lemma Wallet_movement_refines_witness :
  Wallet_Debit example_wallet (mkId "e1") (mkId "t1") (mkMoney 10001 (mkCurrency "BRL")) (mkTime 9 UTC)
    = move_ref example_wallet Debit (mkId "e1") (mkId "t1") (mkMoney 10001 (mkCurrency "BRL")) (mkTime 9 UTC)
  /\ Wallet_Debit example_wallet (mkId "e1") (mkId "t1") (mkMoney 10001 (mkCurrency "BRL")) (mkTime 9 UTC)
    = Err (DomainError CodeInsufficientFunds).
Proof.
  split; [|vm_compute; reflexivity].
  refine (proj1 (Wallet_movement_refines _ _ _ _ _ example_wallet_ok _)).
  split; vm_compute; discriminate.
Defined.

(** Over any sequence of accepted debits and credits a wallet stays valid
    (never negative), its version counts the movements, its balance is the
    starting balance plus the signed entries, and every entry starts where
    the previous one ended: the ledger alone rebuilds the balance. *)
Theorem wallet_history_conserves w es w' :
  wallet_ok w -> w_version w + Z.of_nat (length es) <= MaxInt64 -> history w es w' ->
  wallet_ok w' /\
  w_version w' = w_version w + Z.of_nat (length es) /\
  minor (w_balance w') = minor (w_balance w) + entries_sum es /\
  chained (minor (w_balance w)) es (minor (w_balance w')) /\
  Forall (fun e => entry_ok e /\ le_walletID e = w_id w) es.
Proof.
  intros Hw Hl Hh. destruct (history_inv _ _ _ Hw Hl Hh) as (? & H1 & H2 & _ & _ & _ & ? & ? & ?).
  split_and!; try done. rewrite Forall_forall in *. auto.
Qed.

Lemma wallet_history_conserves_witness :
  exists es w', length es = 2%nat /\ history example_wallet es w' /\
    minor (w_balance w') = 10000 + entries_sum es.
Proof.
  assert (Ha : money_ok (mkMoney 2500 (mkCurrency "BRL"))) by (split; vm_compute; discriminate).
  assert (Hh : exists es w', length es = 2%nat /\ history example_wallet es w').
  { eexists _, _. split; [|
      eapply (history_snoc _ _ _ Credit (mkId "e2") (mkId "t2") (mkMoney 2500 (mkCurrency "BRL")) (mkTime 9 UTC));
      [eapply (history_snoc _ _ _ Debit (mkId "e1") (mkId "t1") (mkMoney 2500 (mkCurrency "BRL")) (mkTime 8 UTC));
       [apply history_nil|auto|exact Ha|vm_compute; reflexivity]
      |auto|exact Ha|vm_compute; reflexivity]].
    reflexivity. }
  destruct Hh as (es & w' & Hl & Hh). exists es, w'. split; [exact Hl|]. split; [exact Hh|].
  destruct (wallet_history_conserves example_wallet es w' example_wallet_ok) as (_ & _ & Hb & _).
  - rewrite Hl. vm_compute. discriminate.
  - exact Hh.
  - exact Hb.
Defined.
