(* ===== verification/Transaction.v ===== *)
(** * Transaction: [internal/domain/transaction.go]

    Kinds and their amount policy, the two constructors, the life of an
    operation as a state machine, rehydration, and what may reverse what. *)

From S2P Require Import Prelude Errors GoTime Money Identifier Ledger.

#[local] Open Scope string_scope.
#[local] Open Scope list_scope.
#[local] Open Scope Z_scope.

(** ** Kinds, origins and statuses: named strings, as in the source *)

Abbreviation Kind := string (only parsing).

Definition KindOpening : Kind := "OPENING".
Definition KindBet : Kind := "BET".
Definition KindWin : Kind := "WIN".
Definition KindLoss : Kind := "LOSS".
Definition KindRefund : Kind := "REFUND".
Definition KindRollback : Kind := "ROLLBACK".

Definition all_kinds : list Kind :=
  [KindOpening; KindBet; KindWin; KindLoss; KindRefund; KindRollback].

Definition Kind_Valid (k : Kind) : bool := bool_decide (k ∈ all_kinds).

Definition Kind_IsReversal (k : Kind) : bool :=
  bool_decide (k = KindRefund) || bool_decide (k = KindRollback).

Definition Kind_MovesMoney (k : Kind) : bool := negb (bool_decide (k = KindLoss)).

Definition Kind_validateAmount (k : Kind) (m : Money) : result unit :=
  if negb (Money_IsInitialised m) then fail CodeInvalidCurrency
  else if bool_decide (k = KindLoss) then
    if negb (Money_IsZero m) then fail CodeInvalidAmountForKind else Ok ()
  else if negb (Money_IsPositive m) then fail CodeInvalidAmountForKind
  else Ok ().

Abbreviation Origin := string (only parsing).
Definition OriginInternal : Origin := "INTERNAL".
Definition OriginExternal : Origin := "EXTERNAL".

Abbreviation Status := string (only parsing).
Definition StatusPending : Status := "PENDING".
Definition StatusPendingReference : Status := "PENDING_REFERENCE".
Definition StatusProcessed : Status := "PROCESSED".
Definition StatusRejected : Status := "REJECTED".
Definition StatusFailed : Status := "FAILED".

Definition all_statuses : list Status :=
  [StatusPending; StatusPendingReference; StatusProcessed; StatusRejected; StatusFailed].

Definition Status_Valid (s : Status) : bool := bool_decide (s ∈ all_statuses).

Definition Status_IsTerminal (s : Status) : bool :=
  bool_decide (s ∈ [StatusProcessed; StatusRejected; StatusFailed]).

(** ** The transaction *)

Record WagerTransaction := mkTx {
  t_id : TransactionID;
  t_origin : Origin;
  t_kind : Kind;
  t_status : Status;
  t_walletID : WalletID;
  t_playerID : PlayerID;
  t_money : Money;
  t_providerID : ProviderID;
  t_externalID : ExternalTransactionID;
  t_idempotencyKey : IdempotencyKey;
  t_payloadHash : PayloadHash;
  t_roundID : RoundID;
  t_gameID : GameID;
  t_referenceExternalID : ExternalTransactionID;
  t_resolvedReferenceID : TransactionID;
  t_failureCode : Code;
  t_referenceAttempts : Z;
  t_referenceNextAttemptAt : Time;
  t_referenceDeadlineAt : Time;
  t_balanceAfter : Money;
  t_createdAt : Time;
  t_updatedAt : Time
}.

#[global] Instance WagerTransaction_eq_dec : EqDecision WagerTransaction.
Proof. solve_decision. Defined.

(** [WagerTransaction{}] *)
Definition noTx : WagerTransaction :=
  mkTx zeroId "" "" "" zeroId zeroId noMoney zeroId zeroId zeroId zeroId zeroId zeroId
    zeroId zeroId "" 0 zeroTime zeroTime noMoney zeroTime zeroTime.

Definition Tx_IsInitialised (t : WagerTransaction) : bool := negb (id_IsZero (t_id t)).
Definition Tx_IsTerminal (t : WagerTransaction) : bool := Status_IsTerminal (t_status t).

(** A copy of a transaction with its mutable fields replaced ([next := t]
    followed by assignments). *)
Definition tx_with (t : WagerTransaction) (status : Status) (resolved : TransactionID)
    (failure : Code) (attempts : Z) (nextAt deadlineAt : Time) (balance : Money)
    (updatedAt : Time) : WagerTransaction :=
  mkTx (t_id t) (t_origin t) (t_kind t) status (t_walletID t) (t_playerID t) (t_money t)
    (t_providerID t) (t_externalID t) (t_idempotencyKey t) (t_payloadHash t) (t_roundID t)
    (t_gameID t) (t_referenceExternalID t) resolved failure attempts nextAt deadlineAt
    balance (t_createdAt t) updatedAt.

Definition set_status (s : Status) (at_ : Time) (t : WagerTransaction) : WagerTransaction :=
  tx_with t s (t_resolvedReferenceID t) (t_failureCode t) (t_referenceAttempts t)
    (t_referenceNextAttemptAt t) (t_referenceDeadlineAt t) (t_balanceAfter t) at_.

Definition set_wait (attempts : Z) (nextAt deadlineAt : Time) (t : WagerTransaction) :=
  tx_with t (t_status t) (t_resolvedReferenceID t) (t_failureCode t) attempts nextAt deadlineAt
    (t_balanceAfter t) (t_updatedAt t).

Definition set_resolved (id : TransactionID) (at_ : Time) (t : WagerTransaction) :=
  tx_with t (t_status t) id (t_failureCode t) (t_referenceAttempts t)
    (t_referenceNextAttemptAt t) (t_referenceDeadlineAt t) (t_balanceAfter t) at_.

Definition set_failureCode (code : Code) (t : WagerTransaction) : WagerTransaction :=
  tx_with t (t_status t) (t_resolvedReferenceID t) code (t_referenceAttempts t)
    (t_referenceNextAttemptAt t) (t_referenceDeadlineAt t) (t_balanceAfter t) (t_updatedAt t).

Definition set_balanceAfter (b : Money) (t : WagerTransaction) : WagerTransaction :=
  tx_with t (t_status t) (t_resolvedReferenceID t) (t_failureCode t) (t_referenceAttempts t)
    (t_referenceNextAttemptAt t) (t_referenceDeadlineAt t) b (t_updatedAt t).

Definition set_updatedAt (at_ : Time) (t : WagerTransaction) : WagerTransaction :=
  tx_with t (t_status t) (t_resolvedReferenceID t) (t_failureCode t) (t_referenceAttempts t)
    (t_referenceNextAttemptAt t) (t_referenceDeadlineAt t) (t_balanceAfter t) at_.

Record OpeningTransactionParams := mkOpeningTransactionParams {
  ot_ID : TransactionID;
  ot_WalletID : WalletID;
  ot_PlayerID : PlayerID;
  ot_Money : Money;
  ot_CreatedAt : Time
}.

Definition NewOpeningTransaction (p : OpeningTransactionParams) : result WagerTransaction :=
  if id_IsZero (ot_ID p) then fail CodeInvalidIdentifier
  else if id_IsZero (ot_WalletID p) then fail CodeInvalidIdentifier
  else if id_IsZero (ot_PlayerID p) then fail CodeInvalidIdentifier
  else if Time_IsZero (ot_CreatedAt p) then fail CodeInvalidTimestamp
  else
    _ ← Kind_validateAmount KindOpening (ot_Money p);
    let at_ := Time_UTC (ot_CreatedAt p) in
    Ok {|
      t_id := ot_ID p;
      t_origin := OriginInternal;
      t_kind := KindOpening;
      t_status := StatusProcessed;
      t_walletID := ot_WalletID p;
      t_playerID := ot_PlayerID p;
      t_money := ot_Money p;
      t_providerID := zeroId;
      t_externalID := zeroId;
      t_idempotencyKey := zeroId;
      t_payloadHash := zeroId;
      t_roundID := zeroId;
      t_gameID := zeroId;
      t_referenceExternalID := zeroId;
      t_resolvedReferenceID := zeroId;
      t_failureCode := "";
      t_referenceAttempts := 0;
      t_referenceNextAttemptAt := zeroTime;
      t_referenceDeadlineAt := zeroTime;
      t_balanceAfter := ot_Money p;
      t_createdAt := at_;
      t_updatedAt := at_
    |}.

Record ExternalTransactionParams := mkExternalTransactionParams {
  et_ID : TransactionID;
  et_Kind : Kind;
  et_ProviderID : ProviderID;
  et_ExternalID : ExternalTransactionID;
  et_IdempotencyKey : IdempotencyKey;
  et_PayloadHash : PayloadHash;
  et_WalletID : WalletID;
  et_PlayerID : PlayerID;
  et_RoundID : RoundID;
  et_GameID : GameID;
  et_Money : Money;
  et_ReferenceExternalID : ExternalTransactionID;
  et_CreatedAt : Time
}.

Definition NewExternalTransaction (p : ExternalTransactionParams) : result WagerTransaction :=
  if negb (Kind_Valid (et_Kind p)) then fail CodeInvalidKind
  else if bool_decide (et_Kind p = KindOpening) then fail CodeInvalidKind
  else if id_IsZero (et_ID p) then fail CodeInvalidIdentifier
  else if id_IsZero (et_ProviderID p) then fail CodeInvalidIdentifier
  else if id_IsZero (et_ExternalID p) then fail CodeInvalidIdentifier
  else if id_IsZero (et_IdempotencyKey p) then fail CodeInvalidIdentifier
  else if id_IsZero (et_PayloadHash p) then fail CodeInvalidIdentifier
  else if id_IsZero (et_WalletID p) then fail CodeInvalidIdentifier
  else if id_IsZero (et_PlayerID p) then fail CodeInvalidIdentifier
  else if id_IsZero (et_RoundID p) then fail CodeInvalidIdentifier
  else if id_IsZero (et_GameID p) then fail CodeInvalidIdentifier
  else if Time_IsZero (et_CreatedAt p) then fail CodeInvalidTimestamp
  else
    _ ← Kind_validateAmount (et_Kind p) (et_Money p);
    if Kind_IsReversal (et_Kind p) && id_IsZero (et_ReferenceExternalID p)
    then fail CodeMissingReference
    else if negb (Kind_IsReversal (et_Kind p)) && negb (id_IsZero (et_ReferenceExternalID p))
    then fail CodeUnexpectedReference
    else
      let at_ := Time_UTC (et_CreatedAt p) in
      Ok {|
        t_id := et_ID p;
        t_origin := OriginExternal;
        t_kind := et_Kind p;
        t_status := StatusPending;
        t_walletID := et_WalletID p;
        t_playerID := et_PlayerID p;
        t_money := et_Money p;
        t_providerID := et_ProviderID p;
        t_externalID := et_ExternalID p;
        t_idempotencyKey := et_IdempotencyKey p;
        t_payloadHash := et_PayloadHash p;
        t_roundID := et_RoundID p;
        t_gameID := et_GameID p;
        t_referenceExternalID := et_ReferenceExternalID p;
        t_resolvedReferenceID := zeroId;
        t_failureCode := "";
        t_referenceAttempts := 0;
        t_referenceNextAttemptAt := zeroTime;
        t_referenceDeadlineAt := zeroTime;
        t_balanceAfter := noMoney;
        t_createdAt := at_;
        t_updatedAt := at_
      |}.

(** ** Transitions *)

Definition allowedTransitions : gmap Status (gmap Status bool) :=
  list_to_map [
    (StatusPending, list_to_map [
      (StatusPendingReference, true);
      (StatusProcessed, true);
      (StatusRejected, true);
      (StatusFailed, true)]);
    (StatusPendingReference, list_to_map [
      (StatusProcessed, true);
      (StatusRejected, true);
      (StatusFailed, true)]);
    (StatusProcessed, ∅);
    (StatusRejected, ∅);
    (StatusFailed, ∅)].

(** [allowedTransitions[from][to]], false when either key is absent. *)
Definition allowed (from to : Status) : bool :=
  default false (default ∅ (allowedTransitions !! from) !! to).

Definition transition (t : WagerTransaction) (to : Status) (at_ : Time)
    (apply : WagerTransaction -> WagerTransaction) : result WagerTransaction :=
  if negb (Tx_IsInitialised t) then fail CodeInvalidIdentifier
  else if Time_IsZero at_ then fail CodeInvalidTimestamp
  else if negb (allowed (t_status t) to) then fail CodeInvalidTransition
  else Ok (apply (set_status to (Time_UTC at_) t)).

Definition MarkPendingReference (t : WagerTransaction) (at_ nextAttemptAt deadlineAt : Time)
    : result WagerTransaction :=
  if negb (Kind_IsReversal (t_kind t)) then fail CodeInvalidTransition
  else if Time_IsZero nextAttemptAt || Time_IsZero deadlineAt then fail CodeInvalidTimestamp
  else transition t StatusPendingReference at_ (fun next =>
    set_wait (i64 (t_referenceAttempts next + 1)) (Time_UTC nextAttemptAt) (Time_UTC deadlineAt) next).

Definition RescheduleReference (t : WagerTransaction) (at_ nextAttemptAt : Time)
    : result WagerTransaction :=
  if negb (bool_decide (t_status t = StatusPendingReference)) then fail CodeInvalidTransition
  else if Time_IsZero at_ || Time_IsZero nextAttemptAt then fail CodeInvalidTimestamp
  else Ok (set_updatedAt (Time_UTC at_)
             (set_wait (i64 (t_referenceAttempts t + 1)) (Time_UTC nextAttemptAt)
                (t_referenceDeadlineAt t) t)).

Definition ReferenceDeadlinePassed (t : WagerTransaction) (now : Time) : bool :=
  negb (Time_IsZero (t_referenceDeadlineAt t)) && negb (Time_Before now (t_referenceDeadlineAt t)).

Definition ResolveReference (t : WagerTransaction) (id : TransactionID) (at_ : Time)
    : result WagerTransaction :=
  if negb (Kind_IsReversal (t_kind t)) then fail CodeUnexpectedReference
  else if id_IsZero id then fail CodeInvalidIdentifier
  else if Tx_IsTerminal t then fail CodeInvalidTransition
  else if Time_IsZero at_ then fail CodeInvalidTimestamp
  else Ok (set_resolved id (Time_UTC at_) t).

Definition MarkProcessed (t : WagerTransaction) (balanceAfter : Money) (at_ : Time)
    : result WagerTransaction :=
  if negb (Money_IsInitialised balanceAfter) then fail CodeInvalidCurrency
  else if Money_IsInitialised (t_money t) &&
          negb (bool_decide (currency balanceAfter = currency (t_money t)))
  then fail CodeCurrencyMismatch
  else transition t StatusProcessed at_ (set_balanceAfter balanceAfter).

Definition Tx_Reject (t : WagerTransaction) (code : Code) (at_ : Time) : result WagerTransaction :=
  if bool_decide (code = "") then fail CodeInvalidStatus
  else transition t StatusRejected at_ (set_failureCode code).

Definition Tx_Fail (t : WagerTransaction) (code : Code) (at_ : Time) : result WagerTransaction :=
  if bool_decide (code = "") then fail CodeInvalidStatus
  else transition t StatusFailed at_ (set_failureCode code).

(** ** Rehydration *)

Definition utcOrZero (at_ : Time) : Time := if Time_IsZero at_ then zeroTime else Time_UTC at_.

(** [RehydrateTransactionParams] has the fields of the transaction. *)
Definition RehydrateTransactionParams : Type := WagerTransaction.

Definition RehydrateTransaction (p : RehydrateTransactionParams) : result WagerTransaction :=
  if id_IsZero (t_id p) then fail CodeInvalidIdentifier
  else if negb (Kind_Valid (t_kind p)) then fail CodeInvalidKind
  else if negb (Status_Valid (t_status p)) then fail CodeInvalidStatus
  else if id_IsZero (t_walletID p) then fail CodeInvalidIdentifier
  else if id_IsZero (t_playerID p) then fail CodeInvalidIdentifier
  else if Time_IsZero (t_createdAt p) || Time_IsZero (t_updatedAt p) then fail CodeInvalidTimestamp
  else
    _ ← Kind_validateAmount (t_kind p) (t_money p);
    _ ← (if bool_decide (t_origin p = OriginInternal) then
           if negb (bool_decide (t_kind p = KindOpening)) then fail CodeInvalidKind
           else if negb (id_IsZero (t_providerID p)) || negb (id_IsZero (t_externalID p)) ||
                   negb (id_IsZero (t_idempotencyKey p)) || negb (id_IsZero (t_payloadHash p)) ||
                   negb (id_IsZero (t_roundID p)) || negb (id_IsZero (t_gameID p)) ||
                   negb (id_IsZero (t_referenceExternalID p))
           then fail CodeInvalidKind
           else Ok ()
         else if bool_decide (t_origin p = OriginExternal) then
           if bool_decide (t_kind p = KindOpening) then fail CodeInvalidKind
           else if id_IsZero (t_providerID p) || id_IsZero (t_externalID p) ||
                   id_IsZero (t_idempotencyKey p) || id_IsZero (t_payloadHash p) ||
                   id_IsZero (t_roundID p) || id_IsZero (t_gameID p)
           then fail CodeInvalidIdentifier
           else if Kind_IsReversal (t_kind p) && id_IsZero (t_referenceExternalID p)
           then fail CodeMissingReference
           else if negb (Kind_IsReversal (t_kind p)) && negb (id_IsZero (t_referenceExternalID p))
           then fail CodeUnexpectedReference
           else Ok ()
         else fail CodeInvalidKind);
    Ok {|
      t_id := t_id p;
      t_origin := t_origin p;
      t_kind := t_kind p;
      t_status := t_status p;
      t_walletID := t_walletID p;
      t_playerID := t_playerID p;
      t_money := t_money p;
      t_providerID := t_providerID p;
      t_externalID := t_externalID p;
      t_idempotencyKey := t_idempotencyKey p;
      t_payloadHash := t_payloadHash p;
      t_roundID := t_roundID p;
      t_gameID := t_gameID p;
      t_referenceExternalID := t_referenceExternalID p;
      t_resolvedReferenceID := t_resolvedReferenceID p;
      t_failureCode := t_failureCode p;
      t_referenceAttempts := t_referenceAttempts p;
      t_referenceNextAttemptAt := utcOrZero (t_referenceNextAttemptAt p);
      t_referenceDeadlineAt := utcOrZero (t_referenceDeadlineAt p);
      t_balanceAfter := t_balanceAfter p;
      t_createdAt := Time_UTC (t_createdAt p);
      t_updatedAt := Time_UTC (t_updatedAt p)
    |}.

(** ** Reversals *)

(** [Kind.Direction]: the direction, and whether the kind moves money. *)
Definition Kind_Direction (k : Kind) : Direction * bool :=
  if bool_decide (k ∈ [KindOpening; KindWin; KindRefund]) then (Credit, true)
  else if bool_decide (k = KindBet) then (Debit, true)
  else if bool_decide (k = KindRollback) then ("", false)
  else ("", false).

Definition CanReverse (k target : Kind) : bool :=
  if bool_decide (k = KindRefund) then bool_decide (target = KindBet)
  else if bool_decide (k = KindRollback)
  then bool_decide (target = KindBet) || bool_decide (target = KindWin) ||
       bool_decide (target = KindRefund)
  else false.

Definition ReversalDirection (target : Kind) : result Direction :=
  let '(direction, moves) := Kind_Direction target in
  if negb moves then fail CodeReferenceNotReversible else Ok (Direction_Opposite direction).

(** ** The life of an operation *)

(** One operation of the state machine. *)
Inductive tx_step : WagerTransaction -> WagerTransaction -> Prop :=
| step_park t at_ next deadline t' :
    MarkPendingReference t at_ next deadline = Ok t' -> tx_step t t'
| step_reschedule t at_ next t' : RescheduleReference t at_ next = Ok t' -> tx_step t t'
| step_resolve t id at_ t' : ResolveReference t id at_ = Ok t' -> tx_step t t'
| step_process t b at_ t' : MarkProcessed t b at_ = Ok t' -> tx_step t t'
| step_reject t code at_ t' : Tx_Reject t code at_ = Ok t' -> tx_step t t'
| step_fail t code at_ t' : Tx_Fail t code at_ = Ok t' -> tx_step t t'.

(** Transactions the program can hold: built by a constructor, then moved by
    steps; the attempt counter has room for one more. *)
Inductive tx_reachable : WagerTransaction -> Prop :=
| reach_opening p t : NewOpeningTransaction p = Ok t -> tx_reachable t
| reach_external p t : NewExternalTransaction p = Ok t -> tx_reachable t
| reach_step t t' :
    tx_reachable t -> t_referenceAttempts t < MaxInt64 -> tx_step t t' -> tx_reachable t'.

(** The shape an origin imposes on the metadata. *)
Definition tx_shape (t : WagerTransaction) : Prop :=
  (t_origin t = OriginInternal /\ t_kind t = KindOpening /\
   t_providerID t = zeroId /\ t_externalID t = zeroId /\ t_idempotencyKey t = zeroId /\
   t_payloadHash t = zeroId /\ t_roundID t = zeroId /\ t_gameID t = zeroId /\
   t_referenceExternalID t = zeroId) \/
  (t_origin t = OriginExternal /\ t_kind t <> KindOpening /\
   t_providerID t <> zeroId /\ t_externalID t <> zeroId /\ t_idempotencyKey t <> zeroId /\
   t_payloadHash t <> zeroId /\ t_roundID t <> zeroId /\ t_gameID t <> zeroId /\
   (Kind_IsReversal (t_kind t) = true <-> t_referenceExternalID t <> zeroId)).

Record tx_ok (t : WagerTransaction) : Prop := {
  to_id : t_id t <> zeroId;
  to_walletID : t_walletID t <> zeroId;
  to_playerID : t_playerID t <> zeroId;
  to_kind : Kind_Valid (t_kind t) = true;
  to_status : Status_Valid (t_status t) = true;
  to_amount : Kind_validateAmount (t_kind t) (t_money t) = Ok ();
  to_shape : tx_shape t;
  to_createdAt : Time_IsZero (t_createdAt t) = false /\ is_utc (t_createdAt t);
  to_updatedAt : Time_IsZero (t_updatedAt t) = false /\ is_utc (t_updatedAt t);
  to_attempts : 0 <= t_referenceAttempts t;
  to_nextAt : is_utc (t_referenceNextAttemptAt t);
  to_deadlineAt : is_utc (t_referenceDeadlineAt t);
  to_waiting : t_status t = StatusPendingReference ->
    Kind_IsReversal (t_kind t) = true /\ 0 < t_referenceAttempts t /\
    Time_IsZero (t_referenceNextAttemptAt t) = false /\
    Time_IsZero (t_referenceDeadlineAt t) = false;
  to_failure : (t_status t = StatusRejected \/ t_status t = StatusFailed) <-> t_failureCode t <> "";
  to_processed : t_status t = StatusProcessed <-> Money_IsInitialised (t_balanceAfter t) = true;
  to_balance_currency : t_status t = StatusProcessed ->
    currency (t_balanceAfter t) = currency (t_money t);
  to_resolved : t_resolvedReferenceID t <> zeroId -> Kind_IsReversal (t_kind t) = true
}.

(** ** Lemmas *)

Lemma Kind_Valid_iff k : Kind_Valid k = true <-> k ∈ all_kinds.
Proof. apply bool_decide_eq_true. Qed.

Lemma Status_Valid_iff s : Status_Valid s = true <-> s ∈ all_statuses.
Proof. apply bool_decide_eq_true. Qed.

Lemma Status_IsTerminal_iff s :
  Status_IsTerminal s = true <-> s = StatusProcessed \/ s = StatusRejected \/ s = StatusFailed.
Proof. unfold Status_IsTerminal. rewrite bool_decide_eq_true. set_solver. Qed.

Lemma Kind_IsReversal_iff k :
  Kind_IsReversal k = true <-> k = KindRefund \/ k = KindRollback.
Proof. unfold Kind_IsReversal. by rewrite orb_true_iff, !bool_decide_eq_true. Qed.

Lemma allowed_iff from to :
  allowed from to = true <->
  (from = StatusPending /\
     (to = StatusPendingReference \/ to = StatusProcessed \/ to = StatusRejected \/ to = StatusFailed)) \/
  (from = StatusPendingReference /\
     (to = StatusProcessed \/ to = StatusRejected \/ to = StatusFailed)).
Proof.
  unfold allowed, allowedTransitions. cbn [list_to_map foldr]. rewrite !lookup_insert.
  repeat case_decide; subst; cbn [default]; rewrite ?lookup_insert, ?lookup_empty;
    repeat case_decide; subst; cbn; try naive_solver.
  all: rewrite !lookup_insert. all: repeat case_decide; subst; cbn; naive_solver.
Qed.

(** What a validated amount is. *)
Lemma Kind_validateAmount_iff k m :
  Kind_validateAmount k m = Ok () <->
  Money_IsInitialised m = true /\
  ((k = KindLoss /\ minor m = 0) \/ (k <> KindLoss /\ 0 < minor m)).
Proof.
  unfold Kind_validateAmount, Money_IsZero, Money_IsPositive, fail.
  destruct (Money_IsInitialised m); cbn; [|naive_solver].
  case_bool_decide; subst.
  - destruct (Z.eqb_spec (minor m) 0); cbn; naive_solver.
  - destruct (Z.ltb_spec 0 (minor m)); cbn; naive_solver lia.
Qed.

Lemma transition_Ok t to at_ f t' :
  transition t to at_ f = Ok t' <->
  t_id t <> zeroId /\ Time_IsZero at_ = false /\ allowed (t_status t) to = true /\
  t' = f (set_status to (Time_UTC at_) t).
Proof.
  unfold transition, Tx_IsInitialised. destruct (id_IsZero (t_id t)) eqn:Hi.
  { apply id_IsZero_true in Hi. cbn. unfold fail. naive_solver. }
  assert (t_id t <> zeroId) by (intros E%id_IsZero_true; congruence). cbn.
  destruct (Time_IsZero at_); cbn; [unfold fail; naive_solver|].
  destruct (allowed _ _); cbn; unfold fail; naive_solver.
Qed.

(** The steps change only the mutable fields. *)
Lemma tx_step_frame t t' :
  tx_step t t' -> exists s r c a n d b u, t' = tx_with t s r c a n d b u.
Proof.
  destruct 1 as [t at_ n d t' H|t at_ n t' H|t i at_ t' H|t b at_ t' H|t c at_ t' H|t c at_ t' H].
  - unfold MarkPendingReference in H. guards H. apply transition_Ok in H as (_ & _ & _ & ->).
    by repeat eexists.
  - unfold RescheduleReference in H. guards H. injection H as <-. by repeat eexists.
  - unfold ResolveReference in H. guards H. injection H as <-. by repeat eexists.
  - unfold MarkProcessed in H. guards H. apply transition_Ok in H as (_ & _ & _ & ->).
    by repeat eexists.
  - unfold Tx_Reject in H. guards H. apply transition_Ok in H as (_ & _ & _ & ->).
    by repeat eexists.
  - unfold Tx_Fail in H. guards H. apply transition_Ok in H as (_ & _ & _ & ->).
    by repeat eexists.
Qed.

Lemma tx_step_terminal t t' : tx_step t t' -> Tx_IsTerminal t = false.
Proof.
  assert (Ht : forall to, allowed (t_status t) to = true -> Tx_IsTerminal t = false).
  { intros to Ha. apply not_true_iff_false. unfold Tx_IsTerminal.
    rewrite Status_IsTerminal_iff. apply allowed_iff in Ha.
    destruct Ha as [[-> _]|[-> _]]; intros [?|[?|?]]; done. }
  destruct 1 as [t at_ n d t' H|t at_ n t' H|t i at_ t' H|t b at_ t' H|t c at_ t' H|t c at_ t' H].
  - unfold MarkPendingReference in H. guards H. apply transition_Ok in H as (_ & _ & ? & _). eauto.
  - unfold RescheduleReference in H. guards H. apply negb_false_iff, bool_decide_eq_true in G.
    unfold Tx_IsTerminal. by rewrite G.
  - unfold ResolveReference in H. by guards H.
  - unfold MarkProcessed in H. guards H. apply transition_Ok in H as (_ & _ & ? & _). eauto.
  - unfold Tx_Reject in H. guards H. apply transition_Ok in H as (_ & _ & ? & _). eauto.
  - unfold Tx_Fail in H. guards H. apply transition_Ok in H as (_ & _ & ? & _). eauto.
Qed.

Lemma id_IsZero_neq {k} (i : identifier k) : id_IsZero i = false <-> i <> zeroId.
Proof. rewrite <- id_IsZero_true, not_true_iff_false. done. Qed.

(** The constructors establish the invariant. *)
Lemma NewOpeningTransaction_ok p t : NewOpeningTransaction p = Ok t -> tx_ok t.
Proof.
  unfold NewOpeningTransaction. intros H. guards H.
  apply result_bind_Ok in H as ([] & Ha & H). injection H as <-.
  apply Kind_validateAmount_iff in Ha as Ha'. destruct Ha' as (Hi & _).
  rewrite ?id_IsZero_neq in *. constructor; cbn; try done.
  - by left.
  - split; [by intros [?|?]|done].
Qed.

Lemma NewExternalTransaction_ok p t : NewExternalTransaction p = Ok t -> tx_ok t.
Proof.
  unfold NewExternalTransaction. intros H. guards H.
  apply result_bind_Ok in H as ([] & Ha & H). guards H. injection H as <-.
  rewrite ?id_IsZero_neq in *. apply negb_false_iff in G. apply bool_decide_eq_false in G0.
  constructor; cbn; try done.
  - right. split_and!; try done. cbn. rewrite <- id_IsZero_neq.
    destruct (Kind_IsReversal (et_Kind p)), (id_IsZero (et_ReferenceExternalID p)); done.
  - split; [by intros [?|?]|done].
Qed.

Lemma set_status_same s u t : t_status (set_status s u t) = s.
Proof. done. Qed.

(** Each step preserves the invariant. *)
Lemma transition_ok_common t to at_ f t' :
  tx_ok t -> transition t to at_ f = Ok t' ->
  t_status t = StatusPending \/ t_status t = StatusPendingReference.
Proof. intros _ (_ & _ & Ha & _)%transition_Ok. apply allowed_iff in Ha. naive_solver. Qed.

Lemma open_tx_clean t :
  tx_ok t -> t_status t = StatusPending \/ t_status t = StatusPendingReference ->
  t_failureCode t = "" /\ Money_IsInitialised (t_balanceAfter t) = false.
Proof.
  intros Hok Hs. destruct Hok. split.
  - destruct (decide (t_failureCode t = "")) as [|Hne]; [done|].
    apply to_failure0 in Hne. destruct Hs as [Hs|Hs]; rewrite Hs in Hne; by destruct Hne.
  - apply not_true_iff_false. intros Hb. apply to_processed0 in Hb.
    destruct Hs as [Hs|Hs]; by rewrite Hs in Hb.
Qed.

Lemma step_park_ok t at_ n d t' :
  tx_ok t -> t_referenceAttempts t < MaxInt64 -> MarkPendingReference t at_ n d = Ok t' -> tx_ok t'.
Proof.
  intros Hok Hlt H. unfold MarkPendingReference in H. guards H.
  pose proof (open_tx_clean t Hok (transition_ok_common _ _ _ _ _ Hok H)) as [Hf Hb].
  apply transition_Ok in H as (_ & Ht & Ha & ->). apply negb_false_iff in G.
  apply orb_false_iff in G0 as [Hn Hd].
  destruct Hok; constructor; cbn -[i64]; try done.
  - rewrite i64_id by (width; lia). lia.
  - intros _. rewrite i64_id by (width; lia). split_and!; try done. lia.
  - rewrite Hf. split; [by intros [?|?]|done].
  - rewrite Hb. done.
Qed.

Lemma step_reschedule_ok t at_ n t' :
  tx_ok t -> t_referenceAttempts t < MaxInt64 -> RescheduleReference t at_ n = Ok t' -> tx_ok t'.
Proof.
  intros Hok Hlt H. unfold RescheduleReference in H. guards H. injection H as <-.
  apply negb_false_iff, bool_decide_eq_true in G. apply orb_false_iff in G0 as [Hat Hn].
  destruct Hok; constructor; cbn -[i64]; try done.
  - rewrite i64_id by (width; lia). lia.
  - intros Hs. destruct (to_waiting0 Hs) as (? & ? & _ & ?).
    rewrite i64_id by (width; lia). split_and!; try done. lia.
Qed.

Lemma step_resolve_ok t i at_ t' :
  tx_ok t -> ResolveReference t i at_ = Ok t' -> tx_ok t'.
Proof.
  intros Hok H. unfold ResolveReference in H. guards H. injection H as <-.
  apply negb_false_iff in G. by destruct Hok; constructor.
Qed.

Lemma step_process_ok t b at_ t' : tx_ok t -> MarkProcessed t b at_ = Ok t' -> tx_ok t'.
Proof.
  intros Hok H. unfold MarkProcessed in H. guards H.
  pose proof (open_tx_clean t Hok (transition_ok_common _ _ _ _ _ Hok H)) as [Hf Hb].
  apply transition_Ok in H as (_ & Ht & Ha & ->). apply negb_false_iff in G.
  destruct Hok; constructor; cbn; try done.
  - rewrite Hf. split; [by intros [?|?]|done].
  - intros _. apply Kind_validateAmount_iff in to_amount0 as [Hi _]. rewrite Hi in G0. cbn in G0.
    by apply negb_false_iff, bool_decide_eq_true in G0.
Qed.

Lemma step_close_ok t to code at_ t' :
  to = StatusRejected \/ to = StatusFailed -> code <> "" ->
  tx_ok t -> transition t to at_ (set_failureCode code) = Ok t' -> tx_ok t'.
Proof.
  intros Hto Hc Hok H.
  pose proof (open_tx_clean t Hok (transition_ok_common _ _ _ _ _ Hok H)) as [Hf Hb].
  apply transition_Ok in H as (_ & Ht & Ha & ->).
  destruct Hok; constructor; cbn; try done.
  - by destruct Hto as [->| ->].
  - by destruct Hto as [->| ->].
  - rewrite Hb. by destruct Hto as [->| ->].
  - by destruct Hto as [->| ->].
Qed.

Lemma tx_step_ok t t' :
  tx_step t t' -> t_referenceAttempts t < MaxInt64 -> tx_ok t -> tx_ok t'.
Proof.
  destruct 1 as [t at_ n d t' H|t at_ n t' H|t i at_ t' H|t b at_ t' H|t c at_ t' H|t c at_ t' H];
    intros; eauto using step_park_ok, step_reschedule_ok, step_resolve_ok, step_process_ok.
  - unfold Tx_Reject in H. guards H. apply bool_decide_eq_false in G.
    eapply step_close_ok; [| | |done]; auto.
  - unfold Tx_Fail in H. guards H. apply bool_decide_eq_false in G.
    eapply step_close_ok; [| | |done]; auto.
Qed.

Lemma tx_reachable_ok t : tx_reachable t -> tx_ok t.
Proof.
  induction 1 as [p t H|p t H|t t' _ IH Hlt Hs];
    eauto using NewOpeningTransaction_ok, NewExternalTransaction_ok, tx_step_ok.
Qed.

(** Reading a valid transaction back returns it. *)
Lemma utcOrZero_UTC at_ : utcOrZero at_ = Time_UTC at_.
Proof.
  unfold utcOrZero. destruct (Time_IsZero at_) eqn:E; [|done]. unfold Time_IsZero in E.
  unfold zeroTime, Time_UTC. f_equal. lia.
Qed.

Lemma RehydrateTransaction_ok t : tx_ok t -> RehydrateTransaction t = Ok t.
Proof.
  intros Hok. destruct Hok. unfold RehydrateTransaction.
  rewrite <- !id_IsZero_neq in *. rewrite to_id0, to_kind0, to_status0, to_walletID0, to_playerID0.
  destruct to_createdAt0 as [-> Hcu], to_updatedAt0 as [-> Huu]. cbn [negb orb].
  rewrite to_amount0. cbn [mbind result_bind].
  rewrite !utcOrZero_UTC, !Time_UTC_id by done.
  destruct to_shape0 as [Hs
                        |(Ho & Hk & Hp & He & Hi & Hh & Hr & Hg & Href)].
  - destruct t; cbn in *. destruct_and?; subst. done.
  - rewrite (bool_decide_eq_false_2 (t_origin t = OriginInternal)) by (rewrite Ho; done).
    rewrite (bool_decide_eq_true_2 (t_origin t = OriginExternal)) by done.
    rewrite bool_decide_eq_false_2 by done. rewrite <- !id_IsZero_neq in *.
    rewrite Hp, He, Hi, Hh, Hr, Hg. cbn [orb].
    destruct (Kind_IsReversal (t_kind t)), (id_IsZero (t_referenceExternalID t)) eqn:Hz; cbn.
    + exfalso. by discriminate (proj1 Href eq_refl).
    + by destruct t.
    + by destruct t.
    + exfalso. by discriminate (proj2 Href eq_refl).
Qed.

(** A reversal that is allowed knows its direction, and it undoes the target. *)
Lemma CanReverse_direction k target :
  CanReverse k target = true ->
  Kind_IsReversal k = true /\
  exists d d', Kind_Direction target = (d, true) /\ ReversalDirection target = Ok d' /\
    Direction_Valid d = true /\ Direction_Valid d' = true /\
    forall v, signed d v + signed d' v = 0.
Proof.
  unfold CanReverse. intros H.
  assert (Hk : (k = KindRefund \/ k = KindRollback) /\
    (target = KindBet \/ target = KindWin \/ target = KindRefund)).
  { revert H. repeat case_bool_decide; cbn; naive_solver. }
  destruct Hk as [Hk Ht]. split; [by apply Kind_IsReversal_iff|].
  destruct Ht as [->|[->| ->]].
  - exists Debit, Credit. split_and!; try done. intros v. rewrite signed_Debit, signed_Credit. lia.
  - exists Credit, Debit. split_and!; try done. intros v. rewrite signed_Debit, signed_Credit. lia.
  - exists Credit, Debit. split_and!; try done. intros v. rewrite signed_Debit, signed_Credit. lia.
Qed.

(** ** Properties *)

Definition example_external : ExternalTransactionParams :=
  mkExternalTransactionParams (mkId "t1") KindRefund (mkId "acme") (mkId "x1") (mkId "k1")
    (mkId "sha256:00") (mkId "w1") (mkId "p1") (mkId "r1") (mkId "g1")
    (mkMoney 2500 (mkCurrency "BRL")) (mkId "x0") (mkTime 100 (Zone 5)).

(** C36: every transaction the program can reach is well formed (the kind's
    amount policy, the metadata shape of its origin, a failure code exactly
    when rejected or failed, an observed balance in the right currency exactly
    when processed, a schedule and a deadline whenever it waits), and reading
    it back from its own fields returns it unchanged. *)
Theorem transaction_lifecycle_invariant t :
  tx_reachable t -> tx_ok t /\ RehydrateTransaction t = Ok t.
Proof. intros H%tx_reachable_ok. auto using RehydrateTransaction_ok. Qed.

Lemma transaction_lifecycle_invariant_witness :
  exists t, tx_reachable t /\ t_status t = StatusPendingReference /\ tx_ok t.
Proof.
  assert (H : exists t, tx_reachable t /\ t_status t = StatusPendingReference).
  { eexists. split.
    - eapply reach_step.
      + apply (reach_external example_external). vm_compute. reflexivity.
      + vm_compute. reflexivity.
      + apply (step_park _ (mkTime 100 UTC) (mkTime 200 UTC) (mkTime 900 UTC)).
        vm_compute. reflexivity.
    - reflexivity. }
  destruct H as (t & Hr & Hs). exists t. split; [exact Hr|]. split; [exact Hs|].
  exact (proj1 (transaction_lifecycle_invariant t Hr)).
Defined.

(** A terminal operation is final: none of the six operations succeeds
    on it, and no operation at any point changes what was asked (identity,
    origin, kind, wallet, player, money, provider metadata, creation time). *)
Theorem terminal_is_final t :
  (Tx_IsTerminal t = true ->
   forall at_ n d id b code,
     is_Ok (MarkPendingReference t at_ n d) = false /\
     is_Ok (RescheduleReference t at_ n) = false /\
     is_Ok (ResolveReference t id at_) = false /\
     is_Ok (MarkProcessed t b at_) = false /\
     is_Ok (Tx_Reject t code at_) = false /\
     is_Ok (Tx_Fail t code at_) = false) /\
  (forall t', tx_step t t' ->
     t_id t' = t_id t /\ t_origin t' = t_origin t /\ t_kind t' = t_kind t /\
     t_walletID t' = t_walletID t /\ t_playerID t' = t_playerID t /\ t_money t' = t_money t /\
     t_providerID t' = t_providerID t /\ t_externalID t' = t_externalID t /\
     t_idempotencyKey t' = t_idempotencyKey t /\ t_payloadHash t' = t_payloadHash t /\
     t_roundID t' = t_roundID t /\ t_gameID t' = t_gameID t /\
     t_referenceExternalID t' = t_referenceExternalID t /\ t_createdAt t' = t_createdAt t).
Proof.
  split.
  - intros Ht at_ n d id b code.
    assert (Hs : forall (r : result WagerTransaction), (forall t', r = Ok t' -> tx_step t t') -> is_Ok r = false).
    { intros [t'|] Hr; [|done]. specialize (Hr t' eq_refl). apply tx_step_terminal in Hr. congruence. }
    split_and!; apply Hs; intros t' H; eauto using tx_step.
  - intros t' (s & r & c & a & n & d & b & u & ->)%tx_step_frame. done.
Qed.

(** The reversal matrix is coherent: whatever a kind may reverse moved
    money in a definite direction, the reversal direction is defined, and
    the two signed amounts cancel; nothing reverses a LOSS, a ROLLBACK or
    the internal OPENING. *)
Theorem reversal_matrix_coherent k target :
  (CanReverse k target = true ->
   exists d d', Kind_Direction target = (d, true) /\ ReversalDirection target = Ok d' /\
     forall v, signed d v + signed d' v = 0) /\
  CanReverse k KindLoss = false /\ CanReverse k KindRollback = false /\
  CanReverse k KindOpening = false.
Proof.
  split.
  - intros (_ & d & d' & H1 & H2 & _ & _ & H3)%CanReverse_direction. eauto.
  - unfold CanReverse. split_and!; repeat case_bool_decide; naive_solver.
Qed.
