(* ===== verification/Event.v ===== *)
(** * Event: [internal/domain/event.go]

    The facts the service announces.  A payload is kept as the ordered list of
    JSON fields [encoding/json] writes for the payload struct: strings,
    integers, nested objects, and an instant formatted with [RFC3339Nano].
    Marshalling such a struct cannot fail. *)

From S2P Require Import Prelude Errors GoTime Money Identifier Ledger Wallet Transaction.

#[local] Open Scope string_scope.
#[local] Open Scope list_scope.
#[local] Open Scope Z_scope.

(** ** Definitions *)

Abbreviation EventType := string (only parsing).
Definition EventWagerTransactionProcessed : EventType := "WagerTransactionProcessed".
Definition EventWagerTransactionRejected : EventType := "WagerTransactionRejected".
Definition EventWalletBalanceChanged : EventType := "WalletBalanceChanged".
Definition EventWagerTransactionPendingReference : EventType := "WagerTransactionPendingReference".

Inductive json :=
| JString (s : string)
| JInt (z : Z)
| JTime (t : Time)
| JObject (fields : list (string * json)).

Record Event := mkEvent {
  ev_Type : EventType;
  ev_Version : Z;
  ev_AggregateID : string;
  ev_OccurredAt : Time;
  ev_Payload : json
}.

Definition currentEventVersion : Z := 1.

Record moneyPayload := mkMoneyPayload { mp_Amount : string; mp_Currency : string }.

Definition toMoneyPayload (m : Money) : moneyPayload :=
  mkMoneyPayload (Money_String m) (cur_code (currency m)).

Definition json_money (m : moneyPayload) : json :=
  JObject [("amount", JString (mp_Amount m)); ("currency", JString (mp_Currency m))].

Record transactionPayload := mkTransactionPayload {
  tp_TransactionID : string;
  tp_Kind : string;
  tp_Status : string;
  tp_WalletID : string;
  tp_PlayerID : string;
  tp_Money : moneyPayload;
  tp_ProviderID : string;
  tp_ExternalID : string;
  tp_RoundID : string;
  tp_GameID : string;
  tp_FailureCode : string;
  tp_BalanceAfter : option moneyPayload
}.

Definition toTransactionPayload (t : WagerTransaction) : transactionPayload := {|
  tp_TransactionID := id_value (t_id t);
  tp_Kind := t_kind t;
  tp_Status := t_status t;
  tp_WalletID := id_value (t_walletID t);
  tp_PlayerID := id_value (t_playerID t);
  tp_Money := toMoneyPayload (t_money t);
  tp_ProviderID := id_value (t_providerID t);
  tp_ExternalID := id_value (t_externalID t);
  tp_RoundID := id_value (t_roundID t);
  tp_GameID := id_value (t_gameID t);
  tp_FailureCode := t_failureCode t;
  tp_BalanceAfter :=
    if Money_IsInitialised (t_balanceAfter t) then Some (toMoneyPayload (t_balanceAfter t))
    else None
|}.

(** A field tagged [omitempty]. *)
Definition omitempty (name s : string) : list (string * json) :=
  if bool_decide (s = "") then [] else [(name, JString s)].

Definition json_transaction (p : transactionPayload) : list (string * json) :=
  [("transactionId", JString (tp_TransactionID p));
   ("kind", JString (tp_Kind p));
   ("status", JString (tp_Status p));
   ("walletId", JString (tp_WalletID p));
   ("playerId", JString (tp_PlayerID p));
   ("money", json_money (tp_Money p))] ++
  omitempty "providerId" (tp_ProviderID p) ++
  omitempty "externalTransactionId" (tp_ExternalID p) ++
  omitempty "roundId" (tp_RoundID p) ++
  omitempty "gameId" (tp_GameID p) ++
  omitempty "failureCode" (tp_FailureCode p) ++
  match tp_BalanceAfter p with
  | Some b => [("balanceAfter", json_money b)]
  | None => []
  end.

Definition marshalEvent (eventType : EventType) (aggregateID : string) (occurredAt : Time)
    (payload : json) : result Event :=
  if bool_decide (aggregateID = "") then fail CodeInvalidIdentifier
  else if Time_IsZero occurredAt then fail CodeInvalidTimestamp
  else Ok (mkEvent eventType currentEventVersion aggregateID (Time_UTC occurredAt) payload).

Definition NewWagerTransactionProcessed (t : WagerTransaction) : result Event :=
  if negb (bool_decide (t_status t = StatusProcessed)) then fail CodeInvalidStatus
  else marshalEvent EventWagerTransactionProcessed (id_value (t_id t)) (t_updatedAt t)
         (JObject (json_transaction (toTransactionPayload t))).

Definition NewWagerTransactionRejected (t : WagerTransaction) : result Event :=
  if negb (bool_decide (t_status t = StatusRejected)) then fail CodeInvalidStatus
  else if bool_decide (t_failureCode t = "") then fail CodeInvalidStatus
  else marshalEvent EventWagerTransactionRejected (id_value (t_id t)) (t_updatedAt t)
         (JObject (json_transaction (toTransactionPayload t))).

Definition NewWagerTransactionPendingReference (t : WagerTransaction) : result Event :=
  if negb (bool_decide (t_status t = StatusPendingReference)) then fail CodeInvalidStatus
  else marshalEvent EventWagerTransactionPendingReference (id_value (t_id t)) (t_updatedAt t)
         (JObject (json_transaction (toTransactionPayload t) ++
            [("referenceExternalTransactionId", JString (id_value (t_referenceExternalID t)));
             ("attempts", JInt (t_referenceAttempts t));
             ("deadlineAt", JTime (t_referenceDeadlineAt t))])).

Definition NewWalletBalanceChanged (wallet : Wallet) (entry : LedgerEntry) : result Event :=
  if negb (Wallet_IsInitialised wallet) then fail CodeInvalidIdentifier
  else if negb (bool_decide (le_walletID entry = w_id wallet)) then fail CodeInvalidIdentifier
  else if negb (bool_decide (le_balanceAfter entry = w_balance wallet)) then fail CodeInconsistentEntry
  else marshalEvent EventWalletBalanceChanged (id_value (w_id wallet)) (le_createdAt entry)
         (JObject
            [("walletId", JString (id_value (w_id wallet)));
             ("transactionId", JString (id_value (le_transactionID entry)));
             ("direction", JString (le_direction entry));
             ("money", json_money (toMoneyPayload (le_amount entry)));
             ("balanceBefore", json_money (toMoneyPayload (le_balanceBefore entry)));
             ("balanceAfter", json_money (toMoneyPayload (le_balanceAfter entry)));
             ("walletVersion", JInt (w_version wallet))]).

(** ** Lemmas *)

(** The first field of an object with a given name. *)
Fixpoint field (name : string) (fields : list (string * json)) : option json :=
  match fields with
  | [] => None
  | (n, j) :: fields => if String.eqb n name then Some j else field name fields
  end.

Definition payload_field (name : string) (e : Event) : option json :=
  match ev_Payload e with JObject fields => field name fields | _ => None end.

Lemma field_app name fs gs :
  field name (fs ++ gs) = match field name fs with Some j => Some j | None => field name gs end.
Proof. induction fs as [|[n j] fs IH]; [done|]. cbn. by destruct (String.eqb n name). Qed.

Lemma field_omitempty name n s :
  field name (if bool_decide (s = "") then [] else [(n, JString s)]) =
    if String.eqb n name then (if bool_decide (s = "") then None else Some (JString s)) else None.
Proof. case_bool_decide; cbn; by destruct (String.eqb n name). Qed.

Lemma marshalEvent_Ok ty agg at_ p e :
  marshalEvent ty agg at_ p = Ok e <->
  agg <> "" /\ Time_IsZero at_ = false /\ e = mkEvent ty currentEventVersion agg (Time_UTC at_) p.
Proof.
  unfold marshalEvent, fail. case_bool_decide; [naive_solver|].
  destruct (Time_IsZero at_); naive_solver.
Qed.

Lemma tx_ok_id t : tx_ok t -> id_value (t_id t) <> "".
Proof. intros [Hid _ _ _ _ _ _ _ _ _ _ _ _ _ _ _ _]. by rewrite <- id_IsZero_false, id_IsZero_neq. Qed.

(** The constructors accept exactly their own status on a valid transaction. *)
Lemma NewWagerTransactionProcessed_Ok t :
  tx_ok t ->
  NewWagerTransactionProcessed t =
    if decide (t_status t = StatusProcessed)
    then Ok (mkEvent EventWagerTransactionProcessed currentEventVersion (id_value (t_id t))
               (t_updatedAt t) (JObject (json_transaction (toTransactionPayload t))))
    else fail CodeInvalidStatus.
Proof.
  intros Hok. pose proof (tx_ok_id t Hok). pose proof (to_updatedAt t Hok) as [Hz Hu].
  pose proof (to_failure t Hok) as Hfail. unfold NewWagerTransactionProcessed.
  case_bool_decide; [rewrite decide_True by done|by rewrite decide_False]. cbn [negb].
  apply marshalEvent_Ok. by rewrite Time_UTC_id.
Qed.

Lemma NewWagerTransactionRejected_Ok t :
  tx_ok t ->
  NewWagerTransactionRejected t =
    if decide (t_status t = StatusRejected)
    then Ok (mkEvent EventWagerTransactionRejected currentEventVersion (id_value (t_id t))
               (t_updatedAt t) (JObject (json_transaction (toTransactionPayload t))))
    else fail CodeInvalidStatus.
Proof.
  intros Hok. pose proof (tx_ok_id t Hok). pose proof (to_updatedAt t Hok) as [Hz Hu].
  pose proof (to_failure t Hok) as Hfail. unfold NewWagerTransactionRejected.
  case_bool_decide; [rewrite decide_True by done|by rewrite decide_False]. cbn [negb].
  rewrite bool_decide_eq_false_2 by (apply Hfail; auto).
  apply marshalEvent_Ok. by rewrite Time_UTC_id.
Qed.

Lemma NewWagerTransactionPendingReference_is_Ok t :
  tx_ok t -> is_Ok (NewWagerTransactionPendingReference t) = bool_decide (t_status t = StatusPendingReference).
Proof.
  intros Hok. pose proof (tx_ok_id t Hok). pose proof (to_updatedAt t Hok) as [Hz Hu].
  pose proof (to_failure t Hok) as Hfail. unfold NewWagerTransactionPendingReference.
  case_bool_decide; [|done]. cbn [negb]. unfold marshalEvent.
  rewrite bool_decide_eq_false_2 by done. by rewrite Hz.
Qed.

Lemma NewWalletBalanceChanged_is_Ok w e :
  Wallet_IsInitialised w = true -> Time_IsZero (le_createdAt e) = false ->
  is_Ok (NewWalletBalanceChanged w e) =
    bool_decide (le_walletID e = w_id w /\ le_balanceAfter e = w_balance w).
Proof.
  intros Hw Ht. unfold NewWalletBalanceChanged. rewrite Hw. cbn [negb].
  unfold Wallet_IsInitialised in Hw. apply negb_true_iff, id_IsZero_false in Hw.
  destruct (decide (le_walletID e = w_id w)) as [E1|E1].
  - rewrite (bool_decide_eq_true_2 (le_walletID e = w_id w)) by done. cbn [negb].
    case_bool_decide; cbn [negb].
    + rewrite bool_decide_eq_true_2 by done. unfold marshalEvent.
      by rewrite bool_decide_eq_false_2, Ht.
    + rewrite bool_decide_eq_false_2; [done|naive_solver].
  - rewrite (bool_decide_eq_false_2 (le_walletID e = w_id w)) by done. cbn [negb is_Ok].
    symmetry. apply bool_decide_eq_false. naive_solver.
Qed.

Lemma Event_Err_domain :
  (forall t e, NewWagerTransactionProcessed t = Err e -> As_domain e <> None) /\
  (forall t e, NewWagerTransactionRejected t = Err e -> As_domain e <> None) /\
  (forall t e, NewWagerTransactionPendingReference t = Err e -> As_domain e <> None) /\
  (forall w l e, NewWalletBalanceChanged w l = Err e -> As_domain e <> None).
Proof.
  unfold NewWagerTransactionProcessed, NewWagerTransactionRejected,
    NewWagerTransactionPendingReference, NewWalletBalanceChanged, marshalEvent, fail.
  split_and!; intros *; intros H; by guards H.
Qed.

(** ** Properties *)

(** Events say only what happened: on a valid transaction each
    constructor accepts exactly its own status, every accepted event names
    the transaction, carries schema version 1 and the instant of the last
    change, and the payload shows a balance exactly when one was observed
    and a failure code exactly when there is one. *)
Theorem events_report_the_status t :
  tx_ok t ->
  (is_Ok (NewWagerTransactionProcessed t) = bool_decide (t_status t = StatusProcessed)) /\
  (is_Ok (NewWagerTransactionRejected t) = bool_decide (t_status t = StatusRejected)) /\
  (is_Ok (NewWagerTransactionPendingReference t) = bool_decide (t_status t = StatusPendingReference)) /\
  forall e, NewWagerTransactionProcessed t = Ok e \/ NewWagerTransactionRejected t = Ok e ->
    ev_Version e = 1 /\ ev_AggregateID e = id_value (t_id t) /\ ev_OccurredAt e = t_updatedAt t /\
    (payload_field "balanceAfter" e <> None <-> t_status t = StatusProcessed) /\
    (payload_field "failureCode" e <> None <-> t_status t = StatusRejected).
Proof.
  intros Hok.
  rewrite NewWagerTransactionProcessed_Ok, NewWagerTransactionRejected_Ok,
    NewWagerTransactionPendingReference_is_Ok by done.
  split_and!; [by case_bool_decide; case_decide|by case_bool_decide; case_decide|done|].
  assert (Hf : forall f, f = JObject (json_transaction (toTransactionPayload t)) ->
    forall ty, ty = EventWagerTransactionProcessed \/ ty = EventWagerTransactionRejected ->
    let e := mkEvent ty currentEventVersion (id_value (t_id t)) (t_updatedAt t) f in
    (payload_field "balanceAfter" e <> None <-> Money_IsInitialised (t_balanceAfter t) = true) /\
    (payload_field "failureCode" e <> None <-> t_failureCode t <> "")).
  { intros f -> ty _. unfold payload_field, json_transaction, omitempty. cbn [ev_Payload].
    rewrite !field_app, !field_omitempty. cbn.
    destruct (Money_IsInitialised (t_balanceAfter t)), (decide (t_failureCode t = "")) as [E|E].
    all: rewrite ?(bool_decide_eq_true_2 _ E), ?(bool_decide_eq_false_2 _ E); cbn.
    all: split; by (split; intros ?). }
  pose proof (to_processed t Hok) as Hproc. pose proof (to_failure t Hok) as Hfail.
  intros e [He|He]; case_decide as Hs; simplify_eq; cbn [ev_Version ev_AggregateID ev_OccurredAt];
    split_and!; try done.
  - rewrite Hproc. by apply Hf; auto.
  - destruct (Hf _ eq_refl EventWagerTransactionProcessed) as [_ ->]; [auto|].
    rewrite <- Hfail, Hs. split; [by intros [?|?]|done].
  - rewrite Hproc. by apply Hf; auto.
  - destruct (Hf _ eq_refl EventWagerTransactionRejected) as [_ ->]; [auto|].
    rewrite <- Hfail, Hs. naive_solver.
Qed.

Lemma events_report_the_status_witness :
  exists t e, tx_ok t /\ NewWagerTransactionRejected t = Ok e /\ ev_Version e = 1.
Proof.
  assert (H : exists t, tx_reachable t /\ t_status t = StatusRejected).
  { eexists. split.
    - eapply reach_step.
      + apply (reach_external example_external). vm_compute. reflexivity.
      + vm_compute. reflexivity.
      + apply (step_reject _ CodeInsufficientFunds (mkTime 100 UTC)). vm_compute. reflexivity.
    - reflexivity. }
  destruct H as (t & Hr%tx_reachable_ok & Hs).
  destruct (events_report_the_status t Hr) as (_ & Hj & _ & He). rewrite Hs in Hj.
  destruct (NewWagerTransactionRejected t) as [e|] eqn:E; [|discriminate Hj].
  exists t, e. split; [exact Hr|]. split; [exact E|]. apply (He e). right. reflexivity.
Defined.
