(* ===== verification/Sha256.v ===== *)
(** * Sha256: the digest Go's [crypto/sha256] computes, and [encoding/hex]

    FIPS 180-4, executable.  The round constants are derived from their
    definition (the first 32 fractional bits of the cube and square roots of
    the first primes) rather than listed. *)

From S2P Require Import Prelude.

#[local] Open Scope string_scope.
#[local] Open Scope list_scope.
#[local] Open Scope Z_scope.

Definition word (z : Z) : Z := z mod 4294967296.

(** The first [n] primes, by trial division from [from]. *)
Fixpoint primes_from (fuel : nat) (n : nat) (from : Z) (found : list Z) : list Z :=
  match fuel, n with
  | S fuel, S n' =>
    if forallb (fun p => negb (from mod p =? 0)) found
    then primes_from fuel n' (from + 1) (found ++ [from])
    else primes_from fuel n (from + 1) found
  | _, _ => found
  end.

(** Integer cube root by bisection between [lo] and [hi]. *)
Fixpoint cube_root (fuel : nat) (lo hi x : Z) : Z :=
  match fuel with
  | O => lo
  | S fuel =>
    let mid := (lo + hi) / 2 in
    if mid * mid * mid <=? x then cube_root fuel mid hi x else cube_root fuel lo mid x
  end.

Definition round_constants : list Z :=
  Eval vm_compute in
    map (fun p => word (cube_root 48 0 (2 ^ 40) (p * 2 ^ 96))) (primes_from 400 64 2 []).

Definition initial_hash : list Z :=
  Eval vm_compute in map (fun p => word (Z.sqrt (p * 2 ^ 64))) (primes_from 400 8 2 []).

Definition rotate (n x : Z) : Z := Z.lor (Z.shiftr x n) (word (Z.shiftl x (32 - n))).

Definition small_sigma (a b c x : Z) : Z :=
  Z.lxor (Z.lxor (rotate a x) (rotate b x)) (Z.shiftr x c).
Definition big_sigma (a b c x : Z) : Z :=
  Z.lxor (Z.lxor (rotate a x) (rotate b x)) (rotate c x).

(** The message schedule, newest word first. *)
Fixpoint extend_schedule (n : nat) (ws : list Z) : list Z :=
  match n with
  | O => ws
  | S n =>
    let at_ k := nth k ws 0 in
    extend_schedule n
      (word (small_sigma 17 19 10 (at_ 1%nat) + at_ 6%nat +
             small_sigma 7 18 3 (at_ 14%nat) + at_ 15%nat) :: ws)
  end.

Definition state8 : Type := Z * Z * Z * Z * Z * Z * Z * Z.

Definition sha_round (st : state8) (kw : Z * Z) : state8 :=
  let '(a, b, c, d, e, f, g, h) := st in
  let choice := Z.lxor (Z.land e f) (Z.land (4294967295 - e) g) in
  let majority := Z.lxor (Z.lxor (Z.land a b) (Z.land a c)) (Z.land b c) in
  let t1 := word (h + big_sigma 6 11 25 e + choice + kw.1 + kw.2) in
  let t2 := word (big_sigma 2 13 22 a + majority) in
  (word (t1 + t2), a, b, c, word (d + t1), e, f, g).

Definition add_state (x y : state8) : state8 :=
  let '(a, b, c, d, e, f, g, h) := x in
  let '(a', b', c', d', e', f', g', h') := y in
  (word (a + a'), word (b + b'), word (c + c'), word (d + d'),
   word (e + e'), word (f + f'), word (g + g'), word (h + h')).

Fixpoint words_of (bytes : list Z) : list Z :=
  match bytes with
  | a :: b :: c :: d :: bytes => (((a * 256 + b) * 256 + c) * 256 + d) :: words_of bytes
  | _ => []
  end.

Definition compress (st : state8) (block : list Z) : state8 :=
  let ws := rev (extend_schedule 48 (rev (words_of block))) in
  add_state st (foldl sha_round st (combine round_constants ws)).

Fixpoint sha_blocks (fuel : nat) (st : state8) (bytes : list Z) : state8 :=
  match fuel with
  | O => st
  | S fuel =>
    match bytes with
    | [] => st
    | _ => sha_blocks fuel (compress st (firstn 64 bytes)) (skipn 64 bytes)
    end
  end.

(** [n] big-endian bytes of [z]. *)
Fixpoint big_endian (n : nat) (z : Z) : list Z :=
  match n with
  | O => []
  | S n => big_endian n (z / 256) ++ [z mod 256]
  end.

Definition pad_message (bytes : list Z) : list Z :=
  let l := Z.of_nat (length bytes) in
  bytes ++ [128] ++ repeat 0 (Z.to_nat ((55 - l) mod 64)) ++ big_endian 8 (8 * l).

Definition state_of (l : list Z) : state8 :=
  let at_ k := nth k l 0 in
  (at_ 0%nat, at_ 1%nat, at_ 2%nat, at_ 3%nat, at_ 4%nat, at_ 5%nat, at_ 6%nat, at_ 7%nat).

(** [sha256.Sum256]: thirty-two bytes. *)
Definition Sum256 (message : string) : list ascii :=
  let bytes := map byte_val (String.list_ascii_of_string message) in
  let padded := pad_message bytes in
  let '(a, b, c, d, e, f, g, h) :=
    sha_blocks (length padded) (state_of initial_hash) padded in
  map byte_of (flat_map (big_endian 4) [a; b; c; d; e; f; g; h]).

(** [hex.EncodeToString]. *)
Definition hex_digit (n : Z) : ascii := if n <? 10 then byte_of (48 + n) else byte_of (87 + n).

Fixpoint EncodeToString (bytes : list ascii) : string :=
  match bytes with
  | [] => ""
  | b :: bytes => String (hex_digit (byte_val b / 16))
                    (String (hex_digit (byte_val b mod 16)) (EncodeToString bytes))
  end.

(** The test vectors of FIPS 180-4. *)
Example sha256_abc :
  EncodeToString (Sum256 "abc") = "ba7816bf8f01cfea414140de5dae2223b00361a396177a9cb410ff61f20015ad".
Proof. vm_compute. reflexivity. Qed.

Example sha256_empty :
  EncodeToString (Sum256 "") = "e3b0c44298fc1c149afbf4c8996fb92427ae41e4649b934ca495991b7852b855".
Proof. vm_compute. reflexivity. Qed.

(** Two blocks. *)
Example sha256_two_blocks :
  EncodeToString (Sum256 "abcdbcdecdefdefgefghfghighijhijkijkljklmklmnlmnomnopnopq")
    = "248d6a61d20638b8e5c026930c3e6039a33ce45964ff2167f6ecedd419db06c1".
Proof. vm_compute. reflexivity. Qed.

(** ** Lemmas *)

Lemma hex_digit_inj a b : 0 <= a < 16 -> 0 <= b < 16 -> hex_digit a = hex_digit b -> a = b.
Proof.
  intros Ha Hb H%(f_equal byte_val). unfold hex_digit in H.
  destruct (Z.ltb_spec a 10), (Z.ltb_spec b 10); rewrite !byte_val_of in H by lia; lia.
Qed.

Lemma EncodeToString_inj b1 b2 : EncodeToString b1 = EncodeToString b2 -> b1 = b2.
Proof.
  revert b2. induction b1 as [|x b1 IH]; intros [|y b2] H; try done.
  cbn [EncodeToString] in H. injection H as H1 H2 H3.
  pose proof (byte_val_range x). pose proof (byte_val_range y).
  pose proof (Z.div_mod (byte_val x) 16 ltac:(lia)). pose proof (Z.div_mod (byte_val y) 16 ltac:(lia)).
  pose proof (Z.mod_pos_bound (byte_val x) 16 ltac:(lia)).
  pose proof (Z.mod_pos_bound (byte_val y) 16 ltac:(lia)).
  apply hex_digit_inj in H1; [|lia..]. apply hex_digit_inj in H2; [|lia..].
  rewrite (IH b2 H3). f_equal. apply byte_val_inj. lia.
Qed.

Lemma EncodeToString_length b : String.length (EncodeToString b) = (2 * length b)%nat.
Proof. induction b as [|x b IH]; cbn [EncodeToString String.length length]; [done|]. rewrite IH. lia. Qed.

Lemma big_endian_length n z : length (big_endian n z) = n.
Proof. revert z. induction n as [|n IH]; intros z; [done|]. cbn [big_endian]. rewrite length_app, IH. cbn. lia. Qed.

Lemma Sum256_length m : length (Sum256 m) = 32%nat.
Proof.
  unfold Sum256. destruct (sha_blocks _ _ _) as [[[[[[[a b] c] d] e] f] g] h].
  rewrite length_map. cbn [flat_map]. rewrite !length_app, !big_endian_length. done.
Qed.
