(* ===== verification/Idempotency.v ===== *)
(** * Idempotency: [internal/app/idempotency.go]

    The command as it arrived, the canonical rendering of its business fields,
    and the payload hash that tells a retry from a conflicting reuse. *)

From stdpp Require Import sorting.
From S2P Require Import Prelude Errors Money Identifier Sha256.

#[local] Open Scope string_scope.
#[local] Open Scope list_scope.
#[local] Open Scope Z_scope.

(** ** Definitions *)

Definition hashPrefix : string := "sha256:".

Record SubmitCommand := mkSubmitCommand {
  sc_IdempotencyKey : string;
  sc_ProviderID : string;
  sc_ExternalID : string;
  sc_PlayerID : string;
  sc_WalletID : string;
  sc_RoundID : string;
  sc_GameID : string;
  sc_Kind : string;
  sc_Amount : string;
  sc_Currency : string;
  sc_ReferenceExternalID : string
}.

(** [strconv.Itoa] of a non-negative number; a number has no more decimal
    than binary digits. *)
Definition Itoa (n : Z) : string := format_digits (S (Z.to_nat (Z.log2 n))) n "".

(** One field: [len(key) ":" key "=" len(value) ":" value ";"]. *)
Definition render_field (key value : string) : string :=
  Itoa (len key) +:+ ":" +:+ key +:+ "=" +:+ Itoa (len value) +:+ ":" +:+ value +:+ ";".

(** The loop that writes the sorted keys into the builder. *)
Fixpoint render_fields (fields : gmap string string) (keys : list string) : string :=
  match keys with
  | [] => ""
  | key :: keys => render_field key (default "" (fields !! key)) +:+ render_fields fields keys
  end.

(** [canonicalise], with the order in which ranging over the map yields its
    keys as an argument: Go leaves it unspecified. *)
Definition canonicalise_ranging (order : list string) (fields : gmap string string) : string :=
  render_fields fields (merge_sort String.le order).

Definition canonicalise (fields : gmap string string) : string :=
  canonicalise_ranging (map_to_list fields).*1 fields.

(** The amount as it enters the hash: canonical when it parses, as it arrived
    otherwise. *)
Definition hash_amount (c : SubmitCommand) : string :=
  match ParseCurrency (sc_Currency c) with
  | Ok cur => match ParseMoney (sc_Amount c) cur with
              | Ok m => Money_String m
              | Err _ => sc_Amount c
              end
  | Err _ => sc_Amount c
  end.

Definition hash_fields (c : SubmitCommand) : gmap string string :=
  let fields := list_to_map [
    ("providerId", sc_ProviderID c);
    ("externalId", sc_ExternalID c);
    ("playerId", sc_PlayerID c);
    ("walletId", sc_WalletID c);
    ("roundId", sc_RoundID c);
    ("gameId", sc_GameID c);
    ("kind", sc_Kind c);
    ("amount", hash_amount c);
    ("currency", sc_Currency c)] in
  if bool_decide (sc_ReferenceExternalID c = "") then fields
  else <["referenceExternalId" := sc_ReferenceExternalID c]> fields.

Definition Command_PayloadHash (c : SubmitCommand) : result PayloadHash :=
  ParsePayloadHash (hashPrefix +:+ EncodeToString (Sum256 (canonicalise (hash_fields c)))).

(** ** Unique decoding *)

Lemma Itoa_digits n :
  0 <= n -> exists ds, Forall is_digit ds /\ Itoa n = render ds /\ dval 0 ds = n.
Proof.
  intros Hn. destruct (format_digits_spec (S (Z.to_nat (Z.log2 n))) n) as (ds & _ & ? & ? & ?);
    [|done|eauto].
  split; [done|]. rewrite Nat2Z.inj_succ, Z2Nat.id by apply Z.log2_nonneg.
  destruct (decide (n = 0)) as [->|]; [done|].
  pose proof (Z.log2_spec n ltac:(lia)). pose proof (Z.log2_nonneg n).
  assert (2 ^ Z.succ (Z.log2 n) <= 10 ^ Z.succ (Z.log2 n)) by (apply Z.pow_le_mono_l; lia). lia.
Qed.

(** Digits up to a colon decode in one way. *)
Lemma render_colon_inj ds ds' r r' :
  Forall is_digit ds -> Forall is_digit ds' ->
  render ds +:+ String ":" r = render ds' +:+ String ":" r' -> ds = ds' /\ r = r'.
Proof.
  assert (Hcolon : forall d, is_digit d -> digit_char d <> ":"%char).
  { intros d Hd%digit_char_digit E. rewrite E in Hd. vm_compute in Hd. done. }
  intros Hds. revert ds'. induction Hds as [|d ds Hd Hds IH]; intros [|d' ds'] Hds' H.
  - cbn in H. rewrite !string_app_nil_l in H. by simplify_eq.
  - exfalso. rewrite render_cons, string_app_cons in H. cbn in H. rewrite string_app_nil_l in H.
    injection H as E _. apply (Hcolon d'); [by inversion Hds'|done].
  - exfalso. rewrite render_cons, string_app_cons in H. cbn in H. rewrite string_app_nil_l in H.
    injection H as E _. by apply (Hcolon d).
  - rewrite !render_cons, !string_app_cons in H. injection H as E H.
    inversion Hds' as [|? ? Hd' Hds'']; subst. destruct (IH ds' Hds'' H) as [-> ->].
    apply (f_equal digit) in E. rewrite !digit_char_digit in E by done. by simplify_eq.
Qed.

(** A length-prefixed string decodes in one way, whatever bytes it holds. *)
Lemma length_prefixed_inj s s' r r' :
  Itoa (len s) +:+ ":" +:+ s +:+ r = Itoa (len s') +:+ ":" +:+ s' +:+ r' -> s = s' /\ r = r'.
Proof.
  destruct (Itoa_digits (len s)) as (ds & Hds & -> & Hv); [unfold len; lia|].
  destruct (Itoa_digits (len s')) as (ds' & Hds' & -> & Hv'); [unfold len; lia|].
  intros H. apply render_colon_inj in H as [-> H]; [|done..].
  apply string_app_inj_length; [|done]. unfold len in *. lia.
Qed.

Lemma render_field_inj k v k' v' r r' :
  render_field k v +:+ r = render_field k' v' +:+ r' -> k = k' /\ v = v' /\ r = r'.
Proof.
  unfold render_field. rewrite !string_app_assoc. intros H.
  apply length_prefixed_inj in H as [-> H]. apply string_app_inj_length in H as [_ H]; [|done].
  apply length_prefixed_inj in H as [-> H]. apply string_app_inj_length in H as [_ H]; done.
Qed.

Lemma render_fields_inj m m' ks ks' :
  render_fields m ks = render_fields m' ks' ->
  ks = ks' /\ Forall (fun k => default "" (m !! k) = default "" (m' !! k)) ks.
Proof.
  assert (Hne : forall k v r, render_field k v +:+ r <> "").
  { intros k v r H%(f_equal String.length). unfold render_field in H.
    rewrite !string_length_app in H. cbn in H. lia. }
  revert ks'. induction ks as [|k ks IH]; intros [|k' ks'] H; cbn [render_fields] in H.
  - done.
  - by symmetry in H; apply Hne in H.
  - by apply Hne in H.
  - apply render_field_inj in H as (-> & Hv & H). apply IH in H as [-> Hall]. auto.
Qed.

(** ** Order independence *)

Lemma merge_sort_unique (l l' : list string) :
  l ≡ₚ l' -> merge_sort String.le l = merge_sort String.le l'.
Proof.
  intros H. apply (StronglySorted_unique String.le).
  - apply StronglySorted_merge_sort; apply _.
  - apply StronglySorted_merge_sort; apply _.
  - by rewrite !merge_sort_Permutation.
Qed.

Lemma canonicalise_keys (m : gmap string string) k : k ∈ merge_sort String.le (map_to_list m).*1 <-> is_Some (m !! k).
Proof.
  rewrite (merge_sort_Permutation String.le). split.
  - intros ((k', v) & -> & H%elem_of_map_to_list)%list_elem_of_fmap. cbn. eauto.
  - intros [v H]. apply list_elem_of_fmap. exists (k, v). by rewrite elem_of_map_to_list.
Qed.

Lemma canonicalise_inj m m' : canonicalise m = canonicalise m' -> m = m'.
Proof.
  unfold canonicalise, canonicalise_ranging. intros [Hk Hv]%render_fields_inj.
  rewrite Forall_forall in Hv. apply map_eq. intros k.
  pose proof (canonicalise_keys m k) as H1. pose proof (canonicalise_keys m' k) as H2.
  rewrite Hk in H1. destruct (m !! k) as [v|] eqn:E, (m' !! k) as [v'|] eqn:E'.
  - specialize (Hv k). rewrite Hk, E, E' in Hv. f_equal. apply Hv. apply H2. eauto.
  - exfalso. destruct (proj1 H2 (proj2 H1 (mk_is_Some _ _ eq_refl))); done.
  - exfalso. destruct (proj1 H1 (proj2 H2 (mk_is_Some _ _ eq_refl))); done.
  - done.
Qed.

Lemma canonicalise_order m order :
  order ≡ₚ (map_to_list m).*1 -> canonicalise_ranging order m = canonicalise m.
Proof. intros H. unfold canonicalise, canonicalise_ranging. by rewrite (merge_sort_unique _ _ H). Qed.

(** ** The hash *)

(** Two spellings of an amount in one currency stand for the same amount:
    they are the same text, or the currency is one the service knows and both
    parse to the same money. A text that is no amount stands for itself only:
    [PayloadHash] does not invent a normalised form for it. *)
Definition same_amount (currency a b : string) : Prop :=
  a = b \/
  exists cur m, ParseCurrency currency = Ok cur /\ ParseMoney a cur = Ok m /\ ParseMoney b cur = Ok m.

(** The same operation: every business field agrees, amounts compared as
    amounts. The idempotency key is not a business field. *)
Definition same_operation (c d : SubmitCommand) : Prop :=
  sc_ProviderID c = sc_ProviderID d /\ sc_ExternalID c = sc_ExternalID d /\
  sc_PlayerID c = sc_PlayerID d /\ sc_WalletID c = sc_WalletID d /\
  sc_RoundID c = sc_RoundID d /\ sc_GameID c = sc_GameID d /\ sc_Kind c = sc_Kind d /\
  sc_Currency c = sc_Currency d /\ same_amount (sc_Currency c) (sc_Amount c) (sc_Amount d) /\
  sc_ReferenceExternalID c = sc_ReferenceExternalID d.

(** What enters the hash as the amount tells amounts apart, whatever their
    spelling, and keeps a text that is no amount apart from every other. *)
Lemma hash_amount_iff c d :
  sc_Currency c = sc_Currency d ->
  hash_amount c = hash_amount d <-> same_amount (sc_Currency c) (sc_Amount c) (sc_Amount d).
Proof.
  unfold hash_amount, same_amount. intros <-.
  destruct (ParseCurrency (sc_Currency c)) as [cur|]; [|naive_solver].
  destruct (ParseMoney (sc_Amount c) cur) as [m|] eqn:E1, (ParseMoney (sc_Amount d) cur) as [n|] eqn:E2.
  - pose proof (ParseMoney_canonical _ _ _ E1). pose proof (ParseMoney_canonical _ _ _ E2).
    split; [intros E; right; exists cur, m; rewrite E2; naive_solver congruence|].
    intros [E|(? & ? & ? & ? & ?)]; congruence.
  - pose proof (ParseMoney_canonical _ _ _ E1). naive_solver congruence.
  - pose proof (ParseMoney_canonical _ _ _ E2). naive_solver congruence.
  - naive_solver congruence.
Qed.

Definition command_fields (c : SubmitCommand) : list (string * string) :=
  [("providerId", sc_ProviderID c); ("externalId", sc_ExternalID c); ("playerId", sc_PlayerID c);
   ("walletId", sc_WalletID c); ("roundId", sc_RoundID c); ("gameId", sc_GameID c);
   ("kind", sc_Kind c); ("amount", hash_amount c); ("currency", sc_Currency c)].

Lemma hash_fields_lookup c k v : (k, v) ∈ command_fields c -> hash_fields c !! k = Some v.
Proof.
  intros H. assert (Hl : (list_to_map (command_fields c) : gmap string string) !! k = Some v).
  { apply elem_of_list_to_map_1; [|done]. by apply (bool_decide_unpack _); vm_compute. }
  unfold hash_fields. fold (command_fields c). case_bool_decide; [done|].
  rewrite lookup_insert_ne; [done|]. intros <-. revert H.
  unfold command_fields. rewrite !elem_of_cons. intros H. repeat destruct H as [H|H]; simplify_eq.
Qed.

Lemma hash_fields_reference c :
  hash_fields c !! "referenceExternalId" =
    if bool_decide (sc_ReferenceExternalID c = "") then None else Some (sc_ReferenceExternalID c).
Proof.
  unfold hash_fields. case_bool_decide; [|by rewrite lookup_insert_eq].
  apply not_elem_of_list_to_map_1. by apply (bool_decide_unpack _); vm_compute.
Qed.

Lemma hash_fields_iff c d : hash_fields c = hash_fields d <-> same_operation c d.
Proof.
  split.
  - intros H. pose proof (hash_fields_lookup c) as Hc. pose proof (hash_fields_lookup d) as Hd.
    rewrite <- H in Hd. pose proof (hash_fields_reference c) as Rc.
    pose proof (hash_fields_reference d) as Rd. rewrite <- H, Rc in Rd.
    assert (Hs : forall k v v', (k, v) ∈ command_fields c -> (k, v') ∈ command_fields d -> v = v').
    { intros k v v' H1%Hc H2%Hd. congruence. }
    assert (Hcur : sc_Currency c = sc_Currency d).
    { apply (Hs "currency"); unfold command_fields; rewrite !elem_of_cons; tauto. }
    unfold same_operation. rewrite <- (hash_amount_iff c d Hcur). repeat apply conj.
    10: by repeat case_bool_decide; congruence.
    all: [> apply (Hs "providerId")|apply (Hs "externalId")|apply (Hs "playerId")|apply (Hs "walletId")
          |apply (Hs "roundId")|apply (Hs "gameId")|apply (Hs "kind")|apply (Hs "currency")
          |apply (Hs "amount")].
    all: unfold command_fields; rewrite !elem_of_cons; tauto.
  - intros (H1 & H2 & H3 & H4 & H5 & H6 & H7 & H8 & H9 & H10).
    apply (hash_amount_iff c d H8) in H9. unfold hash_fields.
    by rewrite H1, H2, H3, H4, H5, H6, H7, H8, H9, H10.
Qed.

Lemma Command_PayloadHash_Ok c :
  Command_PayloadHash c =
    Ok (mkId (hashPrefix +:+ EncodeToString (Sum256 (canonicalise (hash_fields c))))).
Proof.
  unfold Command_PayloadHash, ParsePayloadHash. set (h := EncodeToString _).
  change (hashPrefix +:+ h) with (id_value (k := KPayloadHash) (mkId (hashPrefix +:+ h))) at 1.
  apply parseIdentifier_value. split; [done|]. unfold len, id_value.
  rewrite string_length_app. unfold h. rewrite EncodeToString_length, Sum256_length. vm_compute. done.
Qed.

(** The text that is hashed for a command. *)
Notation hashed c := (canonicalise (hash_fields c)).

Lemma canonicalise_identifies c d : hashed c = hashed d <-> same_operation c d.
Proof. rewrite <- hash_fields_iff. split; [apply canonicalise_inj|by intros ->]. Qed.

Lemma Command_PayloadHash_iff c d :
  Command_PayloadHash c = Command_PayloadHash d <-> Sum256 (hashed c) = Sum256 (hashed d).
Proof.
  rewrite !Command_PayloadHash_Ok. split; [|by intros ->].
  intros H. injection H as H. apply string_app_inj_length in H as [_ H]; [|done].
  by apply EncodeToString_inj in H.
Qed.

(** ** Properties *)

(** The canonical rendering of the fields cannot be two things at once
    (whatever separators the values hold) and does not depend on the order in
    which the map is ranged over. *)
Theorem canonicalise_unambiguous m m' order :
  (canonicalise m = canonicalise m' <-> m = m') /\
  (order ≡ₚ (map_to_list m).*1 -> canonicalise_ranging order m = canonicalise m).
Proof.
  split; [|apply canonicalise_order]. split; [apply canonicalise_inj|by intros ->].
Qed.

(** The separators inside the values do not confuse the rendering. *)
Lemma canonicalise_unambiguous_witness :
  canonicalise_ranging ["b"; "a"] {["a" := "1;1:b=2"; "b" := ""]}
    = canonicalise {["a" := "1;1:b=2"; "b" := ""]} /\
  canonicalise {["a" := "1;1:b=2"; "b" := ""]} = "1:a=7:1;1:b=2;1:b=0:;".
Proof.
  split; [|vm_compute; reflexivity].
  apply (proj2 (canonicalise_unambiguous _ ∅ ["b"; "a"])).
  apply (bool_decide_unpack _). vm_compute. exact I.
Defined.

(** C37: the payload hash always exists. Two commands that are the same
    operation (whatever their idempotency keys and the spelling of their
    amounts) have the same hash, and two that are not have different ones
    unless SHA-256 collides on the two different texts that are hashed for
    them: those texts are equal exactly for the same operation. A payload
    whose amount is malformed is the same operation as one with that very
    text only. *)
Theorem payload_hash_identifies_operation c d :
  (exists h, Command_PayloadHash c = Ok h /\ id_ok h) /\
  (same_operation c d -> Command_PayloadHash c = Command_PayloadHash d) /\
  (~ same_operation c d -> Command_PayloadHash c = Command_PayloadHash d ->
   hashed c <> hashed d /\ Sum256 (hashed c) = Sum256 (hashed d)) /\
  (hashed c = hashed d <-> same_operation c d).
Proof.
  split_and!; [|by intros E%canonicalise_identifies; apply Command_PayloadHash_iff; rewrite E
               |by rewrite Command_PayloadHash_iff, <- canonicalise_identifies
               |apply canonicalise_identifies].
  eexists. split; [apply Command_PayloadHash_Ok|].
  pose proof (Command_PayloadHash_Ok c) as H. unfold Command_PayloadHash, ParsePayloadHash in H.
  by apply parseIdentifier_iff in H as [H _].
Qed.

Definition example_command (key amount : string) : SubmitCommand :=
  mkSubmitCommand key "acme" "x1" "p1" "w1" "r1" "g1" "BET" amount "BRL" "".

(** Two spellings of one amount are one operation; two malformed amounts are two. *)
Lemma payload_hash_identifies_operation_witness :
  Command_PayloadHash (example_command "k1" "25") = Command_PayloadHash (example_command "k2" "025.0")
  /\ hashed (example_command "k1" "2 5") <> hashed (example_command "k1" "25,0")
  /\ Command_PayloadHash (example_command "k1" "25") <> Command_PayloadHash (example_command "k1" "25.01").
Proof.
  split_and!; [| |vm_compute; discriminate].
  - apply (proj1 (proj2 (payload_hash_identifies_operation (example_command "k1" "25")
      (example_command "k2" "025.0")))).
    unfold same_operation, same_amount. repeat apply conj; try reflexivity.
    right. exists (mkCurrency "BRL"), (mkMoney 2500 (mkCurrency "BRL")). by vm_compute.
  - intros E. apply (payload_hash_identifies_operation (example_command "k1" "2 5")
      (example_command "k1" "25,0")) in E as (_ & _ & _ & _ & _ & _ & _ & _ & [E|(cur & m & E1 & E2 & _)] & _);
      [discriminate|].
    vm_compute in E1. injection E1 as <-. vm_compute in E2. discriminate.
Defined.
