(* ===== verification/Encoding.v ===== *)
(** * Encoding: Go's [encoding/base64] and the integer side of [strconv]

    [base64.RawURLEncoding] (URL alphabet, no padding, not strict: carriage
    returns and newlines are skipped, unused bits are not looked at) and
    [strconv.FormatInt] / [strconv.ParseInt] in base ten at 64 bits. *)

From S2P Require Import Prelude Money GoStrings.

#[local] Open Scope string_scope.
#[local] Open Scope list_scope.
#[local] Open Scope Z_scope.

(** ** Base64 *)

(** The digit for a number below 64. *)
Definition sextet_char (n : Z) : ascii :=
  if n <? 26 then byte_of (65 + n)
  else if n <? 52 then byte_of (97 + (n - 26))
  else if n <? 62 then byte_of (48 + (n - 52))
  else if n =? 62 then "-"%char else "_"%char.

Definition char_sextet (b : ascii) : option Z :=
  let v := byte_val b in
  if (65 <=? v) && (v <=? 90) then Some (v - 65)
  else if (97 <=? v) && (v <=? 122) then Some (v - 97 + 26)
  else if (48 <=? v) && (v <=? 57) then Some (v - 48 + 52)
  else if v =? 45 then Some 62
  else if v =? 95 then Some 63
  else None.

(** The sextets of a sequence of bytes. *)
Fixpoint to_sextets (l : list Z) : list Z :=
  match l with
  | [] => []
  | [a] => [a / 4; a mod 4 * 16]
  | [a; b] => [a / 4; a mod 4 * 16 + b / 16; b mod 16 * 4]
  | a :: b :: c :: l => a / 4 :: a mod 4 * 16 + b / 16 :: b mod 16 * 4 + c / 64 :: c mod 64 :: to_sextets l
  end.

(** And back; a single sextet at the end is an error. *)
Fixpoint of_sextets (l : list Z) : option (list Z) :=
  match l with
  | [] => Some []
  | [_] => None
  | [p; q] => Some [p * 4 + q / 16]
  | [p; q; r] => Some [p * 4 + q / 16; q mod 16 * 16 + r / 4]
  | p :: q :: r :: s :: l =>
    match of_sextets l with
    | None => None
    | Some rest => Some (p * 4 + q / 16 :: q mod 16 * 16 + r / 4 :: r mod 4 * 64 + s :: rest)
    end
  end.

Definition line_break (b : ascii) : bool := (byte_val b =? 10) || (byte_val b =? 13).

Definition RawURLEncoding_EncodeToString (s : string) : string :=
  String.string_of_list_ascii (map sextet_char (to_sextets (map byte_val (String.list_ascii_of_string s)))).

Definition RawURLEncoding_DecodeString (s : string) : option string :=
  sextets ← mapM char_sextet (filter (fun b => line_break b = false) (String.list_ascii_of_string s));
  bs ← of_sextets sextets;
  Some (String.string_of_list_ascii (map byte_of bs)).

(** ** Integers *)

(** [strconv.FormatInt(n, 10)] *)
Definition FormatInt (n : Z) : string :=
  if n <? 0 then "-" +:+ FormatUint (- n) else FormatUint n.

Fixpoint parse_digits (acc : Z) (s : string) : option Z :=
  match s with
  | EmptyString => Some acc
  | String b s => d ← digit b; parse_digits (acc * 10 + d) s
  end.

(** [strconv.ParseInt(s, 10, 64)]: an optional sign, at least one digit, and a
    value that fits. *)
Definition ParseInt (s : string) : option Z :=
  let '(neg, rest) :=
    match s with
    | String "+" rest => (false, rest)
    | String "-" rest => (true, rest)
    | _ => (false, s)
    end in
  if bool_decide (rest = "") then None
  else
    un ← parse_digits 0 rest;
    let n := if neg then - un else un in
    if bool_decide (is_i64 n) then Some n else None.

(** [strings.CutPrefix] *)
Fixpoint CutPrefix (s prefix : string) {struct prefix} : option string :=
  match prefix, s with
  | EmptyString, _ => Some s
  | String p prefix, String b s => if bool_decide (p = b) then CutPrefix s prefix else None
  | String _ _, EmptyString => None
  end.

(** ** Lemmas *)

Definition is_byte (z : Z) : Prop := 0 <= z < 256.
Definition is_sextet (z : Z) : Prop := 0 <= z < 64.

Lemma char_sextet_char n : is_sextet n -> char_sextet (sextet_char n) = Some n.
Proof.
  intros Hn.
  assert (Hall : forallb (fun k => bool_decide (char_sextet (sextet_char (Z.of_nat k)) = Some (Z.of_nat k))) (seq 0 64) = true)
    by (vm_compute; reflexivity).
  rewrite forallb_forall in Hall. unfold is_sextet in Hn.
  specialize (Hall (Z.to_nat n) ltac:(apply in_seq; lia)). apply bool_decide_eq_true in Hall.
  by rewrite Z2Nat.id in Hall by lia.
Qed.

Lemma sextet_char_break n : is_sextet n -> line_break (sextet_char n) = false.
Proof.
  intros Hn.
  assert (Hall : forallb (fun k => negb (line_break (sextet_char (Z.of_nat k)))) (seq 0 64) = true)
    by (vm_compute; reflexivity).
  rewrite forallb_forall in Hall. unfold is_sextet in Hn.
  specialize (Hall (Z.to_nat n) ltac:(apply in_seq; lia)). apply negb_true_iff in Hall.
  by rewrite Z2Nat.id in Hall by lia.
Qed.

(** Three elements at a time. *)
Lemma list_ind3 {A} (P : list A -> Prop) :
  P [] -> (forall a, P [a]) -> (forall a b, P [a; b]) ->
  (forall a b c l, P l -> P (a :: b :: c :: l)) -> forall l, P l.
Proof.
  intros H0 H1 H2 H3. fix IH 1. intros [|a [|b [|c l]]]; [exact H0|apply H1|apply H2|apply H3, IH].
Qed.

Lemma to_sextets_ok l : Forall is_byte l ->
  Forall is_sextet (to_sextets l) /\ of_sextets (to_sextets l) = Some l.
Proof.
  induction l as [|a|a b|a b c l IH] using list_ind3; intros Hl; cbn [to_sextets of_sextets];
    rewrite ?Forall_cons in Hl; unfold is_byte in Hl; destruct_and?.
  - done.
  - split; [repeat constructor; Z.to_euclidean_division_equations; lia|].
    do 2 f_equal. Z.to_euclidean_division_equations; lia.
  - split; [repeat constructor; Z.to_euclidean_division_equations; lia|].
    do 2 f_equal; [|f_equal]; Z.to_euclidean_division_equations; lia.
  - destruct IH as [Hs ->]; [done|]. split; [repeat constructor; try exact Hs; Z.to_euclidean_division_equations; lia|].
    do 2 f_equal; [|f_equal; [|f_equal]]; Z.to_euclidean_division_equations; lia.
Qed.

Lemma mapM_char_sextet l : Forall is_sextet l -> mapM char_sextet (map sextet_char l) = Some l.
Proof.
  induction 1 as [|n l Hn _ IH]; [done|]. cbn [map mapM]. by rewrite char_sextet_char, IH.
Qed.

Lemma map_byte_val l : map byte_of (map byte_val l) = l.
Proof. induction l as [|b l IH]; [done|]. cbn. by rewrite byte_of_val, IH. Qed.

(** Decoding reverts encoding. *)
Lemma base64_roundtrip s : RawURLEncoding_DecodeString (RawURLEncoding_EncodeToString s) = Some s.
Proof.
  unfold RawURLEncoding_DecodeString, RawURLEncoding_EncodeToString.
  rewrite String.list_ascii_of_string_of_list_ascii.
  set (bs := map byte_val (String.list_ascii_of_string s)).
  assert (Hb : Forall is_byte bs).
  { unfold bs. apply Forall_map, Forall_true. intros b. apply byte_val_range. }
  destruct (to_sextets_ok bs Hb) as [Hs Hof].
  rewrite filter_every.
  2:{ intros b (n & -> & Hn)%list_elem_of_fmap. apply sextet_char_break. rewrite Forall_forall in Hs. by apply Hs. }
  rewrite mapM_char_sextet by done. cbn [mbind option_bind]. rewrite Hof. cbn [mbind option_bind].
  unfold bs. by rewrite map_byte_val, String.string_of_list_ascii_of_string.
Qed.

Lemma parse_digits_render acc ds : Forall is_digit ds -> parse_digits acc (render ds) = Some (dval acc ds).
Proof.
  intros Hds. revert acc. induction Hds as [|d ds Hd _ IH]; intros acc; [done|].
  rewrite render_cons, dval_cons. cbn [parse_digits]. rewrite (digit_char_digit d Hd). apply IH.
Qed.

Lemma ParseInt_FormatInt n : 0 <= n <= MaxInt64 -> ParseInt (FormatInt n) = Some n.
Proof.
  intros Hn. unfold FormatInt. replace (n <? 0) with false by lia.
  destruct (FormatUint_digits n) as (ds & Hne & Hds & -> & Hv); [unfold MaxInt64 in Hn; lia|].
  destruct ds as [|d ds]; [done|]. pose proof (Forall_inv Hds) as Hd. rewrite render_cons.
  unfold ParseInt. destruct (digit_char_not_sign d Hd) as [Hm Hp].
  assert (Hsplit : match String (digit_char d) (render ds) with
    | String "+" rest => (false, rest)
    | String "-" rest => (true, rest)
    | _ => (false, String (digit_char d) (render ds))
    end = (false, String (digit_char d) (render ds))).
  { destruct (digit_char d) as [[] [] [] [] [] [] [] []]; done. }
  rewrite Hsplit, bool_decide_eq_false_2 by discriminate. rewrite <- render_cons, parse_digits_render by exact Hds.
  cbn [mbind option_bind]. rewrite Hv, bool_decide_eq_true_2; [done|]. width; lia.
Qed.

Lemma ParseInt_bounds s n : ParseInt s = Some n -> is_i64 n.
Proof.
  unfold ParseInt. destruct (match s with String "+" rest => _ | _ => _ end) as [neg rest].
  case_bool_decide; [done|]. destruct (parse_digits 0 rest); [|done]. cbn.
  case_bool_decide; [|done]. by intros [= <-].
Qed.

Lemma CutPrefix_app p s : CutPrefix (p +:+ s) p = Some s.
Proof. induction p as [|b p IH]; [done|]. rewrite string_app_cons. cbn [CutPrefix]. by rewrite bool_decide_eq_true_2. Qed.
