(* ===== verification/Rfc3339.v ===== *)
(** * Rfc3339: instants as text

    Go's [time.Format] for [time.RFC3339Nano] and for the layout of the HTTP
    edge, which always shows milliseconds, and [time.Time.UnmarshalJSON]'s
    reading of RFC 3339: one or two digits for the hour, a fraction after a
    point or a comma, offsets up to 24:60. *)

From S2P Require Import Prelude Money GoTime GoStrings Encoding.

#[local] Open Scope string_scope.
#[local] Open Scope list_scope.
#[local] Open Scope Z_scope.

(** ** The calendar *)

Definition is_leap (y : Z) : bool := (y mod 4 =? 0) && (negb (y mod 100 =? 0) || (y mod 400 =? 0)).

(** [daysIn] *)
Definition daysIn (m y : Z) : Z :=
  if m =? 2 then (if is_leap y then 29 else 28)
  else if (m =? 4) || (m =? 6) || (m =? 9) || (m =? 11) then 30 else 31.

(** Days since 1 January of year 1.  Years are counted from March, so that the
    leap day is the last of its year; 400 of them are 146097 days. *)
Definition days_of_civil (y m d : Z) : Z :=
  let y := if m <=? 2 then y - 1 else y in
  let yoe := y mod 400 in
  let doy := (153 * (if m <=? 2 then m + 9 else m - 3) + 2) / 5 + d - 1 in
  y / 400 * 146097 + (yoe * 365 + yoe / 4 - yoe / 100 + doy) - 306.

Definition civil_of_days (days : Z) : Z * Z * Z :=
  let z := days + 306 in
  let doe := z mod 146097 in
  let yoe := (doe - doe / 1460 + doe / 36524 - doe / 146096) / 365 in
  let doy := doe - (365 * yoe + yoe / 4 - yoe / 100) in
  let mp := (5 * doy + 2) / 153 in
  let d := doy - (153 * mp + 2) / 5 + 1 in
  let m := if mp <? 10 then mp + 3 else mp - 9 in
  ((if m <=? 2 then yoe + 1 else yoe) + z / 146097 * 400, m, d).

(** ** Formatting *)

Definition nanos_per_day : Z := 86400 * 1000000000.

(** The offset of a location from UTC, in seconds. *)
Definition loc_offset (l : Location) : Z := match l with UTC => 0 | Zone offset => offset end.

(** What a clock in the time's location shows: year, month, day, second of the
    day, nanosecond. *)
Definition clock_face (t : Time) : Z * Z * Z * Z * Z :=
  let n := instant t + loc_offset (loc t) * 1000000000 in
  let '(y, m, d) := civil_of_days (n / nanos_per_day) in
  let within_day := n mod nanos_per_day in
  (y, m, d, within_day / 1000000000, within_day mod 1000000000).

(** [appendInt] with a width. *)
Fixpoint padded (width : nat) (n : Z) (acc : string) : string :=
  match width with
  | O => acc
  | S width => padded width (n / 10) (String (digit_char (n mod 10)) acc)
  end.

Definition format_year (y : Z) : string :=
  if (0 <=? y) && (y <=? 9999) then padded 4 y ""
  else if y <? 0 then "-" +:+ (if - y <=? 9999 then padded 4 (- y) "" else FormatInt (- y))
  else FormatInt y.

(** [Z07:00] *)
Definition format_zone (offset : Z) : string :=
  if offset =? 0 then "Z"
  else
    let minutes := Z.abs offset / 60 in
    (if offset <? 0 then "-" else "+") +:+ padded 2 (minutes / 60) "" +:+ ":" +:+ padded 2 (minutes mod 60) "".

Definition format_with (fraction : Z -> string) (t : Time) : string :=
  let '(y, m, d, second, nano) := clock_face t in
  format_year y +:+ "-" +:+ padded 2 m "" +:+ "-" +:+ padded 2 d "" +:+ "T" +:+
  padded 2 (second / 3600) "" +:+ ":" +:+ padded 2 (second / 60 mod 60) "" +:+ ":" +:+
  padded 2 (second mod 60) "" +:+ fraction nano +:+ format_zone (loc_offset (loc t)).

(** [2006-01-02T15:04:05.000Z07:00] *)
Definition format_millis : Time -> string := format_with (fun nano => "." +:+ padded 3 (nano / 1000000) "").

(** A fraction without the zeros at its end. *)
Fixpoint trim_zeros (digits : nat) (n : Z) : string :=
  match digits with
  | O => ""
  | S digits' => if n mod 10 =? 0 then trim_zeros digits' (n / 10) else "." +:+ padded digits n ""
  end.

(** [time.RFC3339Nano] *)
Definition format_nanos : Time -> string := format_with (trim_zeros 9).

(** ** Parsing *)

Definition starts (b : ascii) (s : string) : option string :=
  match s with
  | String c s => if (c =? b)%char then Some s else None
  | EmptyString => None
  end.

Definition num1 (s : string) : option (Z * string) :=
  match s with
  | String b s => d ← digit b; Some (d, s)
  | EmptyString => None
  end.

Definition num2 (s : string) : option (Z * string) :=
  '(a, s) ← num1 s; '(b, s) ← num1 s; Some (a * 10 + b, s).

Definition num4 (s : string) : option (Z * string) :=
  '(a, s) ← num2 s; '(b, s) ← num2 s; Some (a * 100 + b, s).

(** [getnum(value, false)] *)
Definition num12 (s : string) : option (Z * string) :=
  match num2 s with Some r => Some r | None => num1 s end.

Definition in_range (lo hi : Z) (n : Z) : option unit := if (lo <=? n) && (n <=? hi) then Some () else None.

(** The digits after a point, as nanoseconds; those past the ninth do not
    count. *)
Fixpoint scan_fraction (scale acc : Z) (s : string) : Z * string :=
  match s with
  | EmptyString => (acc, "")
  | String b s' =>
    match digit b with
    | Some d => scan_fraction (scale / 10) (acc + d * scale) s'
    | None => (acc, s)
    end
  end.

Definition parse_fraction (s : string) : Z * string :=
  match s with
  | String p (String b s') =>
    if ((p =? ".")%char || (p =? ",")%char) && (match digit b with Some _ => true | None => false end)
    then scan_fraction 100000000 0 (String b s') else (0, s)
  | _ => (0, s)
  end.

(** [Z] or an offset, and nothing after it; [None] for [Z]. *)
Definition parse_zone (s : string) : option (option Z) :=
  match s with
  | EmptyString => None
  | String b s =>
    if (b =? "Z")%char then (if bool_decide (s = "") then Some None else None)
    else
      sign ← (if (b =? "+")%char then Some 1 else if (b =? "-")%char then Some (-1) else None);
      '(hh, s) ← num2 s; s ← starts ":" s; '(mm, s) ← num2 s;
      _ ← in_range 0 24 hh; _ ← in_range 0 60 mm;
      if bool_decide (s = "") then Some (Some (sign * (hh * 60 + mm) * 60)) else None
  end.

Definition parse_time (s : string) : option Time :=
  '(y, s) ← num4 s; s ← starts "-" s;
  '(mo, s) ← num2 s; _ ← in_range 1 12 mo; s ← starts "-" s;
  '(d, s) ← num2 s; s ← starts "T" s;
  '(h, s) ← num12 s; _ ← in_range 0 23 h; s ← starts ":" s;
  '(mi, s) ← num2 s; _ ← in_range 0 59 mi; s ← starts ":" s;
  '(se, s) ← num2 s; _ ← in_range 0 59 se;
  let '(nano, s) := parse_fraction s in
  zone ← parse_zone s;
  _ ← in_range 1 (daysIn mo y) d;
  let n := (days_of_civil y mo d * 86400 + h * 3600 + mi * 60 + se) * 1000000000 + nano in
  Some (match zone with
        | None => mkTime n UTC
        | Some offset => mkTime (n - offset * 1000000000) (Zone offset)
        end).

(** ** Dates *)

(** The years of a cycle: the day each starts on, its number recovered. *)
Definition year_start (y : Z) : Z := 365 * y + y / 4 - y / 100.
Definition year_end (y : Z) : Z := if y =? 399 then 146097 else year_start (y + 1).
Definition days_gone (doe : Z) : Z := doe - doe / 1460 + doe / 36524 - doe / 146096.
Definition year_of (doe : Z) : Z := days_gone doe / 365.

Lemma days_gone_step doe : 0 <= doe -> days_gone doe <= days_gone (doe + 1).
Proof.
  intros H. unfold days_gone. replace 146096 with (36524 * 4) by lia. rewrite <- !Z.div_div by lia.
  Z.to_euclidean_division_equations; lia.
Qed.

Lemma days_gone_mono doe n : 0 <= doe -> days_gone doe <= days_gone (doe + Z.of_nat n).
Proof.
  intros H. induction n as [|n IH]; [by rewrite Z.add_0_r|].
  rewrite Nat2Z.inj_succ. replace (doe + Z.succ (Z.of_nat n)) with (doe + Z.of_nat n + 1) by lia.
  pose proof (days_gone_step (doe + Z.of_nat n)). lia.
Qed.

Lemma year_of_mono a b : 0 <= a <= b -> year_of a <= year_of b.
Proof.
  intros H. apply Z.div_le_mono; [lia|]. replace b with (a + Z.of_nat (Z.to_nat (b - a))) by lia.
  apply days_gone_mono. lia.
Qed.

Definition year_ok (k : nat) : bool :=
  let y := Z.of_nat k in
  (year_of (year_start y) =? y) && (year_of (year_end y - 1) =? y) && (0 <=? year_start y) &&
  (year_end y - year_start y =? (if is_leap (y + 1) then 366 else 365)).

Lemma years_ok : forallb year_ok (seq 0 400) = true.
Proof. vm_compute. reflexivity. Qed.

Lemma find_year doe n : 0 <= doe < match n with O => 0 | S n => year_end (Z.of_nat n) end -> (n <= 400)%nat ->
  exists y, (y < n)%nat /\ year_start (Z.of_nat y) <= doe < year_end (Z.of_nat y).
Proof.
  induction n as [|n IH]; intros Hd Hn; [lia|].
  destruct (decide (year_start (Z.of_nat n) <= doe)); [exists n; lia|].
  destruct IH as (y & ? & ?); [|lia|exists y; lia].
  destruct n as [|n]; [change (year_start (Z.of_nat 0)) with 0 in *; lia|]. unfold year_end.
  destruct (Z.eqb_spec (Z.of_nat n) 399); [lia|]. replace (Z.of_nat n + 1) with (Z.of_nat (S n)) by lia. lia.
Qed.

(** The number of a day's year, and how long that year is. *)
Lemma year_of_spec doe : 0 <= doe < 146097 ->
  0 <= year_of doe < 400 /\
  0 <= doe - year_start (year_of doe) < (if is_leap (year_of doe + 1) then 366 else 365).
Proof.
  intros Hd. destruct (find_year doe 400) as (y & Hy & Hin); [change (year_end (Z.of_nat 399)) with 146097; lia|lia|].
  pose proof years_ok as Hall. rewrite forallb_forall in Hall. specialize (Hall y ltac:(apply in_seq; lia)).
  unfold year_ok in Hall. rewrite !andb_true_iff, !Z.eqb_eq, Z.leb_le in Hall. destruct Hall as [[[H1 H2] H3] H4].
  pose proof (year_of_mono (year_start (Z.of_nat y)) doe). pose proof (year_of_mono doe (year_end (Z.of_nat y) - 1)).
  replace (year_of doe) with (Z.of_nat y) by lia. lia.
Qed.

(** The month and the day of a day of a year that starts in March. *)
Definition month_of (doy : Z) : Z := let mp := (5 * doy + 2) / 153 in if mp <? 10 then mp + 3 else mp - 9.
Definition day_of (doy : Z) : Z := doy - (153 * ((5 * doy + 2) / 153) + 2) / 5 + 1.

Definition doy_ok (k : nat) : bool :=
  let doy := Z.of_nat k in
  let m := month_of doy in
  (1 <=? m) && (m <=? 12) && (1 <=? day_of doy) &&
  ((153 * (if m <=? 2 then m + 9 else m - 3) + 2) / 5 + day_of doy - 1 =? doy) &&
  (if m =? 2 then day_of doy <=? (if doy =? 365 then 29 else 28) else day_of doy <=? daysIn m 0).

Lemma doys_ok : forallb doy_ok (seq 0 366) = true.
Proof. vm_compute. reflexivity. Qed.

Lemma doy_spec doy : 0 <= doy < 366 -> let m := month_of doy in
  1 <= m <= 12 /\ 1 <= day_of doy /\
  (153 * (if m <=? 2 then m + 9 else m - 3) + 2) / 5 + day_of doy - 1 = doy /\
  (forall y, (doy = 365 -> is_leap y = true) -> day_of doy <= daysIn m y).
Proof.
  intros Hd. pose proof doys_ok as Hall. rewrite forallb_forall in Hall.
  specialize (Hall (Z.to_nat doy) ltac:(apply in_seq; lia)). unfold doy_ok in Hall.
  rewrite Z2Nat.id in Hall by lia. cbn zeta in *. rewrite !andb_true_iff in Hall.
  destruct Hall as [[[[H1 H2] H3] H4] H5]. rewrite Z.leb_le in H1, H2, H3. apply Z.eqb_eq in H4.
  split_and!; [lia|lia|lia|exact H4|]. intros y Hy. unfold daysIn in *.
  destruct (month_of doy =? 2); [|lia]. destruct (Z.eqb_spec doy 365) as [E|]; [rewrite (Hy E); lia|].
  destruct (is_leap y); lia.
Qed.

Lemma is_leap_cycle y k : is_leap (y + k * 400) = is_leap y.
Proof.
  unfold is_leap. replace (y + k * 400) with (y + k * 100 * 4) at 1 by lia. rewrite Z_mod_plus_full.
  replace (y + k * 400) with (y + k * 4 * 100) at 1 by lia. by rewrite !Z_mod_plus_full.
Qed.

Lemma daysIn_cycle m y k : daysIn m (y + k * 400) = daysIn m y.
Proof. unfold daysIn. by rewrite is_leap_cycle. Qed.

Lemma civil_cycle z k : civil_of_days (z + k * 146097) = let '(y, m, d) := civil_of_days z in (y + k * 400, m, d).
Proof.
  unfold civil_of_days. replace (z + k * 146097 + 306) with (z + 306 + k * 146097) by lia.
  rewrite Z_mod_plus_full, Z_div_plus_full by lia. cbn zeta. f_equal; f_equal. case_match; lia.
Qed.

Lemma days_cycle y m d k : days_of_civil (y + k * 400) m d = days_of_civil y m d + k * 146097.
Proof.
  unfold days_of_civil.
  replace (if m <=? 2 then y + k * 400 - 1 else y + k * 400) with ((if m <=? 2 then y - 1 else y) + k * 400)
    by (case_match; lia).
  rewrite Z_mod_plus_full, Z_div_plus_full by lia. lia.
Qed.

Lemma civil_of_days_def days :
  let doe := (days + 306) mod 146097 in
  let yoe := year_of doe in
  let m := month_of (doe - year_start yoe) in
  civil_of_days days =
  ((if m <=? 2 then yoe + 1 else yoe) + (days + 306) / 146097 * 400, m, day_of (doe - year_start yoe)).
Proof. reflexivity. Qed.

(** A day and its date determine each other. *)
Lemma civil_of_days_spec days : let '(y, m, d) := civil_of_days days in
  days_of_civil y m d = days /\ 1 <= m <= 12 /\ 1 <= d <= daysIn m y /\
  400 * ((days + 306) / 146097) <= y <= 400 * ((days + 306) / 146097) + 400.
Proof.
  rewrite civil_of_days_def. cbn zeta.
  pose proof (Z.mod_pos_bound (days + 306) 146097 ltac:(lia)) as Hb.
  pose proof (Z.div_mod (days + 306) 146097 ltac:(lia)) as Hdm.
  set (doe := (days + 306) mod 146097) in *. set (k := (days + 306) / 146097) in *.
  destruct (year_of_spec doe Hb) as [Hy Hdoy]. set (yoe := year_of doe) in *. set (doy := doe - year_start yoe) in *.
  destruct (doy_spec doy) as (Hm & Hd & Hinv & Hlast); [destruct (is_leap _); lia|].
  set (m := month_of doy) in *. rewrite days_cycle, daysIn_cycle.
  assert (Hyoe : (if m <=? 2 then (if m <=? 2 then yoe + 1 else yoe) - 1 else (if m <=? 2 then yoe + 1 else yoe)) = yoe)
    by (destruct (m <=? 2); lia).
  split_and!; [|lia|lia|exact Hd| |destruct (m <=? 2); lia|destruct (m <=? 2); lia].
  - unfold days_of_civil. rewrite Hyoe, Z.mod_small, Z.div_small, Hinv by lia. unfold doy, year_start. lia.
  - destruct (Z.leb_spec m 2).
    + apply Hlast. intros ?. destruct (is_leap (yoe + 1)); [done|lia].
    + assert (Hnf : daysIn m yoe = daysIn m (yoe + 1)) by (unfold daysIn; by rewrite (proj2 (Z.eqb_neq m 2)) by lia).
      rewrite Hnf. apply Hlast. intros ?. destruct (is_leap (yoe + 1)); [done|lia].
Qed.

(** ** What is formatted is parsed *)

Lemma digit_mod n : is_digit (n mod 10).
Proof. unfold is_digit. pose proof (Z.mod_pos_bound n 10). lia. Qed.

Lemma num2_padded n s : 0 <= n <= 99 -> num2 (padded 2 n "" +:+ s) = Some (n, s).
Proof.
  intros Hn. cbn [padded]. rewrite !string_app_cons, string_app_nil_l. unfold num2, num1.
  rewrite digit_char_digit by apply digit_mod. cbn [mbind option_bind].
  rewrite digit_char_digit by apply digit_mod. cbn [mbind option_bind]. do 2 f_equal.
  Z.to_euclidean_division_equations; lia.
Qed.

Lemma num4_padded n s : 0 <= n <= 9999 -> num4 (padded 4 n "" +:+ s) = Some (n, s).
Proof.
  intros Hn.
  assert (Hs : padded 4 n "" = padded 2 (n / 100) "" +:+ padded 2 (n mod 100) "").
  { cbn [padded]. rewrite !string_app_cons, string_app_nil_l.
    assert (H2 : n / 10 / 10 mod 10 = n / 100 mod 10 /\ n / 10 / 10 / 10 mod 10 = n / 100 / 10 mod 10 /\
      n / 10 mod 10 = n mod 100 / 10 mod 10 /\ n mod 10 = n mod 100 mod 10)
      by (Z.to_euclidean_division_equations; lia).
    destruct H2 as (-> & -> & -> & E4). by rewrite E4 at 1. }
  rewrite Hs, string_app_assoc. unfold num4. rewrite num2_padded by (Z.to_euclidean_division_equations; lia).
  cbn [mbind option_bind]. rewrite num2_padded by (Z.to_euclidean_division_equations; lia).
  cbn [mbind option_bind]. do 2 f_equal. Z.to_euclidean_division_equations; lia.
Qed.

Lemma scan_fraction_padded k : forall n c scale acc tail, 0 <= n < 10 ^ Z.of_nat k -> scale * 10 = c * 10 ^ Z.of_nat k ->
  scan_fraction scale acc (padded k n tail) = scan_fraction (c / 10) (acc + n * c) tail.
Proof.
  induction k as [|k IH]; intros n c scale acc tail Hn Hs.
  - cbn in Hn, Hs |- *. replace n with 0 by lia. replace (c / 10) with scale by (Z.to_euclidean_division_equations; lia).
    by rewrite Z.add_0_r.
  - rewrite Nat2Z.inj_succ, Z.pow_succ_r in * by lia. cbn [padded].
    rewrite (IH (n / 10) (c * 10)); [|Z.to_euclidean_division_equations; lia|lia].
    cbn [scan_fraction]. rewrite digit_char_digit by apply digit_mod.
    replace (c * 10 / 10) with c by (Z.to_euclidean_division_equations; lia). f_equal.
    Z.to_euclidean_division_equations; nia.
Qed.

Lemma padded_head k n tail : exists d s, padded (S k) n tail = String (digit_char d) s /\ is_digit d.
Proof.
  revert n tail. induction k as [|k IH]; intros n tail.
  - eexists _, _. split; [reflexivity|apply digit_mod].
  - change (padded (S (S k)) n tail) with (padded (S k) (n / 10) (String (digit_char (n mod 10)) tail)). apply IH.
Qed.

Lemma padded_app k n tail s : padded k n tail +:+ s = padded k n (tail +:+ s).
Proof. revert n tail. induction k as [|k IH]; intros n tail; [done|]. cbn [padded]. rewrite IH. done. Qed.

Lemma parse_fraction_trim k : forall n s, 0 <= n < 10 ^ Z.of_nat k -> (k <= 9)%nat ->
  match s with EmptyString => True | String b _ => digit b = None /\ b <> "."%char /\ b <> ","%char end ->
  parse_fraction (trim_zeros k n +:+ s) = (n * 10 ^ (9 - Z.of_nat k), s).
Proof.
  induction k as [|k IH]; intros n s Hn Hk Hs.
  - cbn [trim_zeros]. rewrite string_app_nil_l. cbn in Hn. replace n with 0 by lia.
    destruct s as [|b [|b' s]]; try done. destruct Hs as (_ & H1 & H2). cbn [parse_fraction].
    rewrite !(proj2 (Ascii.eqb_neq _ _)) by done. done.
  - cbn [trim_zeros]. rewrite Nat2Z.inj_succ, Z.pow_succ_r in Hn by lia. destruct (Z.eqb_spec (n mod 10) 0) as [E|E].
    + rewrite IH; [|Z.to_euclidean_division_equations; lia|lia|done]. f_equal.
      replace (9 - Z.of_nat k) with (Z.succ (9 - Z.of_nat (S k))) by lia. rewrite Z.pow_succ_r by lia.
      rewrite Z.mul_assoc. f_equal. Z.to_euclidean_division_equations; lia.
    + rewrite !string_app_cons, !string_app_nil_l, padded_app, string_app_nil_l.
      destruct (padded_head k n s) as (d & s' & Hp & Hd).
      assert (Hval : scan_fraction 100000000 0 (padded (S k) n s) = (n * 10 ^ (9 - Z.of_nat (S k)), s)).
      { rewrite (scan_fraction_padded (S k) n (10 ^ (9 - Z.of_nat (S k)))).
        - destruct s as [|b s]; [done|]. destruct Hs as (Hb & _). cbn [scan_fraction]. rewrite Hb. done.
        - rewrite Nat2Z.inj_succ, Z.pow_succ_r by lia. lia.
        - rewrite <- Z.pow_add_r by lia. replace (9 - Z.of_nat (S k) + Z.of_nat (S k)) with 9 by lia. reflexivity. }
      unfold parse_fraction. rewrite Hp in *.
      rewrite (digit_char_digit d Hd). cbn [andb orb]. change (("." =? ".")%char) with true. exact Hval.
Qed.

Ltac eat_separator :=
  cbn [mbind option_bind]; rewrite string_app_cons, string_app_nil_l; cbn [starts];
  rewrite Ascii.eqb_refl; cbn [mbind option_bind].

#[local] Opaque padded.

(** An instant of the years a text can name, in UTC, is read back as it is. *)
Lemma parse_time_format t : is_utc t -> 0 <= (clock_face t).1.1.1.1 <= 9999 -> parse_time (format_nanos t) = Some t.
Proof.
  destruct t as [n l]. unfold is_utc. cbn [loc]. intros ->. unfold format_nanos, format_with, clock_face.
  cbn [instant loc loc_offset]. rewrite Z.mul_0_l, Z.add_0_r.
  pose proof (civil_of_days_spec (n / nanos_per_day)) as Hc.
  destruct (civil_of_days (n / nanos_per_day)) as [[y m] d]. destruct Hc as (Hdays & Hm & Hd & _). cbn [fst].
  intros Hy. change (format_zone 0) with "Z". 
  pose proof (Z.div_mod n nanos_per_day ltac:(done)) as Hn.
  pose proof (Z.mod_pos_bound n nanos_per_day ltac:(done)) as Hw. set (w := n mod nanos_per_day) in *.
  assert (Hsec : 0 <= w / 1000000000 < 86400 /\ w = 1000000000 * (w / 1000000000) + w mod 1000000000 /\
    0 <= w mod 1000000000 < 1000000000) by (unfold nanos_per_day in Hw; Z.to_euclidean_division_equations; lia).
  destruct Hsec as (Hs & Hwd & Hnano). set (se := w / 1000000000) in *. set (nano := w mod 1000000000) in *.
  assert (Hhms : 0 <= se / 3600 <= 23 /\ 0 <= se / 60 mod 60 <= 59 /\ 0 <= se mod 60 <= 59 /\
    se = se / 3600 * 3600 + se / 60 mod 60 * 60 + se mod 60)
    by (clear -Hs; Z.to_euclidean_division_equations; lia).
  destruct Hhms as (Hh & Hmi & Hse & Hsum).
  assert (Hd31 : daysIn m y <= 31) by (unfold daysIn; repeat case_match; lia).
  assert (Hr : forall lo hi k, lo <= k <= hi -> in_range lo hi k = Some ())
    by (intros lo hi k Hk; unfold in_range; by rewrite (proj2 (Z.leb_le _ _) (proj1 Hk)), (proj2 (Z.leb_le _ _) (proj2 Hk))).
  unfold format_year, parse_time. rewrite (proj2 (Z.leb_le _ _) (proj1 Hy)), (proj2 (Z.leb_le _ _) (proj2 Hy)). cbn [andb].
  rewrite num4_padded by exact Hy. cbn [mbind option_bind].
  eat_separator.
  rewrite num2_padded by lia. cbn [mbind option_bind]. rewrite Hr by lia.
  eat_separator.
  rewrite num2_padded by lia. cbn [mbind option_bind].
  eat_separator.
  unfold num12. rewrite num2_padded by lia. cbn [mbind option_bind]. rewrite Hr by lia.
  eat_separator.
  rewrite num2_padded by lia. cbn [mbind option_bind]. rewrite Hr by lia.
  eat_separator.
  rewrite num2_padded by lia. cbn [mbind option_bind]. rewrite Hr by lia. cbn [mbind option_bind].
  rewrite (parse_fraction_trim 9) by first [done|cbn; lia].
  cbn [parse_zone]. rewrite Ascii.eqb_refl. rewrite bool_decide_eq_true_2 by done. cbn [mbind option_bind].
  rewrite Hr by lia. cbn [mbind option_bind]. do 2 f_equal. rewrite Hdays. change (10 ^ (9 - Z.of_nat 9)) with 1. rewrite Z.mul_1_r.
  assert (Hnpd : nanos_per_day = 86400 * 1000000000) by done. set (q := n / nanos_per_day) in *.
  rewrite Hnpd in Hn. clear -Hn Hwd Hsum. lia.
Qed.
