(* ===== verification/Json.v ===== *)
(** * Json: the part of Go's [encoding/json] the program uses

    Reading: [json.Decoder.Decode] takes one value off its input, text that is
    kept as it was written ([value]), and stores it into a struct through its
    fields ([into_struct]): names match exactly or up to case, an unknown field
    is refused when the decoder says so, [null] changes nothing, a member that
    appears twice is stored twice.  Writing: a value is written without
    spaces, its strings quoted as [json.Marshal] quotes them. *)

From S2P Require Import Prelude Money GoTime GoStrings Encoding Rfc3339.

#[local] Open Scope string_scope.
#[local] Open Scope list_scope.
#[local] Open Scope Z_scope.

(** ** UTF-8 *)

Definition within (lo hi : Z) (b : ascii) : bool := (lo <=? byte_val b) && (byte_val b <=? hi).

Definition continues : ascii -> bool := within 128 191.

(** The sequences that encode a rune: no overlong form, no surrogate, nothing
    past U+10FFFF. *)
Definition two_bytes (b0 b1 : ascii) : bool := within 194 223 b0 && continues b1.

Definition three_bytes (b0 b1 b2 : ascii) : bool :=
  (within 224 224 b0 && within 160 191 b1 ||
   (within 225 236 b0 || within 238 239 b0) && continues b1 ||
   within 237 237 b0 && within 128 159 b1) && continues b2.

Definition four_bytes (b0 b1 b2 b3 : ascii) : bool :=
  (within 240 240 b0 && within 144 191 b1 ||
   within 241 243 b0 && continues b1 ||
   within 244 244 b0 && within 128 143 b1) && continues b2 && continues b3.

(** A string as [utf8.DecodeRune] walks it: bytes below 128, the sequences of
    the other runes, and the bytes that belong to none. *)
Inductive rune := Byte (b : ascii) | Multi (bs : string) | Invalid.

Fixpoint runes (s : string) : list rune :=
  match s with
  | EmptyString => []
  | String b0 s1 =>
    if byte_val b0 <? 128 then Byte b0 :: runes s1
    else
      match s1 with
      | EmptyString => [Invalid]
      | String b1 s2 =>
        if two_bytes b0 b1 then Multi (String b0 (String b1 "")) :: runes s2
        else
          match s2 with
          | EmptyString => Invalid :: runes s1
          | String b2 s3 =>
            if three_bytes b0 b1 b2 then Multi (String b0 (String b1 (String b2 ""))) :: runes s3
            else
              match s3 with
              | EmptyString => Invalid :: runes s1
              | String b3 s4 =>
                if four_bytes b0 b1 b2 b3
                then Multi (String b0 (String b1 (String b2 (String b3 "")))) :: runes s4
                else Invalid :: runes s1
              end
          end
      end
  end.

(** [utf8.AppendRune] *)
Definition encode_rune (r : Z) : string :=
  if r <? 128 then String (byte_of r) ""
  else if r <? 2048 then String (byte_of (192 + r / 64)) (String (byte_of (128 + r mod 64)) "")
  else if r <? 65536
  then String (byte_of (224 + r / 4096)) (String (byte_of (128 + r / 64 mod 64)) (String (byte_of (128 + r mod 64)) ""))
  else String (byte_of (240 + r / 262144)) (String (byte_of (128 + r / 4096 mod 64))
         (String (byte_of (128 + r / 64 mod 64)) (String (byte_of (128 + r mod 64)) ""))).

(** U+FFFD *)
Definition replacement : string := encode_rune 65533.

Definition rune_bytes (r : rune) : string :=
  match r with Byte b => String b "" | Multi bs => bs | Invalid => replacement end.

Definition concat_map (f : rune -> string) (rs : list rune) : string :=
  foldr (fun r s => f r +:+ s) "" rs.

(** A string with every byte that belongs to no rune replaced. *)
Definition ToValid (s : string) : string := concat_map rune_bytes (runes s).

Definition valid_utf8 (s : string) : Prop := Forall (fun r => r <> Invalid) (runes s).

(** ** Quoting *)

Definition dquote : ascii := "034"%char.
Definition backslash : ascii := "\"%char.

Definition hex_char (n : Z) : ascii := if n <? 10 then digit_char n else byte_of (87 + n).

(** [\u00xx] *)
Definition escape_byte (b : ascii) : string :=
  String backslash ("u00" +:+ String (hex_char (byte_val b / 16)) (String (hex_char (byte_val b mod 16)) "")).

Definition line_separator : string := encode_rune 8232.
Definition paragraph_separator : string := encode_rune 8233.

(** One step of [appendString], HTML escaped. *)
Definition quote_rune (r : rune) : string :=
  match r with
  | Byte b =>
    if (b =? dquote)%char || (b =? backslash)%char then String backslash (String b "")
    else if byte_val b =? 8 then "\b"
    else if byte_val b =? 12 then "\f"
    else if byte_val b =? 10 then "\n"
    else if byte_val b =? 13 then "\r"
    else if byte_val b =? 9 then "\t"
    else if (byte_val b <? 32) || (b =? "<")%char || (b =? ">")%char || (b =? "&")%char then escape_byte b
    else String b ""
  | Multi bs =>
    if bool_decide (bs = line_separator) then "\u2028"
    else if bool_decide (bs = paragraph_separator) then "\u2029"
    else bs
  | Invalid => "\ufffd"
  end.

Definition quote (s : string) : string := concat_map quote_rune (runes s).

(** ** Unquoting *)

Definition hex_val (b : ascii) : option Z :=
  if within 48 57 b then Some (byte_val b - 48)
  else if within 97 102 b then Some (byte_val b - 97 + 10)
  else if within 65 70 b then Some (byte_val b - 65 + 10)
  else None.

Definition hex4 (h1 h2 h3 h4 : ascii) : option Z :=
  a ← hex_val h1; b ← hex_val h2; c ← hex_val h3; d ← hex_val h4;
  Some (((a * 16 + b) * 16 + c) * 16 + d).

(** [utf16.IsSurrogate], [utf16.DecodeRune] *)
Definition IsSurrogate (r : Z) : bool := (55296 <=? r) && (r <? 57344).
Definition DecodeSurrogates (r1 r2 : Z) : option Z :=
  if (55296 <=? r1) && (r1 <? 56320) && (56320 <=? r2) && (r2 <? 57344)
  then Some ((r1 - 55296) * 1024 + (r2 - 56320) + 65536) else None.

(** The letter after a backslash. *)
Definition unescape (e : ascii) : option ascii :=
  if (e =? dquote)%char || (e =? backslash)%char || (e =? "/")%char then Some e
  else if (e =? "b")%char then Some (byte_of 8)
  else if (e =? "f")%char then Some (byte_of 12)
  else if (e =? "n")%char then Some (byte_of 10)
  else if (e =? "r")%char then Some (byte_of 13)
  else if (e =? "t")%char then Some (byte_of 9)
  else None.

(** What an escape of four hexadecimal digits stands for on its own. *)
Definition lone (r : Z) : string := if IsSurrogate r then replacement else encode_rune r.

Fixpoint unquote_runes (rs : list rune) : option string :=
  match rs with
  | [] => Some ""
  | Byte b :: rs =>
    if (b =? backslash)%char then
      match rs with
      | Byte e :: rs =>
        if (e =? "u")%char then
          match rs with
          | Byte h1 :: Byte h2 :: Byte h3 :: Byte h4 :: rs =>
            r ← hex4 h1 h2 h3 h4;
            match rs with
            | Byte b' :: Byte e' :: Byte g1 :: Byte g2 :: Byte g3 :: Byte g4 :: rs' =>
              match (if (b' =? backslash)%char && (e' =? "u")%char
                     then r' ← hex4 g1 g2 g3 g4; DecodeSurrogates r r' else None) with
              | Some c => s ← unquote_runes rs'; Some (encode_rune c +:+ s)
              | None => s ← unquote_runes rs; Some (lone r +:+ s)
              end
            | _ => s ← unquote_runes rs; Some (lone r +:+ s)
            end
          | _ => None
          end
        else c ← unescape e; s ← unquote_runes rs; Some (String c s)
      | _ => None
      end
    else s ← unquote_runes rs; Some (String b s)
  | r :: rs => s ← unquote_runes rs; Some (rune_bytes r +:+ s)
  end.

Definition unquote (content : string) : option string := unquote_runes (runes content).

(** ** The grammar *)

(** A value, with numbers and strings (between their quotes) as they are
    written. *)
Inductive value :=
| VNull
| VBool (b : bool)
| VNumber (literal : string)
| VString (content : string)
| VArray (elements : list value)
| VObject (members : list (string * value)).

Definition is_space (b : ascii) : bool :=
  (byte_val b =? 32) || (byte_val b =? 9) || (byte_val b =? 13) || (byte_val b =? 10).

Fixpoint skip_space (s : string) : string :=
  match s with
  | EmptyString => ""
  | String b s' => if is_space b then skip_space s' else s
  end.

Definition is_hex (b : ascii) : bool := match hex_val b with Some _ => true | None => false end.

(** The rest of a string after its opening quote: the content and what is
    after the closing quote. *)
Fixpoint scan_string (s : string) : option (string * string) :=
  match s with
  | EmptyString => None
  | String b s =>
    if (b =? dquote)%char then Some ("", s)
    else if (b =? backslash)%char then
      match s with
      | EmptyString => None
      | String e s =>
        if (e =? "u")%char then
          match s with
          | String h1 (String h2 (String h3 (String h4 s))) =>
            if is_hex h1 && is_hex h2 && is_hex h3 && is_hex h4 then
              '(c, rest) ← scan_string s;
              Some (String b (String e (String h1 (String h2 (String h3 (String h4 c))))), rest)
            else None
          | _ => None
          end
        else
          match unescape e with
          | Some _ => '(c, rest) ← scan_string s; Some (String b (String e c), rest)
          | None => None
          end
      end
    else if byte_val b <? 32 then None
    else '(c, rest) ← scan_string s; Some (String b c, rest)
  end.

Fixpoint scan_digits (s : string) : string * string :=
  match s with
  | EmptyString => ("", "")
  | String b s' =>
    match digit b with
    | Some _ => let '(ds, rest) := scan_digits s' in (String b ds, rest)
    | None => ("", s)
    end
  end.

(** At least one digit. *)
Definition scan_digits1 (s : string) : option (string * string) :=
  let '(ds, rest) := scan_digits s in if bool_decide (ds = "") then None else Some (ds, rest).

Definition scan_int (s : string) : option (string * string) :=
  match s with
  | EmptyString => None
  | String b s' => if (b =? "0")%char then Some ("0", s') else scan_digits1 s
  end.

Definition scan_frac (s : string) : option (string * string) :=
  match s with
  | String b s' => if (b =? ".")%char then '(ds, rest) ← scan_digits1 s'; Some (String b ds, rest) else Some ("", s)
  | EmptyString => Some ("", s)
  end.

Definition scan_sign (s : string) : string * string :=
  match s with
  | String b s' => if (b =? "+")%char || (b =? "-")%char then (String b "", s') else ("", s)
  | EmptyString => ("", s)
  end.

Definition scan_exp (s : string) : option (string * string) :=
  match s with
  | String b s' =>
    if (b =? "e")%char || (b =? "E")%char
    then let '(sign, s') := scan_sign s' in '(ds, rest) ← scan_digits1 s'; Some (String b (sign +:+ ds), rest)
    else Some ("", s)
  | EmptyString => Some ("", s)
  end.

Definition scan_number (s : string) : option (string * string) :=
  let '(minus, s) :=
    match s with
    | String b s' => if (b =? "-")%char then ("-", s') else ("", s)
    | EmptyString => ("", s)
    end in
  '(int, s) ← scan_int s; '(frac, s) ← scan_frac s; '(exp, s) ← scan_exp s;
  Some (minus +:+ int +:+ frac +:+ exp, s).

(** How deep arrays and objects may nest. *)
Definition maxNestingDepth : Z := 10000.

Definition scan_literal (s : string) : option (value * string) :=
  match CutPrefix s "null", CutPrefix s "true", CutPrefix s "false" with
  | Some rest, _, _ => Some (VNull, rest)
  | _, Some rest, _ => Some (VBool true, rest)
  | _, _, Some rest => Some (VBool false, rest)
  | _, _, _ => None
  end.

(** One value, the spaces before it skipped. *)
Fixpoint parse_value (fuel : nat) (depth : Z) (s : string) : option (value * string) :=
  match fuel with
  | O => None
  | S fuel =>
    match skip_space s with
    | EmptyString => None
    | String b s =>
      if (b =? "{")%char then
        if depth <? maxNestingDepth then
          match skip_space s with
          | EmptyString => None
          | String c rest =>
            if (c =? "}")%char then Some (VObject [], rest)
            else '(ms, rest) ← parse_members fuel (depth + 1) s; Some (VObject ms, rest)
          end
        else None
      else if (b =? "[")%char then
        if depth <? maxNestingDepth then
          match skip_space s with
          | EmptyString => None
          | String c rest =>
            if (c =? "]")%char then Some (VArray [], rest)
            else '(vs, rest) ← parse_elements fuel (depth + 1) s; Some (VArray vs, rest)
          end
        else None
      else if (b =? dquote)%char then '(c, rest) ← scan_string s; Some (VString c, rest)
      else
        match scan_literal (String b s) with
        | Some r => Some r
        | None => '(lit, rest) ← scan_number (String b s); Some (VNumber lit, rest)
        end
    end
  end
(** The members of an object, up to and with its closing brace. *)
with parse_members (fuel : nat) (depth : Z) (s : string) : option (list (string * value) * string) :=
  match fuel with
  | O => None
  | S fuel =>
    match skip_space s with
    | EmptyString => None
    | String b s =>
      if (b =? dquote)%char then
        '(k, s) ← scan_string s;
        match skip_space s with
        | EmptyString => None
        | String c s =>
          if (c =? ":")%char then
            '(v, s) ← parse_value fuel depth s;
            match skip_space s with
            | EmptyString => None
            | String d s =>
              if (d =? ",")%char then '(ms, rest) ← parse_members fuel depth s; Some ((k, v) :: ms, rest)
              else if (d =? "}")%char then Some ([(k, v)], s)
              else None
            end
          else None
        end
      else None
    end
  end
(** The elements of an array, up to and with its closing bracket. *)
with parse_elements (fuel : nat) (depth : Z) (s : string) : option (list value * string) :=
  match fuel with
  | O => None
  | S fuel =>
    '(v, s) ← parse_value fuel depth s;
    match skip_space s with
    | EmptyString => None
    | String d s =>
      if (d =? ",")%char then '(vs, rest) ← parse_elements fuel depth s; Some (v :: vs, rest)
      else if (d =? "]")%char then Some ([v], s)
      else None
    end
  end.

(** Every call goes with a character of its own, or with the bracket before
    it. *)
Definition parse (s : string) : option (value * string) := parse_value (S (2 * String.length s)) 0 s.

(** The first [n] bytes: [http.MaxBytesReader], [io.LimitReader]. *)
Fixpoint string_take (n : Z) (s : string) : string :=
  match s with
  | EmptyString => ""
  | String b s => if 0 <? n then String b (string_take (n - 1) s) else ""
  end.

Definition is_composite (v : value) : bool :=
  match v with VArray _ | VObject _ => true | _ => false end.

(** [Decoder.readValue] over what is left of the input.  When the reader fails
    at its end instead of reporting it ([cut]), a value that only the end of
    the input would close is lost. *)
Definition readValue (cut : bool) (s : string) : option (value * string) :=
  '(v, rest) ← parse s;
  if cut && bool_decide (rest = "") && negb (is_composite v) then None else Some (v, rest).

(** ** Storing *)

(** Into a [string], an [int64], a pointer. *)
Definition into_string (old : string) (v : value) : option string :=
  match v with
  | VString content => unquote content
  | VNull => Some old
  | _ => None
  end.

Definition into_int (old : Z) (v : value) : option Z :=
  match v with
  | VNumber literal => ParseInt literal
  | VNull => Some old
  | _ => None
  end.

Definition into_pointer {A} (zero : A) (into : A -> value -> option A) (old : option A) (v : value)
    : option (option A) :=
  match v with
  | VNull => Some None
  | _ => Some <$> into (default zero old) v
  end.

(** Into a [time.Time]: [UnmarshalJSON] reads the text between the quotes as it
    is written. *)
Definition into_time (old : Time) (v : value) : option Time :=
  match v with
  | VString content => parse_time content
  | VNull => Some old
  | _ => None
  end.

(** A field of a struct: its name, and how a member of that name is stored. *)
Abbreviation field A := (string * (A -> value -> option A))%type (only parsing).

Definition into_field {A B} (get : A -> B) (set : B -> A -> A) (into : B -> value -> option B)
    (a : A) (v : value) : option A :=
  b ← into (get a) v; Some (set b a).

Definition upper (b : ascii) : ascii := if within 97 122 b then byte_of (byte_val b - 32) else b.

(** [foldName], as far as equality with an ASCII name goes: the long s and the
    Kelvin sign are the only other runes that fold to ASCII. *)
Definition fold_rune (r : rune) : string :=
  match r with
  | Byte b => String (upper b) ""
  | Multi bs =>
    if bool_decide (bs = encode_rune 383) then "S"
    else if bool_decide (bs = encode_rune 8490) then "K"
    else bs
  | Invalid => replacement
  end.

Definition fold_name (s : string) : string := concat_map fold_rune (runes s).

Fixpoint find_field {A} (same : string -> bool) (fields : list (field A)) : option (A -> value -> option A) :=
  match fields with
  | [] => None
  | (name, store) :: fields => if same name then Some store else find_field same fields
  end.

Definition lookup_field {A} (fields : list (field A)) (key : string) : option (A -> value -> option A) :=
  match find_field (fun name => bool_decide (name = key)) fields with
  | Some store => Some store
  | None => find_field (fun name => bool_decide (fold_name name = fold_name key)) fields
  end.

Fixpoint store_members {A} (strict : bool) (fields : list (field A)) (a : A) (members : list (string * value))
    : option A :=
  match members with
  | [] => Some a
  | (content, v) :: members =>
    key ← unquote content;
    match lookup_field fields key with
    | Some store => a ← store a v; store_members strict fields a members
    | None => if strict then None else store_members strict fields a members
    end
  end.

(** Into a struct; [strict] after [DisallowUnknownFields]. *)
Definition into_struct {A} (strict : bool) (fields : list (field A)) (a : A) (v : value) : option A :=
  match v with
  | VObject members => store_members strict fields a members
  | VNull => Some a
  | _ => None
  end.

(** Into a slice: elements that are there are stored into, further ones start
    from the zero value. *)
Fixpoint into_elements {A} (zero : A) (into : A -> value -> option A) (old : list A) (vs : list value)
    : option (list A) :=
  match vs with
  | [] => Some []
  | v :: vs =>
    let '(a, old) := match old with [] => (zero, []) | a :: old => (a, old) end in
    a ← into a v; rest ← into_elements zero into old vs; Some (a :: rest)
  end.

Definition into_slice {A} (zero : A) (into : A -> value -> option A) (old : list A) (v : value) : option (list A) :=
  match v with
  | VNull => Some []
  | VArray vs => into_elements zero into old vs
  | _ => None
  end.

(** ** Writing *)

Fixpoint join (l : list string) : string :=
  match l with
  | [] => ""
  | [s] => s
  | s :: l => s +:+ "," +:+ join l
  end.

Definition quoted (content : string) : string := String dquote (content +:+ String dquote "").

Fixpoint write (v : value) : string :=
  match v with
  | VNull => "null"
  | VBool true => "true"
  | VBool false => "false"
  | VNumber literal => literal
  | VString content => quoted content
  | VArray vs => "[" +:+ join (map write vs) +:+ "]"
  | VObject ms => "{" +:+ join (map (fun '(k, v) => quoted k +:+ ":" +:+ write v) ms) +:+ "}"
  end.

(** A Go string, an integer, a struct with its tags in order, a field tagged
    [omitempty]. *)
Definition of_string (s : string) : value := VString (quote s).
Definition of_int (n : Z) : value := VNumber (FormatInt n).
Definition of_struct (members : list (string * value)) : value := VObject members.
Definition of_omitempty (name s : string) : list (string * value) :=
  if bool_decide (s = "") then [] else [(name, of_string s)].

(** [json.Encoder.Encode] *)
Definition Encode (v : value) : string := write v +:+ String (byte_of 10) "".
