(* ===== verification/JsonFacts.v ===== *)
(** * JsonFacts: what is written is read back

    A quoted string is unquoted to itself with its invalid bytes replaced; a
    written value is parsed to itself, whatever follows it; the fuel of the
    parser never decides. *)

From S2P Require Import Prelude Money GoTime GoStrings Encoding Rfc3339 Json.

#[local] Open Scope string_scope.
#[local] Open Scope list_scope.
#[local] Open Scope Z_scope.

(** Concatenations to the right, literals character by character. *)
Ltac norm_app :=
  repeat first [rewrite string_app_cons | rewrite string_app_assoc | rewrite string_app_nil_l].

(** ** UTF-8 *)

(** A sequence that encodes a rune past 127. *)
Inductive multi : string -> Prop :=
| multi_2 b0 b1 : two_bytes b0 b1 = true -> multi (String b0 (String b1 ""))
| multi_3 b0 b1 b2 : two_bytes b0 b1 = false -> three_bytes b0 b1 b2 = true ->
    multi (String b0 (String b1 (String b2 "")))
| multi_4 b0 b1 b2 b3 : two_bytes b0 b1 = false -> three_bytes b0 b1 b2 = false ->
    four_bytes b0 b1 b2 b3 = true -> multi (String b0 (String b1 (String b2 (String b3 "")))).

(** The tokens [runes] yields. *)
Inductive token : rune -> Prop :=
| token_byte b : byte_val b < 128 -> token (Byte b)
| token_multi bs : multi bs -> token (Multi bs)
| token_invalid : token Invalid.

Lemma within_iff lo hi b : within lo hi b = true <-> lo <= byte_val b <= hi.
Proof. unfold within. rewrite andb_true_iff, !Z.leb_le. lia. Qed.

Ltac bytes_lia :=
  unfold two_bytes, three_bytes, four_bytes, continues in *;
  repeat (rewrite andb_true_iff in * || rewrite orb_true_iff in * || rewrite within_iff in * ); lia.

Lemma multi_high bs : multi bs -> Forall (fun b => 128 <= byte_val b) (String.list_ascii_of_string bs).
Proof. intros []; cbn; repeat apply Forall_cons_2; try apply Forall_nil_2; bytes_lia. Qed.

Lemma runes_byte b s : byte_val b < 128 -> runes (String b s) = Byte b :: runes s.
Proof. intros Hb. cbn [runes]. by rewrite (proj2 (Z.ltb_lt _ _) Hb). Qed.

Lemma runes_multi bs s : multi bs -> runes (bs +:+ s) = Multi bs :: runes s.
Proof.
  intros Hm. pose proof (multi_high bs Hm) as Hh.
  destruct Hm as [b0 b1 H2|b0 b1 b2 H2 H3|b0 b1 b2 b3 H2 H3 H4]; cbn in Hh; apply Forall_inv in Hh;
    rewrite !string_app_cons, string_app_nil_l; cbn [runes];
    rewrite (proj2 (Z.ltb_ge _ _) Hh), ?H2, ?H3, ?H4; reflexivity.
Qed.

(** A string is a token and what follows it. *)
Lemma runes_step s : s <> "" -> exists r s', runes s = r :: runes s' /\ token r /\
  (String.length s' < String.length s)%nat /\ (r = Invalid \/ s = rune_bytes r +:+ s').
Proof.
  destruct s as [|b0 s1]; [done|]. intros _. cbn [runes].
  destruct (byte_val b0 <? 128) eqn:E0.
  { apply Z.ltb_lt in E0. exists (Byte b0), s1. split_and!; [done|by constructor|cbn; lia|by right]. }
  assert (Hinv : exists r s', Invalid :: runes s1 = r :: runes s' /\ token r /\
    (String.length s' < String.length (String b0 s1))%nat /\ (r = Invalid \/ String b0 s1 = rune_bytes r +:+ s')).
  { exists Invalid, s1. split_and!; [done|constructor|cbn; lia|by left]. }
  destruct s1 as [|b1 s2]; [exact Hinv|]. destruct (two_bytes b0 b1) eqn:E2.
  { eexists (Multi _), s2. split_and!; [done|by do 2 constructor|cbn; lia|by right]. }
  destruct s2 as [|b2 s3]; [exact Hinv|]. destruct (three_bytes b0 b1 b2) eqn:E3.
  { eexists (Multi _), s3. split_and!; [done|by do 2 constructor|cbn; lia|by right]. }
  destruct s3 as [|b3 s4]; [exact Hinv|]. destruct (four_bytes b0 b1 b2 b3) eqn:E4; [|exact Hinv].
  eexists (Multi _), s4. split_and!; [done|by do 2 constructor|cbn; lia|by right].
Qed.

(** Induction along the tokens of a string. *)
Lemma runes_ind (P : string -> Prop) :
  P "" ->
  (forall s r s', runes s = r :: runes s' -> token r -> (r = Invalid \/ s = rune_bytes r +:+ s') -> P s' -> P s) ->
  forall s, P s.
Proof.
  intros H0 HS s. remember (String.length s) as n eqn:En. revert s En.
  induction (lt_wf n) as [n _ IH]. intros s ->. destruct (decide (s = "")) as [->|Hs]; [done|].
  destruct (runes_step s Hs) as (r & s' & Hr & Ht & Hl & Hd). apply (HS s r s' Hr Ht Hd), (IH _ Hl). done.
Qed.

Lemma runes_token s : Forall token (runes s).
Proof. induction s as [|s r s' -> Ht _ IH] using runes_ind; [constructor|by constructor]. Qed.

Lemma ToValid_step s r s' : runes s = r :: runes s' -> ToValid s = rune_bytes r +:+ ToValid s'.
Proof. intros H. unfold ToValid. by rewrite H. Qed.

(** Nothing is replaced in a valid string. *)
Lemma ToValid_id s : valid_utf8 s -> ToValid s = s.
Proof.
  induction s as [|s r s' Hr _ Hd IH] using runes_ind; intros Hv; [done|].
  unfold valid_utf8 in Hv. rewrite Hr in Hv. apply Forall_cons in Hv as [Hne Hv].
  rewrite (ToValid_step _ _ _ Hr), IH by exact Hv. by destruct Hd as [->|Hd].
Qed.

Definition ascii_text (s : string) : Prop :=
  Forall (fun b => byte_val b < 128) (String.list_ascii_of_string s).

Lemma ascii_text_valid s : ascii_text s -> valid_utf8 s.
Proof.
  unfold ascii_text, valid_utf8. induction s as [|b s IH]; intros Hs; [constructor|].
  cbn in Hs. apply Forall_cons in Hs as [Hb Hs]. rewrite runes_byte by exact Hb. constructor; [done|auto].
Qed.

(** ** Quoting and unquoting *)

Lemma hex4_plain_step h1 h2 h3 h4 r rs :
  hex4 h1 h2 h3 h4 = Some r -> IsSurrogate r = false ->
  unquote_runes (Byte backslash :: Byte "u" :: Byte h1 :: Byte h2 :: Byte h3 :: Byte h4 :: rs) =
  (s ← unquote_runes rs; Some (encode_rune r +:+ s)).
Proof.
  intros Hh Hs.
  assert (Hl : lone r = encode_rune r) by (unfold lone; by rewrite Hs).
  assert (Hd : forall r', DecodeSurrogates r r' = None).
  { intros r'. unfold IsSurrogate in Hs. unfold DecodeSurrogates.
    destruct (55296 <=? r) eqn:E1; [|done]. cbn in Hs. destruct (r <? 56320) eqn:E2; [lia|done]. }
  cbn [unquote_runes]. rewrite !Ascii.eqb_refl, Hh. cbn [mbind option_bind]. rewrite Hl.
  destruct rs as [|[b'| |] [|[e'| |] [|[g1| |] [|[g2| |] [|[g3| |] [|[g4| |] rs]]]]]]; try reflexivity.
  destruct ((b' =? backslash)%char && (e' =? "u")%char); [|reflexivity].
  destruct (hex4 g1 g2 g3 g4) as [r'|]; cbn [mbind option_bind]; [|reflexivity]. by rewrite Hd.
Qed.

Lemma unquote_backslash e c rs :
  unescape e = Some c -> (e =? "u")%char = false ->
  unquote_runes (Byte backslash :: Byte e :: rs) = (s ← unquote_runes rs; Some (String c s)).
Proof. intros He Hu. cbn [unquote_runes]. by rewrite Ascii.eqb_refl, Hu, He. Qed.

Lemma unquote_plain b rs : (b =? backslash)%char = false ->
  unquote_runes (Byte b :: rs) = (s ← unquote_runes rs; Some (String b s)).
Proof. intros Hb. cbn [unquote_runes]. by rewrite Hb. Qed.

(** A byte below 128, written and read. *)
Lemma unquote_quote_byte b s : byte_val b < 128 ->
  unquote_runes (runes (quote_rune (Byte b) +:+ s)) = (x ← unquote_runes (runes s); Some (String b x)).
Proof.
  intros Hb.
  destruct b as [b0 b1 b2 b3 b4 b5 b6 b7]; destruct b7; [exfalso; revert Hb; clear; destruct b0, b1, b2, b3, b4, b5, b6; vm_compute; congruence|].
  clear Hb. destruct b0, b1, b2, b3, b4, b5, b6;
    lazymatch goal with |- unquote_runes (runes (quote_rune (Byte ?b) +:+ s)) = _ =>
      first
        [ exact (unquote_plain b (runes s) eq_refl)
        | let q := eval vm_compute in (quote_rune (Byte b)) in
          lazymatch q with String _ (String ?e _) => exact (unquote_backslash e b (runes s) eq_refl eq_refl) end
        | exact (hex4_plain_step "0" "0" (hex_char (byte_val b / 16)) (hex_char (byte_val b mod 16)) (byte_val b)
            (runes s) eq_refl eq_refl) ]
    end.
Qed.

Lemma unquote_quote_rune r s : token r ->
  unquote_runes (runes (quote_rune r +:+ s)) = (x ← unquote_runes (runes s); Some (rune_bytes r +:+ x)).
Proof.
  intros [b Hb|bs Hm|].
  - by apply unquote_quote_byte.
  - cbn [quote_rune rune_bytes]. case_bool_decide as E1; [subst bs|case_bool_decide as E2; [subst bs|]].
    + exact (hex4_plain_step "2" "0" "2" "8" 8232 (runes s) eq_refl eq_refl).
    + exact (hex4_plain_step "2" "0" "2" "9" 8233 (runes s) eq_refl eq_refl).
    + by rewrite runes_multi.
  - exact (hex4_plain_step "f" "f" "f" "d" 65533 (runes s) eq_refl eq_refl).
Qed.

Lemma unquote_quote s : unquote (quote s) = Some (ToValid s).
Proof.
  unfold unquote. induction s as [|s r s' Hr Ht _ IH] using runes_ind; [done|].
  unfold quote in *. rewrite Hr, (ToValid_step _ _ _ Hr). cbn [concat_map foldr].
  rewrite unquote_quote_rune by exact Ht. fold (concat_map quote_rune (runes s')). by rewrite IH.
Qed.

(** ** Scanning strings *)

(** A piece of text the scanner of strings goes over. *)
Definition skipped (t : string) : Prop := forall s,
  scan_string (t +:+ s) = ('(c, rest) ← scan_string s; Some (t +:+ c, rest)).

Lemma skipped_nil : skipped "".
Proof. intros s. rewrite string_app_nil_l. by destruct (scan_string s) as [[c rest]|]. Qed.

Lemma skipped_app t u : skipped t -> skipped u -> skipped (t +:+ u).
Proof.
  intros Ht Hu s. rewrite string_app_assoc, Ht, Hu. destruct (scan_string s) as [[c rest]|]; [|done].
  cbn. by rewrite string_app_assoc.
Qed.

Lemma skipped_byte b : (b =? dquote)%char = false -> (b =? backslash)%char = false ->
  32 <= byte_val b -> skipped (String b "").
Proof.
  intros H1 H2 H3 s. rewrite !string_app_cons, !string_app_nil_l. cbn [scan_string].
  rewrite H1, H2, (proj2 (Z.ltb_ge _ _) H3). by destruct (scan_string s) as [[c rest]|].
Qed.

Lemma skipped_high t : Forall (fun b => 128 <= byte_val b) (String.list_ascii_of_string t) -> skipped t.
Proof.
  induction t as [|b t IH]; intros Ht; [apply skipped_nil|]. cbn in Ht. apply Forall_cons in Ht as [Hb Ht].
  change (String b t) with (String b "" +:+ t). apply skipped_app; [|auto].
  apply skipped_byte; [..|lia]; apply Ascii.eqb_neq; intros ->; vm_compute in Hb; congruence.
Qed.

Lemma skipped_letter e c : unescape e = Some c -> (e =? "u")%char = false ->
  skipped (String backslash (String e "")).
Proof.
  intros He Hu s. rewrite !string_app_cons, !string_app_nil_l. cbn [scan_string].
  change ((backslash =? dquote)%char) with false. change ((backslash =? backslash)%char) with true. cbn match.
  rewrite Hu, He. by destruct (scan_string s) as [[x rest]|].
Qed.

Lemma skipped_hex h1 h2 h3 h4 : is_hex h1 && is_hex h2 && is_hex h3 && is_hex h4 = true ->
  skipped (String backslash (String "u" (String h1 (String h2 (String h3 (String h4 "")))))).
Proof.
  intros Hh s. rewrite !string_app_cons, !string_app_nil_l. cbn [scan_string].
  change ((backslash =? dquote)%char) with false. change ((backslash =? backslash)%char) with true.
  change (("u" =? "u")%char) with true. cbn match. rewrite Hh. by destruct (scan_string s) as [[x rest]|].
Qed.

Lemma skipped_quote_byte b : byte_val b < 128 -> skipped (quote_rune (Byte b)).
Proof.
  intros Hb.
  destruct b as [b0 b1 b2 b3 b4 b5 b6 b7]; destruct b7; [exfalso; revert Hb; clear; destruct b0, b1, b2, b3, b4, b5, b6; vm_compute; congruence|].
  clear Hb. destruct b0, b1, b2, b3, b4, b5, b6;
    lazymatch goal with |- skipped (quote_rune (Byte ?b)) =>
      let q := eval vm_compute in (quote_rune (Byte b)) in
      change (quote_rune (Byte b)) with q;
      lazymatch q with
      | String _ EmptyString => apply skipped_byte; [reflexivity|reflexivity|vm_compute; congruence]
      | String _ (String _ EmptyString) => apply (skipped_letter _ b); reflexivity
      | _ => apply skipped_hex; reflexivity
      end
    end.
Qed.

Lemma skipped_quote_rune r : token r -> skipped (quote_rune r).
Proof.
  intros [b Hb|bs Hm|].
  - by apply skipped_quote_byte.
  - cbn [quote_rune]. case_bool_decide; [|case_bool_decide].
    1, 2: apply skipped_hex; reflexivity.
    by apply skipped_high, multi_high.
  - apply skipped_hex; reflexivity.
Qed.

Lemma skipped_quote s : skipped (quote s).
Proof.
  unfold quote. induction (runes_token s) as [|r rs Hr _ IH]; [apply skipped_nil|].
  cbn [concat_map foldr]. apply skipped_app; [by apply skipped_quote_rune|exact IH].
Qed.

(** The content of a string that is closed after it. *)
Definition content_ok (c : string) : Prop := forall rest, scan_string (c +:+ String dquote rest) = Some (c, rest).

Lemma content_ok_quote s : content_ok (quote s).
Proof. intros rest. rewrite skipped_quote. cbn. by rewrite string_app_nil_r. Qed.

(** ** Numbers *)

(** What may follow a number. *)
Definition ends (s : string) : Prop :=
  match s with
  | EmptyString => True
  | String b _ => digit b = None /\ (b =? ".")%char = false /\ (b =? "e")%char = false /\ (b =? "E")%char = false
  end.

Definition number_ok (literal : string) : Prop :=
  (exists b s, literal = String b s /\ (b = "-"%char \/ is_Some (digit b))) /\
  forall rest, ends rest -> scan_number (literal +:+ rest) = Some (literal, rest).

(** A number is written without a zero before its other digits. *)
Lemma format_digits_leading fuel n ds0 : 0 < n < 10 ^ Z.of_nat fuel -> Forall is_digit ds0 ->
  exists d ds, format_digits fuel n (render ds0) = render (d :: ds) /\ d <> 0 /\ Forall is_digit (d :: ds).
Proof.
  revert n ds0. induction fuel as [|fuel IH]; intros n ds0 Hn Hds; [cbn in Hn; lia|].
  cbn [format_digits]. rewrite <- render_cons.
  assert (Hd : Forall is_digit (n mod 10 :: ds0)) by (constructor; [unfold is_digit; pose proof (Z.mod_pos_bound n 10); lia|exact Hds]).
  destruct (Z.ltb_spec n 10).
  - exists (n mod 10), ds0. split_and!; [done|rewrite Z.mod_small; lia|done].
  - apply IH; [|exact Hd]. rewrite Nat2Z.inj_succ, Z.pow_succ_r in Hn by lia.
    Z.to_euclidean_division_equations; lia.
Qed.

Lemma scan_digits_render ds rest : Forall is_digit ds -> ends rest ->
  scan_digits (render ds +:+ rest) = (render ds, rest).
Proof.
  intros Hds Hr. induction Hds as [|d ds Hd _ IH].
  - rewrite string_app_nil_l. destruct rest as [|b rest]; [done|]. cbn. destruct Hr as (-> & _). done.
  - rewrite render_cons, string_app_cons. cbn [scan_digits]. by rewrite digit_char_digit, IH.
Qed.

Lemma scan_frac_ends s : ends s -> scan_frac s = Some ("", s).
Proof. destruct s; [done|]. intros (_ & H & _). cbn. by rewrite H. Qed.

Lemma scan_exp_ends s : ends s -> scan_exp s = Some ("", s).
Proof. destruct s; [done|]. intros (_ & _ & H & H'). cbn. by rewrite H, H'. Qed.

Lemma scan_int_render d ds rest : (d <> 0 \/ ds = []) -> Forall is_digit (d :: ds) -> ends rest ->
  scan_int (render (d :: ds) +:+ rest) = Some (render (d :: ds), rest).
Proof.
  intros Hd Hds Hr. pose proof (Forall_inv Hds) as Hd1. rewrite render_cons, string_app_cons. unfold scan_int.
  destruct (digit_char d =? "0")%char eqn:E.
  - apply Ascii.eqb_eq in E. destruct (decide (d = 0)) as [->|Hne].
    + destruct Hd as [?| ->]; [done|]. rewrite string_app_nil_l. done.
    + exfalso. pose proof (digit_char_digit d Hd1) as Hx. rewrite E in Hx. vm_compute in Hx. congruence.
  - rewrite <- string_app_cons, <- render_cons. unfold scan_digits1.
    rewrite scan_digits_render by done. by rewrite bool_decide_eq_false_2.
Qed.

(** An unsigned or a signed numeral is a number. *)
Lemma number_ok_digits neg d ds : (d <> 0 \/ ds = []) -> Forall is_digit (d :: ds) ->
  number_ok ((if neg : bool then "-" else "") +:+ render (d :: ds)).
Proof.
  intros Hd Hds. pose proof (Forall_inv Hds) as Hd1. split.
  - destruct neg.
    + eexists _, _. split; [reflexivity|by left].
    + rewrite string_app_nil_l, render_cons. eexists _, _. split; [reflexivity|right; by rewrite digit_char_digit].
  - intros rest Hr. unfold scan_number.
    assert (Hscan : forall m, ('(int, s) ← scan_int (render (d :: ds) +:+ rest); '(frac, s) ← scan_frac s;
        '(exp, s) ← scan_exp s; Some (m +:+ int +:+ frac +:+ exp, s)) = Some (m +:+ render (d :: ds), rest)).
    { intros m. rewrite scan_int_render by done. cbn [mbind option_bind]. rewrite scan_frac_ends by done.
      cbn [mbind option_bind]. rewrite scan_exp_ends by done. cbn [mbind option_bind].
      by rewrite string_app_nil_l, string_app_nil_r. }
    destruct neg.
    + rewrite !string_app_cons, !string_app_nil_l. cbn match. apply (Hscan "-").
    + rewrite string_app_nil_l, render_cons, string_app_cons.
      assert (Hm : (digit_char d =? "-")%char = false) by (apply Ascii.eqb_neq; by destruct (digit_char_not_sign d Hd1)).
      rewrite Hm. cbn match. rewrite <- string_app_cons, <- render_cons. rewrite (Hscan ""). by rewrite string_app_nil_l.
Qed.

Lemma FormatUint_leading n : 0 <= n < 10 ^ 20 ->
  exists d ds, FormatUint n = render (d :: ds) /\ (d <> 0 \/ ds = []) /\ Forall is_digit (d :: ds).
Proof.
  intros Hn. destruct (decide (n = 0)) as [->|].
  - exists 0, []. split_and!; [done|by right|]. constructor; [unfold is_digit; lia|constructor].
  - destruct (format_digits_leading 20 n []) as (d & ds & ? & ? & ?); [lia|constructor|].
    exists d, ds. split_and!; [done|by left|done].
Qed.

Lemma number_ok_FormatInt n : is_i64 n -> number_ok (FormatInt n).
Proof.
  intros Hn. unfold FormatInt. destruct (n <? 0) eqn:E.
  - destruct (FormatUint_leading (- n)) as (d & ds & -> & ? & ?); [width; lia|].
    by apply (number_ok_digits true).
  - destruct (FormatUint_leading n) as (d & ds & -> & ? & ?); [width; lia|].
    by apply (number_ok_digits false).
Qed.

(** ** Values *)

Lemma value_ind' (P : value -> Prop) :
  P VNull -> (forall b, P (VBool b)) -> (forall l, P (VNumber l)) -> (forall c, P (VString c)) ->
  (forall vs, Forall P vs -> P (VArray vs)) ->
  (forall ms, Forall (fun m => P m.2) ms -> P (VObject ms)) ->
  forall v, P v.
Proof.
  intros Hnull Hbool Hnumber Hstring Harray Hobject. fix IH 1. intros [| | | |vs|ms].
  - exact Hnull.
  - apply Hbool.
  - apply Hnumber.
  - apply Hstring.
  - apply Harray. induction vs as [|v vs IHvs]; [constructor|]. constructor; [apply IH|exact IHvs].
  - apply Hobject. induction ms as [|[k v] ms IHms]; [constructor|]. constructor; [apply IH|exact IHms].
Qed.

(** A value whose texts are what the grammar says they are. *)
Fixpoint wf (v : value) : Prop :=
  match v with
  | VNull | VBool _ => True
  | VNumber literal => number_ok literal
  | VString content => content_ok content
  | VArray vs => foldr (fun v P => wf v /\ P) True vs
  | VObject ms => foldr (fun '(k, v) P => (content_ok k /\ wf v) /\ P) True ms
  end.

Fixpoint height (v : value) : Z :=
  match v with
  | VArray vs => 1 + foldr (fun v h => Z.max (height v) h) 0 vs
  | VObject ms => 1 + foldr (fun '(_, v) h => Z.max (height v) h) 0 ms
  | _ => 0
  end.

Lemma height_nonneg v : 0 <= height v.
Proof.
  assert (Hmax : forall {A} (f : A -> Z -> Z) (l : list A), (forall a h, h <= f a h) -> 0 <= foldr f 0 l).
  { intros A f l Hf. induction l as [|a l IHl]; cbn; [lia|]. specialize (Hf a (foldr f 0 l)). lia. }
  destruct v as [| | | |vs|ms]; cbn; try lia.
  - pose proof (Hmax _ (fun v h => Z.max (height v) h) vs ltac:(intros; cbn; lia)). lia.
  - pose proof (Hmax _ (fun '(_, v) h => Z.max (height v) h) ms ltac:(intros [? ?] ?; cbn; lia)). lia.
Qed.

Lemma skip_space_id b s : is_space b = false -> skip_space (String b s) = String b s.
Proof. intros H. cbn. by rewrite H. Qed.

(** What is shown of the text of a value: with enough fuel it is parsed back,
    whatever follows. *)
Definition reads (depth : Z) (v : value) : Prop := forall rest, ends rest ->
  exists n, forall fuel, (n <= fuel)%nat -> parse_value fuel depth (write v +:+ rest) = Some (v, rest).

Lemma reads_scalar depth v n :
  (forall rest fuel, ends rest -> (n <= fuel)%nat -> parse_value fuel depth (write v +:+ rest) = Some (v, rest)) ->
  reads depth v.
Proof. intros H rest Hr. exists n. by auto. Qed.

Lemma reads_string depth c : content_ok c -> reads depth (VString c).
Proof.
  intros Hc. apply (reads_scalar _ _ 1). intros rest [|fuel] _ Hf; [lia|].
  cbn [write]. unfold quoted. rewrite string_app_cons, string_app_assoc, string_app_cons, string_app_nil_l.
  cbn [parse_value]. rewrite skip_space_id by reflexivity.
  change ((dquote =? "{")%char) with false. change ((dquote =? "[")%char) with false. rewrite Ascii.eqb_refl.
  by rewrite Hc.
Qed.

Lemma digit_not_syntax b : is_Some (digit b) ->
  is_space b = false /\ (b =? "{")%char = false /\ (b =? "[")%char = false /\ (b =? dquote)%char = false /\
  (b =? "n")%char = false /\ (b =? "t")%char = false /\ (b =? "f")%char = false.
Proof.
  intros [d [Hd ->]%digit_Some]. unfold is_digit in Hd.
  assert (Hall : forallb (fun k => let b := digit_char (Z.of_nat k) in negb (is_space b) && negb (b =? "{")%char &&
    negb (b =? "[")%char && negb (b =? dquote)%char && negb (b =? "n")%char && negb (b =? "t")%char &&
    negb (b =? "f")%char) (seq 0 10) = true) by (vm_compute; reflexivity).
  rewrite forallb_forall in Hall. specialize (Hall (Z.to_nat d) ltac:(apply in_seq; lia)). cbn zeta in Hall.
  rewrite Z2Nat.id in Hall by lia. by rewrite !andb_true_iff, !negb_true_iff in Hall; destruct_and?.
Qed.

Lemma scan_literal_None b s : (b =? "n")%char = false -> (b =? "t")%char = false -> (b =? "f")%char = false ->
  scan_literal (String b s) = None.
Proof.
  intros Hn Ht Hf. rewrite !Ascii.eqb_neq in *. unfold scan_literal. cbn [CutPrefix].
  by rewrite !bool_decide_eq_false_2 by congruence.
Qed.

Lemma reads_number depth literal : number_ok literal -> reads depth (VNumber literal).
Proof.
  intros [(b & s & -> & Hb) Hscan]. apply (reads_scalar _ _ 1). intros rest [|fuel] Hr Hf; [lia|].
  cbn [write]. rewrite string_app_cons. cbn [parse_value].
  assert (Hs : is_space b = false /\ (b =? "{")%char = false /\ (b =? "[")%char = false /\ (b =? dquote)%char = false /\
    (b =? "n")%char = false /\ (b =? "t")%char = false /\ (b =? "f")%char = false)
    by (destruct Hb as [->|Hb]; [done|by apply digit_not_syntax]).
  destruct Hs as (Hsp & H1 & H2 & H3 & Hn & Ht & Hf').
  rewrite skip_space_id by exact Hsp. rewrite H1, H2, H3, scan_literal_None by done.
  rewrite <- string_app_cons, Hscan by done. done.
Qed.

Lemma reads_literal depth v word : write v = word ->
  (forall rest, scan_literal (word +:+ rest) = Some (v, rest)) ->
  (exists b s, word = String b s /\ is_space b = false /\ (b =? "{")%char = false /\ (b =? "[")%char = false /\
    (b =? dquote)%char = false) -> reads depth v.
Proof.
  intros Hw Hscan (b & s & Hb & Hsp & H1 & H2 & H3). apply (reads_scalar _ _ 1). intros rest [|fuel] _ Hf; [lia|].
  specialize (Hscan rest). rewrite Hb in Hw, Hscan. rewrite Hw. rewrite string_app_cons in Hscan |- *. cbn [parse_value].
  rewrite skip_space_id by exact Hsp. rewrite H1, H2, H3. by rewrite Hscan.
Qed.

Ltac literal_tac :=
  eapply reads_literal; [reflexivity|intros rest; reflexivity|];
  eexists _, _; split_and!; reflexivity.

(** ** Structures *)

Lemma ends_char b s : digit b = None -> (b =? ".")%char = false -> (b =? "e")%char = false ->
  (b =? "E")%char = false -> ends (String b s).
Proof. done. Qed.

Lemma join_cons a b l : join (a :: b :: l) = a +:+ "," +:+ join (b :: l).
Proof. done. Qed.

(** The elements of an array, then the bracket. *)
Lemma parse_elements_join depth vs : vs <> [] -> Forall (reads depth) vs -> forall rest,
  exists n, forall fuel, (n <= fuel)%nat ->
    parse_elements fuel depth (join (map write vs) +:+ String "]" rest) = Some (vs, rest).
Proof.
  intros Hne Hvs rest. induction Hvs as [|v vs Hv Hvs IH]; [done|]. destruct vs as [|v' vs].
  - cbn [map join]. destruct (Hv (String "]" rest)) as [n Hn]; [by apply ends_char|].
    exists (S n). intros [|fuel] Hf; [lia|]. cbn [parse_elements]. by rewrite Hn by lia.
  - destruct IH as [m Hm]; [done|]. cbn [map] in *. rewrite join_cons.
    set (more := join _) in *.
    destruct (Hv (String "," (more +:+ String "]" rest))) as [n Hn]; [by apply ends_char|].
    exists (S (max n m)). intros [|fuel] Hf; [lia|].
    norm_app. cbn [parse_elements].
    rewrite Hn by lia. cbn [mbind option_bind skip_space]. change (is_space ",") with false.
    change (("," =? ",")%char) with true. cbn match. by rewrite Hm by lia.
Qed.

(** A member: its name, a colon, its value. *)
Definition write_member (m : string * value) : string := quoted m.1 +:+ ":" +:+ write m.2.

Lemma parse_member fuel depth k v rest : content_ok k -> 
  parse_members (S fuel) depth (write_member (k, v) +:+ rest) =
  ('(v, s) ← parse_value fuel depth (write v +:+ rest);
   match skip_space s with
   | EmptyString => None
   | String d s =>
     if (d =? ",")%char then '(ms, rest) ← parse_members fuel depth s; Some ((k, v) :: ms, rest)
     else if (d =? "}")%char then Some ([(k, v)], s)
     else None
   end).
Proof.
  intros Hk. unfold write_member, quoted. cbn [fst snd].
  norm_app.
  cbn [parse_members]. rewrite skip_space_id by reflexivity. rewrite Ascii.eqb_refl, Hk.
  cbn [mbind option_bind]. rewrite skip_space_id by reflexivity. reflexivity.
Qed.

Lemma parse_members_join depth ms : ms <> [] -> Forall (fun m => content_ok m.1 /\ reads depth m.2) ms ->
  forall rest, exists n, forall fuel, (n <= fuel)%nat ->
    parse_members fuel depth (join (map write_member ms) +:+ String "}" rest) = Some (ms, rest).
Proof.
  intros Hne Hms rest. induction Hms as [|[k v] ms [Hk Hv] Hms IH]; [done|]. cbn [fst snd] in *.
  destruct ms as [|m ms].
  - cbn [map join]. destruct (Hv (String "}" rest)) as [n Hn]; [by apply ends_char|].
    exists (S n). intros [|fuel] Hf; [lia|]. rewrite parse_member by exact Hk. by rewrite Hn by lia.
  - destruct IH as [p Hp]; [done|]. cbn [map] in *. rewrite join_cons. set (more := join _) in *.
    destruct (Hv (String "," (more +:+ String "}" rest))) as [n Hn]; [by apply ends_char|].
    exists (S (max n p)). intros [|fuel] Hf; [lia|].
    norm_app. rewrite parse_member by exact Hk.
    rewrite Hn by lia. cbn [mbind option_bind]. rewrite skip_space_id by reflexivity.
    change (("," =? ",")%char) with true. cbn match. by rewrite Hp by lia.
Qed.

Lemma join_head {A} (f : A -> string) a l : exists s, join (map f (a :: l)) = f a +:+ s.
Proof. destruct l; cbn [map]; [exists ""; by rewrite string_app_nil_r|rewrite join_cons; by eexists]. Qed.

(** A written value starts with neither space nor closing bracket. *)
Lemma write_head v : wf v -> exists b s, write v = String b s /\ is_space b = false /\ (b =? "]")%char = false.
Proof.
  destruct v as [|[]|literal| | |]; cbn [wf write]; try (intros _; eexists _, _; split_and!; reflexivity).
  intros [(b & s & -> & [->|Hb]) _]; eexists _, _; (split; [reflexivity|]); [done|].
  split; [by apply digit_not_syntax|]. apply Ascii.eqb_neq. intros ->. by destruct Hb.
Qed.

(** What is written is read back. *)
Lemma wf_reads v : forall depth, wf v -> depth + height v <= maxNestingDepth -> reads depth v.
Proof.
  induction v as [|[]|literal|c|vs IH|ms IH] using value_ind'; intros depth Hwf Hh; [literal_tac..| | | |].
  - by apply reads_number.
  - by apply reads_string.
  - cbn [wf height] in *. cbn in Hh. intros rest Hr. destruct vs as [|v vs].
    { exists 1%nat. intros [|fuel] Hf; [lia|]. cbn. by rewrite (proj2 (Z.ltb_lt _ _)) by (cbn in Hh; lia). }
    assert (Hvs : Forall (reads (depth + 1)) (v :: vs)).
    { revert Hwf Hh. clear Hr. generalize (v :: vs) IH. clear. intros vs IH.
      induction IH as [|v vs Hv _ IHvs]; intros Hwf Hh; [constructor|]. cbn in Hwf, Hh. destruct Hwf as [Hw Hws].
      constructor; [apply Hv; [exact Hw|lia]|apply IHvs; [exact Hws|lia]]. }
    destruct (parse_elements_join (depth + 1) (v :: vs) ltac:(done) Hvs rest) as [n Hn].
    exists (S n). intros [|fuel] Hf; [lia|]. cbn [write].
    norm_app. cbn [parse_value].
    rewrite skip_space_id by reflexivity. change (("[" =? "{")%char) with false. change (("[" =? "[")%char) with true.
    assert (0 <= height v) by apply height_nonneg.
    assert (Hlt : depth < maxNestingDepth) by (cbn in Hh; lia). rewrite (proj2 (Z.ltb_lt _ _) Hlt). cbn match.
    destruct Hwf as [Hw _]. destruct (write_head v Hw) as (b & s & Hb & Hsp & Hne).
    specialize (Hn fuel ltac:(lia)). destruct (join_head write v vs) as [s' Hj]. rewrite Hj in *.
    rewrite Hb, !string_app_cons in *. rewrite skip_space_id by exact Hsp. rewrite Hne.
    by rewrite Hn.
  - cbn [wf height] in *. cbn in Hh. intros rest Hr. destruct ms as [|[k v] ms].
    { exists 1%nat. intros [|fuel] Hf; [lia|]. cbn. by rewrite (proj2 (Z.ltb_lt _ _)) by (cbn in Hh; lia). }
    assert (Hms : Forall (fun m => content_ok m.1 /\ reads (depth + 1) m.2) ((k, v) :: ms)).
    { revert Hwf Hh. clear Hr. generalize ((k, v) :: ms) IH. clear. intros ms IH.
      induction IH as [|[k v] ms Hv _ IHms]; intros Hwf Hh; [constructor|]. cbn in Hwf, Hh, Hv.
      destruct Hwf as [[Hk Hw] Hws].
      constructor; [split; [exact Hk|apply Hv; [exact Hw|lia]]|apply IHms; [exact Hws|lia]]. }
    destruct (parse_members_join (depth + 1) ((k, v) :: ms) ltac:(done) Hms rest) as [n Hn].
    exists (S n). intros [|fuel] Hf; [lia|]. cbn [write].
    norm_app. cbn [parse_value].
    rewrite skip_space_id by reflexivity. change (("{" =? "{")%char) with true.
    assert (0 <= height v) by apply height_nonneg.
    assert (Hlt : depth < maxNestingDepth) by (cbn in Hh; lia). rewrite (proj2 (Z.ltb_lt _ _) Hlt). cbn match.
    specialize (Hn fuel ltac:(lia)).
    assert (Hmap : forall l, map (fun '(k, v) => quoted k +:+ ":" +:+ write v) l = map write_member l)
      by (intros l; apply map_ext; by intros []).
    rewrite Hmap. destruct (join_head write_member (k, v) ms) as [s' Hj]. rewrite Hj in *.
    unfold write_member, quoted in *. cbn [fst snd] in *. rewrite !string_app_cons in *.
    rewrite skip_space_id by reflexivity. change ((dquote =? "}")%char) with false. cbn match. by rewrite Hn.
Qed.

(** ** Fuel *)

Lemma skip_space_length s : (String.length (skip_space s) <= String.length s)%nat.
Proof. induction s as [|b s IH]; cbn; [lia|]. case_match; cbn in *; lia. Qed.

Lemma scan_string_length s : forall c rest, scan_string s = Some (c, rest) -> (String.length rest < String.length s)%nat.
Proof.
  remember (String.length s) as n eqn:En. revert s En.
  induction (lt_wf n) as [n _ IH]. intros s -> c rest H. destruct s as [|b s]; [done|]. cbn [scan_string] in H.
  assert (Hrec : forall s' c' rest', (String.length s' < String.length (String b s))%nat ->
    scan_string s' = Some (c', rest') -> (String.length rest' < String.length s')%nat).
  { intros s' c' rest' Hl Hs. by eapply (IH _ Hl). }
  cbn [String.length] in *. case_match; [simplify_eq; lia|]. case_match.
  - destruct s as [|e s]; [done|]. case_match.
    + destruct s as [|h1 [|h2 [|h3 [|h4 s]]]]; try done. case_match; [|done].
      destruct (scan_string s) as [[c' rest']|] eqn:Es; [|done]. cbn in H. simplify_eq.
      apply Hrec in Es; cbn in *; lia.
    + case_match; [|done]. destruct (scan_string s) as [[c' rest']|] eqn:Es; [|done]. cbn in H. simplify_eq.
      apply Hrec in Es; cbn in *; lia.
  - case_match; [done|]. destruct (scan_string s) as [[c' rest']|] eqn:Es; [|done]. cbn in H. simplify_eq.
    apply Hrec in Es; cbn in *; lia.
Qed.

Lemma scan_digits_length s ds rest : scan_digits s = (ds, rest) ->
  (String.length ds + String.length rest = String.length s)%nat.
Proof.
  revert ds rest. induction s as [|b s IH]; cbn [scan_digits]; intros ds rest H; [by simplify_eq|].
  destruct (digit b); [|by simplify_eq]. destruct (scan_digits s) as [ds' rest']. simplify_eq.
  specialize (IH _ _ eq_refl). cbn. lia.
Qed.

Lemma scan_digits1_length s ds rest : scan_digits1 s = Some (ds, rest) -> (String.length rest < String.length s)%nat.
Proof.
  unfold scan_digits1. destruct (scan_digits s) as [ds' rest'] eqn:E. case_bool_decide as Hne; [done|].
  intros. simplify_eq. apply scan_digits_length in E. destruct ds; [done|]. cbn in E. lia.
Qed.

Lemma scan_int_length s i rest : scan_int s = Some (i, rest) -> (String.length rest < String.length s)%nat.
Proof.
  destruct s as [|b s]; [done|]. unfold scan_int. case_match; [intros; simplify_eq; cbn; lia|].
  apply scan_digits1_length.
Qed.

Lemma scan_frac_length s f rest : scan_frac s = Some (f, rest) -> (String.length rest <= String.length s)%nat.
Proof.
  destruct s as [|b s]; cbn; [intros; by simplify_eq|]. case_match; [|intros; by simplify_eq].
  destruct (scan_digits1 s) as [[ds r]|] eqn:E; [|done]. cbn. intros. simplify_eq.
  apply scan_digits1_length in E. lia.
Qed.

Lemma scan_exp_length s x rest : scan_exp s = Some (x, rest) -> (String.length rest <= String.length s)%nat.
Proof.
  destruct s as [|b s]; cbn [scan_exp]; [intros; by simplify_eq|]. case_match; [|intros; by simplify_eq].
  assert (Hs : forall sg s', scan_sign s = (sg, s') -> (String.length s' <= String.length s)%nat).
  { intros sg s' Hs. destruct s as [|b' s]; cbn in Hs; [by simplify_eq|]. case_match; simplify_eq; cbn; lia. }
  destruct (scan_sign s) as [sg s']. specialize (Hs _ _ eq_refl).
  destruct (scan_digits1 s') as [[ds r]|] eqn:E; [|done]. cbn. intros. simplify_eq.
  apply scan_digits1_length in E. lia.
Qed.

Lemma scan_number_length s l rest : scan_number s = Some (l, rest) -> (String.length rest < String.length s)%nat.
Proof.
  unfold scan_number.
  assert (Hm : exists m s', match s with
      | EmptyString => ("", s) | String b s' => if (b =? "-")%char then ("-", s') else ("", s) end = (m, s') /\
      (String.length s' <= String.length s)%nat)
    by (destruct s as [|b s]; [by eexists _, _|]; case_match; eexists _, _; (split; [done|cbn; lia])).
  destruct Hm as (m & s' & -> & Hl).
  destruct (scan_int s') as [[i s1]|] eqn:E1; [|done]. cbn [mbind option_bind].
  destruct (scan_frac s1) as [[f s2]|] eqn:E2; [|done]. cbn [mbind option_bind].
  destruct (scan_exp s2) as [[x s3]|] eqn:E3; [|done]. cbn [mbind option_bind]. intros. simplify_eq.
  apply scan_int_length in E1. apply scan_frac_length in E2. apply scan_exp_length in E3. lia.
Qed.

Lemma CutPrefix_length p s rest : CutPrefix s p = Some rest -> (String.length rest + String.length p = String.length s)%nat.
Proof.
  revert s. induction p as [|b p IH]; intros [|b' s]; cbn [CutPrefix]; intros H; simplify_eq; cbn; try lia.
  case_bool_decide; [|done]. apply IH in H. lia.
Qed.

Lemma scan_literal_length s v rest : scan_literal s = Some (v, rest) -> (String.length rest < String.length s)%nat.
Proof.
  unfold scan_literal. repeat case_match; intros; simplify_eq;
    match goal with H : CutPrefix _ _ = Some rest |- _ => apply CutPrefix_length in H; cbn in H; lia end.
Qed.

(** A parser that, given more fuel than its input is long, finds what it finds
    with any fuel, and leaves less than its input. *)
Definition settled {A} (more : nat) (p : nat -> Z -> string -> option (A * string)) (fuel : nat) : Prop :=
  forall depth s a rest, p fuel depth s = Some (a, rest) ->
    (String.length rest < String.length s)%nat /\
    forall fuel', (2 * String.length s + more < fuel')%nat -> p fuel' depth s = Some (a, rest).

Lemma settled_members fuel :
  settled 0 parse_value fuel -> settled 0 parse_members fuel -> settled 0 parse_members (S fuel).
Proof.
  intros Hv Hm depth s ms rest H. cbn [parse_members] in H.
  pose proof (skip_space_length s) as Hl0. destruct (skip_space s) as [|b s1] eqn:E0; [done|].
  destruct (b =? dquote)%char eqn:Eb; [|done].
  destruct (scan_string s1) as [[k s2]|] eqn:E1; [|done]. cbn [mbind option_bind] in H.
  pose proof (scan_string_length _ _ _ E1) as Hl1.
  pose proof (skip_space_length s2) as Hl2. destruct (skip_space s2) as [|c s3] eqn:E2; [done|].
  destruct (c =? ":")%char eqn:Ec; [|done].
  destruct (parse_value fuel depth s3) as [[v s4]|] eqn:E3; [|done]. cbn [mbind option_bind] in H.
  destruct (Hv _ _ _ _ E3) as [Hl3 Hv'].
  pose proof (skip_space_length s4) as Hl4. destruct (skip_space s4) as [|d s5] eqn:E4; [done|].
  cbn [String.length] in *.
  destruct (d =? ",")%char eqn:Ed.
  - destruct (parse_members fuel depth s5) as [[ms' r']|] eqn:E5; [|done]. cbn [mbind option_bind] in H. simplify_eq.
    destruct (Hm _ _ _ _ E5) as [Hl5 Hm']. split; [lia|].
    intros [|fuel'] Hf; [lia|]. cbn [parse_members].
    rewrite E0, Eb, E1. cbn [mbind option_bind]. rewrite E2, Ec, Hv' by lia. cbn [mbind option_bind].
    by rewrite E4, Ed, Hm' by lia.
  - destruct (d =? "}")%char eqn:Ed'; [|done]. simplify_eq. split; [lia|].
    intros [|fuel'] Hf; [lia|]. cbn [parse_members].
    rewrite E0, Eb, E1. cbn [mbind option_bind]. rewrite E2, Ec, Hv' by lia. cbn [mbind option_bind].
    by rewrite E4, Ed, Ed'.
Qed.

Lemma settled_elements fuel :
  settled 0 parse_value fuel -> settled 1 parse_elements fuel -> settled 1 parse_elements (S fuel).
Proof.
  intros Hv Hm depth s vs rest H. cbn [parse_elements] in H.
  destruct (parse_value fuel depth s) as [[v s4]|] eqn:E3; [|done]. cbn [mbind option_bind] in H.
  destruct (Hv _ _ _ _ E3) as [Hl3 Hv'].
  pose proof (skip_space_length s4) as Hl4. destruct (skip_space s4) as [|d s5] eqn:E4; [done|].
  cbn [String.length] in *.
  destruct (d =? ",")%char eqn:Ed.
  - destruct (parse_elements fuel depth s5) as [[ms' r']|] eqn:E5; [|done]. cbn [mbind option_bind] in H. simplify_eq.
    destruct (Hm _ _ _ _ E5) as [Hl5 Hm']. split; [lia|].
    intros [|fuel'] Hf; [lia|]. cbn [parse_elements]. rewrite Hv' by lia. cbn [mbind option_bind].
    by rewrite E4, Ed, Hm' by lia.
  - destruct (d =? "]")%char eqn:Ed'; [|done]. simplify_eq. split; [lia|].
    intros [|fuel'] Hf; [lia|]. cbn [parse_elements]. rewrite Hv' by lia. cbn [mbind option_bind].
    by rewrite E4, Ed, Ed'.
Qed.

Lemma settled_value fuel :
  settled 0 parse_members fuel -> settled 1 parse_elements fuel -> settled 0 parse_value (S fuel).
Proof.
  intros Hm He depth s v rest H. cbn [parse_value] in H.
  pose proof (skip_space_length s) as Hl0. destruct (skip_space s) as [|b s1] eqn:E0; [done|].
  cbn [String.length] in *. destruct (b =? "{")%char eqn:E1; [|destruct (b =? "[")%char eqn:E2].
  - destruct (depth <? maxNestingDepth) eqn:Ed; [|done].
    pose proof (skip_space_length s1) as Hl1. destruct (skip_space s1) as [|c s2] eqn:E3; [done|]. cbn [String.length] in *.
    destruct (c =? "}")%char eqn:E4.
    + simplify_eq. split; [lia|]. intros [|fuel'] Hf; [lia|]. cbn [parse_value]. by rewrite E0, E1, Ed, E3, E4.
    + destruct (parse_members fuel (depth + 1) s1) as [[ms r']|] eqn:E5; [|done]. cbn [mbind option_bind] in H. simplify_eq.
      destruct (Hm _ _ _ _ E5) as [Hl5 Hm']. split; [lia|]. intros [|fuel'] Hf; [lia|]. cbn [parse_value].
      by rewrite E0, E1, Ed, E3, E4, Hm' by lia.
  - destruct (depth <? maxNestingDepth) eqn:Ed; [|done].
    pose proof (skip_space_length s1) as Hl1. destruct (skip_space s1) as [|c s2] eqn:E3; [done|]. cbn [String.length] in *.
    destruct (c =? "]")%char eqn:E4.
    + simplify_eq. split; [lia|]. intros [|fuel'] Hf; [lia|]. cbn [parse_value]. by rewrite E0, E1, E2, Ed, E3, E4.
    + destruct (parse_elements fuel (depth + 1) s1) as [[ms r']|] eqn:E5; [|done]. cbn [mbind option_bind] in H. simplify_eq.
      destruct (He _ _ _ _ E5) as [Hl5 Hm']. split; [lia|]. intros [|fuel'] Hf; [lia|]. cbn [parse_value].
      by rewrite E0, E1, E2, Ed, E3, E4, Hm' by lia.
  - assert (Hsame : forall fuel', parse_value (S fuel') depth s = Some (v, rest)).
    { intros fuel'. cbn [parse_value]. by rewrite E0, E1, E2. }
    split; [|intros [|fuel'] Hf; [lia|apply Hsame]].
    destruct (b =? dquote)%char eqn:E3.
    { destruct (scan_string s1) as [[c r']|] eqn:E4; [|done]. cbn in H. simplify_eq. apply scan_string_length in E4. lia. }
    destruct (scan_literal (String b s1)) as [[v' r']|] eqn:E4.
    { simplify_eq. apply scan_literal_length in E4. cbn in E4. lia. }
    destruct (scan_number (String b s1)) as [[l r']|] eqn:E5; [|done]. cbn in H. simplify_eq.
    apply scan_number_length in E5. cbn in E5. lia.
Qed.

Lemma settled_all fuel : settled 0 parse_value fuel /\ settled 0 parse_members fuel /\ settled 1 parse_elements fuel.
Proof.
  induction fuel as [|fuel (Hv & Hm & He)]; [split_and!; intros ? ? ? ? H; discriminate|].
  split_and!; [by apply settled_value|by apply settled_members|by apply settled_elements].
Qed.

(** The fuel of [parse] is enough. *)
Lemma parse_enough fuel s v rest : parse_value fuel 0 s = Some (v, rest) -> parse s = Some (v, rest).
Proof. intros H. destruct (settled_all fuel) as (Hv & _). destruct (Hv _ _ _ _ H) as [_ H']. apply H'. lia. Qed.

Lemma parse_write v rest : wf v -> height v <= maxNestingDepth -> ends rest -> parse (write v +:+ rest) = Some (v, rest).
Proof.
  intros Hwf Hh Hr. destruct (wf_reads v 0 Hwf ltac:(lia) rest Hr) as [n Hn]. by apply (parse_enough n), Hn.
Qed.

(** ** Go values *)

Lemma into_string_of_string old s : into_string old (of_string s) = Some (ToValid s).
Proof. apply unquote_quote. Qed.

Lemma into_int_of_int old n : 0 <= n <= MaxInt64 -> into_int old (of_int n) = Some n.
Proof. apply ParseInt_FormatInt. Qed.

Lemma wf_of_string s : wf (of_string s).
Proof. apply content_ok_quote. Qed.

Lemma wf_of_int n : is_i64 n -> wf (of_int n).
Proof. apply number_ok_FormatInt. Qed.

(** The name of a field needs no quoting. *)
Lemma content_ok_name s : quote s = s -> content_ok s.
Proof. intros <-. apply content_ok_quote. Qed.

#[export] Hint Resolve wf_of_string wf_of_int content_ok_name : wager.

(** ** Structs *)

Lemma lookup_field_nth {A} (fields : list (string * (A -> value -> option A))) i name store :
  fields !! i = Some (name, store) -> NoDup fields.*1 -> lookup_field fields name = Some store.
Proof.
  intros Hi Hnd.
  assert (Hf : find_field (fun n => bool_decide (n = name)) fields = Some store); [|unfold lookup_field; by rewrite Hf].
  revert i Hi Hnd. induction fields as [|[n st] fields IH]; intros [|i] Hi Hnd; simplify_eq/=.
  - by rewrite bool_decide_eq_true_2.
  - apply NoDup_cons in Hnd as [Hn Hnd]. rewrite bool_decide_eq_false_2; [by eapply IH|].
    intros ->. apply Hn. apply (list_elem_of_fmap_2 fst fields (name, store)). by eapply list_elem_of_lookup_2.
Qed.

(** One member: its name is unquoted, its field found, its value stored. *)
Lemma store_member {A} strict (fields : list (string * (A -> value -> option A))) i content key store a v a' ms :
  unquote content = Some key -> fields !! i = Some (key, store) -> NoDup fields.*1 -> store a v = Some a' ->
  store_members strict fields a ((content, v) :: ms) = store_members strict fields a' ms.
Proof.
  intros Hk Hi Hnd Hs. cbn [store_members]. rewrite Hk. cbn [mbind option_bind].
  rewrite (lookup_field_nth _ _ _ _ Hi Hnd), Hs. done.
Qed.

Lemma into_field_Some {A B} (get : A -> B) set (into : B -> value -> option B) a v b :
  into (get a) v = Some b -> into_field get set into a v = Some (set b a).
Proof. intros H. unfold into_field. by rewrite H. Qed.

Lemma into_string_valid old s : valid_utf8 s -> into_string old (of_string s) = Some s.
Proof. intros Hs. rewrite into_string_of_string. by rewrite ToValid_id. Qed.

Lemma readValue_write v : wf v -> height v <= maxNestingDepth -> readValue false (write v) = Some (v, "").
Proof.
  intros Hwf Hh. pose proof (parse_write v "" Hwf Hh I) as Hp. rewrite string_app_nil_r in Hp.
  unfold readValue. by rewrite Hp.
Qed.

Lemma wf_object ms : Forall (fun m => content_ok m.1 /\ wf m.2) ms -> wf (of_struct ms).
Proof. induction 1 as [|[k v] ms [Hk Hv] _ IH]; [done|]. cbn. by split; [split|]. Qed.

(** ** Instants *)

Lemma skipped_content t : skipped t -> content_ok t.
Proof. intros Ht rest. rewrite Ht. cbn. by rewrite string_app_nil_r. Qed.

Lemma skipped_digit d t : is_digit d -> skipped t -> skipped (String (digit_char d) t).
Proof.
  intros Hd Ht. change (String (digit_char d) t) with (String (digit_char d) "" +:+ t).
  apply skipped_app; [|exact Ht]. unfold is_digit in Hd.
  assert (Hv : byte_val (digit_char d) = 48 + d) by (unfold digit_char; apply byte_val_of; lia).
  apply skipped_byte; [..|lia]; apply Ascii.eqb_neq; intros E; rewrite E in Hv;
    pose proof (eq_refl : byte_val dquote = 34); pose proof (eq_refl : byte_val backslash = 92); lia.
Qed.

Lemma skipped_padded k n t : skipped t -> skipped (padded k n t).
Proof.
  revert n t. induction k as [|k IH]; intros n t Ht; [exact Ht|]. apply IH, skipped_digit; [apply digit_mod|exact Ht].
Qed.

Lemma skipped_text (t : string) :
  Forall (fun b => 32 <= byte_val b /\ b <> dquote /\ b <> backslash) (String.list_ascii_of_string t) -> skipped t.
Proof.
  induction t as [|b t IH]; intros Ht; [apply skipped_nil|]. cbn in Ht. apply Forall_cons in Ht as [(H1 & H2 & H3) Ht].
  change (String b t) with (String b "" +:+ t). apply skipped_app; [|auto].
  apply skipped_byte; [by apply Ascii.eqb_neq..|exact H1].
Qed.

Ltac skipped_tac :=
  lazymatch goal with
  | |- skipped (_ +:+ _) => apply skipped_app; skipped_tac
  | |- skipped (padded _ _ _) => apply skipped_padded, skipped_nil
  | |- skipped (trim_zeros _ _) => idtac
  | _ => apply skipped_text; apply (bool_decide_eq_true_1 _); vm_compute; reflexivity
  end.

Lemma skipped_trim_zeros k n : skipped (trim_zeros k n).
Proof.
  revert n. induction k as [|k IH]; intros n; cbn [trim_zeros]; [apply skipped_nil|].
  destruct (n mod 10 =? 0); [apply IH|]. skipped_tac.
Qed.

(** An instant of a year a text can name needs no escape. *)
Lemma content_ok_format_nanos t : is_utc t -> 0 <= (clock_face t).1.1.1.1 <= 9999 -> content_ok (format_nanos t).
Proof.
  intros Hu Hy. apply skipped_content. unfold format_nanos, format_with. rewrite Hu. cbn [loc_offset].
  destruct (clock_face t) as [[[[y m] d] second] nano]. cbn [fst] in Hy.
  unfold format_year. rewrite (proj2 (Z.leb_le _ _) (proj1 Hy)), (proj2 (Z.leb_le _ _) (proj2 Hy)). cbn [andb].
  change (format_zone 0) with "Z".
  skipped_tac; apply skipped_trim_zeros.
Qed.
