(* ===== verification/Identity.v ===== *)
(** * Identity: [internal/app/identity.go]

    The caller reduced to what authorisation needs, the scopes, and the checks
    every use case starts with. *)

From S2P Require Import Prelude Errors Identifier GoStrings.

#[local] Open Scope string_scope.
#[local] Open Scope list_scope.
#[local] Open Scope Z_scope.

(** ** Definitions *)

Abbreviation Scope := string (only parsing).

Definition ScopeSubmit : Scope := "wagering:submit".
Definition ScopeRead : Scope := "wagering:read".
Definition ScopeWallets : Scope := "wallets:manage".

Record Identity := mkIdentity {
  i_subject : string;
  i_providerID : ProviderID;
  i_scopes : list Scope
}.

#[global] Instance Identity_eq_dec : EqDecision Identity.
Proof. solve_decision. Defined.

Record IdentityParams := mkIdentityParams {
  ip_Subject : string;
  ip_ProviderID : string;
  ip_Scopes : list string
}.

Definition Scope_known (s : Scope) : bool :=
  bool_decide (s ∈ [ScopeSubmit; ScopeRead; ScopeWallets]).

(** The loop of [NewIdentity] over the raw scopes. *)
Fixpoint collect_scopes (scopes : list Scope) (raw : list string) : list Scope :=
  match raw with
  | [] => scopes
  | r :: raw =>
    let scope := TrimSpace r in
    if Scope_known scope && negb (bool_decide (scope ∈ scopes))
    then collect_scopes (scopes ++ [scope]) raw
    else collect_scopes scopes raw
  end.

Definition NewIdentity (p : IdentityParams) : result Identity :=
  if bool_decide (ip_Subject p = "") then Err (Wrapped (SentinelError ErrUnauthenticated))
  else if bool_decide (ip_ProviderID p = "")
  then Ok (mkIdentity (ip_Subject p) zeroId (collect_scopes [] (ip_Scopes p)))
  else match ParseProviderID (ip_ProviderID p) with
       | Err _ => Err (Wrapped (SentinelError ErrUnauthenticated))
       | Ok providerID =>
         Ok (mkIdentity (ip_Subject p) providerID (collect_scopes [] (ip_Scopes p)))
       end.

Definition Identity_IsProvider (i : Identity) : bool := negb (id_IsZero (i_providerID i)).
Definition Identity_Has (i : Identity) (scope : Scope) : bool := bool_decide (scope ∈ i_scopes i).

Definition authorise (i : Identity) (scope : Scope) : result unit :=
  if negb (Identity_Has i scope) then Err (Wrapped (SentinelError ErrForbidden)) else Ok ().

Definition Identity_provider (i : Identity) : result ProviderID :=
  if negb (Identity_IsProvider i) then Err (Wrapped (SentinelError ErrForbidden))
  else Ok (i_providerID i).

Definition mayActAs (i : Identity) (providerID : ProviderID) : result unit :=
  provider ← Identity_provider i;
  if negb (bool_decide (provider = providerID)) then Err (Wrapped (SentinelError ErrForbidden))
  else Ok ().

Definition owns (i : Identity) (providerID : ProviderID) : bool :=
  if negb (Identity_IsProvider i) then Identity_Has i ScopeWallets
  else negb (id_IsZero providerID) && bool_decide (providerID = i_providerID i).

(** What the program reads out of a [context.Context]: the caller, the
    correlation id, and the marker of an open unit of work. *)
Record Context := mkContext {
  cx_identity : option Identity;
  cx_correlationID : string;
  cx_insideUnitOfWork : bool
}.

(** [context.Background()] *)
Definition Background : Context := mkContext None "" false.

Definition WithIdentity (ctx : Context) (i : Identity) : Context :=
  mkContext (Some i) (cx_correlationID ctx) (cx_insideUnitOfWork ctx).

Definition WithCorrelationID (ctx : Context) (id : string) : Context :=
  if bool_decide (id = "") then ctx
  else mkContext (cx_identity ctx) id (cx_insideUnitOfWork ctx).

Definition CorrelationIDFrom (ctx : Context) : string := cx_correlationID ctx.

Definition caller (ctx : Context) (scope : Scope) : result Identity :=
  match cx_identity ctx with
  | None => Err (Wrapped (SentinelError ErrUnauthenticated))
  | Some identity => _ ← authorise identity scope; Ok identity
  end.

(** ** Lemmas *)

Lemma Scope_known_iff s :
  Scope_known s = true <-> s = ScopeSubmit \/ s = ScopeRead \/ s = ScopeWallets.
Proof.
  unfold Scope_known. rewrite bool_decide_eq_true, !elem_of_cons, elem_of_nil. tauto.
Qed.

(** The collected scopes: known ones only, each once, in order of arrival. *)
Lemma collect_scopes_spec raw scopes :
  NoDup scopes -> Forall (fun s => Scope_known s = true) scopes ->
  NoDup (collect_scopes scopes raw) /\
  (forall s, s ∈ collect_scopes scopes raw <->
    s ∈ scopes \/ (Scope_known s = true /\ s ∈ map TrimSpace raw)).
Proof.
  revert scopes. induction raw as [|r raw IH]; intros scopes Hn Hk; cbn [collect_scopes map].
  { split; [done|]. intros s. rewrite elem_of_nil. tauto. }
  destruct (Scope_known (TrimSpace r)) eqn:Er; cbn [andb].
  - case_bool_decide as Hin; cbn [negb].
    + destruct (IH scopes Hn Hk) as [H1 H2]. split; [done|]. intros s. rewrite H2, elem_of_cons.
      split; [tauto|]. intros [?|[? [->|?]]]; tauto.
    + destruct (IH (scopes ++ [TrimSpace r])) as [H1 H2].
      * apply NoDup_app. split_and!; [done| |apply NoDup_singleton].
        intros x Hx ->%list_elem_of_singleton. done.
      * apply Forall_app. by rewrite Forall_singleton.
      * split; [done|]. intros s.
        rewrite H2, elem_of_app, list_elem_of_singleton, elem_of_cons.
        split; [intros [[?| ->]|?]; tauto|]. intros [?|[? [->|?]]]; tauto.
  - destruct (IH scopes Hn Hk) as [H1 H2]. split; [done|]. intros s. rewrite H2, elem_of_cons.
    split; [tauto|]. intros [?|[? [->|?]]]; [tauto|congruence|tauto].
Qed.

Lemma caller_Ok ctx scope i :
  caller ctx scope = Ok i <-> cx_identity ctx = Some i /\ scope ∈ i_scopes i.
Proof.
  unfold caller, authorise, Identity_Has. destruct (cx_identity ctx) as [j|]; [|naive_solver].
  case_bool_decide; cbn; naive_solver.
Qed.

Lemma mayActAs_Ok i p :
  mayActAs i p = Ok () <-> i_providerID i <> zeroId /\ i_providerID i = p.
Proof.
  unfold mayActAs, Identity_provider, Identity_IsProvider.
  destruct (id_IsZero (i_providerID i)) eqn:E; cbn.
  - apply id_IsZero_true in E. naive_solver.
  - assert (i_providerID i <> zeroId) by (intros E'%id_IsZero_true; congruence).
    case_bool_decide; cbn; naive_solver.
Qed.

(** Every refusal of the checks is one of two sentinels, never a domain
    rejection. *)
Lemma caller_Err ctx scope e :
  caller ctx scope = Err e -> As_domain e = None /\
    (is_sentinel e ErrUnauthenticated = true \/ is_sentinel e ErrForbidden = true).
Proof.
  unfold caller, authorise, Identity_Has. destruct (cx_identity ctx) as [j|]; [|naive_solver].
  case_bool_decide; cbn; naive_solver.
Qed.

Lemma mayActAs_Err i p e :
  mayActAs i p = Err e -> As_domain e = None /\ is_sentinel e ErrForbidden = true.
Proof.
  unfold mayActAs, Identity_provider.
  destruct (Identity_IsProvider i); cbn; [case_bool_decide; cbn|]; naive_solver.
Qed.

(** ** Properties *)

(** A credential becomes an identity exactly when it has a subject and a
    usable provider claim; the identity holds each known scope once and no
    other, refuses every unlisted scope, may act only as its own provider,
    and owns nothing of another provider. *)
Theorem identity_is_least_privilege p i :
  NewIdentity p = Ok i ->
  i_subject i <> "" /\
  (Identity_IsProvider i = true <-> ip_ProviderID p <> "") /\
  NoDup (i_scopes i) /\
  (forall s, Identity_Has i s = true <-> Scope_known s = true /\ s ∈ map TrimSpace (ip_Scopes p)) /\
  (forall q, mayActAs i q = Ok () <-> Identity_IsProvider i = true /\ q = i_providerID i) /\
  (forall q, Identity_IsProvider i = true -> owns i q = true -> q = i_providerID i) /\
  owns i zeroId = negb (Identity_IsProvider i) && Identity_Has i ScopeWallets.
Proof.
  intros H.
  assert (Hi : i_subject i = ip_Subject p /\ ip_Subject p <> "" /\
    i_scopes i = collect_scopes [] (ip_Scopes p) /\
    (Identity_IsProvider i = true <-> ip_ProviderID p <> "")).
  { unfold NewIdentity in H. destruct (decide (ip_Subject p = "")) as [E|E].
    { rewrite bool_decide_eq_true_2 in H by done. done. }
    rewrite (bool_decide_eq_false_2 _ E) in H. case_bool_decide as E2; [by simplify_eq|].
    destruct (ParseProviderID (ip_ProviderID p)) as [q|] eqn:Eq; [|done]. injection H as <-.
    apply parseIdentifier_iff in Eq as [[Hq _] _]. split_and!; [done..|].
    unfold Identity_IsProvider. cbn [i_providerID]. rewrite (proj2 (id_IsZero_false q) Hq). done. }
  destruct Hi as (Hsub & Hne & Hsc & Hprov).
  destruct (collect_scopes_spec (ip_Scopes p) []) as [Hnd Hin]; [constructor|constructor|].
  split_and!; [congruence|done|by rewrite Hsc| | | |].
  - intros s. unfold Identity_Has. rewrite bool_decide_eq_true, Hsc, Hin, elem_of_nil. tauto.
  - intros q. rewrite mayActAs_Ok. unfold Identity_IsProvider.
    rewrite negb_true_iff, <- not_true_iff_false, id_IsZero_true. naive_solver.
  - intros q Hp. unfold owns. rewrite Hp. cbn.
    intros [_ ->%bool_decide_eq_true]%andb_true_iff. done.
  - unfold owns. by destruct (Identity_IsProvider i).
Qed.

Definition example_credential : IdentityParams :=
  mkIdentityParams "client-1" "acme" ["profile"; " wagering:submit "; "wagering:submit"].

Lemma identity_is_least_privilege_witness :
  exists i, NewIdentity example_credential = Ok i /\ mayActAs i (mkId "acme") = Ok () /\
    Identity_Has i ScopeSubmit = true /\ Identity_Has i ScopeWallets = false.
Proof.
  assert (H : exists i, NewIdentity example_credential = Ok i) by (eexists; vm_compute; reflexivity).
  destruct H as [i Hi]. exists i. split; [exact Hi|].
  destruct (identity_is_least_privilege _ _ Hi) as (_ & _ & _ & _ & Hm & _).
  assert (Hj : i = mkIdentity "client-1" (mkId "acme") ["wagering:submit"])
    by (vm_compute in Hi; injection Hi as <-; reflexivity).
  split; [apply Hm|]; rewrite Hj; split; vm_compute; reflexivity.
Defined.
