(* ===== verification/Ports.v ===== *)
(** * Ports: [internal/app/ports.go], [clock.go], [inbox.go], [outbox.go]

    The interfaces the use cases are written against.  A method that may fail
    is a computation [M W A] over the state [W] of the world outside the
    process (the database, the clock, the entropy pool); it returns a value or
    an error and the state it leaves.  A failing call leaves a state too: what
    a caller that swallows the error goes on with.

    A callback handed to [UnitOfWork.Do] captures variables of its caller and
    may run several times, so the values those variables hold are threaded
    through the attempts instead of being returned by one of them. *)

From S2P Require Import Prelude Errors GoTime Money Identifier Ledger Wallet Transaction Event.
From S2P Require Import Identity.

#[local] Open Scope string_scope.
#[local] Open Scope list_scope.
#[local] Open Scope Z_scope.

(** ** Effects *)

Definition M (W A : Type) : Type := W -> result A * W.

#[global] Instance M_ret W : MRet (M W) := fun _ a w => (Ok a, w).
#[global] Instance M_bind W : MBind (M W) := fun _ _ f m w =>
  match m w with
  | (Ok a, w') => f a w'
  | (Err e, w') => (Err e, w')
  end.

(** A pure call that may fail. *)
Definition pure {W A} (r : result A) : M W A := fun w => (r, w).

Definition throw {W A} (e : error) : M W A := fun w => (Err e, w).

(** [v, err := m; if err != nil { return handle(err) }; k(v)] *)
Definition catch {W A B} (m : M W A) (k : A -> M W B) (handle : error -> M W B) : M W B :=
  fun w => match m w with
           | (Ok a, w') => k a w'
           | (Err e, w') => handle e w'
           end.

(** [fmt.Errorf("...: %w", err)] around a failing call. *)
Definition wrap_errM {W A} (m : M W A) : M W A :=
  fun w => let '(r, w') := m w in (wrap_err r, w').

(** ** The clock, the identifiers and the random source *)

Class Clock (W : Type) := { Clock_Now : W -> Time * W }.

Class IDGenerator (W : Type) := {
  NewWalletID : Context -> M W WalletID;
  NewTransactionID : Context -> M W TransactionID;
  NewLedgerEntryID : Context -> M W LedgerEntryID;
  NewEventID : Context -> M W string
}.

(** [math/rand/v2]: [Int64N n] draws from [0..n-1], and panics unless [0 < n]. *)
Class Rand (W : Type) := { Int64N : Z -> W -> Z * W }.

(** [ctx.Err()]: an error once the context is done. *)
Class Cancellation (W : Type) := { ctx_Err : Context -> M W unit }.

Definition now {W} `{Clock W} : M W Time := fun w => let '(t, w') := Clock_Now w in (Ok t, w').
Definition rand_Int64N {W} `{Rand W} (n : Z) : M W Z :=
  fun w => let '(r, w') := Int64N n w in (Ok r, w').

(** ** The inbox and the outbox *)

Record InboxMessage := mkInboxMessage {
  im_ConsumerName : string;
  im_MessageID : string;
  im_PayloadHash : PayloadHash;
  im_ReceivedAt : Time;
  im_CompletedAt : Time
}.

Definition Inbox_Handled (m : InboxMessage) : bool := negb (Time_IsZero (im_CompletedAt m)).

Record OutboxRecord := mkOutboxRecord {
  or_EventID : string;
  or_Event : Event;
  or_CorrelationID : string;
  or_CausationID : string;
  or_Attempts : Z;
  or_NextAttemptAt : Time;
  or_PublishedAt : Time;
  or_LastError : string
}.

Definition Outbox_Published (r : OutboxRecord) : bool := negb (Time_IsZero (or_PublishedAt r)).

(** ** Repositories *)

Record LedgerCursor := NewLedgerCursor { cursor_after : Z }.

Record LedgerPage := mkLedgerPage {
  lg_Entries : list LedgerEntry;
  lg_Next : LedgerCursor;
  lg_HasMore : bool
}.

Record WalletReader (W : Type) := mkWalletReader {
  wr_FindByID : WalletID -> M W Wallet;
  wr_FindByPlayerAndCurrency : PlayerID -> Currency -> M W Wallet
}.

Record WalletRepository (W : Type) := mkWalletRepository {
  w_reader : WalletReader W;
  w_FindByIDForUpdate : WalletID -> M W Wallet;
  w_Insert : Wallet -> M W unit;
  w_UpdateBalance : Wallet -> Z -> M W unit
}.

Record LedgerReader (W : Type) := mkLedgerReader {
  lr_ListByWallet : WalletID -> LedgerCursor -> Z -> M W LedgerPage;
  lr_SumByWallet : WalletID -> Currency -> M W (Money * Z)
}.

Record LedgerRepository (W : Type) := mkLedgerRepository {
  l_reader : LedgerReader W;
  l_Append : LedgerEntry -> M W unit
}.

Record TransactionReader (W : Type) := mkTransactionReader {
  tr_FindByID : TransactionID -> M W WagerTransaction;
  tr_FindByBusinessID : ProviderID -> ExternalTransactionID -> M W WagerTransaction;
  tr_FindProcessedReversalOf : TransactionID -> M W WagerTransaction
}.

Record TransactionRepository (W : Type) := mkTransactionRepository {
  t_reader : TransactionReader W;
  t_Insert : WagerTransaction -> M W unit;
  t_Update : WagerTransaction -> M W unit;
  t_ClaimDueReferences : Time -> Z -> M W (list WagerTransaction)
}.

Record InboxRepository (W : Type) := mkInboxRepository {
  in_Claim : InboxMessage -> M W unit;
  in_Complete : string -> string -> Time -> M W unit;
  in_Find : string -> string -> M W InboxMessage
}.

Record OutboxRepository (W : Type) := mkOutboxRepository {
  ob_Append : OutboxRecord -> M W unit;
  ob_ClaimDue : Time -> Z -> M W (list OutboxRecord);
  ob_MarkPublished : string -> Time -> M W unit;
  ob_Reschedule : string -> Time -> string -> M W unit
}.

Record Repositories (W : Type) := mkRepositories {
  r_Wallets : WalletRepository W;
  r_Ledger : LedgerRepository W;
  r_Transactions : TransactionRepository W;
  r_Inbox : InboxRepository W;
  r_Outbox : OutboxRepository W
}.

Record Queries (W : Type) := mkQueries {
  q_Wallets : WalletReader W;
  q_Ledger : LedgerReader W;
  q_Transactions : TransactionReader W
}.

Arguments wr_FindByID {_} _ _ _. Arguments wr_FindByPlayerAndCurrency {_} _ _ _ _.
Arguments w_reader {_} _. Arguments w_FindByIDForUpdate {_} _ _ _. Arguments w_Insert {_} _ _ _.
Arguments w_UpdateBalance {_} _ _ _ _. Arguments lr_ListByWallet {_} _ _ _ _ _.
Arguments lr_SumByWallet {_} _ _ _ _. Arguments l_reader {_} _. Arguments l_Append {_} _ _ _.
Arguments tr_FindByID {_} _ _ _. Arguments tr_FindByBusinessID {_} _ _ _ _.
Arguments tr_FindProcessedReversalOf {_} _ _ _. Arguments t_reader {_} _. Arguments t_Insert {_} _ _ _.
Arguments t_Update {_} _ _ _. Arguments t_ClaimDueReferences {_} _ _ _ _.
Arguments in_Claim {_} _ _ _. Arguments in_Complete {_} _ _ _ _ _. Arguments in_Find {_} _ _ _ _.
Arguments ob_Append {_} _ _ _. Arguments ob_ClaimDue {_} _ _ _ _. Arguments ob_MarkPublished {_} _ _ _ _.
Arguments ob_Reschedule {_} _ _ _ _ _. Arguments r_Wallets {_} _. Arguments r_Ledger {_} _.
Arguments r_Transactions {_} _. Arguments r_Inbox {_} _. Arguments r_Outbox {_} _.
Arguments q_Wallets {_} _. Arguments q_Ledger {_} _. Arguments q_Transactions {_} _.

(** ** Boundaries *)

(** A callback with the variables it captures. *)
Definition Callback (W C : Type) : Type := C -> W -> result unit * C * W.

Record UnitOfWork (W : Type) := mkUnitOfWork {
  uow_Do : forall C : Type, Context -> (Context -> Repositories W -> Callback W C) -> Callback W C
}.
Arguments uow_Do {_} _ {_} _ _ _ _.

Record Snapshot (W : Type) := mkSnapshot {
  snap_Do : forall A : Type, Context -> (Context -> Queries W -> M W A) -> M W A
}.
Arguments snap_Do {_} _ {_} _ _ _.

(** A callback whose only captured variable receives the result of every
    attempt: [result, err = f(ctx, repos); return err]. *)
Definition assign {W A} (zero : A) (m : M W A) : Callback W A := fun _ w =>
  match m w with
  | (Ok a, w') => (Ok (), a, w')
  | (Err e, w') => (Err e, zero, w')
  end.

(** A callback that captures nothing. *)
Definition no_capture {W} (m : M W unit) : Callback W unit := fun _ w =>
  let '(r, w') := m w in (r, (), w').

(** ** Reasoning: what a computation ensures of its value or its error *)

Definition wp {W A} (m : M W A) (w : W) (Q : A -> W -> Prop) (E : error -> W -> Prop) : Prop :=
  match m w with
  | (Ok a, w') => Q a w'
  | (Err e, w') => E e w'
  end.

Section wp.
Context {W : Type}.
Implicit Types w : W.

Lemma bind_pure_Ok {A B} (a : A) (f : A -> M W B) w : (pure (Ok a) ≫= f) w = f a w.
Proof. done. Qed.

Lemma wp_ret {A} (a : A) w (Q : A -> W -> Prop) E : Q a w -> wp (mret a) w Q E.
Proof. done. Qed.

Lemma wp_throw {A} e w (Q : A -> W -> Prop) (E : error -> W -> Prop) : E e w -> wp (throw e) w Q E.
Proof. done. Qed.

Lemma wp_pure {A} (r : result A) w (Q : A -> W -> Prop) (E : error -> W -> Prop) :
  (forall a, r = Ok a -> Q a w) -> (forall e, r = Err e -> E e w) -> wp (pure r) w Q E.
Proof. unfold wp, pure. destruct r; eauto. Qed.

Lemma wp_bind {A B} (m : M W A) (f : A -> M W B) w Q E :
  wp m w (fun a w' => wp (f a) w' Q E) E -> wp (m ≫= f) w Q E.
Proof. unfold wp, mbind, M_bind. destruct (m w) as [[a|e] w']; auto. Qed.

Lemma wp_catch {A B} (m : M W A) (k : A -> M W B) (h : error -> M W B) w Q E :
  wp m w (fun a w' => wp (k a) w' Q E) (fun e w' => wp (h e) w' Q E) -> wp (catch m k h) w Q E.
Proof. unfold wp, catch. destruct (m w) as [[a|e] w']; auto. Qed.

Lemma wp_wrap {A} (m : M W A) w Q (E : error -> W -> Prop) :
  wp m w Q (fun e w' => E (Wrapped e) w') -> wp (wrap_errM m) w Q E.
Proof. unfold wp, wrap_errM. destruct (m w) as [[a|e] w']; auto. Qed.

Lemma wp_mono {A} (m : M W A) w (Q Q' : A -> W -> Prop) (E E' : error -> W -> Prop) :
  wp m w Q E -> (forall a w', Q a w' -> Q' a w') -> (forall e w', E e w' -> E' e w') ->
  wp m w Q' E'.
Proof. unfold wp. destruct (m w) as [[a|e] w']; auto. Qed.

Lemma wp_inv {A} (m : M W A) w Q E r w' :
  wp m w Q E -> m w = (r, w') -> match r with Ok a => Q a w' | Err e => E e w' end.
Proof. unfold wp. intros H Heq. rewrite Heq in H. by destruct r. Qed.
End wp.
