(* ===== verification/Store.v ===== *)
(** * Store: what the database promises the use cases

    An abstract store of domain objects, the invariant the program maintains
    over it, and the laws of the repository, unit-of-work, clock and identifier
    ports stated against that store.  The use cases are proved against these
    laws; the PostgreSQL adapter discharges them. *)

From stdpp Require Import sorting.
From S2P Require Import Prelude Errors GoTime Money Identifier Ledger Wallet Transaction Event.
From S2P Require Import Identity Ports.

#[local] Open Scope string_scope.
#[local] Open Scope list_scope.
#[local] Open Scope Z_scope.

(** ** What a stored value keeps

    The database keeps instants to the microsecond and rewrites a JSON payload
    in its own normal form. *)
Class Precision := {
  ts_encode : Time -> Z;
  ts_decode : Z -> Time;
  stored_json : json -> json;
  ts_encode_law : forall t, ts_encode t = instant t - instant t mod 1000;
  ts_decode_law : forall z, instant (ts_decode z) = z
}.

(** An instant as it is read back. *)
Definition stored_time `{Precision} (t : Time) : Time := ts_decode (ts_encode t).

Lemma stored_time_law `{Precision} t : instant (stored_time t) = instant t - instant t mod 1000.
Proof. unfold stored_time. by rewrite ts_decode_law, ts_encode_law. Qed.

(** A set instant is at least a microsecond after the zero one, so storing it
    does not turn it into an unset one. *)
Definition set_late (t : Time) : Prop := Time_IsZero t = true \/ 1000 <= instant t.

Definition int32_max : Z := 2147483647.

Definition currency_ok (c : Currency) : Prop := ParseCurrency (cur_code c) = Ok c.

(** An identifier short enough to be parsed back, set or not. *)
Definition id_fits {k} (i : identifier k) : Prop := i = zeroId \/ id_ok i.

Record Store := mkStore {
  s_wallets : gmap string Wallet;
  s_txs : gmap string WagerTransaction;
  s_ledger : list (Z * LedgerEntry);
  s_inbox : gmap (string * string) InboxMessage;
  s_outbox : list (Z * OutboxRecord)
}.

Definition emptyStore : Store := mkStore ∅ ∅ [] ∅ [].

Definition put_wallet (w : Wallet) (s : Store) : Store :=
  mkStore (<[id_value (w_id w) := w]> (s_wallets s)) (s_txs s) (s_ledger s) (s_inbox s) (s_outbox s).
Definition put_tx (t : WagerTransaction) (s : Store) : Store :=
  mkStore (s_wallets s) (<[id_value (t_id t) := t]> (s_txs s)) (s_ledger s) (s_inbox s) (s_outbox s).
Definition add_entry (q : Z) (e : LedgerEntry) (s : Store) : Store :=
  mkStore (s_wallets s) (s_txs s) (s_ledger s ++ [(q, e)]) (s_inbox s) (s_outbox s).
Definition put_inbox (m : InboxMessage) (s : Store) : Store :=
  mkStore (s_wallets s) (s_txs s) (s_ledger s)
    (<[(im_ConsumerName m, im_MessageID m) := m]> (s_inbox s)) (s_outbox s).
Definition set_outbox (o : list (Z * OutboxRecord)) (s : Store) : Store :=
  mkStore (s_wallets s) (s_txs s) (s_ledger s) (s_inbox s) o.

Definition with_version (v : Z) (w : Wallet) : Wallet :=
  mkWallet (w_id w) (w_playerID w) (w_currency w) (w_balance w) v (w_createdAt w) (w_updatedAt w).

(** The entries of a wallet, oldest first. *)
Definition entries_of (id : WalletID) (s : Store) : list LedgerEntry :=
  filter (fun e => le_walletID e = id) (s_ledger s).*2.

Section stored.
Context `{Precision}.

Definition norm (t : Time) : Time :=
  if Time_IsZero t then zeroTime else Time_UTC (stored_time t).

Definition stored_wallet (w : Wallet) : Wallet :=
  mkWallet (w_id w) (w_playerID w) (w_currency w) (w_balance w) (w_version w)
    (norm (w_createdAt w)) (norm (w_updatedAt w)).

Definition stored_tx (t : WagerTransaction) : WagerTransaction :=
  mkTx (t_id t) (t_origin t) (t_kind t) (t_status t) (t_walletID t) (t_playerID t) (t_money t)
    (t_providerID t) (t_externalID t) (t_idempotencyKey t) (t_payloadHash t) (t_roundID t)
    (t_gameID t) (t_referenceExternalID t) (t_resolvedReferenceID t) (t_failureCode t)
    (t_referenceAttempts t) (norm (t_referenceNextAttemptAt t)) (norm (t_referenceDeadlineAt t))
    (t_balanceAfter t) (norm (t_createdAt t)) (norm (t_updatedAt t)).

Definition stored_entry (e : LedgerEntry) : LedgerEntry :=
  mkLedgerEntry (le_id e) (le_walletID e) (le_transactionID e) (le_direction e) (le_amount e)
    (le_balanceBefore e) (le_balanceAfter e) (norm (le_createdAt e)).

(** Times of the inbox and the outbox are handed out in the zone the driver
    chooses. *)
Definition stored_opt (t : Time) : Time := if Time_IsZero t then zeroTime else stored_time t.

Definition stored_record (r : OutboxRecord) : OutboxRecord :=
  mkOutboxRecord (or_EventID r)
    (mkEvent (ev_Type (or_Event r)) (ev_Version (or_Event r)) (ev_AggregateID (or_Event r))
       (stored_time (ev_OccurredAt (or_Event r))) (stored_json (ev_Payload (or_Event r))))
    (or_CorrelationID r) (or_CausationID r) (or_Attempts r) (stored_time (or_NextAttemptAt r))
    (stored_opt (or_PublishedAt r)) (or_LastError r).

(** ** Values that can be stored *)

Record wallet_storable (w : Wallet) : Prop := {
  ws_ok : wallet_ok w;
  ws_id : id_ok (w_id w);
  ws_playerID : id_ok (w_playerID w);
  ws_currency : currency_ok (w_currency w);
  ws_createdAt : set_late (w_createdAt w);
  ws_updatedAt : set_late (w_updatedAt w)
}.

Record tx_storable (t : WagerTransaction) : Prop := {
  ts_ok : tx_ok t;
  ts_id : id_ok (t_id t);
  ts_walletID : id_ok (t_walletID t);
  ts_playerID : id_ok (t_playerID t);
  ts_providerID : id_fits (t_providerID t);
  ts_externalID : id_fits (t_externalID t);
  ts_idempotencyKey : id_fits (t_idempotencyKey t);
  ts_payloadHash : id_fits (t_payloadHash t);
  ts_roundID : id_fits (t_roundID t);
  ts_gameID : id_fits (t_gameID t);
  ts_reference : id_fits (t_referenceExternalID t);
  ts_resolved : id_fits (t_resolvedReferenceID t);
  ts_money : money_ok (t_money t);
  ts_currency : currency_ok (currency (t_money t));
  ts_balance : 0 <= minor (t_balanceAfter t) <= MaxInt64;
  ts_no_balance : Money_IsInitialised (t_balanceAfter t) = false -> t_balanceAfter t = noMoney;
  ts_attempts : t_referenceAttempts t <= int32_max;
  ts_createdAt : set_late (t_createdAt t);
  ts_updatedAt : set_late (t_updatedAt t);
  ts_nextAt : set_late (t_referenceNextAttemptAt t);
  ts_deadlineAt : set_late (t_referenceDeadlineAt t)
}.

Record entry_storable (e : LedgerEntry) : Prop := {
  es_ok : entry_ok e;
  es_id : id_ok (le_id e);
  es_walletID : id_ok (le_walletID e);
  es_transactionID : id_ok (le_transactionID e);
  es_currency : currency_ok (currency (le_amount e));
  es_balances : 0 <= minor (le_balanceBefore e) /\ 0 <= minor (le_balanceAfter e);
  es_createdAt : set_late (le_createdAt e)
}.
End stored.

(** ** The invariant of the store *)

(** Two different operations never share their provider's name for them, or
    their idempotency key; an operation is reversed at most once; a wallet is
    opened at most once. *)
Definition tx_conflict (s : Store) (t : WagerTransaction) (name : string) : Prop :=
  let other P := exists k t', s_txs s !! k = Some t' /\ t_id t' <> t_id t /\ P t' in
  (name = "wager_transactions_pkey" /\ is_Some (s_txs s !! id_value (t_id t))) \/
  (name = "wager_transactions_business_identity" /\
   t_origin t = OriginExternal /\
   other (fun t' => t_origin t' = OriginExternal /\ t_providerID t' = t_providerID t /\
                    t_externalID t' = t_externalID t)) \/
  (name = "wager_transactions_idempotency_key" /\
   t_origin t = OriginExternal /\
   other (fun t' => t_origin t' = OriginExternal /\ t_providerID t' = t_providerID t /\
                    t_idempotencyKey t' = t_idempotencyKey t)) \/
  (name = "wager_transactions_one_opening_per_wallet" /\
   t_kind t = KindOpening /\
   other (fun t' => t_kind t' = KindOpening /\ t_walletID t' = t_walletID t)) \/
  (name = "wager_transactions_one_reversal_per_operation" /\
   t_status t = StatusProcessed /\ t_resolvedReferenceID t <> zeroId /\
   other (fun t' => t_status t' = StatusProcessed /\
                    t_resolvedReferenceID t' = t_resolvedReferenceID t)).

(** The direction in which a processed operation moved its wallet. *)
Definition moved_as (s : Store) (t : WagerTransaction) (d : Direction) : Prop :=
  if Kind_IsReversal (t_kind t)
  then exists r, s_txs s !! id_value (t_resolvedReferenceID t) = Some r /\
         ReversalDirection (t_kind r) = Ok d
  else Kind_Direction (t_kind t) = (d, true).

(** The ledger entry of a processed operation. *)
Record entry_of_tx (s : Store) (t : WagerTransaction) (e : LedgerEntry) : Prop := {
  et_status : t_status t = StatusProcessed;
  et_moves : Kind_MovesMoney (t_kind t) = true;
  et_id : le_transactionID e = t_id t;
  et_wallet : le_walletID e = t_walletID t;
  et_amount : le_amount e = t_money t;
  et_balance : le_balanceAfter e = t_balanceAfter t;
  et_direction : moved_as s t (le_direction e)
}.

(** A processed reversal undid a processed operation on the same money. *)
Definition reversal_sound (s : Store) (t : WagerTransaction) : Prop :=
  exists r, s_txs s !! id_value (t_resolvedReferenceID t) = Some r /\
    t_status r = StatusProcessed /\ CanReverse (t_kind t) (t_kind r) = true /\
    t_walletID r = t_walletID t /\ t_playerID r = t_playerID t /\ t_money r = t_money t /\
    t_roundID r = t_roundID t /\ t_providerID r = t_providerID t.

Record store_ok `{Precision} (s : Store) : Prop := {
  so_wallet : forall k w, s_wallets s !! k = Some w ->
    k = id_value (w_id w) /\ wallet_storable w /\ stored_wallet w = w /\
    chained 0 (entries_of (w_id w) s) (minor (w_balance w));
  so_tx : forall k t, s_txs s !! k = Some t ->
    k = id_value (t_id t) /\ tx_storable t /\ stored_tx t = t /\
    exists w, s_wallets s !! id_value (t_walletID t) = Some w /\ w_playerID w = t_playerID t;
  so_entry : forall q e, (q, e) ∈ s_ledger s ->
    entry_storable e /\ stored_entry e = e /\
    (exists t, s_txs s !! id_value (le_transactionID e) = Some t /\ entry_of_tx s t e) /\
    (exists w, s_wallets s !! id_value (le_walletID e) = Some w /\ w_currency w = currency (le_amount e));
  so_moved : forall k t, s_txs s !! k = Some t ->
    t_status t = StatusProcessed -> Kind_MovesMoney (t_kind t) = true ->
    exists q e, (q, e) ∈ s_ledger s /\ le_transactionID e = t_id t;
  so_once : NoDup (le_transactionID <$> (s_ledger s).*2);
  so_unique : forall k t name, s_txs s !! k = Some t ->
    name <> "wager_transactions_pkey" -> ~ tx_conflict s t name;
  so_player : forall k1 w1 k2 w2, s_wallets s !! k1 = Some w1 -> s_wallets s !! k2 = Some w2 ->
    w_playerID w1 = w_playerID w2 -> w_currency w1 = w_currency w2 -> k1 = k2;
  so_reversal : forall k t, s_txs s !! k = Some t ->
    t_status t = StatusProcessed -> Kind_IsReversal (t_kind t) = true -> reversal_sound s t;
  so_resolved : forall k t, s_txs s !! k = Some t ->
    t_resolvedReferenceID t <> zeroId -> t_status t = StatusProcessed
}.

(** What no transaction may ever do to the store: entries are only added,
    wallets stay and only advance, an operation stays with what was asked of
    it and only adds to its attempts, a terminal one stays as it is, a message that was handled stays
    handled, and an event stays in the outbox until it is published and after. *)
Record grows (s s' : Store) : Prop := {
  ev_ledger : exists es, s_ledger s' = s_ledger s ++ es;
  ev_wallets : forall k w, s_wallets s !! k = Some w ->
    exists w', s_wallets s' !! k = Some w' /\ w_id w' = w_id w /\ w_playerID w' = w_playerID w /\
      w_currency w' = w_currency w /\ w_version w <= w_version w';
  ev_txs : forall k t, s_txs s !! k = Some t ->
    exists t', s_txs s' !! k = Some t' /\
      (Tx_IsTerminal t = true -> t' = t) /\
      t_id t' = t_id t /\ t_kind t' = t_kind t /\ t_walletID t' = t_walletID t /\ t_money t' = t_money t /\
      t_providerID t' = t_providerID t /\ t_externalID t' = t_externalID t /\
      t_payloadHash t' = t_payloadHash t /\ t_idempotencyKey t' = t_idempotencyKey t /\
      t_referenceAttempts t <= t_referenceAttempts t';
  ev_inbox : forall k m, s_inbox s !! k = Some m ->
    exists m', s_inbox s' !! k = Some m' /\ im_PayloadHash m' = im_PayloadHash m /\
      (Inbox_Handled m = true -> m' = m);
  ev_outbox : forall q r, (q, r) ∈ s_outbox s ->
    exists r', (q, r') ∈ s_outbox s' /\ or_EventID r' = or_EventID r /\ or_Event r' = or_Event r /\
      or_CorrelationID r' = or_CorrelationID r /\ (Outbox_Published r = true -> r' = r)
}.

(** The event that announces an operation in its present status. *)
Definition announces (t : WagerTransaction) (e : Event) : Prop :=
  ev_AggregateID e = id_value (t_id t) /\
  ev_Type e =
    (if bool_decide (t_status t = StatusProcessed) then EventWagerTransactionProcessed
     else if bool_decide (t_status t = StatusRejected) then EventWagerTransactionRejected
     else EventWagerTransactionPendingReference).

(** Nothing appears, and nothing changes status, without its event. *)
Definition announced_since (s s' : Store) : Prop :=
  forall k t', s_txs s' !! k = Some t' ->
    (exists t, s_txs s !! k = Some t /\ t_status t = t_status t') \/
    exists q r, (q, r) ∈ s_outbox s' /\ announces t' (or_Event r).

Record evolves (s s' : Store) : Prop := {
  ev_grows : grows s s';
  ev_announced : announced_since s s'
}.

(** ** The ports, with what they promise *)

(** [st_tx w s0 s]: a transaction that began on store [s0] is open in world
    [w] and sees [s].  [st_dead w s0]: it may have been refused a statement and
    can only be rolled back.  [st_idle w s]: no transaction is open and the
    committed store is [s].  [st_infra]: the errors of the infrastructure.
    [st_others s s']: what other transactions may commit meanwhile.
    [st_unlocked]: no other session ever holds a row this one wants to claim. *)
Class Storage (W : Type) := {
  st_tx : W -> Store -> Store -> Prop;
  st_dead : W -> Store -> Prop;
  st_idle : W -> Store -> Prop;
  st_infra : error -> Prop;
  st_others : Store -> Store -> Prop;
  st_unlocked : Prop
}.

Class StorageLaws (W : Type) `{Storage W, Precision} : Prop := {
  st_tx_dead : forall w s0 s, st_tx w s0 s -> st_dead w s0;
  st_infra_error : forall e, st_infra e ->
    As_domain e = None /\ is_sentinel e ErrNotFound = false /\ is_sentinel e ErrConflict = false;
  st_infra_wrapped : forall e, st_infra e -> st_infra (Wrapped e);
  st_others_refl : forall s, st_others s s;
  st_others_trans : forall s1 s2 s3, st_others s1 s2 -> st_others s2 s3 -> st_others s1 s3;
  st_others_ok : forall s s', st_others s s' -> store_ok s -> store_ok s' /\ evolves s s'
}.

(** A call that does not touch the database. *)
Definition aside {W} `{Storage W} {A} (m : M W A) (P : A -> Prop) : Prop :=
  (forall w s0 s, st_tx w s0 s ->
     wp m w (fun a w' => P a /\ st_tx w' s0 s) (fun e w' => st_infra e /\ st_tx w' s0 s)) /\
  (forall w s, st_idle w s ->
     wp m w (fun a w' => P a /\ st_idle w' s) (fun e w' => st_infra e /\ st_idle w' s)).

(** Instants the clock yields. *)
Definition clock_time (t : Time) : Prop := is_utc t /\ 1000 <= instant t.

Class ClockLaws (W : Type) `{Storage W, Clock W} : Prop := {
  now_aside : aside (W := W) now clock_time
}.

(** What more is known of the instants it is read to be. *)
Class ClockReads (W : Type) `{Storage W, Clock W} (reads : Time -> Prop) : Prop := {
  now_reads : aside (W := W) now reads
}.

Class IDLaws (W : Type) `{Storage W, IDGenerator W} : Prop := {
  NewWalletID_aside : forall ctx, aside (W := W) (NewWalletID ctx) id_ok;
  NewTransactionID_aside : forall ctx, aside (W := W) (NewTransactionID ctx) id_ok;
  NewLedgerEntryID_aside : forall ctx, aside (W := W) (NewLedgerEntryID ctx) id_ok;
  NewEventID_aside : forall ctx, aside (W := W) (NewEventID ctx) (fun s => s <> "")
}.

Class RandLaws (W : Type) `{Storage W, Rand W} : Prop := {
  Int64N_aside : forall n, 0 < n -> aside (W := W) (rand_Int64N n) (fun r => 0 <= r < n)
}.

Class CancellationLaws (W : Type) `{Storage W, Cancellation W} : Prop := {
  ctx_Err_aside : forall ctx, aside (W := W) (ctx_Err ctx) (fun _ => True)
}.

(** A lookup: the object, the bare not-found sentinel with the transaction
    still usable, or a failure of the infrastructure. *)
Definition finds {W} `{Storage W} {A} (m : M W A) (Found : Store -> A -> Prop) : Prop :=
  forall w s0 s, st_tx w s0 s ->
    wp m w (fun a w' => Found s a /\ st_tx w' s0 s)
      (fun e w' =>
         (e = SentinelError ErrNotFound /\ (forall a, ~ Found s a) /\ st_tx w' s0 s) \/
         (st_infra e /\ st_dead w' s0)).

(** A write: the new store, a refusal the store explains, or a failure of the
    infrastructure. *)
Definition writes {W} `{Storage W} (m : M W unit) (Done : Store -> Store -> Prop)
    (Refused : Store -> error -> Prop) : Prop :=
  forall w s0 s, st_tx w s0 s ->
    wp m w (fun _ w' => exists s', Done s s' /\ st_tx w' s0 s')
      (fun e w' => (Refused s e \/ st_infra e) /\ st_dead w' s0).

Definition wallet_with_id (id : WalletID) (s : Store) (w : Wallet) : Prop :=
  s_wallets s !! id_value id = Some w.

Definition is_conflict (e : error) (P : string -> Prop) : Prop :=
  exists name, e = NewConflict name /\ P name.

(** A refused foreign key or check. *)
Definition is_violation (e : error) : Prop := exists name, e = NewInvariantViolation name.

Definition due_reference `{Precision} (now : Time) (s : Store) (t : WagerTransaction) : Prop :=
  s_txs s !! id_value (t_id t) = Some t /\ t_status t = StatusPendingReference /\
  instant (t_referenceNextAttemptAt t) <= instant (stored_time now).

(** What the inbox keeps of a message. *)
Definition stored_message `{Precision} (m : InboxMessage) : InboxMessage :=
  mkInboxMessage (im_ConsumerName m) (im_MessageID m) (im_PayloadHash m)
    (stored_time (im_ReceivedAt m)) zeroTime.

Definition completed_message `{Precision} (at_ : Time) (m : InboxMessage) : InboxMessage :=
  mkInboxMessage (im_ConsumerName m) (im_MessageID m) (im_PayloadHash m) (im_ReceivedAt m)
    (stored_time at_).

(** An unpublished record of the outbox, changed. *)
Definition update_record (id : string) (f : OutboxRecord -> OutboxRecord)
    (o : list (Z * OutboxRecord)) : list (Z * OutboxRecord) :=
  (fun qr => if bool_decide (or_EventID qr.2 = id) && negb (Outbox_Published qr.2)
             then (qr.1, f qr.2) else qr) <$> o.

Definition published_record `{Precision} (at_ : Time) (r : OutboxRecord) : OutboxRecord :=
  mkOutboxRecord (or_EventID r) (or_Event r) (or_CorrelationID r) (or_CausationID r) (or_Attempts r)
    (or_NextAttemptAt r) (stored_time at_) "".

Definition rescheduled_record `{Precision} (next : Time) (cause : string) (r : OutboxRecord) : OutboxRecord :=
  mkOutboxRecord (or_EventID r) (or_Event r) (or_CorrelationID r) (or_CausationID r) (or_Attempts r + 1)
    (stored_time next) (or_PublishedAt r) cause.

(** An unpublished record whose next attempt has come. *)
Definition due_event `{Precision} (at_ : Time) (s : Store) (qr : Z * OutboxRecord) : Prop :=
  qr ∈ s_outbox s /\ Outbox_Published qr.2 = false /\
  instant (or_NextAttemptAt qr.2) <= instant (stored_time at_) /\ 0 <= or_Attempts qr.2 <= int32_max.

Class RepositoriesLaws (W : Type) `{Precision, Storage W} (repos : Repositories W) : Prop := {
  FindByIDForUpdate_law : forall id, id_ok id ->
    finds (w_FindByIDForUpdate (r_Wallets repos) id) (wallet_with_id id);
  Wallets_FindByID_law : forall id, id_ok id ->
    finds (wr_FindByID (w_reader (r_Wallets repos)) id) (wallet_with_id id);
  Wallets_Insert_law : forall wallet, wallet_storable wallet ->
    writes (w_Insert (r_Wallets repos) wallet)
      (fun s s' => s_wallets s !! id_value (w_id wallet) = None /\
         (forall k w, s_wallets s !! k = Some w ->
            w_playerID w = w_playerID wallet -> w_currency w <> w_currency wallet) /\
         s' = put_wallet (stored_wallet wallet) s)
      (fun s e => is_conflict e (fun name =>
         (name = "wallets_pkey" /\ is_Some (s_wallets s !! id_value (w_id wallet))) \/
         (name = "wallets_one_per_player_and_currency" /\ exists k w, s_wallets s !! k = Some w /\
            w_playerID w = w_playerID wallet /\ w_currency w = w_currency wallet)));
  UpdateBalance_law : forall wallet expected,
    wallet_storable (with_version 1 wallet) -> is_i64 (w_version wallet) ->
    writes (w_UpdateBalance (r_Wallets repos) wallet expected)
      (fun s s' => exists old, s_wallets s !! id_value (w_id wallet) = Some old /\
         w_version old = expected /\ 1 <= w_version wallet /\
         s' = put_wallet (mkWallet (w_id old) (w_playerID old) (w_currency old)
                (mkMoney (minor (w_balance wallet)) (w_currency old)) (w_version wallet)
                (w_createdAt old) (norm (w_updatedAt wallet))) s)
      (fun s e =>
         (e = SentinelError ErrNotFound /\ s_wallets s !! id_value (w_id wallet) = None) \/
         (e = Wrapped (SentinelError ErrVersionMismatch) /\
            exists old, s_wallets s !! id_value (w_id wallet) = Some old /\ w_version old <> expected) \/
         (is_violation e /\ w_version wallet < 1));
  Append_law : forall entry, entry_storable entry ->
    writes (l_Append (r_Ledger repos) entry)
      (fun s s' => (forall q e, (q, e) ∈ s_ledger s ->
           le_transactionID e = le_transactionID entry -> le_walletID e <> le_walletID entry) /\
         exists q, s' = add_entry q (stored_entry entry) s)
      (fun s e => is_conflict e (fun name => name = "wallet_ledger_entries_pkey" \/
           (name = "ledger_one_per_transaction_and_wallet" /\ exists q e', (q, e') ∈ s_ledger s /\
              le_walletID e' = le_walletID entry /\ le_transactionID e' = le_transactionID entry)) \/
         (is_violation e /\ (s_wallets s !! id_value (le_walletID entry) = None \/
                             s_txs s !! id_value (le_transactionID entry) = None)));
  FindByID_law : forall id, id_ok id ->
    finds (tr_FindByID (t_reader (r_Transactions repos)) id)
      (fun s t => s_txs s !! id_value id = Some t);
  FindByBusinessID_law : forall provider external, id_ok provider -> id_ok external ->
    finds (tr_FindByBusinessID (t_reader (r_Transactions repos)) provider external)
      (fun s t => s_txs s !! id_value (t_id t) = Some t /\
         t_providerID t = provider /\ t_externalID t = external);
  FindProcessedReversalOf_law : forall reference, id_ok reference ->
    finds (tr_FindProcessedReversalOf (t_reader (r_Transactions repos)) reference)
      (fun s t => s_txs s !! id_value (t_id t) = Some t /\
         t_resolvedReferenceID t = reference /\ t_status t = StatusProcessed);
  Transactions_Insert_law : forall t, tx_storable t ->
    writes (t_Insert (r_Transactions repos) t)
      (fun s s' => (forall name, ~ tx_conflict s t name) /\
         is_Some (s_wallets s !! id_value (t_walletID t)) /\
         s' = put_tx (stored_tx t) s)
      (fun s e => is_conflict e (tx_conflict s t) \/
         (is_violation e /\ (s_wallets s !! id_value (t_walletID t) = None \/
            (t_resolvedReferenceID t <> zeroId /\
             s_txs s !! id_value (t_resolvedReferenceID t) = None))));
  Transactions_Update_law : forall t old, tx_storable t -> tc tx_step old t ->
    stored_tx old = old ->
    forall w s0 s, st_tx w s0 s -> s_txs s !! id_value (t_id t) = Some old ->
    wp (t_Update (r_Transactions repos) t) w
      (fun _ w' => (forall name, name <> "wager_transactions_pkey" -> ~ tx_conflict s t name) /\
         st_tx w' s0 (put_tx (stored_tx t) s))
      (fun e w' => (is_conflict e (fun name => name <> "wager_transactions_pkey" /\ tx_conflict s t name) \/
         (is_violation e /\ t_resolvedReferenceID t <> zeroId /\
          s_txs s !! id_value (t_resolvedReferenceID t) = None) \/ st_infra e) /\ st_dead w' s0);
  ClaimDueReferences_law : forall at_ limit, 0 < limit ->
    forall w s0 s, st_tx w s0 s ->
    wp (t_ClaimDueReferences (r_Transactions repos) at_ limit) w
      (fun l w' => Forall (due_reference at_ s) l /\ Z.of_nat (length l) <= limit /\
         (st_unlocked -> forall t, due_reference at_ s t -> t ∈ l \/ Z.of_nat (length l) = limit) /\
         st_tx w' s0 s)
      (fun e w' => st_infra e /\ st_dead w' s0);
  Outbox_Append_law : forall r, 0 <= or_Attempts r <= int32_max -> 1 <= ev_Version (or_Event r) <= int32_max ->
    set_late (or_PublishedAt r) ->
    writes (ob_Append (r_Outbox repos) r)
      (fun s s' => (forall q r', (q, r') ∈ s_outbox s -> or_EventID r' <> or_EventID r) /\
         exists q, s' = set_outbox (s_outbox s ++ [(q, stored_record r)]) s)
      (fun s e => is_conflict e (fun name => name = "outbox_events_pkey" /\ exists q r', (q, r') ∈ s_outbox s /\ or_EventID r' = or_EventID r));
  Inbox_Claim_law : forall m, id_ok (im_PayloadHash m) ->
    forall w s0 s, st_tx w s0 s ->
    wp (in_Claim (r_Inbox repos) m) w
      (fun _ w' => s_inbox s !! (im_ConsumerName m, im_MessageID m) = None /\
         st_tx w' s0 (put_inbox (stored_message m) s))
      (fun e w' =>
         (is_Some (s_inbox s !! (im_ConsumerName m, im_MessageID m)) /\
          (exists name, e = NewConflict name) /\ st_tx w' s0 s) \/
         (st_infra e /\ st_dead w' s0));
  Inbox_Complete_law : forall consumer message at_, clock_time at_ ->
    forall w s0 s, st_tx w s0 s ->
    wp (in_Complete (r_Inbox repos) consumer message at_) w
      (fun _ w' => exists m, s_inbox s !! (consumer, message) = Some m /\
         st_tx w' s0 (put_inbox (completed_message at_ m) s))
      (fun e w' =>
         (e = SentinelError ErrNotFound /\ s_inbox s !! (consumer, message) = None /\ st_tx w' s0 s) \/
         (st_infra e /\ st_dead w' s0));
  Inbox_Find_law : forall consumer message,
    finds (in_Find (r_Inbox repos) consumer message)
      (fun s m => s_inbox s !! (consumer, message) = Some m);
  Outbox_ClaimDue_law : forall at_ limit, 0 < limit ->
    forall w s0 s, st_tx w s0 s ->
    wp (ob_ClaimDue (r_Outbox repos) at_ limit) w
      (fun l w' => (exists qrs, l = qrs.*2 /\ Forall (due_event at_ s) qrs /\
           StronglySorted Z.lt qrs.*1 /\ NoDup (or_EventID <$> l) /\ Z.of_nat (length l) <= limit /\
           (st_unlocked -> forall qr, due_event at_ s qr -> qr ∈ qrs \/ Z.of_nat (length l) = limit)) /\
         st_tx w' s0 s)
      (fun e w' => st_infra e /\ st_dead w' s0);
  Outbox_MarkPublished_law : forall id at_, clock_time at_ ->
    forall w s0 s, st_tx w s0 s ->
    wp (ob_MarkPublished (r_Outbox repos) id at_) w
      (fun _ w' => (exists q r, (q, r) ∈ s_outbox s /\ or_EventID r = id /\ Outbox_Published r = false) /\
         st_tx w' s0 (set_outbox (update_record id (published_record at_) (s_outbox s)) s))
      (fun e w' =>
         (e = SentinelError ErrNotFound /\ st_tx w' s0 s /\
          forall q r, (q, r) ∈ s_outbox s -> or_EventID r = id -> Outbox_Published r = true) \/
         (st_infra e /\ st_dead w' s0));
  Outbox_Reschedule_law : forall id next cause,
    writes (ob_Reschedule (r_Outbox repos) id next cause)
      (fun s s' => s' = set_outbox (update_record id (rescheduled_record next cause) (s_outbox s)) s)
      (fun s e => (exists what, e = Opaque what) /\
         exists q r, (q, r) ∈ s_outbox s /\ or_EventID r = id /\ or_Attempts r = int32_max)
}.

(** ** The unit of work *)

(** The errors after which a callback may be run again. *)
Definition retriable (e : error) : bool := is_sentinel e ErrSerializationFailure || is_sentinel e ErrVersionMismatch.

(** What one run of a callback, begun on store [s0] with captured variables
    [c], must ensure: [Q] of the store it leaves and the variables on success,
    [E] of the error or a failure of the infrastructure otherwise; [J] holds of
    the captured variables whenever it may be run again, because of its error or
    because its commit failed. *)
Definition attempt_ok {W C} `{Storage W} (body : Callback W C)
    (J : C -> Prop) (Q : Store -> Store -> C -> Prop) (E : Store -> error -> Prop) (s0 : Store) : Prop :=
  forall c w, J c -> st_tx w s0 s0 ->
    match body c w with
    | (Ok _, c', w') => ((exists e, st_infra e) -> J c') /\ exists s', st_tx w' s0 s' /\ Q s0 s' c'
    | (Err e, c', w') => st_dead w' s0 /\ (E s0 e \/ st_infra e) /\ (retriable e = true -> J c')
    end.

Definition inside (ctx : Context) : Context :=
  mkContext (cx_identity ctx) (cx_correlationID ctx) true.

(** [Do] applies the callback's effect exactly once or not at all; only when
    the reply to the commit itself was lost can it report an error for an
    effect that took place. *)
Class UnitOfWorkLaws (W : Type) `{Precision, Storage W} (uow : UnitOfWork W)
    (repos : Repositories W) : Prop := {
  Do_law : forall C (ctx : Context) (f : Context -> Repositories W -> Callback W C)
      (Pre : Store -> Prop) (J : C -> Prop) (Q : Store -> Store -> C -> Prop) (E : Store -> error -> Prop) c w s,
    cx_insideUnitOfWork ctx = false -> st_idle w s -> Pre s -> J c ->
    (forall s s', Pre s -> st_others s s' -> Pre s') ->
    (forall s0, Pre s0 -> attempt_ok (f (inside ctx) repos) J Q E s0) ->
    match uow_Do uow ctx f c w with
    | (Ok _, c', w') => exists s0 s1, st_others s s0 /\ Q s0 s1 c' /\ st_idle w' s1
    | (Err e, c', w') =>
      (exists s1, st_others s s1 /\ st_idle w' s1 /\ (E s1 e \/ st_infra e) /\ (retriable e = true -> J c')) \/
      (exists s0 s1, st_others s s0 /\ Q s0 s1 c' /\ st_idle w' s1 /\ st_infra e)
    end;
  Do_nested : forall C ctx (f : Context -> Repositories W -> Callback W C) c w,
    cx_insideUnitOfWork ctx = true ->
    uow_Do uow ctx f c w = (Err (SentinelError ErrNestedUnitOfWork), c, w)
}.

(** Reads outside any transaction see what is committed at that moment. *)
Definition reads {W} `{Storage W} {A} (m : M W A) (Found : Store -> A -> Prop) : Prop :=
  forall w s, st_idle w s ->
    wp m w (fun a w' => exists s', st_others s s' /\ Found s' a /\ st_idle w' s')
      (fun e w' => exists s', st_others s s' /\ st_idle w' s' /\
         ((e = SentinelError ErrNotFound /\ forall a, ~ Found s' a) \/ st_infra e)).

(** The page of a wallet's entries after a cursor. *)
Definition entries_after (id : WalletID) (cursor : LedgerCursor) (s : Store) : list (Z * LedgerEntry) :=
  filter (fun qe => le_walletID qe.2 = id /\ cursor_after cursor < qe.1) (s_ledger s).

Definition ledger_page (id : WalletID) (cursor : LedgerCursor) (limit : Z) (s : Store) : LedgerPage :=
  let rest := entries_after id cursor s in
  let page := take (Z.to_nat limit) rest in
  mkLedgerPage page.*2 (NewLedgerCursor (default (cursor_after cursor) (last page.*1)))
    (bool_decide (limit < Z.of_nat (length rest))).

Class QueriesLaws (W : Type) `{Storage W} (queries : Queries W) : Prop := {
  Q_ordered : forall w s, st_idle w s -> StronglySorted Z.lt (s_ledger s).*1;
  Q_FindByBusinessID_law : forall provider external, id_ok provider -> id_ok external ->
    reads (tr_FindByBusinessID (q_Transactions queries) provider external)
      (fun s t => s_txs s !! id_value (t_id t) = Some t /\
         t_providerID t = provider /\ t_externalID t = external);
  Q_FindByID_law : forall id, id_ok id ->
    reads (tr_FindByID (q_Transactions queries) id) (fun s t => s_txs s !! id_value id = Some t);
  Q_Wallet_law : forall id, id_ok id ->
    reads (wr_FindByID (q_Wallets queries) id) (wallet_with_id id);
  Q_ListByWallet_law : forall id cursor limit, 0 < limit < MaxInt64 ->
    forall w s, st_idle w s ->
    wp (lr_ListByWallet (q_Ledger queries) id cursor limit) w
      (fun page w' => exists s', st_others s s' /\ page = ledger_page id cursor limit s' /\ st_idle w' s')
      (fun e w' => exists s', st_others s s' /\ st_idle w' s' /\ st_infra e)
}.

(** Reads of one unchanging view, which are rolled back. *)
Class SnapshotLaws (W : Type) `{Storage W, Precision} (snapshot : Snapshot W) (queries : Queries W) : Prop := {
  Snap_storable : forall w s0 s k wallet, st_tx w s0 s -> s_wallets s !! k = Some wallet ->
    k = id_value (w_id wallet) /\ wallet_storable wallet;
  Snap_Do_law : forall A ctx (f : Context -> Queries W -> M W A) (Q : Store -> A -> Prop)
      (E : Store -> error -> Prop) w s,
    st_idle w s ->
    (forall s0 w0, st_others s s0 -> st_tx w0 s0 s0 ->
       wp (f ctx queries) w0 (fun a w' => Q s0 a /\ st_dead w' s0)
         (fun e w' => (E s0 e \/ st_infra e) /\ st_dead w' s0)) ->
    wp (snap_Do snapshot ctx f) w
      (fun a w' => exists s0, st_others s s0 /\ Q s0 a /\ st_idle w' s0)
      (fun e w' => exists s0, st_others s s0 /\ (E s0 e \/ st_infra e) /\ st_idle w' s0);
  Snap_Wallet_law : forall id, id_ok id -> finds (wr_FindByID (q_Wallets queries) id) (wallet_with_id id);
  Snap_Sum_law : forall id cur, currency_ok cur -> forall w s0 s, st_tx w s0 s ->
    wp (lr_SumByWallet (q_Ledger queries) id cur) w
      (fun mn w' => mn = (mkMoney (entries_sum (entries_of id s)) cur,
                          Z.of_nat (length (entries_of id s))) /\
         is_i64 (entries_sum (entries_of id s)) /\ st_tx w' s0 s)
      (fun e w' => (~ is_i64 (entries_sum (entries_of id s)) \/ st_infra e) /\ st_dead w' s0)
}.
