(* ===== verification/StoreInv.v ===== *)
(** * StoreInv: the invariant of the store is kept by every kind of commit

    Three shapes cover everything the program commits: a wallet is opened, an
    operation is recorded (or advanced) without moving money, and an operation
    is recorded (or advanced) together with the movement it causes. *)

From S2P Require Import Prelude Errors GoTime Money Identifier Ledger Wallet Transaction Event.
From S2P Require Import Identity Ports Store.

#[local] Open Scope string_scope.
#[local] Open Scope list_scope.
#[local] Open Scope Z_scope.

(** ** Definitions *)

(** [t] is [old] with mutable fields replaced: the same request. *)
Definition same_request (old t : WagerTransaction) : Prop :=
  exists st r c a n d b u, t = tx_with old st r c a n d b u.

(** The row an operation is written over: none, or its own unfinished one. *)
Definition writable (s : Store) (t : WagerTransaction) : Prop :=
  match s_txs s !! id_value (t_id t) with
  | None => True
  | Some old => Tx_IsTerminal old = false /\ same_request old t /\
      t_referenceAttempts old <= t_referenceAttempts t
  end.

Section invariant.
Context `{Precision}.

(** What every recorded operation satisfies before it is written. *)
Record recordable (s : Store) (t : WagerTransaction) : Prop := {
  rc_storable : tx_storable t;
  rc_stored : stored_tx t = t;
  rc_writable : writable s t;
  rc_unique : forall name, name <> "wager_transactions_pkey" -> ~ tx_conflict s t name;
  rc_resolved : t_resolvedReferenceID t <> zeroId -> t_status t = StatusProcessed;
  rc_wallet : exists w, s_wallets s !! id_value (t_walletID t) = Some w /\
    w_playerID w = t_playerID t
}.

(** ** Lemmas *)

Lemma stored_tx_id t : t_id (stored_tx t) = t_id t.
Proof. done. Qed.

Lemma Tx_IsTerminal_processed t : t_status t = StatusProcessed -> Tx_IsTerminal t = true.
Proof. unfold Tx_IsTerminal. by intros ->. Qed.

Lemma same_request_frame old t :
  same_request old t ->
  t_id t = t_id old /\ t_kind t = t_kind old /\ t_origin t = t_origin old /\
  t_walletID t = t_walletID old /\ t_playerID t = t_playerID old /\ t_money t = t_money old /\
  t_providerID t = t_providerID old /\ t_externalID t = t_externalID old /\
  t_payloadHash t = t_payloadHash old /\ t_idempotencyKey t = t_idempotencyKey old /\
  t_roundID t = t_roundID old /\ t_createdAt t = t_createdAt old.
Proof. intros (?&?&?&?&?&?&?&?&->). done. Qed.

(** A terminal operation of the store is not the one being written. *)
Lemma writable_terminal s t k t' :
  store_ok s -> writable s t -> s_txs s !! k = Some t' -> Tx_IsTerminal t' = true ->
  s_txs (put_tx t s) !! k = Some t' /\ t_id t' <> t_id t.
Proof.
  intros Hs Hw Hk Ht. destruct (so_tx s Hs k t' Hk) as (Hid & _).
  assert (t_id t' <> t_id t) as Hne.
  { intros E. unfold writable in Hw. rewrite <- E, <- Hid, Hk in Hw. destruct Hw; congruence. }
  split; [|done]. cbn. rewrite lookup_insert_ne; [done|]. rewrite Hid.
  intros E. apply Hne. destruct (t_id t'), (t_id t); cbn in E. by subst.
Qed.

Lemma put_tx_lookup s t k t' :
  s_txs (put_tx t s) !! k = Some t' ->
  (k = id_value (t_id t) /\ t' = t) \/ (k <> id_value (t_id t) /\ s_txs s !! k = Some t').
Proof. cbn. rewrite lookup_insert. case_decide; naive_solver. Qed.

(** A conflict between two rows is a conflict for either of them. *)
Lemma tx_conflict_put s t t' k name :
  store_ok s -> recordable s t -> s_txs s !! k = Some t' -> t_id t' <> t_id t ->
  name <> "wager_transactions_pkey" -> ~ tx_conflict (put_tx t s) t' name.
Proof.
  intros Hs Hr Hk Hne Hn Hc.
  pose proof (so_unique s Hs k t' name Hk Hn) as H1. pose proof (rc_unique s t Hr name Hn) as H2.
  destruct Hc as [[? _]|Hc]; [done|].
  assert (Hother : forall P : WagerTransaction -> Prop,
    (exists k0 t0, s_txs (put_tx t s) !! k0 = Some t0 /\ t_id t0 <> t_id t' /\ P t0) ->
    P t \/ exists k0 t0, s_txs s !! k0 = Some t0 /\ t_id t0 <> t_id t' /\ P t0).
  { intros P (k0 & t0 & [(_ & ->)|[_ Hl]]%put_tx_lookup & ? & ?); [by left|right; eauto 6]. }
  unfold tx_conflict in *.
  destruct Hc as [(-> & Ho & Hc)|[(-> & Ho & Hc)|[(-> & Ho & Hc)|(-> & Ho & Hz & Hc)]]];
    apply Hother in Hc as [Hc|Hc].
  - apply H2. right; left. destruct_and!. split_and!; [done..|]. exists k, t'. by split_and!.
  - apply H1. right; left. by split_and!.
  - apply H2. do 2 right; left. destruct_and!. split_and!; [done..|]. exists k, t'. by split_and!.
  - apply H1. do 2 right; left. by split_and!.
  - apply H2. do 3 right; left. destruct_and!. split_and!; [done..|]. exists k, t'. by split_and!.
  - apply H1. do 3 right; left. by split_and!.
  - apply H2. do 4 right. destruct_and!. split_and!; [done..|congruence|]. exists k, t'. by split_and!.
  - apply H1. do 4 right. by split_and!.
Qed.

Lemma tx_conflict_self s t name :
  recordable s t -> name <> "wager_transactions_pkey" -> ~ tx_conflict (put_tx t s) t name.
Proof.
  intros Hr Hn Hc. pose proof (rc_unique s t Hr name Hn) as H2. apply H2.
  destruct Hc as [[? _]|Hc]; [done|].
  assert (Hother : forall P : WagerTransaction -> Prop,
    (exists k0 t0, s_txs (put_tx t s) !! k0 = Some t0 /\ t_id t0 <> t_id t /\ P t0) ->
    exists k0 t0, s_txs s !! k0 = Some t0 /\ t_id t0 <> t_id t /\ P t0).
  { intros P (k0 & t0 & [(_ & ->)|[_ Hl]]%put_tx_lookup & ? & ?); [done|eauto 6]. }
  unfold tx_conflict. right.
  destruct Hc as [(-> & Ho & Hc%Hother)|[(-> & Ho & Hc%Hother)|[(-> & Ho & Hc%Hother)|(-> & Ho & Hz & Hc%Hother)]]].
  - by left.
  - by right; left.
  - by right; right; left.
  - by do 3 right.
Qed.

(** Reversals and movements already in the store refer to terminal rows. *)
Lemma reversal_sound_put s t t' :
  store_ok s -> writable s t -> reversal_sound s t' -> reversal_sound (put_tx t s) t'.
Proof.
  intros Hs Hw (r & Hr & Hst & Hrest). exists r. split; [|exact (conj Hst Hrest)].
  by apply (writable_terminal s t _ r Hs Hw Hr), Tx_IsTerminal_processed.
Qed.

Lemma entry_of_tx_put s t t' e k :
  store_ok s -> writable s t -> s_txs s !! k = Some t' -> entry_of_tx s t' e ->
  entry_of_tx (put_tx t s) t' e.
Proof.
  intros Hs Hw Hk [Hst Hm Hid Hwal Ham Hbal Hd]. constructor; try done.
  unfold moved_as in *. destruct (Kind_IsReversal (t_kind t')) eqn:Hrev; [|done].
  destruct (so_reversal s Hs k t' Hk Hst Hrev) as (r & Hr & Hrs & _).
  destruct Hd as (r' & Hr' & Hd). rewrite Hr in Hr'. injection Hr' as <-.
  exists r. split; [|done].
  by apply (writable_terminal s t _ r Hs Hw Hr), Tx_IsTerminal_processed.
Qed.

Lemma entry_of_tx_txs s s' t e : s_txs s = s_txs s' -> entry_of_tx s t e -> entry_of_tx s' t e.
Proof.
  intros E [? ? ? ? ? ? Hd]. constructor; try done. unfold moved_as in *. by rewrite <- E.
Qed.

(** ** Recording an operation that moves nothing *)

Lemma put_unmoved_ok s t :
  store_ok s -> recordable s t ->
  (t_status t = StatusProcessed -> Kind_MovesMoney (t_kind t) = false) ->
  store_ok (put_tx t s).
Proof.
  intros Hs Hr Hmv. pose proof (rc_writable s t Hr) as Hw. constructor.
  - apply (so_wallet s Hs).
  - intros k t' [(-> & ->)|[Hkne Hk]]%put_tx_lookup; [|by apply (so_tx s Hs)].
    split_and!; [done|apply Hr|apply Hr|apply Hr].
  - intros q e He. destruct (so_entry s Hs q e He) as (He1 & He2 & (t' & Ht' & Het) & Hwal).
    split_and!; [done|done| |done]. exists t'. split.
    + apply (writable_terminal s t _ t' Hs Hw Ht'), Tx_IsTerminal_processed, Het.
    + by eapply entry_of_tx_put.
  - intros k t' [(-> & ->)|[Hkne Hk]]%put_tx_lookup Hst Hm; [by rewrite Hmv in Hm|].
    by apply (so_moved s Hs k).
  - apply (so_once s Hs).
  - intros k t' name Hk Hn. apply put_tx_lookup in Hk as [(-> & ->)|[Hkne Hk]].
    { by apply tx_conflict_self. }
    eapply tx_conflict_put; [done|done|done| |done]. intros E.
    destruct (so_tx s Hs k t' Hk) as (Hkid & _). congruence.
  - apply (so_player s Hs).
  - intros k t' [(-> & ->)|[Hkne Hk]]%put_tx_lookup Hst Hrev.
    + exfalso. apply Hmv in Hst. unfold Kind_MovesMoney in Hst.
      apply negb_false_iff, bool_decide_eq_true in Hst. rewrite Hst in Hrev. done.
    + apply reversal_sound_put; [done..|]. by apply (so_reversal s Hs k).
  - intros k t' [(-> & ->)|[Hkne Hk]]%put_tx_lookup; [apply Hr|by apply (so_resolved s Hs k)].
Qed.

(** ** Recording an operation with the movement it causes *)

(** The wallet after a movement that appended [e]. *)
Definition moved_wallet (w w' : Wallet) (e : LedgerEntry) : Prop :=
  w_id w' = w_id w /\ w_playerID w' = w_playerID w /\ w_currency w' = w_currency w /\
  w_createdAt w' = w_createdAt w /\ w_balance w' = le_balanceAfter e /\
  w_version w <= w_version w' /\ w_balance w = le_balanceBefore e /\ le_walletID e = w_id w /\
  currency (le_amount e) = w_currency w.

Record movable (s : Store) (t : WagerTransaction) (w w' : Wallet) (e : LedgerEntry) : Prop := {
  mb_wallet : s_wallets s !! id_value (w_id w) = Some w;
  mb_moved : moved_wallet w w' e;
  mb_storable : wallet_storable w' /\ stored_wallet w' = w';
  mb_entry : entry_storable e /\ stored_entry e = e;
  mb_tx : t_status t = StatusProcessed /\ Kind_MovesMoney (t_kind t) = true /\
    le_transactionID e = t_id t /\ t_walletID t = w_id w /\ le_amount e = t_money t /\
    le_balanceAfter e = t_balanceAfter t;
  mb_direction : moved_as s t (le_direction e);
  mb_reversal : Kind_IsReversal (t_kind t) = true -> reversal_sound s t
}.

Definition record_moved (t : WagerTransaction) (w' : Wallet) (q : Z) (e : LedgerEntry)
    (s : Store) : Store := add_entry q e (put_wallet w' (put_tx t s)).

Lemma entries_of_add id q e s :
  entries_of id (add_entry q e s) =
    entries_of id s ++ (if decide (le_walletID e = id) then [e] else []).
Proof.
  unfold entries_of. cbn. rewrite fmap_app, filter_app. cbn. f_equal.
Qed.

(** No entry names an operation that is not finished yet. *)
Lemma fresh_entry s t q e :
  store_ok s -> writable s t -> (q, e) ∈ s_ledger s -> le_transactionID e <> t_id t.
Proof.
  intros Hs Hw He Hid. destruct (so_entry s Hs q e He) as (_ & _ & (t' & Ht' & Het) & _).
  destruct (writable_terminal s t _ t' Hs Hw Ht') as [_ Hne];
    [apply Tx_IsTerminal_processed, Het|]. apply Hne. rewrite <- Hid. by destruct Het.
Qed.

Lemma record_moved_wallets s w w' e t k w0 q :
  movable s t w w' e -> s_wallets (record_moved t w' q e s) !! k = Some w0 ->
  (k = id_value (w_id w) /\ w0 = w') \/ (k <> id_value (w_id w) /\ s_wallets s !! k = Some w0).
Proof.
  intros Hm. destruct (mb_moved _ _ _ _ _ Hm) as (Hid & _). cbn.
  rewrite Hid, lookup_insert. case_decide; naive_solver.
Qed.

(** A wallet row that was there is there, with the same identity. *)
Lemma record_moved_wallet_kept s w w' e t k w0 q :
  movable s t w w' e -> s_wallets s !! k = Some w0 ->
  exists w1, s_wallets (record_moved t w' q e s) !! k = Some w1 /\ w_id w1 = w_id w0 /\
    w_playerID w1 = w_playerID w0 /\ w_currency w1 = w_currency w0 /\ w_version w0 <= w_version w1.
Proof.
  intros Hm Hk. pose proof (mb_wallet _ _ _ _ _ Hm) as Hw.
  destruct (mb_moved _ _ _ _ _ Hm) as (Hid & Hpl & Hcur & _ & _ & Hver & _). cbn.
  rewrite Hid, lookup_insert. case_decide as E; [|exists w0; split_and!; done || lia].
  subst k. rewrite Hw in Hk. injection Hk as <-. exists w'. by split_and!.
Qed.

Lemma moved_new_tx_ok s t w w' q e :
  store_ok s -> recordable s t -> movable s t w w' e ->
  forall k t', s_txs (put_tx t s) !! k = Some t' ->
  k = id_value (t_id t') /\ tx_storable t' /\ stored_tx t' = t' /\
  exists w1, s_wallets (record_moved t w' q e s) !! id_value (t_walletID t') = Some w1 /\
    w_playerID w1 = t_playerID t'.
Proof.
  intros Hs Hr Hm k t' Hk.
  assert (Hwal : exists w0, s_wallets s !! id_value (t_walletID t') = Some w0 /\
    w_playerID w0 = t_playerID t').
  { apply put_tx_lookup in Hk as [(-> & ->)|[_ Hk]]; [apply Hr|apply (so_tx s Hs k t' Hk)]. }
  destruct Hwal as (w0 & Hw0 & Hp).
  destruct (record_moved_wallet_kept s w w' e t _ w0 q Hm Hw0) as (w1 & Hw1 & _ & Hp1 & _).
  assert (Hbase : k = id_value (t_id t') /\ tx_storable t' /\ stored_tx t' = t').
  { apply put_tx_lookup in Hk as [(-> & ->)|[_ Hk]]; [split_and!; [done|apply Hr..]|].
    destruct (so_tx s Hs k t' Hk) as (? & ? & ? & _). done. }
  destruct Hbase as (? & ? & ?). split_and!; [done..|]. exists w1. split; [done|congruence].
Qed.

Lemma record_moved_ok s t w w' q e :
  store_ok s -> recordable s t -> movable s t w w' e -> store_ok (record_moved t w' q e s).
Proof.
  intros Hs Hr Hm. pose proof (rc_writable s t Hr) as Hw.
  pose proof (mb_wallet _ _ _ _ _ Hm) as Hwal. pose proof (mb_moved _ _ _ _ _ Hm) as Hmoved.
  destruct (mb_tx _ _ _ _ _ Hm) as (Hst & Hmv & Htid & Htw & Hamt & Hbal).
  destruct Hmoved as (Hid & Hpl & Hcur & Hca & Hb & Hver & Hbb & Hew & Hcu).
  constructor.
  - intros k w0 Hk. apply (record_moved_wallets s w w' e t k w0 q Hm) in Hk as [(-> & ->)|[Hkne Hk]].
    + destruct (so_wallet s Hs _ w Hwal) as (_ & _ & _ & Hch).
      split_and!; [by rewrite Hid|apply Hm|apply Hm|]. unfold record_moved.
      rewrite Hid, entries_of_add, decide_True by done.
      eapply chained_snoc; [exact Hch|by rewrite Hbb|by rewrite Hb].
    + destruct (so_wallet s Hs k w0 Hk) as (Hk0 & ? & ? & Hch). split_and!; [done..|].
      unfold record_moved. rewrite entries_of_add, decide_False; [by rewrite app_nil_r|].
      intros E. apply Hkne. rewrite Hk0, <- E. by rewrite Hew.
  - intros k t' Hk. eapply moved_new_tx_ok; eauto.
  - intros q0 e0 He0. cbn in He0. rewrite elem_of_app, list_elem_of_singleton in He0.
    destruct He0 as [He0|He0].
    + destruct (so_entry s Hs q0 e0 He0) as (He1 & He2 & (t' & Ht' & Het) & (w0 & Hw0 & Hc0)).
      split_and!; [done|done| |].
      * exists t'. split; [apply (writable_terminal s t _ t' Hs Hw Ht'), Tx_IsTerminal_processed, Het|].
        apply (entry_of_tx_txs (put_tx t s)); [done|]. by apply (entry_of_tx_put s t t' e0 _ Hs Hw Ht').
      * destruct (record_moved_wallet_kept s w w' e t _ w0 q Hm Hw0) as (w1 & Hw1 & _ & _ & Hc1 & _).
        exists w1. split; [done|congruence].
    + injection He0 as -> ->. split_and!; [apply Hm|apply Hm| |].
      * exists t. split; [cbn; by rewrite Htid, lookup_insert_eq|].
        constructor; [done|done|done|congruence|done|done|].
        pose proof (mb_direction _ _ _ _ _ Hm) as Hd. unfold moved_as in *.
        destruct (Kind_IsReversal (t_kind t)) eqn:Hrev; [|done].
        destruct (mb_reversal _ _ _ _ _ Hm Hrev) as (r & Hlr & Hrs & _).
        destruct Hd as (r' & Hr' & Hd). rewrite Hlr in Hr'. injection Hr' as <-.
        exists r. split; [|done]. by apply (writable_terminal s t _ r Hs Hw Hlr), Tx_IsTerminal_processed.
      * destruct (record_moved_wallet_kept s w w' e t _ w q Hm Hwal) as (w1 & Hw1 & _ & _ & Hc1 & _).
        exists w1. rewrite Hew. split; [done|congruence].
  - intros k t' Hk Hst' Hm'. cbn. setoid_rewrite elem_of_app.
    apply put_tx_lookup in Hk as [(-> & ->)|[_ Hk]].
    + exists q, e. split; [right; by apply list_elem_of_singleton|done].
    + destruct (so_moved s Hs k t' Hk Hst' Hm') as (q0 & e0 & ? & ?). exists q0, e0. auto.
  - cbn. rewrite !fmap_app. cbn. apply NoDup_app. split_and!; [apply (so_once s Hs)| |apply NoDup_singleton].
    intros x Hx Hx'. apply list_elem_of_singleton in Hx' as ->.
    apply list_elem_of_fmap in Hx as (e0 & E & He0). apply list_elem_of_fmap in He0 as ([q0 e1] & -> & He0).
    cbn in E. rewrite Htid in E. by apply (fresh_entry s t q0 e1 Hs Hw He0).
  - intros k t' name Hk Hn Hc.
    assert (Hc' : tx_conflict (put_tx t s) t' name) by exact Hc. revert Hc'.
    apply put_tx_lookup in Hk as [(-> & ->)|[Hkne Hk]]; [by apply tx_conflict_self|].
    eapply tx_conflict_put; [done|done|done| |done]. intros E.
    destruct (so_tx s Hs k t' Hk) as (Hkid & _). congruence.
  - intros k1 w1 k2 w2 H1 H2 Hp Hc.
    assert (Hold : forall k0 w0, s_wallets (record_moved t w' q e s) !! k0 = Some w0 ->
      exists w3, s_wallets s !! k0 = Some w3 /\ w_playerID w3 = w_playerID w0 /\ w_currency w3 = w_currency w0).
    { intros k0 w0 H0. apply (record_moved_wallets s w w' e t k0 w0 q Hm) in H0 as [(-> & ->)|[_ H0]];
        [exists w; by split_and!|eauto]. }
    apply Hold in H1 as (w3 & H1 & ? & ?). apply Hold in H2 as (w4 & H2 & ? & ?).
    apply (so_player s Hs k1 w3 k2 w4 H1 H2); congruence.
  - intros k t' Hk Hst' Hrev. apply put_tx_lookup in Hk as [(-> & ->)|[Hkne Hk]].
    + by apply (reversal_sound_put s t t Hs Hw), Hm.
    + by apply (reversal_sound_put s t t' Hs Hw), (so_reversal s Hs k).
  - intros k t' Hk. apply put_tx_lookup in Hk as [(-> & ->)|[Hkne Hk]]; [apply Hr|by apply (so_resolved s Hs k)].
Qed.

(** ** Opening a wallet *)

Lemma fresh_wallet_no_entries s id :
  store_ok s -> s_wallets s !! id_value id = None -> entries_of id s = [].
Proof.
  intros Hs Hn. destruct (entries_of id s) as [|e es] eqn:E; [done|exfalso].
  assert (He : e ∈ entries_of id s) by (rewrite E; left).
  apply list_elem_of_filter in He as [Hid He].
  apply list_elem_of_fmap in He as ([q e'] & -> & He). cbn in *.
  destruct (so_entry s Hs q e' He) as (_ & _ & _ & (w & Hw & _)). rewrite Hid in Hw. congruence.
Qed.

Lemma put_wallet_fresh_ok s w :
  store_ok s -> s_wallets s !! id_value (w_id w) = None ->
  (forall k w0, s_wallets s !! k = Some w0 -> w_playerID w0 = w_playerID w ->
     w_currency w0 <> w_currency w) ->
  wallet_storable w -> stored_wallet w = w -> minor (w_balance w) = 0 ->
  store_ok (put_wallet w s).
Proof.
  intros Hs Hfresh Hone Hw Hst Hz.
  assert (Hkeep : forall k w0, s_wallets s !! k = Some w0 -> s_wallets (put_wallet w s) !! k = Some w0).
  { intros k w0 Hk. cbn. rewrite lookup_insert_ne; [done|]. intros <-. congruence. }
  assert (Hinv : forall k w0, s_wallets (put_wallet w s) !! k = Some w0 ->
    (k = id_value (w_id w) /\ w0 = w) \/ (k <> id_value (w_id w) /\ s_wallets s !! k = Some w0)).
  { intros k w0. cbn. rewrite lookup_insert. case_decide; naive_solver. }
  constructor.
  - intros k w0 [(-> & ->)|[_ Hk]]%Hinv; [|by apply (so_wallet s Hs)].
    split_and!; [done..|]. change (entries_of (w_id w) (put_wallet w s)) with (entries_of (w_id w) s).
    by rewrite (fresh_wallet_no_entries s (w_id w) Hs Hfresh).
  - intros k t Hk. destruct (so_tx s Hs k t Hk) as (? & ? & ? & (w0 & Hw0 & ?)).
    split_and!; [done..|]. exists w0. split; [by apply Hkeep|done].
  - intros q e He. destruct (so_entry s Hs q e He) as (? & ? & (t & Ht & Het) & (w0 & Hw0 & ?)).
    split_and!; [done..| |].
    + exists t. split; [done|]. by apply (entry_of_tx_txs s).
    + exists w0. split; [by apply Hkeep|done].
  - apply (so_moved s Hs).
  - apply (so_once s Hs).
  - apply (so_unique s Hs).
  - intros k1 w1 k2 w2 [(-> & ->)|[_ H1]]%Hinv [(-> & ->)|[_ H2]]%Hinv Hp Hc; try done.
    + exfalso. by apply (Hone k2 w2 H2).
    + exfalso. by apply (Hone k1 w1 H1).
    + by apply (so_player s Hs k1 w1 k2 w2).
  - apply (so_reversal s Hs).
  - apply (so_resolved s Hs).
Qed.

(** The inbox and the outbox are not part of the invariant. *)
Lemma store_ok_frame s s' :
  s_wallets s' = s_wallets s -> s_txs s' = s_txs s -> s_ledger s' = s_ledger s ->
  store_ok s -> store_ok s'.
Proof.
  destruct s as [ws ts l i o], s' as [ws' ts' l' i' o']; cbn. intros -> -> -> Hs. constructor; cbn.
  - apply (so_wallet _ Hs).
  - apply (so_tx _ Hs).
  - intros q e He. destruct (so_entry _ Hs q e He) as (? & ? & (t & Ht & Het) & ?).
    split_and!; [done..| |done]. exists t. split; [done|]. by eapply entry_of_tx_txs; [|exact Het].
  - apply (so_moved _ Hs).
  - apply (so_once _ Hs).
  - apply (so_unique _ Hs).
  - apply (so_player _ Hs).
  - apply (so_reversal _ Hs).
  - apply (so_resolved _ Hs).
Qed.

Lemma emptyStore_ok : store_ok emptyStore.
Proof.
  constructor; cbn; intros *; rewrite ?lookup_empty; try done; try (by intros ?%elem_of_nil).
  constructor.
Qed.

(** ** Evolution *)

Lemma grows_refl s : grows s s.
Proof.
  constructor; [exists []; by rewrite app_nil_r|intros k x Hk; exists x..|]; [split_and!; done || lia..|].
  intros q r Hr. by exists r.
Qed.

Lemma grows_trans s1 s2 s3 : grows s1 s2 -> grows s2 s3 -> grows s1 s3.
Proof.
  intros [(es & H1) W1 T1 I1 O1] [(es' & H2) W2 T2 I2 O2]. constructor.
  - exists (es ++ es'). by rewrite H2, H1, app_assoc.
  - intros k w Hk. destruct (W1 k w Hk) as (w1 & Hk1 & ? & ? & ? & ?).
    destruct (W2 k w1 Hk1) as (w2 & Hk2 & ? & ? & ? & ?). exists w2. split_and!; congruence || lia.
  - intros k t Hk. destruct (T1 k t Hk) as (t1 & Hk1 & Ht1 & ? & ? & ? & ? & ? & ? & ? & ? & ?).
    destruct (T2 k t1 Hk1) as (t2 & Hk2 & Ht2 & ? & ? & ? & ? & ? & ? & ? & ? & ?).
    exists t2. split_and!; try congruence || lia || done.
    intros Ht. specialize (Ht1 Ht). subst t1. auto.
  - intros k m Hk. destruct (I1 k m Hk) as (m1 & Hk1 & ? & Hm1).
    destruct (I2 k m1 Hk1) as (m2 & Hk2 & ? & Hm2). exists m2. split_and!; [done|congruence|].
    intros Hh. specialize (Hm1 Hh). subst m1. auto.
  - intros q r Hr. destruct (O1 q r Hr) as (r1 & Hr1 & ? & ? & ? & Hp1).
    destruct (O2 q r1 Hr1) as (r2 & Hr2 & ? & ? & ? & Hp2). exists r2. split_and!; [done|congruence..|].
    intros Hp. specialize (Hp1 Hp). subst r1. auto.
Qed.

(** Events and messages alone. *)
Lemma grows_frame s s' :
  s_wallets s' = s_wallets s -> s_txs s' = s_txs s -> s_ledger s' = s_ledger s ->
  s_inbox s' = s_inbox s -> (exists recs, s_outbox s' = s_outbox s ++ recs) -> grows s s'.
Proof.
  intros Hw Ht Hl Hi (recs & Ho). destruct (grows_refl s) as [_ W1 T1 I1 _]. constructor.
  - exists []. by rewrite Hl, app_nil_r.
  - by rewrite Hw.
  - by rewrite Ht.
  - by rewrite Hi.
  - intros q r Hr. exists r. rewrite Ho. split_and!; try done. apply elem_of_app. by left.
Qed.

Lemma grows_put_tx s t : store_ok s -> writable s t -> grows s (put_tx t s).
Proof.
  intros Hs Hw. destruct (grows_refl s) as [_ W1 _ I1 O1].
  constructor; [exists []; by rewrite app_nil_r|done| |done|done].
  intros k t' Hk. destruct (Tx_IsTerminal t') eqn:Ht.
  - exists t'. split; [|split_and!; done]. by apply (writable_terminal s t k t' Hs Hw Hk).
  - destruct (decide (k = id_value (t_id t))) as [->|Hne].
    + exists t. destruct (so_tx s Hs _ _ Hk) as (Hid%id_value_inj & _).
      unfold writable in Hw. rewrite Hk in Hw. destruct Hw as (_ & Hsame%same_request_frame & Hatt).
      destruct_and!. cbn. rewrite lookup_insert_eq. split_and!; done.
    + exists t'. cbn. rewrite lookup_insert_ne by done. split_and!; done.
Qed.

Lemma grows_record_moved s t w w' q e :
  store_ok s -> writable s t -> movable s t w w' e -> grows s (record_moved t w' q e s).
Proof.
  intros Hs Hw Hm. destruct (grows_put_tx s t Hs Hw) as [_ _ T1 I1 O1]. constructor; [| |exact T1|exact I1|exact O1].
  - exists [(q, e)]. done.
  - intros k w0 Hk. destruct (record_moved_wallet_kept s w w' e t k w0 q Hm Hk) as (w1 & ? & ? & ? & ? & ?).
    exists w1. split_and!; done.
Qed.

Lemma grows_put_wallet_fresh s w :
  s_wallets s !! id_value (w_id w) = None -> grows s (put_wallet w s).
Proof.
  intros Hn. destruct (grows_refl s) as [_ _ T1 I1 O1].
  constructor; [exists []; by rewrite app_nil_r| |done|done|done].
  intros k w0 Hk. exists w0. cbn. rewrite lookup_insert_ne; [split_and!; done || lia|].
  intros <-. congruence.
Qed.

Lemma announced_refl s : announced_since s s.
Proof. intros k t Hk. left. by exists t. Qed.

(** The store whose operations are those of [s], apart from [t], which an
    event of the outbox announces. *)
Lemma announced_put s s' t : s_txs s' = <[id_value (t_id t) := t]> (s_txs s) ->
  (exists q r, (q, r) ∈ s_outbox s' /\ announces t (or_Event r)) -> announced_since s s'.
Proof.
  intros Htx Ha k t' Hk. rewrite Htx, lookup_insert in Hk. case_decide; [|left; by exists t'].
  injection Hk as <-. by right.
Qed.

(** An operation written over its own row in the same status. *)
Lemma announced_put_same s t old : s_txs s !! id_value (t_id t) = Some old -> t_status old = t_status t ->
  announced_since s (put_tx t s).
Proof.
  intros Hk Hst k t' [(-> & ->)|[_ Hk']]%put_tx_lookup; left; [by exists old|by exists t'].
Qed.

Lemma announced_same s s' : s_txs s' = s_txs s -> announced_since s s'.
Proof. intros E k t Hk. left. exists t. by rewrite <- E. Qed.

Lemma evolves_refl s : evolves s s.
Proof. split; [apply grows_refl|apply announced_refl]. Qed.

Lemma evolves_trans s1 s2 s3 : evolves s1 s2 -> evolves s2 s3 -> evolves s1 s3.
Proof.
  intros [G1 A1] [G2 A2]. split; [by eapply grows_trans|]. intros k t3 H3.
  destruct (A2 k t3 H3) as [(t2 & H2 & Hst)|Hann]; [|by right].
  destruct (A1 k t2 H2) as [(t1 & H1 & Hst')|(q & r & Hr & Ha)].
  - left. exists t1. split; [done|congruence].
  - right. destruct (ev_txs _ _ G2 k t2 H2) as (t3' & H3' & _ & Hid & _).
    rewrite H3 in H3'. injection H3' as <-.
    destruct (ev_outbox _ _ G2 q r Hr) as (r' & Hr' & _ & Hev & _). exists q, r'. split; [done|].
    unfold announces in *. by rewrite Hev, Hid, <- Hst.
Qed.

Lemma evolves_frame s s' :
  s_wallets s' = s_wallets s -> s_txs s' = s_txs s -> s_ledger s' = s_ledger s ->
  s_inbox s' = s_inbox s -> (exists recs, s_outbox s' = s_outbox s ++ recs) -> evolves s s'.
Proof. intros. split; [by apply grows_frame|by apply announced_same]. Qed.
End invariant.
