(* ===== verification/Policy.v ===== *)
(** * Policy: retry policies and jittered backoff

    [ReferencePolicy] of [internal/app/reference_worker.go] and
    [PublisherPolicy] of [internal/app/events.go]: how the zero values are
    filled in, and the instant of the next attempt, which doubles per attempt,
    is capped, and is jittered over the upper half of its window. *)

From S2P Require Import Prelude Errors GoTime Ports Store.

#[local] Open Scope Z_scope.

(** ** Definitions *)

Record ReferencePolicy := mkReferencePolicy {
  rp_MaxAttempts : Z;
  rp_BaseBackoff : Duration;
  rp_MaxBackoff : Duration;
  rp_TTL : Duration;
  rp_BatchSize : Z;
  rp_Interval : Duration
}.

Definition DefaultReferencePolicy : ReferencePolicy :=
  mkReferencePolicy 8 Second (30 * Second) (2 * Minute) 20 Second.

Definition ReferencePolicy_normalised (p : ReferencePolicy) : ReferencePolicy :=
  let d := DefaultReferencePolicy in
  let base := if rp_BaseBackoff p <=? 0 then rp_BaseBackoff d else rp_BaseBackoff p in
  {|
    rp_MaxAttempts := if rp_MaxAttempts p <? 1 then rp_MaxAttempts d else rp_MaxAttempts p;
    rp_BaseBackoff := base;
    rp_MaxBackoff := if rp_MaxBackoff p <? base then Z.max (rp_MaxBackoff d) base else rp_MaxBackoff p;
    rp_TTL := if rp_TTL p <=? 0 then rp_TTL d else rp_TTL p;
    rp_BatchSize := if rp_BatchSize p <? 1 then rp_BatchSize d else rp_BatchSize p;
    rp_Interval := if rp_Interval p <=? 0 then rp_Interval d else rp_Interval p
  |}.

Record PublisherPolicy := mkPublisherPolicy {
  pp_BatchSize : Z;
  pp_Interval : Duration;
  pp_BaseBackoff : Duration;
  pp_MaxBackoff : Duration;
  pp_PublishTimeout : Duration
}.

Definition DefaultPublisherPolicy : PublisherPolicy :=
  mkPublisherPolicy 50 (500 * Millisecond) Second Minute (10 * Second).

Definition PublisherPolicy_normalised (p : PublisherPolicy) : PublisherPolicy :=
  let d := DefaultPublisherPolicy in
  let base := if pp_BaseBackoff p <=? 0 then pp_BaseBackoff d else pp_BaseBackoff p in
  {|
    pp_BatchSize := if pp_BatchSize p <? 1 then pp_BatchSize d else pp_BatchSize p;
    pp_Interval := if pp_Interval p <=? 0 then pp_Interval d else pp_Interval p;
    pp_BaseBackoff := base;
    pp_MaxBackoff := if pp_MaxBackoff p <? base then Z.max (pp_MaxBackoff d) base else pp_MaxBackoff p;
    pp_PublishTimeout := if pp_PublishTimeout p <=? 0 then pp_PublishTimeout d else pp_PublishTimeout p
  |}.

(** [base << min(attempt-1, 16)] in [int64], replaced by [cap] when it exceeds
    it or is not positive. *)
Definition backoff_window (base cap : Duration) (attempt : Z) : Duration :=
  let window := i64 (Z.shiftl base (Z.min (i64 (attempt - 1)) 16)) in
  if (cap <? window) || (window <=? 0) then cap else window.

(** Both [nextAttemptAt] methods. *)
Definition nextAttemptAt {W} `{Rand W} (base cap : Duration) (at_ : Time) (attempt : Z) : M W Time :=
  let window := backoff_window base cap attempt in
  r ← rand_Int64N (i64 (Z.quot window 2 + 1));
  mret (Time_Add at_ (i64 (Z.quot window 2 + r))).

Definition ReferencePolicy_nextAttemptAt {W} `{Rand W} (p : ReferencePolicy) :=
  nextAttemptAt (W := W) (rp_BaseBackoff p) (rp_MaxBackoff p).

Definition Publisher_nextAttemptAt {W} `{Rand W} (p : PublisherPolicy) :=
  nextAttemptAt (W := W) (pp_BaseBackoff p) (pp_MaxBackoff p).

(** ** Lemmas *)

Record policy_ok (base cap : Duration) : Prop := {
  po_base : 0 < base;
  po_cap : base <= cap <= MaxInt64
}.

(** The window: positive, at most the cap, and the doubled base for as long
    as that stays under the cap. *)
Lemma backoff_window_spec base cap attempt :
  policy_ok base cap -> 1 <= attempt <= MaxInt64 ->
  0 < backoff_window base cap attempt <= cap /\
  (base * 2 ^ Z.min (attempt - 1) 16 <= cap ->
   backoff_window base cap attempt = base * 2 ^ Z.min (attempt - 1) 16).
Proof.
  intros [Hb Hc] Ha. unfold backoff_window. rewrite (i64_id (attempt - 1)) by (width; lia).
  rewrite Z.shiftl_mul_pow2 by lia. set (v := base * 2 ^ Z.min (attempt - 1) 16).
  assert (0 < v) by (unfold v; apply Z.mul_pos_pos; [lia|apply Z.pow_pos_nonneg; lia]).
  split.
  - destruct (Z.ltb_spec cap (i64 v)), (Z.leb_spec (i64 v) 0); cbn; lia.
  - intros Hv. rewrite i64_id by (width; lia).
    destruct (Z.ltb_spec cap v), (Z.leb_spec v 0); cbn; lia.
Qed.

(** Without a cap in the way the window doubles. *)
Lemma backoff_window_doubles base cap attempt :
  policy_ok base cap -> 1 <= attempt < 17 -> base * 2 ^ attempt <= cap ->
  backoff_window base cap (attempt + 1) = 2 * backoff_window base cap attempt.
Proof.
  intros Hp Ha Hv.
  assert (Hs : 2 ^ attempt = 2 * 2 ^ (attempt - 1)) by (rewrite <- Z.pow_succ_r by lia; f_equal; lia).
  pose proof (Z.pow_pos_nonneg 2 (attempt - 1)). pose proof (po_base _ _ Hp).
  destruct (backoff_window_spec base cap (attempt + 1) Hp) as [_ H1]; [width; lia|].
  destruct (backoff_window_spec base cap attempt Hp) as [_ H2]; [width; lia|].
  replace (Z.min (attempt + 1 - 1) 16) with attempt in H1 by lia.
  replace (Z.min (attempt - 1) 16) with (attempt - 1) in H2 by lia.
  rewrite H1, H2; [lia|rewrite Hs in Hv; nia|done].
Qed.

Section next.
Context {W : Type} `{Storage W} `{Rand W} `{!RandLaws W}.

Lemma nextAttemptAt_aside base cap at_ attempt :
  policy_ok base cap -> 1 <= attempt <= MaxInt64 ->
  aside (W := W) (nextAttemptAt base cap at_ attempt) (fun t =>
    exists wait, t = Time_Add at_ wait /\
      backoff_window base cap attempt / 2 <= wait <= backoff_window base cap attempt).
Proof.
  intros Hp Ha. destruct (backoff_window_spec base cap attempt Hp Ha) as [Hw _].
  pose proof (po_cap _ _ Hp). unfold nextAttemptAt. set (v := backoff_window base cap attempt) in *.
  rewrite Z.quot_div_nonneg by lia.
  assert (0 <= v / 2 <= v) by (split; [apply Z.div_pos; lia|apply Z.div_le_upper_bound; lia]).
  assert (2 * (v / 2) <= v) by (apply Z.mul_div_le; lia).
  rewrite (i64_id (v / 2 + 1)) by (width; lia).
  assert (Hpos : 0 < v / 2 + 1) by lia.
  destruct (Int64N_aside (W := W) _ Hpos) as [Htx Hidle].
  assert (Hr : forall r, 0 <= r < v / 2 + 1 -> exists wait,
    Time_Add at_ (i64 (v / 2 + r)) = Time_Add at_ wait /\ v / 2 <= wait <= v).
  { intros r Hr. exists (v / 2 + r). rewrite i64_id by (width; lia). split; [done|lia]. }
  split; intros; apply wp_bind; (eapply wp_mono; [eauto| |]); cbn; intros; destruct_and?;
    eauto using wp_ret.
Qed.
End next.

Lemma ReferencePolicy_normalised_ok p :
  rp_BaseBackoff p <= MaxInt64 -> rp_MaxBackoff p <= MaxInt64 ->
  let q := ReferencePolicy_normalised p in
  policy_ok (rp_BaseBackoff q) (rp_MaxBackoff q) /\
  1 <= rp_MaxAttempts q /\ 0 < rp_TTL q /\ 1 <= rp_BatchSize q /\ 0 < rp_Interval q.
Proof.
  intros Hb Hm q. unfold q, ReferencePolicy_normalised, DefaultReferencePolicy. cbn.
  unfold Minute, Second, Millisecond, MaxInt64 in *.
  repeat case_match; split_and!; try constructor; width; lia.
Qed.

Lemma PublisherPolicy_normalised_ok p :
  pp_BaseBackoff p <= MaxInt64 -> pp_MaxBackoff p <= MaxInt64 ->
  let q := PublisherPolicy_normalised p in
  policy_ok (pp_BaseBackoff q) (pp_MaxBackoff q) /\ 1 <= pp_BatchSize q /\ 0 < pp_PublishTimeout q.
Proof.
  intros Hb Hm q. unfold q, PublisherPolicy_normalised, DefaultPublisherPolicy. cbn.
  unfold Minute, Second, Millisecond, MaxInt64 in *.
  repeat case_match; split_and!; try constructor; width; lia.
Qed.

(** ** Properties *)

(** However the policy is configured, the next attempt at a parked
    operation comes after at least half and at most the whole of a window that
    starts at the base backoff, doubles with every attempt up to the cap of
    sixteen doublings, and is replaced by the maximal backoff when it is
    longer. *)
Theorem next_attempt_is_bounded {W} `{Storage W, Rand W, !RandLaws W} p at_ attempt w s :
  rp_BaseBackoff p <= MaxInt64 -> rp_MaxBackoff p <= MaxInt64 -> 1 <= attempt <= MaxInt64 ->
  st_idle w s ->
  let q := ReferencePolicy_normalised p in
  let window := backoff_window (rp_BaseBackoff q) (rp_MaxBackoff q) attempt in
  0 < window <= rp_MaxBackoff q /\
  (rp_BaseBackoff q * 2 ^ 16 <= MaxInt64 ->
   window = Z.min (rp_MaxBackoff q) (rp_BaseBackoff q * 2 ^ Z.min (attempt - 1) 16)) /\
  wp (ReferencePolicy_nextAttemptAt q at_ attempt) w
    (fun t w' => st_idle w' s /\ exists wait, t = Time_Add at_ wait /\ window / 2 <= wait <= window)
    (fun e _ => st_infra e).
Proof.
  intros Hb Hm Ha Hw q window. destruct (ReferencePolicy_normalised_ok p Hb Hm) as (Hp & _).
  fold q in Hp. destruct (backoff_window_spec _ _ attempt Hp Ha) as [Hpos Hexact]. fold window in Hpos, Hexact.
  split_and!; [lia|lia| |].
  - intros Hfit. set (v := rp_BaseBackoff q * 2 ^ Z.min (attempt - 1) 16) in *.
    destruct (Z.le_gt_cases v (rp_MaxBackoff q)) as [Hle|Hgt]; [rewrite Hexact; lia|].
    assert (Hv : 0 < v <= MaxInt64).
    { pose proof (po_base _ _ Hp). unfold v. split; [apply Z.mul_pos_pos; [lia|apply Z.pow_pos_nonneg; lia]|].
      etransitivity; [|exact Hfit]. apply Z.mul_le_mono_nonneg_l; [lia|apply Z.pow_le_mono_r; lia]. }
    unfold window, backoff_window. rewrite (i64_id (attempt - 1)) by (width; lia).
    rewrite Z.shiftl_mul_pow2 by lia. fold v. rewrite i64_id by (width; lia).
    rewrite (proj2 (Z.ltb_lt _ v)) by lia. cbn [orb]. lia.
  - destruct (nextAttemptAt_aside (W := W) (rp_BaseBackoff q) (rp_MaxBackoff q) at_ attempt Hp Ha) as [_ Hi].
    eapply wp_mono; [exact (Hi w s Hw)|cbn; tauto|cbn; tauto].
Qed.

Lemma next_attempt_is_bounded_witness :
  backoff_window Second (30 * Second) 1 = Second /\
  backoff_window Second (30 * Second) 5 = 16 * Second /\
  let w := backoff_window Second (30 * Second) 6 in w = 30 * Second /\ 0 < w <= 30 * Second.
Proof.
  split_and!; [vm_compute; reflexivity|vm_compute; reflexivity|].
  pose (S0 := Build_Storage unit (fun _ _ _ => True) (fun _ _ => True) (fun _ _ => True)
    (fun _ => True) (fun _ _ => True) True).
  pose (R0 := Build_Rand unit (fun _ w => (0, w))).
  assert (L0 : RandLaws unit) by (constructor; intros n Hn; split; intros; cbn; split; [lia|done|lia|done]).
  pose proof (next_attempt_is_bounded (W := unit) DefaultReferencePolicy zeroTime 6 () (mkStore ∅ ∅ [] ∅ [])
    ltac:(vm_compute; discriminate) ltac:(vm_compute; discriminate) ltac:(split; vm_compute; discriminate) I)
    as (Hpos & _). split; [vm_compute; reflexivity|exact Hpos].
Defined.
