(* ===== verification/Recorder.v ===== *)
(** * Recorder: [internal/app/events.go]

    The events a finished operation produces, and how they are appended to the
    outbox inside the transaction that caused them. *)

From S2P Require Import Prelude Errors GoTime Money Identifier Ledger Wallet Transaction Event.
From S2P Require Import Identity Ports Store.

#[local] Open Scope string_scope.
#[local] Open Scope list_scope.
#[local] Open Scope Z_scope.

(** ** Definitions *)

Definition eventsForOutcome (transaction : WagerTransaction) (wallet : Wallet)
    (entry : LedgerEntry) (moved : bool) : result (list Event) :=
  if bool_decide (t_status transaction = StatusProcessed) then
    processed ← NewWagerTransactionProcessed transaction;
    if moved then
      changed ← NewWalletBalanceChanged wallet entry;
      Ok [processed; changed]
    else Ok [processed]
  else if bool_decide (t_status transaction = StatusRejected) then
    rejected ← NewWagerTransactionRejected transaction;
    Ok [rejected]
  else if bool_decide (t_status transaction = StatusPendingReference) then
    waiting ← NewWagerTransactionPendingReference transaction;
    Ok [waiting]
  else Ok [].

Section recorder.
Context {W : Type} `{Clock W} `{IDGenerator W}.

Definition new_record (eventID : string) (event : Event) (correlationID : string) (at_ : Time)
    : OutboxRecord :=
  mkOutboxRecord eventID event correlationID "" 0 at_ zeroTime "".

Fixpoint record_each (ctx : Context) (repos : Repositories W) (correlationID : string)
    (at_ : Time) (events : list Event) : M W unit :=
  match events with
  | [] => mret ()
  | event :: events =>
    eventID ← NewEventID ctx;
    _ ← ob_Append (r_Outbox repos) (new_record eventID event correlationID at_);
    record_each ctx repos correlationID at_ events
  end.

Definition record (ctx : Context) (repos : Repositories W) (events : list Event) : M W unit :=
  match events with
  | [] => mret ()
  | _ =>
    let correlationID := CorrelationIDFrom ctx in
    at_ ← now;
    record_each ctx repos correlationID at_ events
  end.

(** The [emit] method of both [SubmitTransaction] and [ReferenceWorker]. *)
Definition emit (ctx : Context) (repos : Repositories W) (transaction : WagerTransaction)
    (wallet : Wallet) (entry : LedgerEntry) (moved : bool) : M W unit :=
  events ← pure (eventsForOutcome transaction wallet entry moved);
  record ctx repos events.
End recorder.
