(* ===== verification/Reversal.v ===== *)
(** * Reversal: [internal/app/reversal.go]

    What a reversal can do about the operation it names: wait, apply, or be
    refused for good.  The detail sentence of a refusal is not modelled; nothing
    reads it. *)

From S2P Require Import Prelude Errors GoTime Money Identifier Ledger Wallet Transaction Identity.
From S2P Require Import Ports Store.

#[local] Open Scope string_scope.
#[local] Open Scope list_scope.
#[local] Open Scope Z_scope.

(** ** Definitions *)

Inductive resolutionOutcome := resolveWait | resolveApply | resolveReject.

#[global] Instance resolutionOutcome_eq_dec : EqDecision resolutionOutcome.
Proof. solve_decision. Defined.

Record resolution := mkResolution {
  rs_outcome : resolutionOutcome;
  rs_reference : WagerTransaction;
  rs_direction : Direction;
  rs_code : Code
}.

Definition waitResolution : resolution := mkResolution resolveWait noTx "" "".
Definition rejectResolution (code : Code) : resolution := mkResolution resolveReject noTx "" code.

Definition disagreement (reversal reference : WagerTransaction) : string :=
  if negb (bool_decide (t_playerID reversal = t_playerID reference))
  then "the reversal and its reference name different players"
  else if negb (bool_decide (t_walletID reversal = t_walletID reference))
  then "the reversal and its reference name different wallets"
  else if negb (bool_decide (currency (t_money reversal) = currency (t_money reference)))
  then "the reversal and its reference are in different currencies"
  else if negb (bool_decide (t_roundID reversal = t_roundID reference))
  then "the reversal and its reference belong to different rounds"
  else "".

Definition resolveReference {W} (repos : Repositories W) (reversal : WagerTransaction)
    : M W resolution :=
  catch (tr_FindByBusinessID (t_reader (r_Transactions repos)) (t_providerID reversal)
           (t_referenceExternalID reversal))
    (fun reference =>
      if bool_decide (t_status reference = StatusPending) ||
         bool_decide (t_status reference = StatusPendingReference)
      then mret waitResolution
      else if bool_decide (t_status reference = StatusRejected) ||
              bool_decide (t_status reference = StatusFailed)
      then mret (rejectResolution CodeReferenceNotReversible)
      else if negb (CanReverse (t_kind reversal) (t_kind reference))
      then mret (rejectResolution CodeReferenceNotReversible)
      else if negb (bool_decide (disagreement reversal reference = ""))
      then mret (rejectResolution CodeReferenceMismatch)
      else if negb (bool_decide (t_money reversal = t_money reference))
      then mret (rejectResolution CodeReferenceAmountMismatch)
      else
        catch (tr_FindProcessedReversalOf (t_reader (r_Transactions repos)) (t_id reference))
          (fun _ => mret (rejectResolution CodeAlreadyReversed))
          (fun e =>
            if negb (is_sentinel e ErrNotFound) then throw e
            else
              direction ← pure (ReversalDirection (t_kind reference));
              mret (mkResolution resolveApply reference direction "")))
    (fun e => if is_sentinel e ErrNotFound then mret waitResolution else throw e).
