(* ===== verification/Submit.v ===== *)
(** * Submit: [internal/app/submit.go]

    Applying an operation from a provider: authorisation, parsing, replay of a
    stored outcome, and the three ways of applying a new one (a movement, a
    reversal, a recorded rejection).  Metrics and log lines are not modelled:
    [Execute] is [execute]. *)

From S2P Require Import Prelude Errors GoTime Money Identifier Ledger Wallet Transaction Event.
From S2P Require Import Idempotency Identity Ports Store Policy Recorder Reversal.

#[local] Open Scope string_scope.
#[local] Open Scope list_scope.
#[local] Open Scope Z_scope.

(** ** Definitions *)

Record SubmitResult := mkSubmitResult {
  sr_Transaction : WagerTransaction;
  sr_Balance : Money;
  sr_Replay : bool
}.

(** [SubmitResult{}] *)
Definition noSubmitResult : SubmitResult := mkSubmitResult noTx noMoney false.

Definition constraintIdempotencyKey : string := "wager_transactions_idempotency_key".

Record parsedSubmit := mkParsedSubmit {
  ps_key : IdempotencyKey;
  ps_hash : PayloadHash;
  ps_providerID : ProviderID;
  ps_externalID : ExternalTransactionID;
  ps_playerID : PlayerID;
  ps_walletID : WalletID;
  ps_roundID : RoundID;
  ps_gameID : GameID;
  ps_kind : Kind;
  ps_money : Money;
  ps_reference : ExternalTransactionID
}.

Definition Submit_parse (cmd : SubmitCommand) : result parsedSubmit :=
  hash ← Command_PayloadHash cmd;
  key ← ParseIdempotencyKey (sc_IdempotencyKey cmd);
  providerID ← ParseProviderID (sc_ProviderID cmd);
  externalID ← ParseExternalTransactionID (sc_ExternalID cmd);
  playerID ← ParsePlayerID (sc_PlayerID cmd);
  walletID ← ParseWalletID (sc_WalletID cmd);
  roundID ← ParseRoundID (sc_RoundID cmd);
  gameID ← ParseGameID (sc_GameID cmd);
  let kind := sc_Kind cmd in
  if negb (Kind_Valid kind) then Err (Wrapped ErrInvalidKind)
  else
    currency ← ParseCurrency (sc_Currency cmd);
    money ← ParseExternalMoney (sc_Amount cmd) currency;
    reference ← (if bool_decide (sc_ReferenceExternalID cmd = "") then Ok zeroId
                 else ParseExternalTransactionID (sc_ReferenceExternalID cmd));
    Ok (mkParsedSubmit key hash providerID externalID playerID walletID roundID gameID kind
          money reference).

Definition Submit_replay (stored : WagerTransaction) (parsed : parsedSubmit) : result SubmitResult :=
  if negb (bool_decide (t_payloadHash stored = ps_hash parsed))
  then Err (Wrapped (SentinelError ErrConflict))
  else if negb (bool_decide (t_idempotencyKey stored = ps_key parsed))
  then Err (Wrapped (SentinelError ErrConflict))
  else Ok (mkSubmitResult stored (t_balanceAfter stored) true).

Definition Submit_balanceAfter (wallet : Wallet) (movement : Movement) (moved : bool) : Money :=
  if moved then w_balance (mv_Wallet movement) else w_balance wallet.

Definition Submit_reject (transaction : WagerTransaction) (cause : error) (at_ : Time)
    : result WagerTransaction :=
  match As_domain cause with
  | None => Err cause
  | Some code => Tx_Reject transaction code at_
  end.

(** The switch of [movement] on the kind. *)
Definition wallet_movement (wallet : Wallet) (transaction : WagerTransaction)
    (transactionID : TransactionID) (entryID : LedgerEntryID) (at_ : Time) : result Movement :=
  if bool_decide (t_kind transaction = KindBet)
  then Wallet_Debit wallet entryID transactionID (t_money transaction) at_
  else if bool_decide (t_kind transaction = KindWin)
  then Wallet_Credit wallet entryID transactionID (t_money transaction) at_
  else Err (Wrapped (SentinelError ErrNotImplemented)).

(** The switch of [applyReversal] on the direction. *)
Definition reversal_movement (wallet : Wallet) (reversal : WagerTransaction)
    (direction : Direction) (entryID : LedgerEntryID) (at_ : Time) : result Movement :=
  if bool_decide (direction = Credit)
  then Wallet_Credit wallet entryID (t_id reversal) (t_money reversal) at_
  else match Wallet_Debit wallet entryID (t_id reversal) (t_money reversal) at_ with
       | Ok movement => Ok movement
       | Err e => if errors_Is e ErrInsufficientFunds
                  then fail CodeReversalExceedsBalance else Err e
       end.

Section submit.
Context {W : Type} `{Clock W} `{IDGenerator W} `{Rand W}.

Definition Submit_movement (ctx : Context) (wallet : Wallet) (transaction : WagerTransaction)
    (transactionID : TransactionID) (at_ : Time) : M W (Movement * bool) :=
  if negb (Kind_MovesMoney (t_kind transaction)) then mret (noMovement, false)
  else
    entryID ← wrap_errM (NewLedgerEntryID ctx);
    movement ← pure (wallet_movement wallet transaction transactionID entryID at_);
    mret (movement, true).

Definition writeReversal (repos : Repositories W) (applied : WagerTransaction)
    (movement : Movement) (expectedVersion : Z) : M W unit :=
  _ ← (if 0 <? t_referenceAttempts applied then t_Update (r_Transactions repos) applied
       else t_Insert (r_Transactions repos) applied);
  _ ← w_UpdateBalance (r_Wallets repos) (mv_Wallet movement) expectedVersion;
  l_Append (r_Ledger repos) (mv_Entry movement).

Definition applyReversal (ctx : Context) (repos : Repositories W) (reversal : WagerTransaction)
    (decision : resolution) (wallet : Wallet) (at_ : Time) : M W (WagerTransaction * Movement) :=
  entryID ← NewLedgerEntryID ctx;
  movement ← pure (reversal_movement wallet reversal (rs_direction decision) entryID at_);
  resolved ← pure (ResolveReference reversal (t_id (rs_reference decision)) at_);
  applied ← pure (MarkProcessed resolved (w_balance (mv_Wallet movement)) at_);
  _ ← writeReversal repos applied movement (w_version wallet);
  mret (applied, movement).

(** Writing an outcome that moves nothing: a rejection, a parked reversal, a
    processed LOSS. *)
Definition insert_and_emit (ctx : Context) (repos : Repositories W)
    (transaction : WagerTransaction) (wallet : Wallet) : M W SubmitResult :=
  _ ← t_Insert (r_Transactions repos) transaction;
  _ ← emit ctx repos transaction wallet noEntry false;
  mret (mkSubmitResult transaction (w_balance wallet) false).

Definition recordReversalRejection (ctx : Context) (repos : Repositories W)
    (reversal : WagerTransaction) (code : Code) (wallet : Wallet) (at_ : Time) : M W SubmitResult :=
  rejected ← pure (Tx_Reject reversal code at_);
  insert_and_emit ctx repos rejected wallet.

Definition Submit_resolve (waiting : ReferencePolicy) (ctx : Context) (repos : Repositories W)
    (reversal : WagerTransaction) (wallet : Wallet) (at_ : Time) : M W SubmitResult :=
  decision ← resolveReference repos reversal;
  match rs_outcome decision with
  | resolveWait =>
    next ← ReferencePolicy_nextAttemptAt waiting at_ 1;
    parked ← pure (MarkPendingReference reversal at_ next (Time_Add at_ (rp_TTL waiting)));
    insert_and_emit ctx repos parked wallet
  | resolveReject =>
    recordReversalRejection ctx repos reversal (rs_code decision) wallet at_
  | resolveApply =>
    catch (applyReversal ctx repos reversal decision wallet at_)
      (fun '(applied, movement) =>
        _ ← emit ctx repos applied (mv_Wallet movement) (mv_Entry movement) true;
        mret (mkSubmitResult applied (w_balance (mv_Wallet movement)) false))
      (fun e => match As_domain e with
                | None => throw e
                | Some code => recordReversalRejection ctx repos reversal code wallet at_
                end)
  end.

(** The part of [apply] after the wallet is locked, for a kind that is not a
    reversal. *)
Definition apply_movement (ctx : Context) (repos : Repositories W)
    (transaction : WagerTransaction) (transactionID : TransactionID) (wallet : Wallet)
    (at_ : Time) : M W SubmitResult :=
  catch (Submit_movement ctx wallet transaction transactionID at_)
    (fun '(movement, moved) =>
      applied ← pure (MarkProcessed transaction (Submit_balanceAfter wallet movement moved) at_);
      if negb moved then insert_and_emit ctx repos applied wallet
      else
        _ ← t_Insert (r_Transactions repos) applied;
        _ ← w_UpdateBalance (r_Wallets repos) (mv_Wallet movement) (w_version wallet);
        _ ← l_Append (r_Ledger repos) (mv_Entry movement);
        _ ← emit ctx repos applied (mv_Wallet movement) (mv_Entry movement) true;
        mret (mkSubmitResult applied (w_balance (mv_Wallet movement)) false))
    (fun e =>
      rejected ← pure (Submit_reject transaction e at_);
      insert_and_emit ctx repos rejected wallet).

Definition external_params (p : parsedSubmit) (transactionID : TransactionID) (at_ : Time)
    : ExternalTransactionParams :=
  {|
    et_ID := transactionID;
    et_Kind := ps_kind p;
    et_ProviderID := ps_providerID p;
    et_ExternalID := ps_externalID p;
    et_IdempotencyKey := ps_key p;
    et_PayloadHash := ps_hash p;
    et_WalletID := ps_walletID p;
    et_PlayerID := ps_playerID p;
    et_RoundID := ps_roundID p;
    et_GameID := ps_gameID p;
    et_Money := ps_money p;
    et_ReferenceExternalID := ps_reference p;
    et_CreatedAt := at_
  |}.

Definition Submit_apply (waiting : ReferencePolicy) (ctx : Context) (repos : Repositories W)
    (p : parsedSubmit) : M W SubmitResult :=
  transactionID ← wrap_errM (NewTransactionID ctx);
  at_ ← now;
  transaction ← pure (NewExternalTransaction (external_params p transactionID at_));
  wallet ← w_FindByIDForUpdate (r_Wallets repos) (ps_walletID p);
  if negb (bool_decide (w_playerID wallet = ps_playerID p))
  then throw (Wrapped (SentinelError ErrInvalidInput))
  else if Kind_IsReversal (t_kind transaction)
  then Submit_resolve waiting ctx repos transaction wallet at_
  else apply_movement ctx repos transaction transactionID wallet at_.

Definition ExecuteIn (waiting : ReferencePolicy) (ctx : Context) (repos : Repositories W)
    (cmd : SubmitCommand) : M W SubmitResult :=
  identity ← pure (caller ctx ScopeSubmit);
  parsed ← pure (Submit_parse cmd);
  _ ← pure (mayActAs identity (ps_providerID parsed));
  catch (tr_FindByBusinessID (t_reader (r_Transactions repos)) (ps_providerID parsed)
           (ps_externalID parsed))
    (fun existing => pure (Submit_replay existing parsed))
    (fun e => if negb (is_sentinel e ErrNotFound) then throw e
              else Submit_apply waiting ctx repos parsed).

Definition Submit_execute (uow : UnitOfWork W) (queries : Queries W) (waiting : ReferencePolicy)
    (ctx : Context) (cmd : SubmitCommand) : M W SubmitResult := fun w =>
  match uow_Do uow ctx (fun ctx repos => assign noSubmitResult (ExecuteIn waiting ctx repos cmd))
          noSubmitResult w with
  | (Ok _, result, w') => (Ok result, w')
  | (Err err, _, w') =>
    if negb (is_sentinel err ErrConflict) then (Err err, w')
    else if bool_decide (As_constraint err = Some constraintIdempotencyKey)
    then (Err (Wrapped (SentinelError ErrConflict)), w')
    else
      (parsed ← pure (Submit_parse cmd);
       catch (tr_FindByBusinessID (q_Transactions queries) (ps_providerID parsed)
                (ps_externalID parsed))
         (fun existing => pure (Submit_replay existing parsed))
         (fun _ => throw err)) w'
  end.

Definition Submit_Execute := Submit_execute.
End submit.
