(* ===== verification/Storable.v ===== *)
(** * Storable: what the domain builds can be stored and read back

    Every object the use cases hand to a repository satisfies the conditions
    under which the database stores it, and storing it (to the microsecond)
    keeps it valid. *)

From S2P Require Import Prelude Errors GoTime Money Identifier Ledger Wallet Transaction Event.
From S2P Require Import Idempotency Identity Ports Store StoreInv Submit.

#[local] Open Scope string_scope.
#[local] Open Scope list_scope.
#[local] Open Scope Z_scope.

Section storable.
Context `{Precision}.

(** ** Instants *)

Lemma norm_utc t : is_utc (norm t).
Proof. unfold norm. by destruct (Time_IsZero t). Qed.

Lemma norm_instant t : instant (norm t) = if Time_IsZero t then 0 else instant t - instant t mod 1000.
Proof. unfold norm. destruct (Time_IsZero t); [done|]. cbn. apply stored_time_law. Qed.

Lemma norm_IsZero t : set_late t -> Time_IsZero (norm t) = Time_IsZero t.
Proof.
  intros Hl. unfold Time_IsZero at 1. rewrite norm_instant.
  destruct (Time_IsZero t) eqn:E; [done|]. destruct Hl as [?|Hl]; [congruence|].
  pose proof (Z.mod_pos_bound (instant t) 1000 ltac:(lia)). lia.
Qed.

Lemma norm_late t : set_late t -> set_late (norm t).
Proof.
  intros Hl. unfold set_late. rewrite norm_IsZero by done. destruct Hl as [?|Hl]; [by left|].
  destruct (Time_IsZero t) eqn:E; [by left|right]. rewrite norm_instant, E.
  pose proof (Z.div_mod (instant t) 1000 ltac:(lia)).
  assert (1 <= instant t / 1000) by (apply Z.div_le_lower_bound; lia). lia.
Qed.

Lemma norm_norm t : set_late t -> norm (norm t) = norm t.
Proof.
  intros Hl. destruct (Time_IsZero t) eqn:E.
  - unfold norm. by rewrite E.
  - pose proof (norm_IsZero t Hl) as Hz. rewrite E in Hz.
    unfold norm at 1. rewrite Hz. pose proof (norm_utc t) as Hu.
    destruct (norm t) as [i l] eqn:En. unfold is_utc in Hu; cbn in Hu. subst l.
    unfold Time_UTC. f_equal. rewrite stored_time_law. cbn.
    pose proof (norm_instant t) as Hi. rewrite En, E in Hi. cbn in Hi. rewrite Hi.
    rewrite Zminus_mod, Zmod_mod, Z.sub_diag. rewrite Zmod_0_l. lia.
Qed.

Lemma clock_time_late t : clock_time t -> set_late t.
Proof. intros [_ ?]. by right. Qed.

Lemma clock_time_nonzero t : clock_time t -> Time_IsZero t = false.
Proof. intros [_ ?]. unfold Time_IsZero. lia. Qed.

Lemma clock_time_UTC t : clock_time t -> Time_UTC t = t.
Proof. intros [? _]. by apply Time_UTC_id. Qed.

(** ** Stored objects are storable, and storing twice is storing once *)

Lemma stored_wallet_ok w : wallet_storable w -> wallet_storable (stored_wallet w).
Proof.
  intros [Hok Hid Hp Hc H1 H2]. constructor; cbn; auto using norm_late.
  destruct Hok as [? ? ? ? ? ? [? ?] [? ?]]. constructor; cbn; try done.
  - rewrite norm_IsZero by done. split; [done|apply norm_utc].
  - rewrite norm_IsZero by done. split; [done|apply norm_utc].
Qed.

Lemma stored_wallet_idem w : wallet_storable w -> stored_wallet (stored_wallet w) = stored_wallet w.
Proof. intros [_ _ _ _ H1 H2]. unfold stored_wallet; cbn. by rewrite !norm_norm. Qed.

Lemma stored_entry_ok e : entry_storable e -> entry_storable (stored_entry e).
Proof.
  intros [Hok Hid Hw Ht Hc Hb H1]. constructor; cbn; auto using norm_late.
  destruct Hok. constructor; cbn; try done; [by rewrite norm_IsZero|apply norm_utc].
Qed.

Lemma stored_entry_idem e : entry_storable e -> stored_entry (stored_entry e) = stored_entry e.
Proof. intros [_ _ _ _ _ _ H1]. unfold stored_entry; cbn. by rewrite !norm_norm. Qed.

Lemma stored_tx_ok t : tx_storable t -> tx_storable (stored_tx t).
Proof.
  intros Hs. destruct Hs. constructor; cbn; auto using norm_late.
  destruct ts_ok. constructor; cbn; try done.
  - rewrite norm_IsZero by done. split; [apply to_createdAt|apply norm_utc].
  - rewrite norm_IsZero by done. split; [apply to_updatedAt|apply norm_utc].
  - apply norm_utc.
  - apply norm_utc.
  - rewrite !norm_IsZero by done. done.
Qed.

Lemma stored_tx_idem t : tx_storable t -> stored_tx (stored_tx t) = stored_tx t.
Proof. intros Hs. destruct Hs. unfold stored_tx; cbn. by rewrite !norm_norm. Qed.

(** ** Movements *)

Lemma Wallet_move_storable w d eid tid a at_ mv :
  wallet_storable w -> stored_wallet w = w ->
  id_ok eid -> id_ok tid -> clock_time at_ -> money_ok a ->
  d = Debit \/ d = Credit -> Wallet_move w d eid tid a at_ = Ok mv ->
  entry_storable (mv_Entry mv) /\ wallet_storable (with_version 1 (mv_Wallet mv)) /\
  moved_wallet w (with_version (w_version w) (mv_Wallet mv)) (mv_Entry mv) /\
  w_version (mv_Wallet mv) = i64 (w_version w + 1) /\
  w_updatedAt (mv_Wallet mv) = at_ /\ le_createdAt (mv_Entry mv) = at_ /\
  le_direction (mv_Entry mv) = d /\ le_id (mv_Entry mv) = eid /\
  le_transactionID (mv_Entry mv) = tid /\ le_amount (mv_Entry mv) = a /\
  currency (le_amount (mv_Entry mv)) = w_currency w.
Proof.
  intros Hw Hst He Ht Hat Ha Hd H'. pose proof (clock_time_UTC _ Hat) as Hutc.
  apply Wallet_move_Ok in H' as (Heok & Hmw & Hme & Hb & Hp & Hc & Htz); [|apply Hw|done|done].
  rewrite Hutc in *. pose proof Hw as [Hok Hid Hpl Hcur H1 H2].
  assert (Hlate : set_late at_) by by apply clock_time_late.
  assert (Hbal : 0 <= minor (w_balance w)) by apply Hok.
  assert (Hcu : currency (w_balance w) = w_currency w) by apply Hok.
  assert (Hini : Money_IsInitialised (w_balance w) = true) by apply Hok.
  split_and!.
  - constructor; [done|..]; rewrite Hme; cbn -[signed]; [done|done|done|by rewrite Hc|lia|done].
  - rewrite Hmw, Hme. cbn -[signed]. constructor; cbn -[signed]; try done.
    destruct Hok. constructor; cbn -[signed]; try done.
    + unfold Money_IsInitialised in *. cbn -[signed]. by rewrite <- Hcu.
    + destruct Hat. done.
  - rewrite Hmw, Hme. cbn -[signed]. unfold moved_wallet. cbn -[signed].
    split_and!; try done; lia.
  - by rewrite Hmw.
  - by rewrite Hmw.
  - by rewrite Hme.
  - by rewrite Hme.
  - by rewrite Hme.
  - by rewrite Hme.
  - by rewrite Hme.
  - by rewrite Hme.
Qed.

(** ** Parsed commands *)

Record parsed_ok (p : parsedSubmit) : Prop := {
  pk_key : id_ok (ps_key p);
  pk_hash : id_ok (ps_hash p);
  pk_providerID : id_ok (ps_providerID p);
  pk_externalID : id_ok (ps_externalID p);
  pk_playerID : id_ok (ps_playerID p);
  pk_walletID : id_ok (ps_walletID p);
  pk_roundID : id_ok (ps_roundID p);
  pk_gameID : id_ok (ps_gameID p);
  pk_kind : Kind_Valid (ps_kind p) = true;
  pk_money : money_ok (ps_money p);
  pk_amount : 0 <= minor (ps_money p);
  pk_currency : currency_ok (currency (ps_money p));
  pk_reference : id_fits (ps_reference p)
}.

Lemma ParseCurrency_value s c : ParseCurrency s = Ok c -> cur_code c = s /\ currency_ok c.
Proof.
  unfold currency_ok, ParseCurrency. intros H'. guards H'. injection H' as <-. cbn.
  by rewrite G, G0.
Qed.

Lemma Submit_parse_ok cmd p : Submit_parse cmd = Ok p -> parsed_ok p.
Proof.
  unfold Submit_parse. intros H'.
  apply result_bind_Ok in H' as (hash & [Hhash _]%parseIdentifier_iff & H').
  apply result_bind_Ok in H' as (key & [? _]%parseIdentifier_iff & H').
  apply result_bind_Ok in H' as (prov & [? _]%parseIdentifier_iff & H').
  apply result_bind_Ok in H' as (ext & [? _]%parseIdentifier_iff & H').
  apply result_bind_Ok in H' as (pl & [? _]%parseIdentifier_iff & H').
  apply result_bind_Ok in H' as (wal & [? _]%parseIdentifier_iff & H').
  apply result_bind_Ok in H' as (rnd & [? _]%parseIdentifier_iff & H').
  apply result_bind_Ok in H' as (game & [? _]%parseIdentifier_iff & H').
  destruct (Kind_Valid (sc_Kind cmd)) eqn:Hk; [|done]. cbn [negb] in H'.
  apply result_bind_Ok in H' as (cur & [_ Hcur]%ParseCurrency_value & H').
  apply result_bind_Ok in H' as (money & Hm & H').
  apply result_bind_Ok in H' as (ref & Href & H'). injection H' as <-.
  unfold ParseExternalMoney in Hm. apply result_bind_Ok in Hm as (m & Hm & Hneg).
  destruct (Z.ltb_spec (minor m) 0); [done|]. injection Hneg as <-.
  pose proof (ParseMoney_ok _ _ _ Hm). apply ParseMoney_minor in Hm as (_ & Hc & _).
  constructor; cbn; try done; [by rewrite Hc|].
  case_bool_decide; [injection Href as <-; by left|].
  apply parseIdentifier_iff in Href as [? _]. by right.
Qed.

(** ** Operations *)

Lemma NewExternalTransaction_storable p tid at_ t :
  parsed_ok p -> id_ok tid -> clock_time at_ ->
  NewExternalTransaction (external_params p tid at_) = Ok t ->
  tx_storable t /\ t_id t = tid /\ t_kind t = ps_kind p /\ t_origin t = OriginExternal /\
  t_status t = StatusPending /\ t_walletID t = ps_walletID p /\ t_playerID t = ps_playerID p /\
  t_money t = ps_money p /\ t_providerID t = ps_providerID p /\ t_externalID t = ps_externalID p /\
  t_payloadHash t = ps_hash p /\ t_idempotencyKey t = ps_key p /\ t_roundID t = ps_roundID p /\
  t_referenceExternalID t = ps_reference p /\ t_resolvedReferenceID t = zeroId /\
  t_referenceAttempts t = 0 /\ t_kind t <> KindOpening /\
  Kind_validateAmount (ps_kind p) (ps_money p) = Ok () /\
  (Kind_IsReversal (ps_kind p) = true -> id_ok (ps_reference p)).
Proof.
  intros Hp Hid Hat H'. pose proof (NewExternalTransaction_ok _ _ H') as Hok.
  pose proof (clock_time_UTC _ Hat) as Hutc. pose proof (clock_time_late _ Hat) as Hlate.
  unfold NewExternalTransaction in H'. guards H'.
  apply result_bind_Ok in H' as ([] & Ha & H'). guards H'. injection H' as <-.
  cbn in Hutc |- *. apply bool_decide_eq_false in G0.
  split.
  - constructor; cbn; try done; try (right; apply Hp); try apply Hp; try (by left).
  - split_and!; try done. intros Hrev. destruct (pk_reference p Hp) as [Hz|]; [|done].
    cbn in *. rewrite Hz, Hrev in *. done.
Qed.

Lemma Tx_Reject_storable t code at_ t' :
  tx_storable t -> clock_time at_ -> Tx_Reject t code at_ = Ok t' ->
  tx_storable t' /\ t_status t' = StatusRejected /\ t_resolvedReferenceID t' = t_resolvedReferenceID t.
Proof.
  intros Ht Hat H'.
  assert (Hok : tx_ok t').
  { pose proof H' as H2. unfold Tx_Reject in H2. guards H2. apply bool_decide_eq_false in G.
    eapply step_close_ok; [| |apply Ht|exact H2]; auto. }
  unfold Tx_Reject in H'. guards H'. apply transition_Ok in H' as (_ & _ & _ & ->).
  rewrite (clock_time_UTC _ Hat) in *. pose proof (clock_time_late _ Hat).
  split; [|done]. destruct Ht. by constructor.
Qed.

Lemma MarkProcessed_storable t b at_ t' :
  tx_storable t -> clock_time at_ -> 0 <= minor b <= MaxInt64 -> MarkProcessed t b at_ = Ok t' ->
  tx_storable t' /\ t_status t' = StatusProcessed /\ t_balanceAfter t' = b /\
  t_resolvedReferenceID t' = t_resolvedReferenceID t.
Proof.
  intros Ht Hat Hb H'.
  assert (Hok : tx_ok t') by (eapply step_process_ok; [apply Ht|exact H']).
  pose proof H' as H2. unfold MarkProcessed in H'. guards H'. apply negb_false_iff in G.
  apply transition_Ok in H' as (_ & _ & _ & ->).
  rewrite (clock_time_UTC _ Hat) in *. pose proof (clock_time_late _ Hat).
  split; [|done]. destruct Ht. constructor; cbn; try done. by rewrite G.
Qed.

Lemma ResolveReference_storable t id at_ t' :
  tx_storable t -> clock_time at_ -> id_ok id -> ResolveReference t id at_ = Ok t' ->
  tx_storable t' /\ t_resolvedReferenceID t' = id /\ t_status t' = t_status t.
Proof.
  intros Ht Hat Hid H'.
  assert (Hok : tx_ok t') by (eapply step_resolve_ok; [apply Ht|exact H']).
  unfold ResolveReference in H'. guards H'. injection H' as <-.
  rewrite (clock_time_UTC _ Hat) in *. pose proof (clock_time_late _ Hat).
  split; [|done]. destruct Ht. constructor; cbn; try done. by right.
Qed.

Lemma MarkPendingReference_storable t at_ n d t' :
  tx_storable t -> clock_time at_ -> set_late n -> set_late d ->
  t_referenceAttempts t < int32_max -> MarkPendingReference t at_ n d = Ok t' ->
  tx_storable t' /\ t_status t' = StatusPendingReference /\
  t_resolvedReferenceID t' = t_resolvedReferenceID t.
Proof.
  intros Ht Hat Hn Hd Hlt H'. pose proof (to_attempts t (ts_ok t Ht)).
  assert (Hok : tx_ok t').
  { eapply step_park_ok; [apply Ht| |exact H']. unfold int32_max, MaxInt64 in *. lia. }
  unfold MarkPendingReference in H'. guards H'. apply transition_Ok in H' as (_ & _ & _ & ->).
  rewrite (clock_time_UTC _ Hat) in *. pose proof (clock_time_late _ Hat).
  split; [|done]. destruct Ht. constructor; cbn -[i64]; try done.
  rewrite i64_id; [lia|]. width. unfold int32_max in *. lia.
Qed.

Lemma RescheduleReference_storable t at_ n t' :
  tx_storable t -> clock_time at_ -> set_late n ->
  t_referenceAttempts t < int32_max -> RescheduleReference t at_ n = Ok t' ->
  tx_storable t' /\ t_status t' = StatusPendingReference /\
  t_resolvedReferenceID t' = t_resolvedReferenceID t.
Proof.
  intros Ht Hat Hn Hlt H'. pose proof (to_attempts t (ts_ok t Ht)).
  assert (Hok : tx_ok t').
  { eapply step_reschedule_ok; [apply Ht| |exact H']. unfold int32_max, MaxInt64 in *. lia. }
  unfold RescheduleReference in H'. guards H'. injection H' as <-.
  apply negb_false_iff, bool_decide_eq_true in G.
  rewrite (clock_time_UTC _ Hat) in *. pose proof (clock_time_late _ Hat).
  split; [|done]. destruct Ht. constructor; cbn -[i64]; try done.
  rewrite i64_id; [lia|]. width. unfold int32_max in *. lia.
Qed.

(** ** The steps that cannot fail *)

Definition unfinished (t : WagerTransaction) : Prop :=
  t_status t = StatusPending \/ t_status t = StatusPendingReference.

Lemma unfinished_not_terminal t : unfinished t -> Tx_IsTerminal t = false.
Proof. unfold Tx_IsTerminal. by intros [->| ->]. Qed.

Lemma unfinished_allowed t to :
  unfinished t -> to = StatusProcessed \/ to = StatusRejected -> allowed (t_status t) to = true.
Proof. intros [->| ->] [->| ->]; apply allowed_iff; naive_solver. Qed.

Lemma transition_succeeds t to at_ f :
  t_id t <> zeroId -> clock_time at_ -> allowed (t_status t) to = true ->
  exists t', transition t to at_ f = Ok t'.
Proof.
  intros Hid Hat Ha. eexists. apply transition_Ok. split_and!; [done|by apply clock_time_nonzero|done|done].
Qed.

Lemma MarkProcessed_succeeds t b at_ :
  tx_ok t -> unfinished t -> clock_time at_ -> Money_IsInitialised b = true ->
  currency b = currency (t_money t) -> exists t', MarkProcessed t b at_ = Ok t'.
Proof.
  intros Hok Hu Hat Hb Hc. unfold MarkProcessed. rewrite Hb, Hc, bool_decide_eq_true_2 by done.
  rewrite andb_false_r. cbn [negb]. apply transition_succeeds; [apply Hok|done|].
  apply unfinished_allowed; auto.
Qed.

Lemma Tx_Reject_succeeds t code at_ :
  tx_ok t -> unfinished t -> clock_time at_ -> code <> "" -> exists t', Tx_Reject t code at_ = Ok t'.
Proof.
  intros Hok Hu Hat Hc. unfold Tx_Reject. rewrite bool_decide_eq_false_2 by done.
  apply transition_succeeds; [apply Hok|done|]. apply unfinished_allowed; auto.
Qed.

Lemma ResolveReference_succeeds t id at_ :
  unfinished t -> Kind_IsReversal (t_kind t) = true -> id_ok id -> clock_time at_ ->
  exists t', ResolveReference t id at_ = Ok t'.
Proof.
  intros Hu Hk Hid Hat. unfold ResolveReference. rewrite Hk, (id_ok_not_zero id Hid).
  rewrite (unfinished_not_terminal t Hu), (clock_time_nonzero at_ Hat). cbn. eauto.
Qed.

Lemma MarkPendingReference_succeeds t at_ n d :
  tx_ok t -> t_status t = StatusPending -> Kind_IsReversal (t_kind t) = true -> clock_time at_ ->
  Time_IsZero n = false -> Time_IsZero d = false -> exists t', MarkPendingReference t at_ n d = Ok t'.
Proof.
  intros Hok Hs Hk Hat Hn Hd. unfold MarkPendingReference. rewrite Hk, Hn, Hd. cbn [negb orb].
  apply transition_succeeds; [apply Hok|done|]. rewrite Hs. apply allowed_iff. naive_solver.
Qed.

Lemma RescheduleReference_succeeds t at_ n :
  t_status t = StatusPendingReference -> clock_time at_ -> Time_IsZero n = false ->
  exists t', RescheduleReference t at_ n = Ok t'.
Proof.
  intros Hs Hat Hn. unfold RescheduleReference. rewrite bool_decide_eq_true_2 by done.
  rewrite Hn, (clock_time_nonzero at_ Hat). cbn. eauto.
Qed.

(** A refused movement names its reason. *)
Lemma Wallet_move_Err_code w d eid tid a at_ e :
  wallet_ok w -> money_ok a -> d = Debit \/ d = Credit ->
  Wallet_move w d eid tid a at_ = Err e -> exists code, e = DomainError code /\ code <> "".
Proof.
  intros Hw Ha Hd He. rewrite Wallet_move_exact in He by done. unfold move_ref, fail in He.
  repeat case_match; try discriminate He; injection He as <-; by eexists.
Qed.
End storable.
