(* ===== verification/SubmitSpec.v ===== *)
(** * SubmitSpec: what submitting an operation may do to the store

    The abstract specification of [SubmitTransaction]: a relation between the
    store before, the parsed command, the answer, and the store after; the
    errors it may report; and the proof that every outcome keeps the invariant
    of the store. *)

From S2P Require Import Prelude Errors GoTime Money Identifier Ledger Wallet Transaction Event.
From S2P Require Import Idempotency Identity Ports Store StoreInv Policy Recorder Reversal.
From S2P Require Import Submit Storable.

#[local] Open Scope string_scope.
#[local] Open Scope list_scope.
#[local] Open Scope Z_scope.

(** ** The verdict on a reference *)

(** What is concluded about a reference that was found, given whether it has
    been reversed already. *)
Definition reference_verdict (reversal reference : WagerTransaction) (reversed : bool) : resolution :=
  if decide (t_status reference = StatusPending \/ t_status reference = StatusPendingReference)
  then waitResolution
  else if decide (t_status reference <> StatusProcessed /\
                  (t_status reference = StatusRejected \/ t_status reference = StatusFailed))
  then rejectResolution CodeReferenceNotReversible
  else if negb (CanReverse (t_kind reversal) (t_kind reference))
  then rejectResolution CodeReferenceNotReversible
  else if decide (t_playerID reversal <> t_playerID reference \/
                  t_walletID reversal <> t_walletID reference \/
                  currency (t_money reversal) <> currency (t_money reference) \/
                  t_roundID reversal <> t_roundID reference)
  then rejectResolution CodeReferenceMismatch
  else if decide (t_money reversal <> t_money reference)
  then rejectResolution CodeReferenceAmountMismatch
  else if reversed then rejectResolution CodeAlreadyReversed
  else match ReversalDirection (t_kind reference) with
       | Ok d => mkResolution resolveApply reference d ""
       | Err _ => waitResolution
       end.

Definition finds_reference (s : Store) (reversal reference : WagerTransaction) : Prop :=
  s_txs s !! id_value (t_id reference) = Some reference /\
  t_providerID reference = t_providerID reversal /\
  t_externalID reference = t_referenceExternalID reversal.

Definition reversed_in (s : Store) (reference : WagerTransaction) : Prop :=
  exists t, s_txs s !! id_value (t_id t) = Some t /\
    t_resolvedReferenceID t = t_id reference /\ t_status t = StatusProcessed.

#[global] Instance reversed_in_dec s reference : Decision (reversed_in s reference).
Proof.
  refine (cast_if (decide (map_Exists (fun k t => k = id_value (t_id t) /\
    t_resolvedReferenceID t = t_id reference /\ t_status t = StatusProcessed) (s_txs s)))).
  - destruct m as (k & t & Hk & -> & ? & ?). by exists t.
  - intros (t & Hk & ? & ?). apply n. by exists (id_value (t_id t)), t.
Defined.

Definition decides (s : Store) (reversal : WagerTransaction) (d : resolution) : Prop :=
  (d = waitResolution /\ forall r, ~ finds_reference s reversal r) \/
  (exists r reversed, finds_reference s reversal r /\ (reversed = true <-> reversed_in s r) /\
     d = reference_verdict reversal r reversed).

(** ** Outcomes of a fresh operation *)

Section spec.
Context `{Precision}.

(** The records of a list of events, appended to the outbox. *)
Definition appended (s : Store) (events : list Event) (s' : Store) : Prop :=
  exists recs, s' = set_outbox (s_outbox s ++ recs) s /\
    Forall2 (fun ev qr => exists id corr at_,
      id <> "" /\ qr.2 = stored_record (new_record id ev corr at_)) events recs.

(** How a freshly built operation [t0] against wallet [w] ends: the finished
    operation, and the movement when there is one. *)
Inductive settles (waiting : ReferencePolicy) (s : Store) (w : Wallet) (t0 : WagerTransaction)
    (at_ : Time) : WagerTransaction -> option Movement -> Prop :=
| settles_unmoving t :
    Kind_MovesMoney (t_kind t0) = false ->
    MarkProcessed t0 (w_balance w) at_ = Ok t ->
    settles waiting s w t0 at_ t None
| settles_moved eid mv t :
    id_ok eid -> Kind_IsReversal (t_kind t0) = false -> Kind_MovesMoney (t_kind t0) = true ->
    wallet_movement w t0 (t_id t0) eid at_ = Ok mv ->
    MarkProcessed t0 (w_balance (mv_Wallet mv)) at_ = Ok t ->
    settles waiting s w t0 at_ t (Some mv)
| settles_refused eid e code t :
    id_ok eid -> Kind_IsReversal (t_kind t0) = false -> Kind_MovesMoney (t_kind t0) = true ->
    wallet_movement w t0 (t_id t0) eid at_ = Err e -> As_domain e = Some code ->
    Tx_Reject t0 code at_ = Ok t ->
    settles waiting s w t0 at_ t None
| settles_parked wait t :
    Kind_IsReversal (t_kind t0) = true -> decides s t0 waitResolution ->
    0 <= wait <= rp_MaxBackoff waiting ->
    MarkPendingReference t0 at_ (Time_Add at_ wait) (Time_Add at_ (rp_TTL waiting)) = Ok t ->
    settles waiting s w t0 at_ t None
| settles_unresolvable code t :
    Kind_IsReversal (t_kind t0) = true -> decides s t0 (rejectResolution code) ->
    Tx_Reject t0 code at_ = Ok t ->
    settles waiting s w t0 at_ t None
| settles_reversed r d eid mv t1 t :
    id_ok eid -> Kind_IsReversal (t_kind t0) = true ->
    decides s t0 (mkResolution resolveApply r d "") ->
    reversal_movement w t0 d eid at_ = Ok mv ->
    ResolveReference t0 (t_id r) at_ = Ok t1 ->
    MarkProcessed t1 (w_balance (mv_Wallet mv)) at_ = Ok t ->
    settles waiting s w t0 at_ t (Some mv)
| settles_irreversible r d eid e code t :
    id_ok eid -> Kind_IsReversal (t_kind t0) = true ->
    decides s t0 (mkResolution resolveApply r d "") ->
    reversal_movement w t0 d eid at_ = Err e -> As_domain e = Some code ->
    Tx_Reject t0 code at_ = Ok t ->
    settles waiting s w t0 at_ t None.

(** What is written for a finished operation. *)
Definition writes_outcome (s : Store) (w : Wallet) (t : WagerTransaction) (omv : option Movement)
    (r : SubmitResult) (s' : Store) : Prop :=
  (forall name, ~ tx_conflict s t name) /\
  match omv with
  | None =>
    r = mkSubmitResult t (w_balance w) false /\
    exists events, eventsForOutcome t w noEntry false = Ok events /\
      appended (put_tx (stored_tx t) s) events s'
  | Some mv =>
    r = mkSubmitResult t (w_balance (mv_Wallet mv)) false /\
    w_version (mv_Wallet mv) = w_version w + 1 /\
    exists q events, eventsForOutcome t (mv_Wallet mv) (mv_Entry mv) true = Ok events /\
      appended (record_moved (stored_tx t) (stored_wallet (mv_Wallet mv)) q
                  (stored_entry (mv_Entry mv)) s) events s'
  end.

Definition known_operation (s : Store) (p : parsedSubmit) (t : WagerTransaction) : Prop :=
  s_txs s !! id_value (t_id t) = Some t /\
  t_providerID t = ps_providerID p /\ t_externalID t = ps_externalID p.

Record applies (waiting : ReferencePolicy) (s : Store) (p : parsedSubmit) (r : SubmitResult)
    (s' : Store) (tid : TransactionID) (at_ : Time) (w : Wallet) (t0 t : WagerTransaction)
    (omv : option Movement) : Prop := {
  ap_unknown : forall t', ~ known_operation s p t';
  ap_id : id_ok tid;
  ap_clock : clock_time at_;
  ap_new : NewExternalTransaction (external_params p tid at_) = Ok t0;
  ap_wallet : s_wallets s !! id_value (ps_walletID p) = Some w;
  ap_player : w_playerID w = ps_playerID p;
  ap_settles : settles waiting s w t0 at_ t omv;
  ap_writes : writes_outcome s w t omv r s'
}.

Definition submit_outcome (waiting : ReferencePolicy) (s : Store) (p : parsedSubmit)
    (r : SubmitResult) (s' : Store) : Prop :=
  (exists t, known_operation s p t /\ Submit_replay t p = Ok r /\ s' = s) \/
  (exists tid at_ w t0 t omv, applies waiting s p r s' tid at_ w t0 t omv).

(** ** Errors *)

(** Why a parsed command for an operation nobody knows is refused. *)
Inductive submit_error (p : parsedSubmit) (s : Store) : error -> Prop :=
| se_invalid tid at_ e :
    id_ok tid -> clock_time at_ -> NewExternalTransaction (external_params p tid at_) = Err e ->
    submit_error p s e
| se_no_wallet :
    s_wallets s !! id_value (ps_walletID p) = None ->
    submit_error p s (SentinelError ErrNotFound)
| se_player w :
    s_wallets s !! id_value (ps_walletID p) = Some w -> w_playerID w <> ps_playerID p ->
    submit_error p s (Wrapped (SentinelError ErrInvalidInput))
| se_loss_currency w :
    s_wallets s !! id_value (ps_walletID p) = Some w ->
    ps_kind p = KindLoss -> currency (ps_money p) <> w_currency w ->
    submit_error p s (DomainError CodeCurrencyMismatch)
| se_key_reused t :
    s_txs s !! id_value (t_id t) = Some t ->
    t_providerID t = ps_providerID p -> t_idempotencyKey t = ps_key p ->
    submit_error p s (NewConflict constraintIdempotencyKey)
| se_id_collision name :
    name = "wager_transactions_pkey" \/ name = "wallet_ledger_entries_pkey" \/
    name = "outbox_events_pkey" ->
    submit_error p s (NewConflict name)
| se_version_exhausted w name :
    s_wallets s !! id_value (ps_walletID p) = Some w ->
    w_version w = MaxInt64 -> submit_error p s (NewInvariantViolation name).

(** Why running a command fails: the first of authorisation, parsing and
    isolation that refuses it; then, for an operation the store knows, the
    refusal of its replay, and otherwise one of the above. *)
Inductive execute_error (ctx : Context) (cmd : SubmitCommand) (s : Store) (e : error) : Prop :=
| ee_caller : caller ctx ScopeSubmit = Err e -> execute_error ctx cmd s e
| ee_parse i :
    caller ctx ScopeSubmit = Ok i -> Submit_parse cmd = Err e -> execute_error ctx cmd s e
| ee_provider i p :
    caller ctx ScopeSubmit = Ok i -> Submit_parse cmd = Ok p ->
    mayActAs i (ps_providerID p) = Err e -> execute_error ctx cmd s e
| ee_replay i p t :
    caller ctx ScopeSubmit = Ok i -> Submit_parse cmd = Ok p ->
    mayActAs i (ps_providerID p) = Ok () ->
    known_operation s p t -> Submit_replay t p = Err e -> execute_error ctx cmd s e
| ee_refused i p :
    caller ctx ScopeSubmit = Ok i -> Submit_parse cmd = Ok p ->
    mayActAs i (ps_providerID p) = Ok () ->
    (forall t, ~ known_operation s p t) -> submit_error p s e -> execute_error ctx cmd s e.

(** ** The verdict *)

Lemma disagreement_iff rev r :
  disagreement rev r = "" <->
  ~ (t_playerID rev <> t_playerID r \/ t_walletID rev <> t_walletID r \/
     currency (t_money rev) <> currency (t_money r) \/ t_roundID rev <> t_roundID r).
Proof. unfold disagreement. repeat case_bool_decide; cbn; (split; [intros; done || tauto|]); tauto. Qed.

Lemma reference_verdict_cases rev r b :
  reference_verdict rev r b = waitResolution \/
  (exists code, code <> "" /\ reference_verdict rev r b = rejectResolution code) \/
  (b = false /\ exists d, reference_verdict rev r b = mkResolution resolveApply r d "").
Proof.
  unfold reference_verdict.
  destruct (decide (t_status r = StatusPending \/ _)); [by left|].
  destruct (decide (t_status r <> StatusProcessed /\ _)); [right; left; eexists; by split; [|reflexivity]|].
  destruct (CanReverse _ _); cbn [negb]; [|right; left; eexists; by split; [|reflexivity]].
  destruct (decide (t_playerID rev <> _ \/ _)); [right; left; eexists; by split; [|reflexivity]|].
  destruct (decide (t_money rev <> _)); [right; left; eexists; by split; [|reflexivity]|].
  destruct b; [right; left; eexists; by split; [|reflexivity]|].
  destruct (ReversalDirection _); [|by left]. right; right. eauto.
Qed.

Lemma decides_cases s rev d :
  decides s rev d ->
  d = waitResolution \/ (exists code, code <> "" /\ d = rejectResolution code) \/
  exists r dir, d = mkResolution resolveApply r dir "" /\ ~ reversed_in s r.
Proof.
  intros [[-> _]|(r & b & _ & Hb & ->)]; [by left|].
  destruct (reference_verdict_cases rev r b) as [->|[(code & ? & ->)|(-> & dir & ->)]];
    [by left|right; left; eauto|right; right]. exists r, dir. split; [done|]. intros Hin%Hb. done.
Qed.

Lemma reference_verdict_apply rev r b r' d c :
  Status_Valid (t_status r) = true ->
  reference_verdict rev r b = mkResolution resolveApply r' d c ->
  r' = r /\ b = false /\ c = "" /\ t_status r = StatusProcessed /\
  CanReverse (t_kind rev) (t_kind r) = true /\ ReversalDirection (t_kind r) = Ok d /\
  t_playerID r = t_playerID rev /\ t_walletID r = t_walletID rev /\
  t_roundID r = t_roundID rev /\ t_money r = t_money rev.
Proof.
  intros Hv. unfold reference_verdict, waitResolution, rejectResolution.
  destruct (decide (t_status r = StatusPending \/ _)) as [|Hp]; [done|].
  destruct (decide (t_status r <> StatusProcessed /\ _)) as [|Hs]; [done|].
  destruct (CanReverse _ _) eqn:Hc; [|done]. cbn [negb].
  destruct (decide (t_playerID rev <> _ \/ _)) as [|Hd]; [done|].
  destruct (decide (t_money rev <> _)) as [|Hm]; [done|]. destruct b; [done|].
  destruct (ReversalDirection (t_kind r)) as [d'|] eqn:Hr; [|done]. intros E. injection E as <- <- <-.
  unfold Status_Valid in Hv. apply bool_decide_eq_true in Hv.
  unfold all_statuses in Hv. rewrite !elem_of_cons, elem_of_nil in Hv.
  assert (t_status r = StatusProcessed).
  { destruct (decide (t_status r = StatusProcessed)); [done|]. tauto. }
  split_and!; try done; symmetry; apply dec_stable; tauto.
Qed.

(** ** Every outcome keeps the invariant *)

Lemma store_ok_appended s events s' : appended s events s' -> store_ok s -> store_ok s'.
Proof. intros (recs & -> & _) Hs. by apply (store_ok_frame s). Qed.

Lemma grows_appended s events s' : appended s events s' -> grows s s'.
Proof. intros (recs & -> & _). apply grows_frame; try done. by exists recs. Qed.

Lemma eventsForOutcome_announces t w e moved events :
  eventsForOutcome t w e moved = Ok events ->
  t_status t = StatusProcessed \/ t_status t = StatusRejected \/ t_status t = StatusPendingReference ->
  exists ev, ev ∈ events /\ announces t ev.
Proof.
  unfold eventsForOutcome, announces. intros Hev0 Hst.
  destruct Hst as [E|[E|E]]; rewrite E in Hev0 |- *; cbn -[bool_decide] in Hev0.
  - rewrite bool_decide_eq_true_2 in Hev0 by done. apply result_bind_Ok in Hev0 as (ev & Hev & Hev0).
    unfold NewWagerTransactionProcessed in Hev. guards Hev. apply marshalEvent_Ok in Hev as (_ & _ & ->).
    destruct moved; [apply result_bind_Ok in Hev0 as (ev2 & _ & Hev0)|];
      injection Hev0 as <-; (eexists; split; [left|done]).
  - rewrite bool_decide_eq_false_2, bool_decide_eq_true_2 in Hev0 by done.
    apply result_bind_Ok in Hev0 as (ev & Hev & Hev0). injection Hev0 as <-.
    unfold NewWagerTransactionRejected in Hev. guards Hev. apply marshalEvent_Ok in Hev as (_ & _ & ->).
    eexists. split; [left|done].
  - rewrite 2!bool_decide_eq_false_2, bool_decide_eq_true_2 in Hev0 by done.
    apply result_bind_Ok in Hev0 as (ev & Hev & Hev0). injection Hev0 as <-.
    unfold NewWagerTransactionPendingReference in Hev. guards Hev.
    apply marshalEvent_Ok in Hev as (_ & _ & ->). eexists. split; [left|done].
Qed.

Lemma appended_elem s events s' ev : appended s events s' -> ev ∈ events ->
  exists q r, (q, r) ∈ s_outbox s' /\ ev_AggregateID (or_Event r) = ev_AggregateID ev /\
    ev_Type (or_Event r) = ev_Type ev.
Proof.
  intros (recs & -> & Hall) Hev. apply list_elem_of_lookup in Hev as [i Hi].
  destruct (Forall2_lookup_l _ _ _ _ _ Hall Hi) as ([q r] & Hq & id & corr & at_ & _ & E).
  cbn in E. exists q, r. split; [|by rewrite E]. cbn. apply elem_of_app. right.
  by eapply list_elem_of_lookup_2.
Qed.

(** Writing an operation and appending its events. *)
Lemma evolves_written s s1 s' t w e moved events :
  grows s s1 -> s_txs s1 = <[id_value (t_id t) := stored_tx t]> (s_txs s) ->
  t_status t = StatusProcessed \/ t_status t = StatusRejected \/ t_status t = StatusPendingReference ->
  eventsForOutcome t w e moved = Ok events -> appended s1 events s' -> evolves s s'.
Proof.
  intros Hg Htx Hst Hev Happ. split; [eapply grows_trans; [done|by eapply grows_appended]|].
  destruct (eventsForOutcome_announces _ _ _ _ _ Hev Hst) as (ev & Hin & Ha & Hty).
  destruct (appended_elem _ _ _ _ Happ Hin) as (q & r & Hq & Hra & Hrt).
  apply (announced_put s s' (stored_tx t)).
  - destruct Happ as (recs & -> & _). exact Htx.
  - exists q, r. split; [done|]. split; cbn; congruence.
Qed.

(** A finished operation that was not in the store yet. *)
Lemma fresh_recordable s t w :
  tx_storable t -> (forall name, ~ tx_conflict s t name) ->
  s_wallets s !! id_value (t_walletID t) = Some w -> w_playerID w = t_playerID t ->
  (t_resolvedReferenceID t <> zeroId -> t_status t = StatusProcessed) ->
  recordable s (stored_tx t).
Proof.
  intros Ht Hc Hw Hp Hres. constructor.
  - by apply stored_tx_ok.
  - by apply stored_tx_idem.
  - unfold writable. cbn. destruct (s_txs s !! _) eqn:E; [|done]. exfalso.
    apply (Hc "wager_transactions_pkey"). left. split; [done|]. by rewrite E.
  - intros name _. apply Hc.
  - exact Hres.
  - exists w. done.
Qed.

Lemma ReversalDirection_valid k d : ReversalDirection k = Ok d -> d = Debit \/ d = Credit.
Proof.
  unfold ReversalDirection. destruct (Kind_Direction k) as [x []]; cbn; [|done].
  intros E. injection E as <-. unfold Direction_Opposite. case_bool_decide; auto.
Qed.

Lemma reversal_movement_Ok w t0 d eid at_ mv :
  d = Debit \/ d = Credit -> reversal_movement w t0 d eid at_ = Ok mv ->
  Wallet_move w d eid (t_id t0) (t_money t0) at_ = Ok mv.
Proof.
  unfold reversal_movement, Wallet_Debit, Wallet_Credit. intros [->| ->].
  - rewrite bool_decide_eq_false_2 by done.
    destruct (Wallet_move _ _ _ _ _ _); [done|]. by case_match.
  - by rewrite bool_decide_eq_true_2.
Qed.

Lemma wallet_movement_Ok w t0 tid eid at_ mv :
  wallet_movement w t0 tid eid at_ = Ok mv ->
  exists d, (d = Debit \/ d = Credit) /\ Kind_Direction (t_kind t0) = (d, true) /\
    Wallet_move w d eid tid (t_money t0) at_ = Ok mv.
Proof.
  unfold wallet_movement, Wallet_Debit, Wallet_Credit.
  case_bool_decide as E; [rewrite E; exists Debit; auto|].
  case_bool_decide as E2; [rewrite E2; exists Credit; auto|done].
Qed.

(** What a finished operation is, whichever way it ended. *)
Record settled_facts (s : Store) (w : Wallet) (t0 t : WagerTransaction) (omv : option Movement)
    : Prop := {
  sf_storable : tx_storable t;
  sf_request : same_request t0 t;
  sf_unmoved : omv = None -> t_status t = StatusProcessed -> Kind_MovesMoney (t_kind t) = false;
  sf_resolved : t_resolvedReferenceID t <> zeroId -> t_status t = StatusProcessed;
  sf_status : t_status t = StatusProcessed \/ t_status t = StatusRejected \/
    t_status t = StatusPendingReference;
  sf_moved : forall mv, omv = Some mv ->
    t_status t = StatusProcessed /\ Kind_MovesMoney (t_kind t) = true /\
    t_balanceAfter t = w_balance (mv_Wallet mv) /\
    exists d eid at_, (d = Debit \/ d = Credit) /\ id_ok eid /\ clock_time at_ /\
      Wallet_move w d eid (t_id t) (t_money t) at_ = Ok mv /\ moved_as s t d /\
      (Kind_IsReversal (t_kind t) = true -> reversal_sound s t)
}.

Lemma same_request_trans t1 t2 t3 : same_request t1 t2 -> same_request t2 t3 -> same_request t1 t3.
Proof. intros (?&?&?&?&?&?&?&?&->) (?&?&?&?&?&?&?&?&->). by repeat eexists. Qed.

Lemma Kind_reversal_moves k : Kind_IsReversal k = true -> Kind_MovesMoney k = true.
Proof.
  unfold Kind_IsReversal, Kind_MovesMoney. rewrite orb_true_iff, !bool_decide_eq_true.
  intros [->| ->]; done.
Qed.

Lemma MarkProcessed_step t b at_ t' : MarkProcessed t b at_ = Ok t' -> same_request t t'.
Proof. intros H'%step_process%tx_step_frame. done. Qed.
Lemma Tx_Reject_step t c at_ t' : Tx_Reject t c at_ = Ok t' -> same_request t t'.
Proof. intros H'%step_reject%tx_step_frame. done. Qed.
Lemma ResolveReference_step t i at_ t' : ResolveReference t i at_ = Ok t' -> same_request t t'.
Proof. intros H'%step_resolve%tx_step_frame. done. Qed.
Lemma MarkPending_step t at_ n d t' : MarkPendingReference t at_ n d = Ok t' -> same_request t t'.
Proof. intros H'%step_park%tx_step_frame. done. Qed.

Lemma same_request_kind t t' : same_request t t' ->
  t_id t' = t_id t /\ t_kind t' = t_kind t /\ t_money t' = t_money t.
Proof. intros Hsame%same_request_frame. by destruct_and!. Qed.

(** A rejected operation moved nothing. *)
Lemma rejected_facts s w t0 code at_ t :
  tx_storable t0 -> clock_time at_ -> t_resolvedReferenceID t0 = zeroId -> Tx_Reject t0 code at_ = Ok t ->
  settled_facts s w t0 t None.
Proof.
  intros Ht Hat Hz Hr. pose proof (Tx_Reject_step _ _ _ _ Hr).
  apply Tx_Reject_storable in Hr as (? & Hst & Hres); [|done..].
  constructor; auto; first [done|by rewrite Hst|by rewrite Hres].
Qed.

Lemma wallet_balance_bounds w : wallet_storable w -> 0 <= minor (w_balance w) <= MaxInt64.
Proof. intros Hw. apply Hw. Qed.

Lemma moved_balance_bounds w d eid tid a at_ mv :
  wallet_storable w -> money_ok a -> d = Debit \/ d = Credit ->
  Wallet_move w d eid tid a at_ = Ok mv -> 0 <= minor (w_balance (mv_Wallet mv)) <= MaxInt64.
Proof.
  intros Hw Ha Hd H'. apply Wallet_move_Ok in H' as (_ & -> & -> & Hb & _); [|apply Hw|done..].
  cbn -[signed]. done.
Qed.

(** An applied reversal, whether it has waited or not. *)
Lemma reversed_facts s w t0 r d eid mv t1 t at_ :
  store_ok s -> tx_storable t0 -> clock_time at_ ->
  s_wallets s !! id_value (t_walletID t0) = Some w ->
  id_ok eid -> Kind_IsReversal (t_kind t0) = true ->
  decides s t0 (mkResolution resolveApply r d "") ->
  reversal_movement w t0 d eid at_ = Ok mv ->
  ResolveReference t0 (t_id r) at_ = Ok t1 ->
  MarkProcessed t1 (w_balance (mv_Wallet mv)) at_ = Ok t ->
  settled_facts s w t0 t (Some mv).
Proof.
  intros Hs Ht0 Hat Hw He Hrev Hdec Hmv Hr Hp.
  destruct (so_wallet s Hs _ w Hw) as (_ & Hws & _).
  pose proof (ts_money t0 Ht0) as Hmoney.
  pose proof (ResolveReference_step _ _ _ _ Hr) as Hreq1. pose proof (MarkProcessed_step _ _ _ _ Hp) as Hreq2.
  pose proof (same_request_trans _ _ _ Hreq1 Hreq2) as Hreq.
  destruct (same_request_kind _ _ Hreq) as (Hid & Hk & Hmy).
  destruct Hdec as [[? _]|(r' & b & Hf & Hb & Hv)]; [done|].
  destruct Hf as (Hr' & Hprov & Hext). destruct (so_tx s Hs _ r' Hr') as (_ & Hr's & _).
  symmetry in Hv. apply reference_verdict_apply in Hv
    as (-> & -> & _ & Hrst & Hcan & Hdir & Hrp & Hrw & Hrr & Hrm); [|apply Hr's].
  assert (Hd : d = Debit \/ d = Credit) by by eapply ReversalDirection_valid.
  apply reversal_movement_Ok in Hmv; [|done].
  apply ResolveReference_storable in Hr as (Ht1 & Hres1 & _); [|done|done|apply Hr's].
  apply MarkProcessed_storable in Hp as (Hts & Hst & Hbal & Hres2); [|done|done|by eapply moved_balance_bounds].
  apply same_request_frame in Hreq as Hfr. destruct_and!.
  assert (Hlook : s_txs s !! id_value (t_resolvedReferenceID t) = Some r').
  { by rewrite Hres2, Hres1. }
  constructor; auto; [done|]. intros mv' E. injection E as <-.
  split_and!; [done|by rewrite Hk; apply Kind_reversal_moves|done|].
  exists d, eid, at_. rewrite Hid, Hmy. split_and!; [done..| |].
  + unfold moved_as. rewrite Hk, Hrev. eauto.
  + intros _. exists r'. rewrite Hk. split_and!; congruence.
Qed.

Lemma settles_facts waiting s w t0 at_ t omv :
  store_ok s -> tx_storable t0 -> t_resolvedReferenceID t0 = zeroId ->
  t_referenceAttempts t0 < int32_max ->
  clock_time at_ -> 0 <= rp_TTL waiting ->
  s_wallets s !! id_value (t_walletID t0) = Some w ->
  settles waiting s w t0 at_ t omv -> settled_facts s w t0 t omv.
Proof.
  intros Hs Ht0 Hres Hatt Hat Httl Hw Hset.
  destruct (so_wallet s Hs _ w Hw) as (_ & Hws & Hwst & _).
  pose proof (ts_money t0 Ht0) as Hmoney. destruct Hat as [Hutc Hlow] eqn:Ehat.
  assert (Hlate : forall d, 0 <= d -> set_late (Time_Add at_ d)).
  { intros d Hd. right. cbn. lia. }
  inversion Hset as [t' Hm Hp|eid mv t' He Hrev Hm Hmv Hp|eid e code t' He Hrev Hm Hmv Hd Hr
    |wait t' Hrev Hdec Hwait Hp|code t' Hrev Hdec Hr|r d eid mv t1 t' He Hrev Hdec Hmv Hr Hp
    |r d eid e code t' He Hrev Hdec Hmv Hd Hr]; subst.
  - pose proof (MarkProcessed_step _ _ _ _ Hp) as Hreq. destruct (same_request_kind _ _ Hreq) as (_ & Hk & _).
    apply MarkProcessed_storable in Hp as (? & ? & _); [|done|done|by apply wallet_balance_bounds].
    constructor; auto; [by rewrite Hk|done].
  - pose proof (MarkProcessed_step _ _ _ _ Hp) as Hreq.
    destruct (same_request_kind _ _ Hreq) as (Hid & Hk & Hmy).
    apply wallet_movement_Ok in Hmv as (d & Hd & Hdir & Hmv).
    apply MarkProcessed_storable in Hp as (? & ? & ? & _); [|done|done|by eapply moved_balance_bounds].
    constructor; auto; [done|]. intros mv' E. injection E as <-. split_and!; [done|congruence|done|].
    exists d, eid, at_. unfold moved_as. rewrite Hid, Hmy, Hk, Hrev. split_and!; done.
  - by eapply rejected_facts.
  - pose proof (MarkPending_step _ _ _ _ _ Hp) as Hreq.
    apply MarkPendingReference_storable in Hp as (? & Hst & Hres2); [|done|done|by apply Hlate; lia|by apply Hlate|done].
    constructor; auto; first [done|by rewrite Hst|congruence].
  - by eapply rejected_facts.
  - by eapply reversed_facts.
  - by eapply rejected_facts.
Qed.

(** The movement of a settled operation is one the store can record. *)
Lemma settled_movable s w t0 t mv :
  store_ok s -> s_wallets s !! id_value (w_id w) = Some w -> t_walletID t = w_id w ->
  settled_facts s w t0 t (Some mv) -> w_version (mv_Wallet mv) = w_version w + 1 ->
  movable s (stored_tx t) w (stored_wallet (mv_Wallet mv)) (stored_entry (mv_Entry mv)).
Proof.
  intros Hs Hw Htw Hf Hver. destruct (so_wallet s Hs _ w Hw) as (_ & Hws & Hwst & _).
  destruct (sf_moved _ _ _ _ _ Hf mv eq_refl) as (Hst & Hm & Hbal & d & eid & at_ & Hd & He & Hat & Hmv & Has & Hrev).
  pose proof (sf_storable _ _ _ _ _ Hf) as Hts.
  destruct (Wallet_move_storable w d eid (t_id t) (t_money t) at_ mv) as
    (Hent & Hwal & Hmoved & Hv & _ & _ & Hdir & _ & Htid & Hamt & Hcur); [done..|apply Hts|done|apply Hts|done|done|].
  assert (Hpos : 1 <= w_version w <= MaxInt64) by apply Hws.
  assert (Hmax : w_version w + 1 <= MaxInt64).
  { pose proof (i64_range (w_version w + 1)). rewrite <- Hv, Hver in *. width; lia. }
  assert (Hws' : wallet_storable (mv_Wallet mv)).
  { destruct Hwal as [Hok ? ? ? ? ?]. constructor; cbn in *; try done.
    destruct Hok. constructor; cbn in *; try done. lia. }
  destruct Hmoved as (Hid & Hpl & Hcu & Hca & Hb & _ & Hbb & Hew & Hcc). cbn in *.
  constructor.
  - done.
  - split_and!; cbn; try done; [|lia]. rewrite Hca. exact (f_equal w_createdAt Hwst).
  - split; [by apply stored_wallet_ok|by apply stored_wallet_idem].
  - split; [by apply stored_entry_ok|by apply stored_entry_idem].
  - cbn. split_and!; try done. congruence.
  - cbn. by rewrite Hdir.
  - cbn. intros Hk. destruct (Hrev Hk) as (r & Hr & Hrest). exists r. done.
Qed.

Lemma writes_outcome_ok s w t0 t omv r s' :
  store_ok s -> s_wallets s !! id_value (w_id w) = Some w -> t_walletID t = w_id w ->
  w_playerID w = t_playerID t -> settled_facts s w t0 t omv ->
  writes_outcome s w t omv r s' -> store_ok s' /\ evolves s s'.
Proof.
  intros Hs Hw Htw Hp Hf [Hc Hwr]. pose proof (sf_storable _ _ _ _ _ Hf) as Hts.
  assert (Hrec : recordable s (stored_tx t)) by (eapply fresh_recordable; [done..|by rewrite Htw|done|apply Hf]).
  pose proof (rc_writable _ _ Hrec) as Hwrit. destruct omv as [mv|].
  - destruct Hwr as (_ & Hver & q & events & Hev & Happ).
    pose proof (settled_movable s w t0 t mv Hs Hw Htw Hf Hver) as Hm. split.
    + eapply store_ok_appended; [done|]. by apply (record_moved_ok s _ w).
    + eapply (evolves_written s _ s' t);
        [exact (grows_record_moved s _ w _ q _ Hs Hwrit Hm)|done|apply Hf|exact Hev|exact Happ].
  - destruct Hwr as (_ & events & Hev & Happ). split.
    + eapply store_ok_appended; [done|]. apply put_unmoved_ok; [done|done|].
      cbn. by apply (sf_unmoved _ _ _ _ _ Hf).
    + eapply (evolves_written s _ s' t); [exact (grows_put_tx s _ Hs Hwrit)|done|apply Hf|exact Hev|exact Happ].
Qed.

Lemma applies_facts waiting s p r s' tid at_ w t0 t omv :
  store_ok s -> parsed_ok p -> 0 <= rp_TTL waiting ->
  applies waiting s p r s' tid at_ w t0 t omv ->
  settled_facts s w t0 t omv /\ s_wallets s !! id_value (w_id w) = Some w /\
  t_walletID t = w_id w /\ w_playerID w = t_playerID t /\ t_id t = tid /\
  t_providerID t = ps_providerID p /\ t_externalID t = ps_externalID p /\
  t_payloadHash t = ps_hash p /\ t_idempotencyKey t = ps_key p /\ t_kind t = ps_kind p /\
  t_money t = ps_money p /\ t_origin t = OriginExternal.
Proof.
  intros Hs Hp Httl [Hun Hid Hat Hnew Hw Hpl Hset Hwr].
  apply NewExternalTransaction_storable in Hnew; [|done..]. destruct_and!.
  destruct (so_wallet s Hs _ w Hw) as (Hwk & _).
  assert (Hwid : ps_walletID p = w_id w).
  { destruct (ps_walletID p), (w_id w). cbn in Hwk. by subst. }
  assert (Hf : settled_facts s w t0 t omv).
  { eapply settles_facts; eauto; [unfold int32_max; lia|congruence]. }
  pose proof (same_request_frame _ _ (sf_request _ _ _ _ _ Hf)). destruct_and!.
  split_and!; try congruence.
Qed.

Lemma submit_outcome_ok waiting s p r s' :
  store_ok s -> parsed_ok p -> 0 <= rp_TTL waiting ->
  submit_outcome waiting s p r s' -> store_ok s' /\ evolves s s'.
Proof.
  intros Hs Hp Httl [(t & _ & _ & ->)|(tid & at_ & w & t0 & t & omv & Hap)].
  { split; [done|apply evolves_refl]. }
  destruct (applies_facts _ _ _ _ _ _ _ _ _ _ _ Hs Hp Httl Hap) as (Hf & Hw & Htw & Hpl & _).
  by eapply writes_outcome_ok; [..|apply Hap].
Qed.
End spec.
