(* ===== verification/SubmitProof.v ===== *)
(** * SubmitProof: [SubmitTransaction] implements its specification

    The computations of [Submit], run against any storage that keeps the laws
    of [Store], end in an outcome of [SubmitSpec] or in one of its errors. *)

From S2P Require Import Prelude Errors GoTime Money Identifier Ledger Wallet Transaction Event.
From S2P Require Import Idempotency Identity Ports Store StoreInv Policy Recorder Reversal.
From S2P Require Import Submit Storable SubmitSpec.

#[local] Open Scope string_scope.
#[local] Open Scope list_scope.
#[local] Open Scope Z_scope.

(** ** Events *)

Definition version_one (e : Event) : Prop := ev_Version e = 1.

Lemma marshalEvent_version ty agg at_ p e : marshalEvent ty agg at_ p = Ok e -> version_one e.
Proof. intros (_ & _ & ->)%marshalEvent_Ok. done. Qed.

Lemma events_version :
  (forall t e, NewWagerTransactionProcessed t = Ok e -> version_one e) /\
  (forall t e, NewWagerTransactionRejected t = Ok e -> version_one e) /\
  (forall t e, NewWagerTransactionPendingReference t = Ok e -> version_one e) /\
  (forall w l e, NewWalletBalanceChanged w l = Ok e -> version_one e).
Proof.
  unfold NewWagerTransactionProcessed, NewWagerTransactionRejected,
    NewWagerTransactionPendingReference, NewWalletBalanceChanged, fail.
  split_and!; intros * H; guards H; by eapply marshalEvent_version.
Qed.

Lemma eventsForOutcome_version t w e moved events :
  eventsForOutcome t w e moved = Ok events -> Forall version_one events.
Proof.
  destruct events_version as (V1 & V2 & V3 & V4). unfold eventsForOutcome. intros H.
  destruct (bool_decide (t_status t = StatusProcessed)), (bool_decide (t_status t = StatusRejected)),
    (bool_decide (t_status t = StatusPendingReference)).
  1-4: apply result_bind_Ok in H as (e1 & H1 & H); destruct moved;
    [apply result_bind_Ok in H as (e2 & H2 & H)|]; injection H as <-; eauto.
  1-3: apply result_bind_Ok in H as (e1 & H1 & H); injection H as <-; eauto.
  by injection H as <-.
Qed.

Lemma is_Ok_Ok {A} (r : result A) : is_Ok r = true -> exists a, r = Ok a.
Proof. destruct r; [eauto|done]. Qed.

Lemma events_unmoved_Ok t w :
  tx_ok t ->
  t_status t = StatusProcessed \/ t_status t = StatusRejected \/ t_status t = StatusPendingReference ->
  exists events, eventsForOutcome t w noEntry false = Ok events.
Proof.
  intros Hok [Hs|[Hs|Hs]]; unfold eventsForOutcome; rewrite Hs; cbn -[bool_decide].
  - rewrite bool_decide_eq_true_2 by done. rewrite NewWagerTransactionProcessed_Ok, decide_True by done.
    cbn. eauto.
  - rewrite bool_decide_eq_false_2, bool_decide_eq_true_2 by done.
    rewrite NewWagerTransactionRejected_Ok, decide_True by done. cbn. eauto.
  - rewrite 2!bool_decide_eq_false_2, bool_decide_eq_true_2 by done.
    pose proof (NewWagerTransactionPendingReference_is_Ok t Hok) as Hp. rewrite Hs in Hp.
    apply is_Ok_Ok in Hp as [e ->]. cbn. eauto.
Qed.

Lemma events_moved_Ok t w e :
  tx_ok t -> t_status t = StatusProcessed ->
  Wallet_IsInitialised w = true -> Time_IsZero (le_createdAt e) = false ->
  le_walletID e = w_id w -> le_balanceAfter e = w_balance w ->
  exists events, eventsForOutcome t w e true = Ok events.
Proof.
  intros Hok Hs Hi Ht Hw Hb. unfold eventsForOutcome. rewrite bool_decide_eq_true_2 by done.
  rewrite NewWagerTransactionProcessed_Ok, decide_True by done. cbn.
  pose proof (NewWalletBalanceChanged_is_Ok w e Hi Ht) as Hc.
  rewrite bool_decide_eq_true_2 in Hc by done. apply is_Ok_Ok in Hc as [e2 ->]. cbn. eauto.
Qed.

(** An accepted submission, seen from inside its transaction. *)
Definition accepts `{Precision} (waiting : ReferencePolicy) (ctx : Context) (cmd : SubmitCommand) (s : Store)
    (r : SubmitResult) (s' : Store) : Prop :=
  exists i p, caller ctx ScopeSubmit = Ok i /\ Submit_parse cmd = Ok p /\
    mayActAs i (ps_providerID p) = Ok () /\ submit_outcome waiting s p r s'.

(** A movement always has its two events. *)
Lemma settled_events `{Precision} s w t0 t mv :
  wallet_storable w -> settled_facts s w t0 t (Some mv) ->
  exists events, eventsForOutcome t (mv_Wallet mv) (mv_Entry mv) true = Ok events.
Proof.
  intros Hw Hf. destruct (sf_moved _ _ _ _ _ Hf mv eq_refl) as (Hst & _ & _ & d & eid & at_ & Hd & _ & Hat & Hmv & _).
  pose proof (sf_storable _ _ _ _ _ Hf) as Hts. pose proof (clock_time_nonzero _ Hat) as Hz.
  apply Wallet_move_Ok in Hmv as (_ & -> & -> & _); [|apply Hw|apply Hts|done].
  apply events_moved_Ok; cbn -[signed]; try done; [apply Hts|].
  unfold Wallet_IsInitialised. cbn. by rewrite (id_ok_not_zero _ (ws_id _ Hw)).
Qed.

Section proofs.
Context {W : Type} `{Storage W} `{Precision} `{!StorageLaws W}
  `{Clock W} `{!ClockLaws W} `{IDGenerator W} `{!IDLaws W} `{Rand W} `{!RandLaws W}
  (repos : Repositories W) `{!RepositoriesLaws W repos}.

(** The two ends of a computation begun on [s0]: [ends Q E] reads as "the
    open transaction sees a store with [Q], or the error has [E] and the
    transaction can only be rolled back". *)
Definition ends {A} (s0 : Store) (m : M W A) (w : W) (Q : A -> Store -> Prop) (E : error -> Prop) : Prop :=
  wp m w (fun a w' => exists s', Q a s' /\ st_tx w' s0 s')
    (fun e w' => (E e \/ st_infra e) /\ st_dead w' s0).

(** A computation a caller may go on after: when it ends in an error of the
    domain, the transaction is as it was, on the store [s]. *)
Definition safe_ends {A} (s0 s : Store) (m : M W A) (w : W) (Q : A -> Store -> Prop) (E : error -> Prop) : Prop :=
  wp m w (fun a w' => exists s', Q a s' /\ st_tx w' s0 s')
    (fun e w' => (E e \/ st_infra e) /\ st_dead w' s0 /\ (As_domain e <> None -> st_tx w' s0 s)).

Lemma ends_bind {A B} s0 (m : M W A) (f : A -> M W B) w R Q E :
  ends s0 m w R E ->
  (forall a s' w', R a s' -> st_tx w' s0 s' -> ends s0 (f a) w' Q E) ->
  ends s0 (m ≫= f) w Q E.
Proof.
  intros Hm Hf. apply wp_bind. eapply wp_mono; [exact Hm| |done].
  intros a w' (s' & HR & Htx). by eapply Hf.
Qed.

Lemma ends_ret {A} s0 (a : A) w s (Q : A -> Store -> Prop) E :
  st_tx w s0 s -> Q a s -> ends s0 (mret a) w Q E.
Proof. intros Htx HQ. apply wp_ret. eauto. Qed.

Lemma ends_throw {A} s0 e w s (Q : A -> Store -> Prop) (E : error -> Prop) :
  st_tx w s0 s -> E e -> ends s0 (throw e) w Q E.
Proof. intros Htx HE. apply wp_throw. split; [by left|]. by eapply st_tx_dead. Qed.

Lemma ends_pure {A} s0 (r : result A) w s (Q : A -> Store -> Prop) (E : error -> Prop) :
  st_tx w s0 s -> (forall a, r = Ok a -> Q a s) -> (forall e, r = Err e -> E e) ->
  ends s0 (pure r) w Q E.
Proof.
  intros Htx HQ HE. apply wp_pure; [eauto|]. intros e Hr. split; [eauto|]. by eapply st_tx_dead.
Qed.

Lemma ends_mono {A} s0 (m : M W A) w (Q Q' : A -> Store -> Prop) (E E' : error -> Prop) :
  ends s0 m w Q E -> (forall a s', Q a s' -> Q' a s') -> (forall e, E e -> E' e) ->
  ends s0 m w Q' E'.
Proof.
  intros Hm HQ HE. eapply wp_mono; [exact Hm| |].
  - intros a w' (s' & ? & ?). eauto.
  - intros e w' [[?|?] ?]; auto.
Qed.

Lemma safe_ends_ends {A} s0 s (m : M W A) w (Q : A -> Store -> Prop) E :
  safe_ends s0 s m w Q E -> ends s0 m w Q E.
Proof. intros Hm. eapply wp_mono; [exact Hm|done|]. intros e w' (? & ? & _). done. Qed.

(** Where no error of the domain is possible. *)
Lemma ends_safe_ends {A} s0 s (m : M W A) w (Q : A -> Store -> Prop) E :
  ends s0 m w Q E -> (forall e, E e -> As_domain e = None) -> safe_ends s0 s m w Q E.
Proof using StorageLaws0.
  intros Hm HE. eapply wp_mono; [exact Hm|done|]. intros e w' [He Hd]. split_and!; [done|done|].
  intros Hne. destruct Hne. destruct He as [He|He]; [by apply HE|by apply st_infra_error].
Qed.

Lemma safe_ends_mono {A} s0 s (m : M W A) w (Q Q' : A -> Store -> Prop) (E E' : error -> Prop) :
  safe_ends s0 s m w Q E -> (forall a s', Q a s' -> Q' a s') -> (forall e, E e -> E' e) ->
  safe_ends s0 s m w Q' E'.
Proof.
  intros Hm HQ HE. eapply wp_mono; [exact Hm| |].
  - intros a w' (s' & ? & ?). eauto.
  - intros e w' ([?|?] & ? & ?); auto.
Qed.

(** A step that leaves the store alone, in front. *)
Lemma safe_ends_bind_aside {A B} s0 s (m : M W A) (f : A -> M W B) w P Q E :
  aside m P -> st_tx w s0 s ->
  (forall a w', P a -> st_tx w' s0 s -> safe_ends s0 s (f a) w' Q E) -> safe_ends s0 s (m ≫= f) w Q E.
Proof using StorageLaws0.
  intros [Ha _] Htx Hf. apply wp_bind. eapply wp_mono; [by apply Ha| |].
  - intros a w' [? ?]. by apply Hf.
  - intros e w' [? ?]. split_and!; [by right|by eapply st_tx_dead|done].
Qed.

Lemma safe_ends_bind_pure {A B} s0 s (r : result A) (f : A -> M W B) w Q (E : error -> Prop) :
  st_tx w s0 s -> (forall e, r = Err e -> E e) ->
  (forall a, r = Ok a -> safe_ends s0 s (f a) w Q E) -> safe_ends s0 s (pure r ≫= f) w Q E.
Proof using StorageLaws0.
  intros Htx HE Hf. apply wp_bind, wp_pure; [done|]. intros e Hr.
  split_and!; [left; by apply HE|by eapply st_tx_dead|done].
Qed.

Lemma ends_aside {A} s0 (m : M W A) w s P E :
  aside m P -> st_tx w s0 s -> ends s0 m w (fun a s' => P a /\ s' = s) E.
Proof.
  intros [Ha _] Htx. eapply wp_mono; [by apply Ha| |].
  - intros a w' [? ?]. eauto.
  - intros e w' [? ?]. split; [by right|]. by eapply st_tx_dead.
Qed.

Lemma aside_tx {A} (m : M W A) P w s0 s :
  aside m P -> st_tx w s0 s ->
  wp m w (fun a w' => P a /\ st_tx w' s0 s) (fun e w' => st_infra e /\ st_tx w' s0 s).
Proof. intros [Ha _]. apply Ha. Qed.

Lemma aside_both {A} (m : M W A) P Q : aside m P -> aside m Q -> aside m (fun a => P a /\ Q a).
Proof.
  intros [P1 P2] [Q1 Q2].
  split; [intros w s0 s Hw; specialize (P1 w s0 s Hw); specialize (Q1 w s0 s Hw)
         |intros w s Hw; specialize (P2 w s Hw); specialize (Q2 w s Hw)];
    unfold wp in *; destruct (m w) as [[a|e] w']; tauto.
Qed.

Lemma aside_wrap {A} (m : M W A) P : aside m P -> aside (wrap_errM m) P.
Proof.
  intros [Ha Hb]. split; intros; apply wp_wrap; (eapply wp_mono; [eauto|done|]);
    intros e w' [? ?]; (split; [by apply st_infra_wrapped|done]).
Qed.

Lemma aside_ret {A} (a : A) (P : A -> Prop) : P a -> aside (W := W) (mret a) P.
Proof. intros Ha. by split; intros; apply wp_ret. Qed.

Lemma aside_pure_Ok {A} (r : result A) a : r = Ok a -> aside (W := W) (pure r) (fun x => x = a).
Proof. intros ->. by split; intros; apply wp_pure; [intros ? [= ->]| |intros ? [= ->]|]. Qed.

Lemma aside_bind {A B} (m : M W A) (f : A -> M W B) P Q :
  aside m P -> (forall a, P a -> aside (f a) Q) -> aside (m ≫= f) Q.
Proof.
  intros [Ha Hb] Hf. split; intros; apply wp_bind; (eapply wp_mono; [eauto| |done]);
    intros a w' [HP Hw']; by apply Hf.
Qed.

Lemma ends_writes s0 (m : M W unit) w s Done Refused (E : error -> Prop) :
  writes m Done Refused -> st_tx w s0 s -> (forall e, Refused s e -> E e) ->
  ends s0 m w (fun _ s' => Done s s') E.
Proof.
  intros Hm Htx HE. eapply wp_mono; [by apply Hm| |].
  - intros a w' (s' & ? & ?). eauto.
  - intros e w' [[?|?] ?]; auto.
Qed.

(** ** Recording events *)

Definition event_collision (e : error) : Prop := e = NewConflict "outbox_events_pkey".

Lemma record_each_ends ctx corr at_ events s0 s w :
  Forall version_one events -> st_tx w s0 s ->
  ends s0 (record_each ctx repos corr at_ events) w
    (fun _ s' => appended s events s') event_collision.
Proof.
  intros Hv. revert s w. induction Hv as [|ev events Hev Hv IH]; intros s w Htx; cbn [record_each].
  { eapply ends_ret; [done|]. exists []. rewrite app_nil_r. by destruct s. }
  eapply ends_bind; [eapply ends_aside; [apply NewEventID_aside|done]|].
  intros eid s1 w1 [Heid ->] Htx1.
  eapply ends_bind.
  { eapply ends_writes; [|exact Htx1|].
    - apply Outbox_Append_law; cbn; [unfold int32_max; lia| |by left]. rewrite Hev. unfold int32_max; lia.
    - intros e (name & -> & -> & _). done. }
  intros _ s2 w2 (_ & q & ->) Htx2.
  eapply ends_mono; [by apply IH| |done].
  intros _ s' (recs & -> & Hrecs). exists ((q, stored_record (new_record eid ev corr at_)) :: recs).
  cbn. rewrite <- app_assoc. split; [done|]. constructor; [|done]. by exists eid, corr, at_.
Qed.

Lemma emit_ends ctx t wallet entry moved events s0 s w :
  eventsForOutcome t wallet entry moved = Ok events -> st_tx w s0 s ->
  ends s0 (emit ctx repos t wallet entry moved) w
    (fun _ s' => appended s events s') event_collision.
Proof.
  intros He Htx. unfold emit.
  eapply ends_bind; [eapply (ends_pure _ _ _ _ (fun a s' => a = events /\ s' = s)); [done| |]|].
  - intros a Ha. split; congruence.
  - intros e Ha. congruence.
  - intros a s' w' [-> ->] Htx'. unfold record. destruct events as [|ev events].
    { eapply ends_ret; [done|]. exists []. rewrite app_nil_r. by destruct s. }
    eapply ends_bind; [eapply ends_aside; [apply now_aside|done]|]. intros at_ s1 w1 [_ ->] Htx1.
    apply record_each_ends; [|done]. by eapply eventsForOutcome_version.
Qed.

(** ** The reference of a reversal *)

Lemma resolveReference_ends rev s0 s w :
  store_ok s -> id_ok (t_providerID rev) -> id_ok (t_referenceExternalID rev) -> st_tx w s0 s ->
  ends s0 (resolveReference repos rev) w (fun d s' => decides s rev d /\ s' = s) (fun _ => False).
Proof.
  intros Hs Hp Hr Htx. unfold resolveReference. apply wp_catch.
  eapply wp_mono; [by apply FindByBusinessID_law| |].
  2:{ intros e w' [(-> & Hno & Htx')|[Hinf Hdead]].
      - cbn. apply wp_ret. exists s. split; [|done]. split; [|done]. left. split; [done|].
        intros r Hf. apply (Hno r), Hf.
      - destruct (st_infra_error e Hinf) as (_ & -> & _). apply wp_throw. auto. }
  intros r w1 [Hf Htx1].
  assert (Hfind : finds_reference s rev r) by done.
  destruct Hf as (Hlr & _). destruct (so_tx s Hs _ r Hlr) as (_ & Hrs & _).
  assert (Hret : forall b d, (b = true <-> reversed_in s r) -> d = reference_verdict rev r b ->
    forall w', st_tx w' s0 s ->
    ends s0 (mret d) w' (fun d s' => decides s rev d /\ s' = s) (fun _ => False)).
  { intros b d Hb -> w' Hw'. eapply ends_ret; [done|]. split; [|done]. right. eauto. }
  (* the verdict when the search for a previous reversal is not reached *)
  assert (Hearly : forall d, (forall b, d = reference_verdict rev r b) ->
    ends s0 (mret d) w1 (fun d s' => decides s rev d /\ s' = s) (fun _ => False)).
  { intros d Hd. destruct (decide (reversed_in s r)); [by apply (Hret true)|by apply (Hret false)]. }
  rewrite <- !bool_decide_or.
  case_bool_decide as C1.
  { apply Hearly. intros b. unfold reference_verdict. by rewrite decide_True. }
  case_bool_decide as C2.
  { apply Hearly. intros b. unfold reference_verdict. rewrite decide_False by done.
    rewrite decide_True; [done|]. split; [|done]. by destruct C2 as [->| ->]. }
  destruct (CanReverse (t_kind rev) (t_kind r)) eqn:C3; cbn [negb].
  2:{ apply Hearly. intros b. unfold reference_verdict. rewrite C3.
      rewrite !decide_False by tauto. done. }
  case_bool_decide as C4; cbn [negb]; rewrite disagreement_iff in C4.
  2:{ apply Hearly. intros b. unfold reference_verdict. rewrite C3. rewrite !decide_False by tauto.
      rewrite decide_True; [done|]. by apply dec_stable. }
  case_bool_decide as C5; cbn [negb].
  2:{ apply Hearly. intros b. unfold reference_verdict. rewrite C3. rewrite !decide_False by tauto.
      by rewrite decide_True. }
  assert (Hv : forall b, reference_verdict rev r b =
    if b then rejectResolution CodeAlreadyReversed
    else match ReversalDirection (t_kind r) with
         | Ok d => mkResolution resolveApply r d "" | Err _ => waitResolution end).
  { intros b. unfold reference_verdict. rewrite C3. rewrite !decide_False by tauto. done. }
  apply wp_catch. eapply wp_mono; [apply FindProcessedReversalOf_law; [apply Hrs|done]| |].
  { intros t w2 [Hrev Htx2]. eapply (Hret true); [|by rewrite Hv|done].
    split; [|done]. intros _. exists t. done. }
  intros e w2 [(-> & Hno & Htx2)|[Hinf Hdead]].
  2:{ destruct (st_infra_error e Hinf) as (_ & -> & _). apply wp_throw. auto. }
  cbn [negb is_sentinel errors_Is]. rewrite bool_decide_eq_true_2 by done. cbn [negb].
  destruct (CanReverse_direction _ _ C3) as (_ & d & d' & _ & Hd & _).
  rewrite Hd. apply wp_bind. apply wp_pure; [|done]. intros a E. injection E as <-.
  apply (Hret false); [|by rewrite Hv, Hd|done].
  split; [done|]. intros (t & Ht). by destruct (Hno t).
Qed.

(** ** Writing an outcome *)

(** The conflicts an insert of [t] can meet. *)
Definition insert_conflict (s : Store) (t : WagerTransaction) (e : error) : Prop :=
  is_conflict e (tx_conflict s t).

Lemma Insert_ends t s0 s w :
  tx_storable t -> is_Some (s_wallets s !! id_value (t_walletID t)) ->
  (t_resolvedReferenceID t <> zeroId -> is_Some (s_txs s !! id_value (t_resolvedReferenceID t))) ->
  st_tx w s0 s ->
  ends s0 (t_Insert (r_Transactions repos) t) w
    (fun _ s' => (forall name, ~ tx_conflict s t name) /\ s' = put_tx (stored_tx t) s)
    (insert_conflict s t).
Proof.
  intros Ht [wal Hwal] Href Htx.
  eapply ends_mono; [eapply ends_writes; [by apply Transactions_Insert_law|done|]| |].
  - intros e He. exact He.
  - intros _ s' (? & _ & ->). done.
  - intros e [He|(_ & [Hn|(Hr & Hn)])]; [done|congruence|]. destruct (Href Hr). congruence.
Qed.

Lemma insert_and_emit_ends ctx t wallet s0 s w :
  tx_storable t -> is_Some (s_wallets s !! id_value (t_walletID t)) ->
  (t_resolvedReferenceID t <> zeroId -> is_Some (s_txs s !! id_value (t_resolvedReferenceID t))) ->
  t_status t = StatusProcessed \/ t_status t = StatusRejected \/ t_status t = StatusPendingReference ->
  st_tx w s0 s ->
  ends s0 (insert_and_emit ctx repos t wallet) w
    (fun r s' => writes_outcome s wallet t None r s')
    (fun e => insert_conflict s t e \/ event_collision e).
Proof.
  intros Ht Hwal Href Hst Htx. unfold insert_and_emit.
  destruct (events_unmoved_Ok t wallet (ts_ok t Ht) Hst) as [events Hev].
  eapply ends_bind; [eapply ends_mono; [by apply Insert_ends|done|by left]|].
  intros [] s1 w1 [Hc ->] Htx1.
  eapply ends_bind; [eapply ends_mono; [by eapply emit_ends|done|by right]|].
  intros [] s2 w2 Happ Htx2. eapply ends_ret; [done|]. split; [done|]. split; [done|]. eauto.
Qed.

(** The version of a wallet has run out. *)
Definition version_exhausted (w : Wallet) (e : error) : Prop :=
  w_version w = MaxInt64 /\ exists name, e = NewInvariantViolation name.

(** The wallet and the entry of a movement, after the operation was written
    as [put_tx t s]. *)
Lemma movement_ends wallet mv t (s s1 : Store) s0 w d eid at_ :
  store_ok s -> s_wallets s !! id_value (w_id wallet) = Some wallet ->
  s_wallets s1 = s_wallets s -> s_ledger s1 = s_ledger s ->
  is_Some (s_txs s1 !! id_value (t_id t)) ->
  (forall q e, (q, e) ∈ s_ledger s -> le_transactionID e <> t_id t) ->
  id_ok (t_id t) -> money_ok (t_money t) -> id_ok eid -> clock_time at_ -> d = Debit \/ d = Credit ->
  Wallet_move wallet d eid (t_id t) (t_money t) at_ = Ok mv ->
  st_tx w s0 s1 ->
  ends s0 (_ ← w_UpdateBalance (r_Wallets repos) (mv_Wallet mv) (w_version wallet);
           l_Append (r_Ledger repos) (mv_Entry mv)) w
    (fun _ s' => w_version (mv_Wallet mv) = w_version wallet + 1 /\
       exists q, s' = add_entry q (stored_entry (mv_Entry mv))
         (put_wallet (stored_wallet (mv_Wallet mv)) s1))
    (fun e => version_exhausted wallet e \/ e = NewConflict "wallet_ledger_entries_pkey").
Proof.
  intros Hs Hw Hws Hls Ht Hfresh Hid Hmoney He Hat Hd Hmv Htx.
  destruct (so_wallet s Hs _ wallet Hw) as (_ & Hwst & Hnorm & _).
  destruct (Wallet_move_storable _ _ _ _ _ _ _ Hwst Hnorm He Hid Hat Hmoney Hd Hmv) as
    (Hent & Hwal & Hmoved & Hv & _ & _ & _ & _ & Htid & _).
  destruct Hmoved as (Hwid & Hwpl & Hwcur & Hwca & Hwbal & _ & _ & Hew & _). cbn in *.
  assert (Hpos : 1 <= w_version wallet <= MaxInt64) by apply Hwst.
  assert (Hbc : w_balance (mv_Wallet mv) = mkMoney (minor (w_balance (mv_Wallet mv))) (w_currency wallet)).
  { destruct (w_balance (mv_Wallet mv)) as [m c] eqn:E. f_equal. cbn.
    pose proof (wo_currency _ (ws_ok _ Hwal)) as Hc. cbn in Hc. rewrite E in Hc. cbn in Hc. congruence. }
  eapply ends_bind.
  { eapply ends_writes; [apply UpdateBalance_law; [done|rewrite Hv; apply i64_range]|done|].
    intros e [(-> & Hn)|[(-> & old & Hold & Hne)|((name & ->) & Hlt)]].
    - rewrite Hws, Hwid, Hw in Hn. done.
    - rewrite Hws, Hwid, Hw in Hold. congruence.
    - left. split; [|by exists name]. rewrite Hv in Hlt.
      destruct (decide (w_version wallet = MaxInt64)); [done|]. rewrite i64_id in Hlt by (width; lia). lia. }
  intros _ s2 w2 (old & Hold & _ & Hge & ->) Htx2.
  rewrite Hws, Hwid, Hw in Hold. injection Hold as <-.
  assert (Hver : w_version (mv_Wallet mv) = w_version wallet + 1).
  { rewrite Hv in Hge |- *. destruct (decide (w_version wallet = MaxInt64)) as [E|E].
    - exfalso. rewrite E in Hge. vm_compute in Hge. by apply Hge.
    - rewrite i64_id by (width; lia). done. }
  match type of Htx2 with st_tx _ _ (put_wallet ?x _) => assert (Hx : x = stored_wallet (mv_Wallet mv)) end.
  { unfold stored_wallet. rewrite Hwid, Hwpl, Hwcur, Hwca, <- Hbc. f_equal.
    symmetry. exact (f_equal w_createdAt Hnorm). }
  rewrite Hx in Htx2. clear Hx.
  eapply ends_mono; [eapply ends_writes; [by apply Append_law|done|]| |].
  - intros e Hr. exact Hr.
  - intros _ s' (_ & q & ->). split; [done|]. by exists q.
  - cbn. intros e [(name & -> & [->|(-> & q & e' & Hin & _ & Hsame)])|(_ & [Hn|Hn])]; [by right| | |].
    + exfalso. rewrite Hls in Hin. apply (Hfresh q e' Hin). congruence.
    + exfalso. rewrite Hew, Hwid, lookup_insert_eq in Hn. done.
    + exfalso. rewrite Htid in Hn. destruct Ht. congruence.
Qed.

(** ** Applying a reversal *)

(** The conflicts writing [t] can meet; over its own row, its identity is no
    longer one of them. *)
Definition write_conflict (s : Store) (t0 t : WagerTransaction) (e : error) : Prop :=
  is_conflict e (fun name => ((0 <? t_referenceAttempts t0) = true -> name <> "wager_transactions_pkey") /\
    tx_conflict s t name).

Lemma write_insert_conflict s t0 t e : write_conflict s t0 t e -> insert_conflict s t e.
Proof. intros (name & -> & _ & Hc). by exists name. Qed.

(** The row the reversal is written over: none yet (it has not waited), or
    its own. *)
Definition own_row (s : Store) (t0 : WagerTransaction) : Prop :=
  if 0 <? t_referenceAttempts t0
  then s_txs s !! id_value (t_id t0) = Some t0 /\ stored_tx t0 = t0
  else True.

(** Writing the finished reversal, over its own row when it has waited. *)
Lemma write_tx_ends t0 t s0 s w :
  tx_storable t -> tc tx_step t0 t -> t_referenceAttempts t = t_referenceAttempts t0 ->
  t_id t = t_id t0 -> own_row s t0 ->
  is_Some (s_wallets s !! id_value (t_walletID t)) ->
  (t_resolvedReferenceID t <> zeroId -> is_Some (s_txs s !! id_value (t_resolvedReferenceID t))) ->
  st_tx w s0 s ->
  ends s0 (if 0 <? t_referenceAttempts t then t_Update (r_Transactions repos) t
           else t_Insert (r_Transactions repos) t) w
    (fun _ s' => (forall name, name <> "wager_transactions_pkey" -> ~ tx_conflict s t name) /\
       ((0 <? t_referenceAttempts t0) = false -> s_txs s !! id_value (t_id t) = None) /\
       s' = put_tx (stored_tx t) s)
    (write_conflict s t0 t).
Proof.
  intros Ht Hstep Hatt Hid Hown Hwal Href Htx. rewrite Hatt. unfold own_row, write_conflict in *.
  destruct (0 <? t_referenceAttempts t0).
  - destruct Hown as [Hrow Hst]. eapply wp_mono; [eapply Transactions_Update_law; [done|exact Hstep|done|done|by rewrite Hid]| |].
    + intros _ w' [Hc Htx']. eexists. split; [|done]. done.
    + intros e w' [[He|[(_ & Hr & Hn)|He]] Hdead]; [| |by split; [right|]].
      * split; [left|done]. destruct He as (name & -> & ? & ?). by exists name.
      * destruct (Href Hr). congruence.
  - eapply ends_mono; [by apply Insert_ends| |intros e (name & -> & ?); by exists name]. intros _ s' [Hc ->]. split; [auto|]. split; [|done].
    intros _. destruct (s_txs s !! id_value (t_id t)) eqn:E; [|done]. exfalso.
    apply (Hc "wager_transactions_pkey"). left. split; [done|]. by rewrite E.
Qed.

(** What a reversal that was applied leaves. *)
Definition reversal_applied (s : Store) (wallet : Wallet) (t0 r : WagerTransaction) (d : Direction)
    (at_ : Time) (t : WagerTransaction) (mv : Movement) (s' : Store) : Prop :=
  exists eid t1 q,
    id_ok eid /\ reversal_movement wallet t0 d eid at_ = Ok mv /\
    ResolveReference t0 (t_id r) at_ = Ok t1 /\
    MarkProcessed t1 (w_balance (mv_Wallet mv)) at_ = Ok t /\
    (forall name, name <> "wager_transactions_pkey" -> ~ tx_conflict s t name) /\
    ((0 <? t_referenceAttempts t0) = false -> s_txs s !! id_value (t_id t) = None) /\
    w_version (mv_Wallet mv) = w_version wallet + 1 /\
    s' = record_moved (stored_tx t) (stored_wallet (mv_Wallet mv)) q (stored_entry (mv_Entry mv)) s.

(** How writing an applied reversal can fail. *)
Definition reversal_write_error (s : Store) (wallet : Wallet) (t0 r : WagerTransaction) (e : error) : Prop :=
  (exists t, same_request t0 t /\ t_resolvedReferenceID t = t_id r /\ write_conflict s t0 t e) \/
  version_exhausted wallet e \/ e = NewConflict "wallet_ledger_entries_pkey".

Lemma reversal_movement_inv wallet t0 d eid at_ mv :
  wallet_ok wallet -> money_ok (t_money t0) -> d = Debit \/ d = Credit ->
  reversal_movement wallet t0 d eid at_ = Ok mv ->
  Money_IsInitialised (w_balance (mv_Wallet mv)) = true /\
  currency (w_balance (mv_Wallet mv)) = currency (t_money t0).
Proof.
  intros Hw Hm Hd Hmv. apply reversal_movement_Ok in Hmv; [|done].
  apply Wallet_move_Ok in Hmv as (_ & -> & -> & _ & _ & Hc & _); [|done..]. cbn.
  unfold Money_IsInitialised. cbn. rewrite <- (wo_currency _ Hw). split; [apply Hw|rewrite Hc; apply Hw].
Qed.

(** An unfinished operation has no entry in the ledger. *)
Lemma no_entry_yet s t0 q e :
  store_ok s -> unfinished t0 -> own_row s t0 ->
  ((0 <? t_referenceAttempts t0) = false -> s_txs s !! id_value (t_id t0) = None) ->
  (q, e) ∈ s_ledger s -> le_transactionID e <> t_id t0.
Proof.
  intros Hs Hu Hown Hnew He Hid. destruct (so_entry s Hs q e He) as (_ & _ & (t' & Ht' & Het) & _).
  rewrite Hid in Ht'. unfold own_row in Hown. destruct (0 <? t_referenceAttempts t0).
  - destruct Hown as [Hown _]. rewrite Hown in Ht'. injection Ht' as <-.
    destruct Het as [Hst _ _ _ _ _ _]. unfold unfinished in Hu; rewrite Hst in Hu. by destruct Hu.
  - rewrite Hnew in Ht'; done.
Qed.

Lemma applyReversal_wp ctx t0 wallet r d at_ s0 s w :
  store_ok s -> tx_storable t0 -> unfinished t0 -> Kind_IsReversal (t_kind t0) = true ->
  own_row s t0 -> clock_time at_ ->
  s_wallets s !! id_value (t_walletID t0) = Some wallet ->
  decides s t0 (mkResolution resolveApply r d "") -> st_tx w s0 s ->
  wp (applyReversal ctx repos t0 (mkResolution resolveApply r d "") wallet at_) w
    (fun '(t, mv) w' => exists s', reversal_applied s wallet t0 r d at_ t mv s' /\ st_tx w' s0 s')
    (fun e w' =>
       (exists code eid, id_ok eid /\ As_domain e = Some code /\ code <> "" /\
          reversal_movement wallet t0 d eid at_ = Err e /\ st_tx w' s0 s) \/
       (As_domain e = None /\ (reversal_write_error s wallet t0 r e \/ st_infra e) /\ st_dead w' s0)).
Proof.
  intros Hs Ht0 Hu Hrev Hown Hat Hw Hdec Htx.
  destruct (so_wallet s Hs _ wallet Hw) as (Hwk & Hwst & _).
  assert (Hdir : (d = Debit \/ d = Credit) /\ id_ok (t_id r) /\
    s_txs s !! id_value (t_id r) = Some r).
  { destruct Hdec as [[? _]|(r' & b & Hf & _ & Hv)]; [done|].
    destruct Hf as (Hr' & _). destruct (so_tx s Hs _ r' Hr') as (_ & Hr's & _).
    symmetry in Hv. apply reference_verdict_apply in Hv as (-> & _ & _ & _ & _ & Hd & _); [|apply Hr's].
    split_and!; [by eapply ReversalDirection_valid|apply Hr's|done]. }
  destruct Hdir as (Hd & Hrid & Hrl). unfold applyReversal. cbn [rs_direction rs_reference].
  apply wp_bind. eapply wp_mono; [exact (aside_tx _ _ _ _ _ (NewLedgerEntryID_aside ctx) Htx)| |].
  2:{ intros e w' [He Htx']. right. destruct (st_infra_error e He) as (? & _).
      split; [done|]. split; [by right|]. by eapply st_tx_dead. }
  intros eid w1 [Heid Htx1]. apply wp_bind. apply wp_pure.
  2:{ intros e He. left. assert (Hcode : exists code, e = DomainError code /\ code <> "").
      { unfold reversal_movement, Wallet_Debit, Wallet_Credit in He. case_bool_decide.
        - eapply Wallet_move_Err_code; [..|exact He]; [apply Hwst|apply Ht0|auto].
        - destruct (Wallet_move wallet Debit _ _ _ _) as [|e'] eqn:E; [done|].
          apply Wallet_move_Err_code in E as (c & -> & ?); [|apply Hwst|apply Ht0|auto].
          cbn in He. unfold fail in He. case_match; injection He as <-; by eexists. }
      destruct Hcode as (code & -> & Hc). exists code, eid. done. }
  intros mv Hmv. apply wp_bind.
  destruct (ResolveReference_succeeds t0 (t_id r) at_ Hu Hrev Hrid Hat) as [t1 Ht1].
  rewrite Ht1. apply wp_pure; [|done]. intros x E. injection E as <-. apply wp_bind.
  destruct (reversal_movement_inv _ _ _ _ _ _ (ws_ok _ Hwst) (ts_money _ Ht0) Hd Hmv) as [Hini Hcur].
  pose proof (ResolveReference_step _ _ _ _ Ht1) as Hreq1.
  destruct (ResolveReference_storable _ _ _ _ Ht0 Hat Hrid Ht1) as (Hts1 & Hres1 & Hst1).
  assert (Hu1 : unfinished t1) by (unfold unfinished; by rewrite Hst1).
  destruct (same_request_kind _ _ Hreq1) as (Hid1 & Hk1 & Hm1).
  destruct (MarkProcessed_succeeds t1 (w_balance (mv_Wallet mv)) at_ (ts_ok _ Hts1) Hu1 Hat Hini)
    as [t Ht]; [rewrite Hm1; exact Hcur|].
  rewrite Ht. apply wp_pure; [|done]. intros x E. injection E as <-. apply wp_bind.
  pose proof (MarkProcessed_step _ _ _ _ Ht) as Hreq2.
  pose proof (same_request_trans _ _ _ Hreq1 Hreq2) as Hreq.
  apply reversal_movement_Ok in Hmv as Hmv'; [|done].
  destruct (MarkProcessed_storable _ _ _ _ Hts1 Hat
    (moved_balance_bounds _ _ _ _ _ _ _ Hwst (ts_money _ Ht0) Hd Hmv') Ht) as (Hts & _ & _ & Hres).
  pose proof (same_request_frame _ _ Hreq) as Hfr. destruct_and!.
  assert (Hatt : t_referenceAttempts t = t_referenceAttempts t0).
  { unfold MarkProcessed in Ht. guards Ht. apply transition_Ok in Ht as (_ & _ & _ & ->). cbn.
    unfold ResolveReference in Ht1. guards Ht1. injection Ht1 as <-. done. }
  match goal with |- wp ?m ?w' ?Q ?E =>
    enough (Hends : ends s0 m w' (fun _ s' =>
      (forall name, name <> "wager_transactions_pkey" -> ~ tx_conflict s t name) /\
      ((0 <? t_referenceAttempts t0) = false -> s_txs s !! id_value (t_id t) = None) /\
      w_version (mv_Wallet mv) = w_version wallet + 1 /\
      exists q, s' = record_moved (stored_tx t) (stored_wallet (mv_Wallet mv)) q
        (stored_entry (mv_Entry mv)) s) (reversal_write_error s wallet t0 r)) end.
  { eapply wp_mono; [exact Hends| |].
    - intros _ w2 (s' & (Hc & Hn & Hv & q & ->) & Htx2). apply wp_ret. eexists. split; [|done].
      exists eid, t1, q. done.
    - intros e w2 [He Hdead]. right. split; [|done]. destruct He as [He|He]; [|by apply st_infra_error].
      destruct He as [(t' & _ & _ & (name & -> & _))|[(_ & name & ->)| ->]]; done. }
  unfold writeReversal.
  assert (Htwal : t_walletID t = w_id wallet).
  { apply id_value_inj. congruence. }
  eapply ends_bind.
  { eapply ends_mono; [apply (write_tx_ends t0 t s0 s); try done| |].
    - eapply tc_l; [by eapply step_resolve|]. apply tc_once. by eapply step_process.
    - rewrite Htwal, <- Hwk. eauto.
    - intros _. rewrite Hres, Hres1. eauto.
    - intros ? ? Hq. exact Hq.
    - intros e He. left. exists t. split_and!; [done|congruence|done]. }
  intros [] s1 w2 (Hc & Hn & ->) Htx2.
  assert (Hide : t_id t = t_id t0) by congruence. assert (Hmoe : t_money t = t_money t0) by congruence.
  assert (Hm : ends s0 (_ ← w_UpdateBalance (r_Wallets repos) (mv_Wallet mv) (w_version wallet);
    l_Append (r_Ledger repos) (mv_Entry mv)) w2
    (fun _ s' => w_version (mv_Wallet mv) = w_version wallet + 1 /\
       exists q, s' = add_entry q (stored_entry (mv_Entry mv))
         (put_wallet (stored_wallet (mv_Wallet mv)) (put_tx (stored_tx t) s)))
    (fun e => version_exhausted wallet e \/ e = NewConflict "wallet_ledger_entries_pkey")).
  { apply (movement_ends wallet mv t s _ s0 w2 d eid at_ Hs); [| | | | | | | | | |by rewrite Hide, Hmoe|done].
    - by rewrite <- Hwk.
    - reflexivity.
    - reflexivity.
    - cbn. rewrite lookup_insert_eq. eauto.
    - intros q e He. rewrite Hide. rewrite Hide in Hn. by apply (no_entry_yet s t0 q e).
    - apply Hts.
    - apply Hts.
    - exact Heid.
    - exact Hat.
    - exact Hd. }
  eapply ends_mono; [exact Hm| |].
  - intros _ s' (Hv & q & ->). split_and!; [done..|]. by exists q.
  - intros e [He|He]; right; auto.
Qed.

(** ** A fresh operation *)

Section fresh.
Context (waiting : ReferencePolicy)
  (Hpol : policy_ok (rp_BaseBackoff waiting) (rp_MaxBackoff waiting)) (Httl : 0 <= rp_TTL waiting).
Context (ctx : Context) (cmd : SubmitCommand) (p : parsedSubmit) (Hcmd : Submit_parse cmd = Ok p).
Context (s : Store) (Hs : store_ok s) (Hunknown : forall t, ~ known_operation s p t).
Context (tid : TransactionID) (Htid : id_ok tid) (at_ : Time) (Hat : clock_time at_).
Context (t0 : WagerTransaction)
  (Hnew : NewExternalTransaction (external_params p tid at_) = Ok t0).
Context (wallet : Wallet) (Hwallet : s_wallets s !! id_value (ps_walletID p) = Some wallet)
  (Hplayer : w_playerID wallet = ps_playerID p).

Lemma fresh_facts :
  tx_storable t0 /\ t_id t0 = tid /\ t_kind t0 = ps_kind p /\ t_origin t0 = OriginExternal /\
  t_status t0 = StatusPending /\ t_walletID t0 = ps_walletID p /\ t_playerID t0 = ps_playerID p /\
  t_money t0 = ps_money p /\ t_providerID t0 = ps_providerID p /\
  t_externalID t0 = ps_externalID p /\ t_idempotencyKey t0 = ps_key p /\
  t_referenceExternalID t0 = ps_reference p /\
  t_resolvedReferenceID t0 = zeroId /\ t_referenceAttempts t0 = 0 /\ t_kind t0 <> KindOpening /\
  (Kind_IsReversal (t_kind t0) = true -> id_ok (t_referenceExternalID t0)) /\
  wallet_storable wallet /\ unfinished t0.
Proof using Hs Hcmd Htid Hat Hnew Hwallet.
  pose proof (Submit_parse_ok _ _ Hcmd) as Hp. destruct (so_wallet s Hs _ wallet Hwallet) as (_ & ? & _).
  destruct (NewExternalTransaction_storable p tid at_ t0 Hp Htid Hat Hnew) as (? & H').
  destruct_and!. split_and!; try done.
  - intros Hk. replace (t_referenceExternalID t0) with (ps_reference p) by done.
    match goal with Hr : _ -> id_ok (ps_reference p) |- _ => apply Hr end. congruence.
  - by left.
Qed.

(** The conflicts a fresh operation can meet when it is written. *)
(** The ways the writing of an operation fails: none is an error of the
    domain. *)
Definition write_error (e : error) : Prop := submit_error p s e /\ As_domain e = None.

Lemma fresh_id_collision name :
  name = "wager_transactions_pkey" \/ name = "wallet_ledger_entries_pkey" \/ name = "outbox_events_pkey" ->
  write_error (NewConflict name).
Proof. split; [by apply se_id_collision|done]. Qed.

Lemma fresh_conflict t e :
  same_request t0 t ->
  (t_resolvedReferenceID t = zeroId \/
   exists r, t_resolvedReferenceID t = t_id r /\ ~ reversed_in s r) ->
  insert_conflict s t e -> write_error e.
Proof.
  intros Hreq%same_request_frame Hres (name & -> & Hc). destruct fresh_facts as (_ & Hf). destruct_and!.
  split; [|done]. destruct Hc as [[-> _]|[(-> & _ & Hc)|[(-> & _ & Hc)|[(-> & Ho & _)|(-> & _ & Hz & Hc)]]]].
  - apply se_id_collision. auto.
  - destruct Hc as (k & t' & Hk & _ & _ & Hprov & Hext). exfalso. apply (Hunknown t').
    destruct (so_tx s Hs k t' Hk) as (-> & _). split_and!; [done|congruence..].
  - destruct Hc as (k & t' & Hk & _ & _ & Hprov & Hkey).
    destruct (so_tx s Hs k t' Hk) as (-> & _). eapply (se_key_reused p s t'); congruence.
  - congruence.
  - exfalso. destruct Hres as [?|(r & Hr & Hrev)]; [done|]. apply Hrev.
    destruct Hc as (k & t' & Hk & _ & Hst & Hres). destruct (so_tx s Hs k t' Hk) as (-> & _).
    exists t'. split_and!; [done|congruence|done].
Qed.

Lemma fresh_event_collision e : event_collision e -> write_error e.
Proof. intros ->. apply fresh_id_collision. auto. Qed.

Lemma fresh_version_exhausted e : version_exhausted wallet e -> write_error e.
Proof using Hwallet. intros (Hv & name & ->). split; [by eapply se_version_exhausted|done]. Qed.

Definition fresh_done (r : SubmitResult) (s' : Store) : Prop :=
  exists t omv, settles waiting s wallet t0 at_ t omv /\ writes_outcome s wallet t omv r s'.

(** Writing an operation that moves nothing. *)
Lemma fresh_insert t s0 w :
  settles waiting s wallet t0 at_ t None -> t_resolvedReferenceID t = zeroId -> st_tx w s0 s ->
  ends s0 (insert_and_emit ctx repos t wallet) w fresh_done write_error.
Proof.
  intros Hset Hres Htx. destruct fresh_facts as (Hst0 & Hf). destruct_and!.
  assert (Hfacts : settled_facts s wallet t0 t None).
  { eapply settles_facts; try done; [unfold int32_max; lia|congruence]. }
  pose proof (same_request_frame _ _ (sf_request _ _ _ _ _ Hfacts)). destruct_and!.
  eapply ends_mono; [apply (insert_and_emit_ends ctx t wallet s0 s w)| |].
  - apply Hfacts.
  - exists wallet. congruence.
  - done.
  - apply Hfacts.
  - done.
  - intros r s' Hw. exists t, None. done.
  - intros e [He|He]; [|by apply fresh_event_collision].
    eapply fresh_conflict; [apply Hfacts|by left|done].
Qed.

Lemma fresh_reject code s0 w :
  code <> "" ->
  (forall t, Tx_Reject t0 code at_ = Ok t -> settles waiting s wallet t0 at_ t None) ->
  st_tx w s0 s ->
  ends s0 (recordReversalRejection ctx repos t0 code wallet at_) w fresh_done write_error.
Proof.
  intros Hc Hset Htx. destruct fresh_facts as (Hst0 & Hf). destruct_and!. unfold recordReversalRejection.
  destruct (Tx_Reject_succeeds t0 code at_) as [t Ht]; [apply Hst0|done..|].
  rewrite Ht. apply wp_bind, wp_pure; [|done]. intros x E. injection E as <-.
  apply fresh_insert; [by apply Hset| |done].
  apply Tx_Reject_storable in Ht as (_ & _ & ->); done.
Qed.

Lemma Submit_resolve_ends s0 w :
  Kind_IsReversal (t_kind t0) = true -> st_tx w s0 s ->
  ends s0 (Submit_resolve waiting ctx repos t0 wallet at_) w fresh_done write_error.
Proof.
  intros Hrev Htx. destruct fresh_facts as (Hst0 & Hf). destruct_and!.
  pose proof (Submit_parse_ok _ _ Hcmd) as Hp. unfold Submit_resolve.
  eapply ends_bind.
  { eapply ends_mono; [apply (resolveReference_ends t0 s0 s w); [done| |by auto|done]| |done].
    - replace (t_providerID t0) with (ps_providerID p) by done. apply Hp.
    - intros d s' Hd. exact Hd. }
  intros d s' w1 [Hdec ->] Htx1.
  pose proof (decides_cases _ _ _ Hdec) as Hcases.
  destruct Hcases as [->|[(code & Hcode & ->)|(r & dir & -> & Hnrev)]]; cbn [rs_outcome waitResolution rejectResolution].
  - eapply ends_bind.
    { eapply ends_aside; [apply nextAttemptAt_aside; [done|]|done]. unfold MaxInt64; lia. }
    intros next s1 w2 [(wait & -> & Hwait) ->] Htx2.
    destruct (backoff_window_spec _ _ 1 Hpol ltac:(unfold MaxInt64; lia)) as [Hwin _].
    assert (0 <= backoff_window (rp_BaseBackoff waiting) (rp_MaxBackoff waiting) 1 / 2) by (apply Z.div_pos; lia).
    pose proof (proj2 Hat) as Hlow.
    destruct (MarkPendingReference_succeeds t0 at_ (Time_Add at_ wait) (Time_Add at_ (rp_TTL waiting)))
      as [t Ht]; [apply Hst0|done..|unfold Time_IsZero; cbn; lia|unfold Time_IsZero; cbn; lia|].
    rewrite Ht. apply wp_bind, wp_pure; [|done]. intros x E. injection E as <-.
    apply fresh_insert; [| |done].
    + eapply settles_parked; [done|done| |exact Ht]. lia.
    + unfold MarkPendingReference in Ht. guards Ht. by apply transition_Ok in Ht as (_ & _ & _ & ->).
  - apply fresh_reject; [done| |done]. intros t Ht. by eapply settles_unresolvable.
  - apply wp_catch. eapply wp_mono; [apply (applyReversal_wp ctx t0 wallet r dir at_ s0 s w1); try done| |].
    + unfold own_row. by replace (t_referenceAttempts t0) with 0 by done.
    + by replace (t_walletID t0) with (ps_walletID p) by done.
    + intros [t mv] w2 (s' & (eid & t1 & q & He & Hmv & Ht1 & Ht & Hc & Hn & Hver & ->) & Htx2).
      assert (Hset : settles waiting s wallet t0 at_ t (Some mv)) by by eapply settles_reversed.
      assert (Hfacts : settled_facts s wallet t0 t (Some mv)).
      { eapply settles_facts; try done; [unfold int32_max; lia|congruence]. }
      destruct (settled_events s wallet t0 t mv) as [events Hev]; [done..|].
      eapply ends_bind; [eapply ends_mono; [by eapply emit_ends|done|by apply fresh_event_collision]|].
      intros [] s2 w3 Happ Htx3. eapply ends_ret; [done|]. exists t, (Some mv). split; [done|].
      split.
      * intros name Hcn. destruct (decide (name = "wager_transactions_pkey")) as [->|Hne]; [|by apply (Hc name Hne)].
        destruct Hcn as [[_ [x Hx]]|Hcn]; [|by destruct_or!; destruct_and?].
        rewrite Hn in Hx; [done|]. by replace (t_referenceAttempts t0) with 0 by done.
      * split_and!; [done|done|]. eauto.
    + intros e w2 [(code & eid & He & Hcode & Hne & Herr & Htx2)|(Hnd & He & Hdead)].
      * rewrite Hcode. apply fresh_reject; [done| |done]. intros t Ht. by eapply settles_irreversible.
      * rewrite Hnd. apply wp_throw. split; [|done]. destruct He as [He|He]; [left|by right].
        destruct He as [(t & Hreq & Hres & Hcf%write_insert_conflict)|[Hv| ->]].
        -- eapply fresh_conflict; [done| |done]. right. by exists r.
        -- by apply fresh_version_exhausted.
        -- apply fresh_id_collision. auto.
Qed.

(** Writing an operation together with its movement. *)
Lemma write_movement_ends t mv d eid s0 w :
  settles waiting s wallet t0 at_ t (Some mv) -> t_resolvedReferenceID t = zeroId ->
  id_ok eid -> d = Debit \/ d = Credit ->
  Wallet_move wallet d eid (t_id t) (t_money t) at_ = Ok mv -> st_tx w s0 s ->
  ends s0 (_ ← t_Insert (r_Transactions repos) t;
           _ ← w_UpdateBalance (r_Wallets repos) (mv_Wallet mv) (w_version wallet);
           _ ← l_Append (r_Ledger repos) (mv_Entry mv);
           _ ← emit ctx repos t (mv_Wallet mv) (mv_Entry mv) true;
           mret (mkSubmitResult t (w_balance (mv_Wallet mv)) false)) w
    fresh_done write_error.
Proof.
  intros Hset Hres He Hd Hmv Htx. destruct fresh_facts as (Hst0 & Hf). destruct_and!.
  assert (Hfacts : settled_facts s wallet t0 t (Some mv)).
  { eapply settles_facts; try done; [unfold int32_max; lia|congruence]. }
  pose proof (same_request_frame _ _ (sf_request _ _ _ _ _ Hfacts)). destruct_and!.
  pose proof (sf_storable _ _ _ _ _ Hfacts) as Hts.
  destruct (settled_events s wallet t0 t mv) as [events Hev]; [done..|].
  destruct (so_wallet s Hs _ wallet Hwallet) as (Hwk & _).
  eapply ends_bind.
  { eapply ends_mono; [apply (Insert_ends t s0 s w); [done|exists wallet; congruence|done|done]|intros ? ? Hq; exact Hq|].
    intros e Hc. by eapply fresh_conflict; [apply Hfacts|left|]. }
  intros [] s1 w1 [Hc ->] Htx1.
  assert (Hassoc : forall m : M W SubmitResult,
    (_ ← w_UpdateBalance (r_Wallets repos) (mv_Wallet mv) (w_version wallet);
     _ ← l_Append (r_Ledger repos) (mv_Entry mv); m) w1 =
    (_ ← (_ ← w_UpdateBalance (r_Wallets repos) (mv_Wallet mv) (w_version wallet);
          l_Append (r_Ledger repos) (mv_Entry mv)); m) w1).
  { intros m. unfold mbind, M_bind.
    destruct (w_UpdateBalance (r_Wallets repos) (mv_Wallet mv) (w_version wallet) w1) as [[] ?]; done. }
  unfold ends, wp. rewrite Hassoc.
  match goal with |- match ?m w1 with _ => _ end => change (ends s0 m w1 fresh_done write_error) end.
  eapply ends_bind.
  { eapply ends_mono; [apply (movement_ends wallet mv t s (put_tx (stored_tx t) s) s0 w1 d eid at_ Hs); [| | | | | | | | | |exact Hmv|exact Htx1]|intros ? ? Hq; exact Hq|].
    - by rewrite <- Hwk.
    - reflexivity.
    - reflexivity.
    - cbn. rewrite lookup_insert_eq. eauto.
    - intros q e Hin Hid. destruct (so_entry s Hs q e Hin) as (_ & _ & (t' & Ht' & _) & _).
      apply (Hc "wager_transactions_pkey"). left. split; [done|]. rewrite <- Hid, Ht'. eauto.
    - apply Hts.
    - apply Hts.
    - done.
    - done.
    - done.
    - intros e [Hv| ->]; [by apply fresh_version_exhausted|]. apply fresh_id_collision. auto. }
  intros [] s2 w2 (Hver & q & ->) Htx2.
  eapply ends_bind; [eapply ends_mono; [by eapply emit_ends|done|by apply fresh_event_collision]|].
  intros [] s3 w3 Happ Htx3. eapply ends_ret; [done|]. exists t, (Some mv). split; [done|].
  split; [done|]. split_and!; [done|done|]. eauto.
Qed.

Lemma write_safe (m : M W SubmitResult) s0 w :
  ends s0 m w fresh_done write_error -> safe_ends s0 s m w fresh_done (submit_error p s).
Proof using StorageLaws0.
  intros Hm. eapply safe_ends_mono; [apply ends_safe_ends; [exact Hm|]|done|]; by intros e [? ?].
Qed.

Lemma apply_movement_ends s0 w :
  Kind_IsReversal (t_kind t0) = false -> st_tx w s0 s ->
  safe_ends s0 s (apply_movement ctx repos t0 tid wallet at_) w fresh_done (submit_error p s).
Proof.
  intros Hrev Htx. destruct fresh_facts as (Hst0 & Hf). destruct_and!. unfold apply_movement.
  assert (Hbal : Money_IsInitialised (w_balance wallet) = true /\ currency (w_balance wallet) = w_currency wallet).
  { match goal with Hw : wallet_storable wallet |- _ => split; apply (ws_ok _ Hw) end. }
  destruct Hbal as [Hbi Hbc]. apply wp_catch. unfold Submit_movement.
  destruct (Kind_MovesMoney (t_kind t0)) eqn:Hm; cbn [negb].
  - apply wp_bind, wp_wrap. eapply wp_mono; [exact (aside_tx _ _ _ _ _ (NewLedgerEntryID_aside ctx) Htx)| |].
    2:{ intros e w' [He Htx']. apply wp_bind. unfold Submit_reject.
        pose proof (st_infra_wrapped e He) as He'. destruct (st_infra_error _ He') as (-> & _).
        apply wp_pure; [done|]. intros e2 E. injection E as <-.
        split_and!; [by right|by eapply st_tx_dead|done]. }
    intros eid w1 [Heid Htx1]. apply wp_bind. apply wp_pure.
    + intros mv Hmv. apply wp_ret.
      replace tid with (t_id t0) in Hmv by done.
      pose proof Hmv as Hmv2. apply wallet_movement_Ok in Hmv2 as (d & Hd & Hdir & Hmv2).
      match goal with Hw : wallet_storable wallet |- _ =>
        destruct (MarkProcessed_succeeds t0 (w_balance (mv_Wallet mv)) at_) as [t Ht];
          [apply Hst0|done|done| | |];
        try (apply Wallet_move_Ok in Hmv2 as (_ & -> & -> & _ & _ & Hcc & _);
               [|apply Hw|apply Hst0|done]; cbn; unfold Money_IsInitialised in *; cbn;
               rewrite <- ?Hbc; congruence) end.
      cbn [Submit_balanceAfter negb]. rewrite Ht. apply wp_bind, wp_pure; [|done].
      intros x E. injection E as <-.
      pose proof (MarkProcessed_step _ _ _ _ Ht) as Hreq. destruct (same_request_kind _ _ Hreq) as (Hid & _ & Hmo).
      apply write_safe. eapply write_movement_ends; [by eapply settles_moved| |exact Heid|exact Hd| |done].
      * unfold MarkProcessed in Ht. guards Ht. by apply transition_Ok in Ht as (_ & _ & _ & ->).
      * by rewrite Hid, Hmo.
    + intros e He. replace tid with (t_id t0) in He by done.
      assert (Hcode : exists code, e = DomainError code /\ code <> "").
      { assert (Hkind : t_kind t0 = KindBet \/ t_kind t0 = KindWin).
        { assert (Hv : Kind_Valid (t_kind t0) = true) by apply Hst0.
          unfold Kind_Valid, all_kinds in Hv. apply bool_decide_eq_true in Hv.
          rewrite !elem_of_cons, elem_of_nil in Hv. unfold Kind_IsReversal in Hrev.
          apply orb_false_iff in Hrev as [?%bool_decide_eq_false ?%bool_decide_eq_false].
          unfold Kind_MovesMoney in Hm. apply negb_true_iff, bool_decide_eq_false in Hm. tauto. }
        match goal with Hw : wallet_storable wallet |- _ =>
          unfold wallet_movement, Wallet_Debit, Wallet_Credit in He;
          destruct Hkind as [Hk|Hk]; rewrite Hk in He; cbn -[Wallet_move] in He;
          (eapply Wallet_move_Err_code; [apply Hw|apply Hst0| |exact He]; auto) end. }
      destruct Hcode as (code & -> & Hne). unfold Submit_reject. cbn [As_domain].
      destruct (Tx_Reject_succeeds t0 code at_) as [t Ht]; [apply Hst0|done..|].
      rewrite Ht. apply wp_bind, wp_pure; [|done]. intros x E. injection E as <-.
      apply write_safe, fresh_insert; [by eapply settles_refused| |done].
      apply Tx_Reject_storable in Ht as (_ & _ & ->); done.
  - apply wp_ret. cbn [Submit_balanceAfter negb]. apply wp_bind. apply wp_pure.
    + intros t Ht. apply write_safe, fresh_insert; [by apply settles_unmoving| |done].
      unfold MarkProcessed in Ht. guards Ht. by apply transition_Ok in Ht as (_ & _ & _ & ->).
    + intros e He. split_and!; [left|by eapply st_tx_dead|done].
      destruct (decide (currency (w_balance wallet) = currency (t_money t0))) as [E|E].
      { destruct (MarkProcessed_succeeds t0 (w_balance wallet) at_) as [t Ht]; [apply Hst0|done..|congruence]. }
      unfold MarkProcessed in He. rewrite Hbi in He. cbn [negb] in He.
      rewrite (bool_decide_eq_false_2 _ E) in He. cbn [negb] in He. rewrite andb_true_r in He.
      assert (Hini : Money_IsInitialised (t_money t0) = true).
      { pose proof (to_amount _ (ts_ok _ Hst0)) as Ha. by apply Kind_validateAmount_iff in Ha as [? _]. }
      rewrite Hini in He. injection He as <-. eapply (se_loss_currency p s wallet); [done| |congruence].
      unfold Kind_MovesMoney in Hm. apply negb_false_iff, bool_decide_eq_true in Hm. congruence.
Qed.
End fresh.

(** ** The entry points *)

Definition policy_sane (waiting : ReferencePolicy) : Prop :=
  policy_ok (rp_BaseBackoff waiting) (rp_MaxBackoff waiting) /\ 0 <= rp_TTL waiting.

Lemma Submit_apply_safe waiting ctx cmd p s0 s w :
  policy_sane waiting -> Submit_parse cmd = Ok p -> store_ok s ->
  (forall t, ~ known_operation s p t) -> st_tx w s0 s ->
  safe_ends s0 s (Submit_apply waiting ctx repos p) w
    (fun r s' => submit_outcome waiting s p r s') (submit_error p s).
Proof.
  intros [Hpol Httl] Hcmd Hs Hun Htx. pose proof (Submit_parse_ok _ _ Hcmd) as Hp. unfold Submit_apply.
  eapply safe_ends_bind_aside; [apply aside_wrap, NewTransactionID_aside|done|]. intros tid w1 Htid Htx1.
  eapply safe_ends_bind_aside; [apply now_aside|done|]. intros at_ w2 Hat Htx2.
  eapply safe_ends_bind_pure; [done| |]; [intros e He; by eapply se_invalid|].
  intros t0 Hnew. apply wp_bind.
  eapply wp_mono; [apply FindByIDForUpdate_law; [apply Hp|done]| |].
  2:{ intros e w' [(-> & Hno & Htx')|[He Hd]].
      2:{ split_and!; [by right|done|]. intros Hne. destruct Hne. by apply st_infra_error. }
      split_and!; [left|by eapply st_tx_dead|done]. apply se_no_wallet.
      destruct (s_wallets s !! _) eqn:E; [|done]. by destruct (Hno _ E). }
  intros wallet w4 [Hw Htx4]. unfold wallet_with_id in Hw.
  case_bool_decide as Hpl; cbn [negb].
  2:{ apply wp_throw. split_and!; [left|by eapply st_tx_dead|done]. by eapply se_player. }
  assert (Hfin : forall m, safe_ends s0 s m w4 (fresh_done waiting s at_ t0 wallet) (submit_error p s) ->
    safe_ends s0 s m w4 (fun r s' => submit_outcome waiting s p r s') (submit_error p s)).
  { intros m Hm. eapply safe_ends_mono; [exact Hm| |done]. intros r s' (t & omv & Hset & Hwr).
    right. exists tid, at_, wallet, t0, t, omv. by constructor. }
  apply Hfin. destruct (Kind_IsReversal (t_kind t0)) eqn:Hrev.
  - apply write_safe. eapply Submit_resolve_ends; eauto.
  - eapply apply_movement_ends; eauto.
Qed.

Lemma ExecuteIn_safe waiting ctx cmd s0 s w :
  policy_sane waiting -> store_ok s -> st_tx w s0 s ->
  safe_ends s0 s (ExecuteIn waiting ctx repos cmd) w (accepts waiting ctx cmd s) (execute_error ctx cmd s).
Proof.
  intros Hpol Hs Htx. unfold ExecuteIn.
  eapply safe_ends_bind_pure; [done|intros e He; by apply ee_caller|]. intros i Hi.
  eapply safe_ends_bind_pure; [done|intros e He; by eapply ee_parse|]. intros p Hp.
  pose proof (Submit_parse_ok _ _ Hp) as Hpok.
  eapply safe_ends_bind_pure; [done|intros e He; by eapply ee_provider|]. intros [] Hm. apply wp_catch.
  eapply wp_mono; [apply FindByBusinessID_law; [apply Hpok|apply Hpok|done]| |].
  - intros t w4 [Hk Htx4]. apply wp_pure.
    + intros r Hr. exists s. split; [|done]. exists i, p. split_and!; [done..|]. left. exists t. done.
    + intros e He. split_and!; [left; by eapply ee_replay|by eapply st_tx_dead|done].
  - intros e w4 [(-> & Hno & Htx4)|[He Hd]].
    + cbn [is_sentinel errors_Is]. unfold is_sentinel. cbn. rewrite bool_decide_eq_true_2 by done. cbn [negb].
      eapply safe_ends_mono; [by eapply Submit_apply_safe| |].
      * intros r s' Hr. exists i, p. done.
      * intros e He. by eapply ee_refused.
    + destruct (st_infra_error e He) as (Hnd & -> & _). apply wp_throw. split_and!; [by right|done|done].
Qed.

Lemma ExecuteIn_ends waiting ctx cmd s0 s w :
  policy_sane waiting -> store_ok s -> st_tx w s0 s ->
  ends s0 (ExecuteIn waiting ctx repos cmd) w (accepts waiting ctx cmd s) (execute_error ctx cmd s).
Proof. intros. by apply (safe_ends_ends s0 s), ExecuteIn_safe. Qed.
End proofs.
