(* ===== verification/SubmitExecute.v ===== *)
(** * SubmitExecute: a whole submission

    [Execute] of [submit.go], the unit of work and the reading back after a
    lost race included, against any storage that keeps its promises: what a
    caller learns, and what has happened to the committed store by then. *)

From S2P Require Import Prelude Errors GoTime Money Identifier Ledger Wallet Transaction Event.
From S2P Require Import Idempotency Identity Ports Store StoreInv Policy Recorder Reversal.
From S2P Require Import Submit Storable SubmitSpec SubmitProof.

#[local] Open Scope string_scope.
#[local] Open Scope list_scope.
#[local] Open Scope Z_scope.

(** An error is at most one of the sentinels. *)
Lemma is_sentinel_unique e a b : is_sentinel e a = true -> is_sentinel e b = true -> a = b.
Proof.
  unfold is_sentinel. induction e; cbn; auto; rewrite ?bool_decide_eq_true; try congruence; done.
Qed.

(** ** Known operations *)

Section known.
Context `{Precision}.

Lemma known_external s p t : store_ok s -> id_ok (ps_providerID p) -> known_operation s p t ->
  t_origin t = OriginExternal.
Proof.
  intros Hs Hp (Hk & Hpr & _). destruct (so_tx s Hs _ t Hk) as (_ & Hts & _).
  destruct (to_shape t (ts_ok t Hts)) as [(_ & _ & Hz & _)|(Ho & _)]; [|done].
  destruct Hp as [Hne _]. rewrite <- Hpr, Hz in Hne. done.
Qed.

(** A provider's name for an operation designates at most one. *)
Lemma known_unique s p t t' : store_ok s -> id_ok (ps_providerID p) ->
  known_operation s p t -> known_operation s p t' -> t = t'.
Proof.
  intros Hs Hp Hk Hk'. pose proof (known_external _ _ _ Hs Hp Hk) as Ho.
  pose proof (known_external _ _ _ Hs Hp Hk') as Ho'.
  destruct Hk as (Hk & Hpr & He), Hk' as (Hk' & Hpr' & He').
  destruct (decide (t_id t' = t_id t)) as [E|Hne]; [rewrite E, Hk in Hk'; congruence|].
  destruct (so_unique s Hs _ t "wager_transactions_business_identity" Hk); [done|].
  right; left. split_and!; [done|done|]. exists (id_value (t_id t')), t'. split_and!; congruence.
Qed.

(** An operation that is known stays known. *)
Lemma known_evolves s s' p t : store_ok s -> store_ok s' -> evolves s s' -> known_operation s p t ->
  exists t', known_operation s' p t' /\ t_payloadHash t' = t_payloadHash t /\
    t_idempotencyKey t' = t_idempotencyKey t /\ t_kind t' = t_kind t /\ t_money t' = t_money t /\
    t_id t' = t_id t /\ (Tx_IsTerminal t = true -> t' = t).
Proof.
  intros Hs Hs' He (Hk & Hpr & Hex).
  destruct (ev_txs _ _ (ev_grows _ _ He) _ _ Hk) as (t' & Hk' & Ht & _ & Hkd & _ & Hm & Hpr' & Hex' & Hh & Hi & _).
  destruct (so_tx _ Hs' _ _ Hk') as (E & _). apply id_value_inj in E. rewrite E in Hk'.
  exists t'. unfold known_operation. split_and!; first [done|congruence].
Qed.

Lemma execute_error_inside ctx cmd s e : execute_error (inside ctx) cmd s e -> execute_error ctx cmd s e.
Proof.
  destruct 1.
  - by apply ee_caller.
  - by eapply ee_parse.
  - by eapply ee_provider.
  - by eapply ee_replay.
  - by eapply ee_refused.
Qed.

(** A conflict comes from a caller who may act for the provider. *)
Lemma execute_conflict ctx cmd s e : execute_error ctx cmd s e -> is_sentinel e ErrConflict = true ->
  Submit_parse cmd = Err e \/
  exists i p, caller ctx ScopeSubmit = Ok i /\ Submit_parse cmd = Ok p /\
    mayActAs i (ps_providerID p) = Ok ().
Proof.
  intros He Hc. destruct He as [He|i Hi He|i p Hi Hp He|i p t Hi Hp Hm _ _|i p Hi Hp Hm _ _]; eauto 10.
  - apply caller_Err in He as [_ [He|He]]; by pose proof (is_sentinel_unique _ _ _ He Hc).
  - apply mayActAs_Err in He as [_ He]. by pose proof (is_sentinel_unique _ _ _ He Hc).
Qed.

(** What the caller is told: the error of the run, with a reused key reported
    as a plain conflict. *)
Definition reported (ctx : Context) (cmd : SubmitCommand) (s : Store) (e : error) : Prop :=
  execute_error ctx cmd s e \/
  (e = Wrapped (SentinelError ErrConflict) /\
   exists e0, execute_error ctx cmd s e0 /\ is_sentinel e0 ErrConflict = true /\
     As_constraint e0 = Some constraintIdempotencyKey).

Lemma accepts_ok waiting ctx cmd s0 res s1 : 0 <= rp_TTL waiting -> store_ok s0 ->
  accepts waiting ctx cmd s0 res s1 -> store_ok s1 /\ evolves s0 s1.
Proof.
  intros Httl Hs (i & p & _ & Hp & _ & Ho). eapply submit_outcome_ok; [done| |done|done].
  by eapply Submit_parse_ok.
Qed.
End known.

Section execute.
Context {W : Type} `{Storage W} `{Precision} `{!StorageLaws W}
  `{Clock W} `{!ClockLaws W} `{IDGenerator W} `{!IDLaws W} `{Rand W} `{!RandLaws W}
  (repos : Repositories W) `{!RepositoriesLaws W repos}
  (uow : UnitOfWork W) `{!UnitOfWorkLaws W uow repos}
  (queries : Queries W) `{!QueriesLaws W queries}.

(** Where a submission against the store [s] may leave the world. *)
Definition submitted (waiting : ReferencePolicy) (ctx : Context) (cmd : SubmitCommand) (s : Store)
    (r : result SubmitResult) (w' : W) : Prop :=
  match r with
  | Ok res => exists s0 s1, st_others s s0 /\ accepts waiting ctx cmd s0 res s1 /\ st_idle w' s1
  | Err e =>
    (exists s1 s2, st_others s s1 /\ st_others s1 s2 /\ st_idle w' s2 /\
       (reported ctx cmd s1 e \/ st_infra e)) \/
    (exists res s0 s1, st_others s s0 /\ accepts waiting ctx cmd s0 res s1 /\ st_idle w' s1 /\ st_infra e)
  end.

Lemma run_ends waiting ctx cmd s w : policy_sane waiting ->
  cx_insideUnitOfWork ctx = false -> st_idle w s -> store_ok s ->
  match uow_Do uow ctx (fun ctx repos => assign noSubmitResult (ExecuteIn waiting ctx repos cmd))
          noSubmitResult w with
  | (Ok _, res, w') => exists s0 s1, st_others s s0 /\ accepts waiting ctx cmd s0 res s1 /\ st_idle w' s1
  | (Err e, res, w') =>
    (exists s1, st_others s s1 /\ store_ok s1 /\ st_idle w' s1 /\ (execute_error ctx cmd s1 e \/ st_infra e)) \/
    (exists s0 s1, st_others s s0 /\ accepts waiting ctx cmd s0 res s1 /\ st_idle w' s1 /\ st_infra e)
  end.
Proof.
  intros Hpol Hin Hi Hs.
  pose proof (Do_law (UnitOfWorkLaws := UnitOfWorkLaws0) SubmitResult ctx
    (fun ctx repos => assign noSubmitResult (ExecuteIn waiting ctx repos cmd))
    store_ok (fun _ => True) (fun s0 s1 res => accepts waiting ctx cmd s0 res s1)
    (fun s0 e => execute_error ctx cmd s0 e) noSubmitResult w s Hin Hi Hs I) as Hdo.
  assert (Hst : forall s s', store_ok s -> st_others s s' -> store_ok s').
  { intros s1 s2 Hx Hy. by eapply st_others_ok. }
  specialize (Hdo Hst).
  assert (Hbody : forall s0, store_ok s0 ->
    attempt_ok (assign noSubmitResult (ExecuteIn waiting (inside ctx) repos cmd)) (fun _ => True)
      (fun s0 s1 res => accepts waiting ctx cmd s0 res s1)
      (fun s0 e => execute_error ctx cmd s0 e) s0).
  { intros s0 Hs0 c w1 _ Htx.
    pose proof (ExecuteIn_ends repos waiting (inside ctx) cmd s0 s0 w1 Hpol Hs0 Htx) as He.
    unfold ends, wp, assign in *. destruct (ExecuteIn _ _ _ _ w1) as [[a|e] w2].
    - destruct He as (s' & Ha & Htx'). split; [done|]. by exists s'.
    - destruct He as [[He|He] Hd]; (split_and!; [done| |done]); [left|by right].
      by apply execute_error_inside. }
  specialize (Hdo Hbody). destruct (uow_Do _ _ _ _ _) as [[[[]|e] res] w']; [done|].
  destruct Hdo as [(s1 & Ho & Hi1 & He & _)|Hlost]; [left|by right].
  exists s1. split_and!; try done. by eapply st_others_ok.
Qed.

Lemma Submit_execute_submitted waiting ctx cmd s w : policy_sane waiting ->
  cx_insideUnitOfWork ctx = false -> st_idle w s -> store_ok s ->
  let '(r, w') := Submit_execute uow queries waiting ctx cmd w in
  submitted waiting ctx cmd s r w'.
Proof.
  intros Hpol Hin Hi Hs. unfold Submit_execute.
  pose proof (run_ends waiting ctx cmd s w Hpol Hin Hi Hs) as Hrun.
  destruct (uow_Do _ _ _ _ _) as [[[[]|err] res] w']; [exact Hrun|].
  destruct (is_sentinel err ErrConflict) eqn:Hc; cbn [negb].
  2:{ destruct Hrun as [(s1 & Ho & _ & Hi1 & He)|(s0 & s1 & Hl)]; [left|right; by exists res, s0, s1].
      exists s1, s1. split_and!; try done; [apply st_others_refl|]. destruct He; [left; by left|by right]. }
  destruct Hrun as [(s1 & Ho & Hs1 & Hi1 & He)|(s0 & s1 & _ & _ & _ & He)].
  2:{ destruct (st_infra_error _ He) as (_ & _ & ?). congruence. }
  destruct He as [He|He]; [|destruct (st_infra_error _ He) as (_ & _ & ?); congruence].
  assert (Hkeep : forall w'' s2, st_others s1 s2 -> st_idle w'' s2 ->
    submitted waiting ctx cmd s (Err err) w'').
  { intros w'' s2 Ho2 Hi2. left. exists s1, s2. split_and!; try done. left. by left. }
  case_bool_decide as Hkey.
  { left. exists s1, s1. split_and!; try done; [apply st_others_refl|]. left. right. split; [done|].
    by exists err. }
  unfold mbind, M_bind, pure, catch, throw.
  destruct (execute_conflict _ _ _ _ He Hc) as [Hp|(i & p & Hcal & Hp & Hmay)]; rewrite Hp.
  { apply Hkeep with s1; [apply st_others_refl|done]. }
  destruct (Submit_parse_ok _ _ Hp) as [_ _ Hpr Hex _ _ _ _ _ _ _ _].
  pose proof (Q_FindByBusinessID_law _ _ Hpr Hex w' s1 Hi1) as Hread. unfold wp in Hread.
  destruct (tr_FindByBusinessID _ _ _ w') as [[t|e] w''].
  2:{ destruct Hread as (s2 & Ho2 & Hi2 & _). by eapply Hkeep. }
  destruct Hread as (s2 & Ho2 & Hk & Hi2). assert (Ho12 : st_others s s2) by by eapply st_others_trans.
  destruct (Submit_replay t p) as [r|e] eqn:Hr.
  - exists s2, s2. split_and!; try done. exists i, p. split_and!; try done. left. by exists t.
  - left. exists s2, s2. split_and!; try done; [apply st_others_refl|]. left. left. by eapply ee_replay.
Qed.
End execute.
