(* ===== verification/SubmitFacts.v ===== *)
(** * SubmitFacts: what an accepted operation did

    Consequences of the specification of [SubmitSpec] that speak of balances,
    entries and statuses: the effect of a movement, the decision on a BET, the
    effect of a reversal. *)

From S2P Require Import Prelude Errors GoTime Money Identifier Ledger Wallet Transaction Event.
From S2P Require Import Idempotency Identity Ports Store StoreInv Policy Recorder Reversal.
From S2P Require Import Submit Storable SubmitSpec SubmitProof SubmitExecute.

#[local] Open Scope string_scope.
#[local] Open Scope list_scope.
#[local] Open Scope Z_scope.

(** Neither a balance nor the ledger changed. *)
Definition unmoved (s s' : Store) : Prop := s_wallets s' = s_wallets s /\ s_ledger s' = s_ledger s.

(** One wallet moved by one entry. *)
Definition moved (s : Store) (w : Wallet) (t : WagerTransaction) (d : Direction) (s' : Store) : Prop :=
  exists w' q e,
    s_wallets s' = <[id_value (w_id w) := w']> (s_wallets s) /\
    s_ledger s' = s_ledger s ++ [(q, e)] /\
    w_id w' = w_id w /\ w_playerID w' = w_playerID w /\ w_currency w' = w_currency w /\
    minor (w_balance w') = minor (w_balance w) + signed d (minor (t_money t)) /\
    0 <= minor (w_balance w') /\ w_version w' = w_version w + 1 /\
    le_walletID e = w_id w /\ le_transactionID e = t_id t /\ le_direction e = d /\
    le_amount e = t_money t /\ le_balanceBefore e = w_balance w /\ le_balanceAfter e = w_balance w'.

Section facts.
Context `{Precision}.

Lemma recorded_moved s w t0 t mv q :
  store_ok s -> s_wallets s !! id_value (w_id w) = Some w -> t_walletID t = w_id w ->
  settled_facts s w t0 t (Some mv) -> w_version (mv_Wallet mv) = w_version w + 1 ->
  exists d, (d = Debit \/ d = Credit) /\ moved_as s t d /\
    moved s w t d (record_moved (stored_tx t) (stored_wallet (mv_Wallet mv)) q (stored_entry (mv_Entry mv)) s).
Proof.
  intros Hs Hw Htw Hf Hver. destruct (sf_moved _ _ _ _ _ Hf mv eq_refl) as
    (Hst & Hm & Hbal & d & eid & at_ & Hd & He & Hat & Hmv & Has & _).
  destruct (so_wallet s Hs _ w Hw) as (_ & Hws & Hwst & _).
  pose proof (sf_storable _ _ _ _ _ Hf) as Hts.
  destruct (Wallet_move_Ok w d eid (t_id t) (t_money t) at_ mv) as (_ & Hmw & Hme & Hb & _ & Hc & _);
    [apply Hws|apply Hts|done|done|].
  exists d. split_and!; [done|done|]. exists (stored_wallet (mv_Wallet mv)), q, (stored_entry (mv_Entry mv)).
  cbn [record_moved add_entry put_wallet put_tx s_wallets s_ledger].
  rewrite Hme, Hmw in *. cbn -[signed] in *. split_and!; try done; lia.
Qed.

(** The store after a fresh operation. *)
Lemma fresh_effect waiting s p r s' tid at_ w t0 t omv :
  store_ok s -> parsed_ok p -> 0 <= rp_TTL waiting ->
  applies waiting s p r s' tid at_ w t0 t omv ->
  sr_Transaction r = t /\ sr_Replay r = false /\
  s_txs s' = <[id_value (t_id t) := stored_tx t]> (s_txs s) /\
  (forall name, ~ tx_conflict s t name) /\
  (if decide (t_status t = StatusProcessed /\ Kind_MovesMoney (t_kind t) = true)
   then exists d, (d = Debit \/ d = Credit) /\ moved_as s t d /\ moved s w t d s'
   else unmoved s s').
Proof.
  intros Hs Hp Httl Hap.
  destruct (applies_facts _ _ _ _ _ _ _ _ _ _ _ Hs Hp Httl Hap) as (Hf & Hw & Htw & _).
  destruct (ap_writes _ _ _ _ _ _ _ _ _ _ _ Hap) as [Hc Hwr].
  destruct omv as [mv|].
  - destruct Hwr as (-> & Hver & q & events & _ & (recs & -> & _)). cbn [set_outbox s_txs sr_Transaction sr_Replay].
    destruct (sf_moved _ _ _ _ _ Hf mv eq_refl) as (Hst & Hm & _).
    rewrite decide_True by done. split_and!; try done.
    destruct (recorded_moved s w t0 t mv q Hs Hw Htw Hf Hver) as (d & Hd & Has & Hmv).
    exists d. done.
  - destruct Hwr as (-> & events & _ & (recs & -> & _)). cbn [set_outbox s_txs sr_Transaction sr_Replay].
    split_and!; try done. destruct (decide _) as [[Hst Hm]|]; [|done].
    by rewrite (sf_unmoved _ _ _ _ _ Hf eq_refl Hst) in Hm.
Qed.

(** An accepted submission leaves its operation in the store. *)
Lemma accepted_known waiting s p r s' : store_ok s -> parsed_ok p -> 0 <= rp_TTL waiting ->
  submit_outcome waiting s p r s' ->
  exists t, known_operation s' p t /\ t_payloadHash t = ps_hash p /\ t_idempotencyKey t = ps_key p /\
    t_id t = t_id (sr_Transaction r) /\ t_status t = t_status (sr_Transaction r).
Proof.
  intros Hs Hp Httl [(t & Hk & Hr & ->)|(tid & at_ & w & t0 & t & omv & Hap)].
  - unfold Submit_replay in Hr. case_bool_decide as Hh; [|done]. cbn in Hr.
    case_bool_decide as Hi; [|done]. injection Hr as <-. by exists t.
  - destruct (fresh_effect _ _ _ _ _ _ _ _ _ _ _ Hs Hp Httl Hap) as (-> & _ & Ht & _).
    destruct (applies_facts _ _ _ _ _ _ _ _ _ _ _ Hs Hp Httl Hap) as
      (_ & _ & _ & _ & _ & Hpr & Hex & Hh & Hi & Hkd & _).
    exists (stored_tx t). unfold known_operation. cbn. rewrite Ht, lookup_insert_eq. done.
Qed.

(** ** The decision on a BET *)

Lemma debit_decided w a eid tid at_ :
  wallet_ok w -> Money_IsInitialised a = true -> 0 < minor a -> money_ok a ->
  clock_time at_ -> id_ok eid -> id_ok tid ->
  if decide (currency a <> w_currency w)
  then move_ref w Debit eid tid a at_ = fail CodeCurrencyMismatch
  else if decide (minor (w_balance w) < minor a)
  then move_ref w Debit eid tid a at_ = fail CodeInsufficientFunds
  else is_Ok (move_ref w Debit eid tid a at_) = true.
Proof.
  intros Hw Hini Hpos Ha Hat He Ht. pose proof (wo_balance _ Hw) as Hb.
  unfold move_ref. rewrite clock_time_nonzero, Hini by done.
  replace (0 <? minor a) with true by lia. cbn [andb negb].
  destruct (decide (currency a <> w_currency w)); [done|].
  rewrite signed_Debit, (decide_False (P := MaxInt64 < _)) by (width; lia).
  destruct (decide (minor (w_balance w) < minor a)); [by rewrite decide_True by lia|].
  rewrite decide_False by lia. by rewrite !id_ok_not_zero.
Qed.

Lemma processed_no_failure t : tx_ok t -> t_status t = StatusProcessed -> t_failureCode t = "".
Proof.
  intros Hok Hst. destruct (decide (t_failureCode t = "")) as [|Hne]; [done|].
  apply (to_failure t Hok) in Hne. rewrite Hst in Hne. by destruct Hne.
Qed.

Lemma Tx_Reject_codes t code at_ t' : Tx_Reject t code at_ = Ok t' ->
  t_status t' = StatusRejected /\ t_failureCode t' = code.
Proof.
  unfold Tx_Reject. intros H'. guards H'. by apply transition_Ok in H' as (_ & _ & _ & ->).
Qed.

Lemma bet_decided waiting s w t0 at_ t omv :
  store_ok s -> s_wallets s !! id_value (w_id w) = Some w ->
  tx_storable t0 -> tx_storable t -> clock_time at_ -> t_kind t0 = KindBet ->
  settles waiting s w t0 at_ t omv ->
  if decide (currency (t_money t0) <> w_currency w)
  then t_status t = StatusRejected /\ t_failureCode t = CodeCurrencyMismatch
  else if decide (minor (w_balance w) < minor (t_money t0))
  then t_status t = StatusRejected /\ t_failureCode t = CodeInsufficientFunds
  else t_status t = StatusProcessed /\ t_failureCode t = "".
Proof.
  intros Hs Hw Ht0 Hts Hat Hk Hset. destruct (so_wallet s Hs _ w Hw) as (_ & Hws & _).
  pose proof (to_amount _ (ts_ok _ Ht0)) as Ha. apply Kind_validateAmount_iff in Ha as [Hini Hpos].
  assert (Hp : 0 < minor (t_money t0)) by (destruct Hpos as [[E _]|[_ ?]]; [by rewrite Hk in E|done]).
  assert (Hmove : forall eid, wallet_movement w t0 (t_id t0) eid at_ =
    move_ref w Debit eid (t_id t0) (t_money t0) at_).
  { intros eid. unfold wallet_movement. rewrite Hk. cbn.
    apply Wallet_move_exact; [apply Hws|apply Ht0|by left]. }
  assert (Hdec := fun eid He => debit_decided w (t_money t0) eid (t_id t0) at_ (ws_ok _ Hws) Hini Hp
    (ts_money _ Ht0) Hat He (ts_id _ Ht0)).
  destruct Hset as [t Hm|eid mv t He _ _ Hmv Hpr|eid e code t He _ _ Hmv Hcode Hrj|? ? Hr|? ? Hr|? ? ? ? ? ? ? Hr|? ? ? ? ? ? ? Hr].
  2, 3: specialize (Hdec eid He); rewrite Hmove in Hmv; rewrite Hmv in Hdec.
  1, 4-7: rewrite Hk in *; done.
  - destruct (decide _); [done|]. destruct (decide _); [done|].
    assert (Hst : t_status t = StatusProcessed).
    { unfold MarkProcessed in Hpr. guards Hpr. by apply transition_Ok in Hpr as (_ & _ & _ & ->). }
    split; [done|]. apply processed_no_failure; [apply Hts|done].
  - apply Tx_Reject_codes in Hrj as [-> ->].
    destruct (decide _); [injection Hdec as ->; by injection Hcode as <-|].
    destruct (decide _); [injection Hdec as ->; by injection Hcode as <-|done].
Qed.

(** ** Reversals *)

Lemma ReversalDirection_opposite k d v : ReversalDirection k = Ok d ->
  signed (Kind_Direction k).1 v + signed d v = 0.
Proof.
  unfold ReversalDirection. destruct (Kind_Direction k) as [dir []] eqn:E; cbn; [|done].
  intros [= <-]. revert E. unfold Kind_Direction. repeat case_match; intros E; try discriminate E;
    injection E as <-; cbn [fst].
  - change (Direction_Opposite Credit) with Debit. rewrite signed_Debit, signed_Credit. lia.
  - change (Direction_Opposite Debit) with Credit. rewrite signed_Debit, signed_Credit. lia.
Qed.

(** The direction of a processed operation that can be reversed is the one of
    its kind, also when it is itself a REFUND. *)
Lemma reversible_direction s k r d : store_ok s -> s_txs s !! id_value (t_id r) = Some r ->
  t_status r = StatusProcessed -> CanReverse k (t_kind r) = true -> moved_as s r d ->
  d = (Kind_Direction (t_kind r)).1.
Proof.
  intros Hs Hr Hst Hcan Has. unfold moved_as in Has.
  destruct (Kind_IsReversal (t_kind r)) eqn:Hrev; [|by rewrite Has].
  destruct Has as (r2 & Hr2 & Hd2). destruct (so_reversal s Hs _ _ Hr Hst Hrev) as
    (r2' & Hr2' & _ & Hcan2 & _).
  assert (r2' = r2) as -> by congruence.
  assert (Hk : t_kind r = KindRefund).
  { apply Kind_IsReversal_iff in Hrev as [|Hk]; [done|]. rewrite Hk in Hcan.
    unfold CanReverse in Hcan. revert Hcan. by repeat case_match. }
  rewrite Hk in *. unfold CanReverse in Hcan2. cbn in Hcan2. apply bool_decide_eq_true in Hcan2.
  rewrite Hcan2 in Hd2. by injection Hd2 as <-.
Qed.

(** A reference that may be reversed: the provider's operation of that name,
    processed, on the same money, wallet, player and round, and not reversed
    yet. *)
Record reversible (s : Store) (t r : WagerTransaction) (d : Direction) : Prop := {
  rv_found : finds_reference s t r;
  rv_processed : t_status r = StatusProcessed;
  rv_can : CanReverse (t_kind t) (t_kind r) = true;
  rv_direction : ReversalDirection (t_kind r) = Ok d;
  rv_same : t_playerID r = t_playerID t /\ t_walletID r = t_walletID t /\
    t_roundID r = t_roundID t /\ t_money r = t_money t;
  rv_first : ~ reversed_in s r
}.

Lemma decides_apply s t r d : store_ok s -> decides s t (mkResolution resolveApply r d "") ->
  reversible s t r d.
Proof.
  intros Hs [[? _]|(r' & b & Hf & Hb & Hv)]; [done|].
  destruct (so_tx s Hs _ r' (proj1 Hf)) as (_ & Hts & _).
  symmetry in Hv. apply reference_verdict_apply in Hv
    as (-> & -> & _ & Hst & Hcan & Hdir & Hp & Hw & Hrd & Hm); [|apply Hts].
  constructor; try done. intros Hin%Hb. done.
Qed.

(** How a fresh reversal ends. *)
Lemma reversal_settled waiting s w t0 at_ t omv :
  store_ok s -> Kind_IsReversal (t_kind t0) = true -> settles waiting s w t0 at_ t omv ->
  (t_status t = StatusPendingReference /\ decides s t0 waitResolution) \/
  (t_status t = StatusRejected /\ (decides s t0 (rejectResolution (t_failureCode t)) \/
     exists r d eid e, reversible s t0 r d /\ reversal_movement w t0 d eid at_ = Err e /\
       As_domain e = Some (t_failureCode t))) \/
  (t_status t = StatusProcessed /\ exists r d, reversible s t0 r d /\ t_resolvedReferenceID t = t_id r).
Proof.
  intros Hs Hrev Hset.
  destruct Hset as [t Hm Hp|eid mv t He Hr _ _ _|eid e code t He Hr _ _ _ _
    |wait t _ Hdec _ Hp|code t _ Hdec Hr|r d eid mv t1 t He _ Hdec Hmv Hr Hp
    |r d eid e code t He _ Hdec Hmv Hd Hr]; try congruence.
  - apply Kind_reversal_moves in Hrev. congruence.
  - left. split; [|done]. unfold MarkPendingReference in Hp. guards Hp.
    by apply transition_Ok in Hp as (_ & _ & _ & ->).
  - right; left. apply Tx_Reject_codes in Hr as [-> ->]. auto.
  - right; right. pose proof (decides_apply _ _ _ _ Hs Hdec) as Hrv.
    unfold ResolveReference in Hr. guards Hr. injection Hr as <-.
    unfold MarkProcessed in Hp. guards Hp. apply transition_Ok in Hp as (_ & _ & _ & ->).
    split; [done|]. by exists r, d.
  - right; left. apply Tx_Reject_codes in Hr as [-> ->]. split; [done|right].
    exists r, d, eid, e. split_and!; try done. by apply decides_apply.
Qed.

(** The entry of a reversal is the exact opposite of the entry it reverses. *)
Lemma reversal_opposite s t r d : store_ok s ->
  s_txs s !! id_value (t_resolvedReferenceID t) = Some r -> t_status r = StatusProcessed ->
  CanReverse (t_kind t) (t_kind r) = true -> ReversalDirection (t_kind r) = Ok d ->
  exists q e, (q, e) ∈ s_ledger s /\ le_transactionID e = t_id r /\ le_walletID e = t_walletID r /\
    le_amount e = t_money r /\ forall v, signed (le_direction e) v + signed d v = 0.
Proof.
  intros Hs Hr Hst Hcan Hd. destruct (so_tx s Hs _ _ Hr) as (Hid & _). rewrite Hid in Hr.
  assert (Hm : Kind_MovesMoney (t_kind r) = true).
  { unfold Kind_MovesMoney. apply negb_true_iff, bool_decide_eq_false. intros E.
    rewrite E in Hd. done. }
  destruct (so_moved s Hs _ _ Hr Hst Hm) as (q & e & Hin & Htid).
  destruct (so_entry s Hs _ _ Hin) as (_ & _ & (r' & Hr' & He) & _).
  rewrite Htid, Hr in Hr'. injection Hr' as <-. exists q, e. split_and!; try apply He; try done.
  intros v. rewrite (reversible_direction s _ r _ Hs Hr Hst Hcan (et_direction _ _ _ He)).
  by apply ReversalDirection_opposite.
Qed.

(** ** The books *)

Lemma chained_sum before es after : Forall entry_ok es ->
  chained before es after -> after = before + entries_sum es.
Proof.
  intros Hf. revert before. induction Hf as [|e es He _ IH]; intros before; cbn -[signed]; [lia|].
  intros [Hb Hc%IH]. rewrite (eo_arithmetic e He) in Hc. fold (entries_sum es). lia.
Qed.

Lemma entries_entry_ok s id : store_ok s -> Forall entry_ok (entries_of id s).
Proof.
  intros Hs. apply Forall_forall. intros e [_ Hin]%list_elem_of_filter.
  apply list_elem_of_fmap in Hin as ([q e'] & -> & Hin). apply (so_entry s Hs _ _ Hin).
Qed.

(** What the books of the program promise at any time. *)
Record books (s : Store) : Prop := {
  bk_balance : forall k w, s_wallets s !! k = Some w ->
    0 <= minor (w_balance w) /\ minor (w_balance w) = entries_sum (entries_of (w_id w) s);
  bk_processed : forall k t, s_txs s !! k = Some t -> t_status t = StatusProcessed ->
    Kind_MovesMoney (t_kind t) = true ->
    exists q e, (q, e) ∈ s_ledger s /\ le_transactionID e = t_id t /\ le_walletID e = t_walletID t /\
      le_amount e = t_money t /\
      forall q' e', (q', e') ∈ s_ledger s -> le_transactionID e' = t_id t -> e' = e;
  bk_entry : forall q e, (q, e) ∈ s_ledger s ->
    exists t, s_txs s !! id_value (le_transactionID e) = Some t /\ t_status t = StatusProcessed;
  bk_identity : forall k1 t1 k2 t2, s_txs s !! k1 = Some t1 -> s_txs s !! k2 = Some t2 ->
    t_origin t1 = OriginExternal -> t_origin t2 = OriginExternal -> t_providerID t1 = t_providerID t2 ->
    t_externalID t1 = t_externalID t2 \/ t_idempotencyKey t1 = t_idempotencyKey t2 -> t1 = t2;
  bk_reversed_once : forall k1 t1 k2 t2, s_txs s !! k1 = Some t1 -> s_txs s !! k2 = Some t2 ->
    t_status t1 = StatusProcessed -> t_status t2 = StatusProcessed ->
    t_resolvedReferenceID t1 = t_resolvedReferenceID t2 -> t_resolvedReferenceID t1 <> zeroId -> t1 = t2
}.

Lemma entry_once s q e q' e' : store_ok s -> (q, e) ∈ s_ledger s -> (q', e') ∈ s_ledger s ->
  le_transactionID e' = le_transactionID e -> e' = e.
Proof.
  intros Hs H1 H2 Heq. pose proof (so_once s Hs) as Hnd.
  assert (Hin1 : e ∈ (s_ledger s).*2) by (apply list_elem_of_fmap; by exists (q, e)).
  assert (Hin2 : e' ∈ (s_ledger s).*2) by (apply list_elem_of_fmap; by exists (q', e')).
  clear H1 H2. induction (s_ledger s).*2 as [|e0 l IH]; [by apply not_elem_of_nil in Hin1|].
  cbn in Hnd. apply NoDup_cons in Hnd as [Hni Hnd].
  assert (Hout : forall x, x ∈ l -> le_transactionID x <> le_transactionID e0).
  { intros x Hx E. apply Hni. rewrite <- E. apply list_elem_of_fmap. by exists x. }
  apply elem_of_cons in Hin1 as [->|Hin1], Hin2 as [->|Hin2]; [done| | |by apply IH].
  - by destruct (Hout _ Hin2).
  - by destruct (Hout _ Hin1).
Qed.

Lemma same_key_same_tx s k1 t1 k2 t2 name : store_ok s ->
  s_txs s !! k1 = Some t1 -> s_txs s !! k2 = Some t2 -> name <> "wager_transactions_pkey" ->
  (t_id t2 <> t_id t1 -> tx_conflict s t1 name) -> t1 = t2.
Proof.
  intros Hs H1 H2 Hn Hc. destruct (decide (t_id t2 = t_id t1)) as [E|Hne].
  - destruct (so_tx s Hs _ _ H1) as (-> & _). destruct (so_tx s Hs _ _ H2) as (-> & _).
    rewrite E in H2. congruence.
  - by destruct (so_unique s Hs _ _ name H1 Hn (Hc Hne)).
Qed.

Lemma store_ok_books s : store_ok s -> books s.
Proof.
  intros Hs. constructor.
  - intros k w Hk. destruct (so_wallet s Hs _ _ Hk) as (_ & Hws & _ & Hch). split; [apply Hws|].
    apply chained_sum in Hch; [lia|by apply entries_entry_ok].
  - intros k t Hk Hst Hm. destruct (so_moved s Hs _ _ Hk Hst Hm) as (q & e & Hin & Htid).
    destruct (so_entry s Hs _ _ Hin) as (_ & _ & (t' & Ht' & He) & _).
    destruct (so_tx s Hs _ _ Hk) as (-> & _). rewrite Htid, Hk in Ht'. injection Ht' as <-.
    exists q, e. split_and!; try apply He; try done.
    intros q' e' Hin' Ht'. eapply entry_once; [done|done|done|congruence].
  - intros q e Hin. destruct (so_entry s Hs _ _ Hin) as (_ & _ & (t & Ht & He) & _).
    exists t. split; [done|apply He].
  - intros k1 t1 k2 t2 H1 H2 Ho1 Ho2 Hp [He|He].
    + apply (same_key_same_tx s k1 t1 k2 t2 "wager_transactions_business_identity"); try done.
      intros Hne. right; left. split_and!; try done. by exists k2, t2.
    + apply (same_key_same_tx s k1 t1 k2 t2 "wager_transactions_idempotency_key"); try done.
      intros Hne. right; right; left. split_and!; try done. by exists k2, t2.
  - intros k1 t1 k2 t2 H1 H2 Hs1 Hs2 Hr Hz.
    apply (same_key_same_tx s k1 t1 k2 t2 "wager_transactions_one_reversal_per_operation"); try done.
    intros Hne. do 4 right. split_and!; try done. by exists k2, t2.
Qed.
End facts.
