(* ===== verification/Opening.v ===== *)
(** * Opening: [internal/app/openwallet.go]

    Creating a wallet and, when it opens with money, the opening credit that
    goes with it: authorisation, parsing, the identities, and one transaction
    that writes the wallet, the OPENING operation, its entry and its events. *)

From S2P Require Import Prelude Errors GoTime Money Identifier Ledger Wallet Transaction Event.
From S2P Require Import Identity Ports Store StoreInv Policy Recorder Reversal Submit Storable.
From S2P Require Import SubmitSpec SubmitProof.

#[local] Open Scope string_scope.
#[local] Open Scope list_scope.
#[local] Open Scope Z_scope.

(** ** Definitions *)

Record OpenWalletCommand := mkOpenWalletCommand {
  oc_PlayerID : string;
  oc_Amount : string;
  oc_Currency : string
}.

(** The parsing at the head of [Execute]. *)
Definition Open_parse (cmd : OpenWalletCommand) : result (PlayerID * Money) :=
  playerID ← ParsePlayerID (oc_PlayerID cmd);
  currency ← ParseCurrency (oc_Currency cmd);
  initial ← ParseExternalMoney (oc_Amount cmd) currency;
  Ok (playerID, initial).

Section opening.
Context {W : Type} `{Clock W} `{IDGenerator W}.

(** The identities, the aggregate and the OPENING operation, none of them
    written yet. *)
Definition Open_prepare (ctx : Context) (playerID : PlayerID) (initial : Money)
    : M W (Opening * WagerTransaction) :=
  walletID ← wrap_errM (NewWalletID ctx);
  at_ ← now;
  '(transactionID, entryID) ←
    (if Money_IsPositive initial then
       t ← wrap_errM (NewTransactionID ctx);
       e ← wrap_errM (NewLedgerEntryID ctx);
       mret (t, e)
     else mret (zeroId, zeroId));
  opening ← pure (OpenWallet {|
    ow_ID := walletID;
    ow_PlayerID := playerID;
    ow_InitialBalance := initial;
    ow_OpeningTransactionID := transactionID;
    ow_OpeningEntryID := entryID;
    ow_CreatedAt := at_
  |});
  openingTx ←
    (if Money_IsPositive initial then
       pure (NewOpeningTransaction {|
         ot_ID := transactionID;
         ot_WalletID := walletID;
         ot_PlayerID := playerID;
         ot_Money := initial;
         ot_CreatedAt := at_
       |})
     else mret noTx);
  mret (opening, openingTx).

Fixpoint append_each (repos : Repositories W) (entries : list LedgerEntry) : M W unit :=
  match entries with
  | [] => mret ()
  | entry :: entries => _ ← l_Append (r_Ledger repos) entry; append_each repos entries
  end.

(** The callback.  [opening.Entries[0]] of an empty list panics. *)
Definition Open_write (ctx : Context) (repos : Repositories W) (opening : Opening)
    (openingTx : WagerTransaction) : M W unit :=
  _ ← w_Insert (r_Wallets repos) (op_Wallet opening);
  _ ← (if Tx_IsInitialised openingTx then t_Insert (r_Transactions repos) openingTx else mret ());
  _ ← append_each repos (op_Entries opening);
  if negb (Tx_IsInitialised openingTx) then mret ()
  else
    match op_Entries opening with
    | [] => throw (Opaque "index out of range [0] with length 0")
    | entry :: _ => emit ctx repos openingTx (op_Wallet opening) entry true
    end.

(** The unit of work of [Execute], and what it returns. *)
Definition Open_commit (uow : UnitOfWork W) (ctx : Context) (opening : Opening)
    (openingTx : WagerTransaction) : M W Wallet := fun w =>
  match uow_Do uow ctx (fun ctx repos => no_capture (Open_write ctx repos opening openingTx)) () w with
  | (Ok _, _, w') => (Ok (op_Wallet opening), w')
  | (Err err, _, w') => (Err err, w')
  end.

Definition OpenWallet_Execute (uow : UnitOfWork W) (ctx : Context) (cmd : OpenWalletCommand)
    : M W Wallet :=
  _ ← pure (caller ctx ScopeWallets);
  '(playerID, initial) ← pure (Open_parse cmd);
  '(opening, openingTx) ← Open_prepare ctx playerID initial;
  Open_commit uow ctx opening openingTx.
End opening.

(** ** Specification *)

(** What [Open_prepare] builds. *)
Definition new_wallet (wid : WalletID) (player : PlayerID) (initial : Money) (at_ : Time) : Wallet :=
  mkWallet wid player (currency initial) initial 1 at_ at_.

Definition opening_tx (tid : TransactionID) (wid : WalletID) (player : PlayerID) (initial : Money)
    (at_ : Time) : WagerTransaction :=
  mkTx tid OriginInternal KindOpening StatusProcessed wid player initial zeroId zeroId zeroId zeroId
    zeroId zeroId zeroId zeroId "" 0 zeroTime zeroTime initial at_ at_.

Definition opening_entry (eid : LedgerEntryID) (tid : TransactionID) (wid : WalletID) (initial : Money)
    (at_ : Time) : LedgerEntry :=
  mkLedgerEntry eid wid tid Credit initial (mkMoney 0 (currency initial)) initial at_.

Section spec.
Context `{Precision}.

(** A wallet of the player in this currency. *)
Definition has_wallet (s : Store) (player : PlayerID) (cur : Currency) : Prop :=
  exists k w, s_wallets s !! k = Some w /\ w_playerID w = player /\ w_currency w = cur.

(** Opening a wallet: it is new, it is its player's only one in the currency,
    and all the money it opens with is one credit of one OPENING operation. *)
Definition opened (s : Store) (player : PlayerID) (initial : Money) (w : Wallet) (s' : Store) : Prop :=
  exists at_, clock_time at_ /\ w = new_wallet (w_id w) player initial at_ /\ id_ok (w_id w) /\
    s_wallets s !! id_value (w_id w) = None /\ ~ has_wallet s player (currency initial) /\
    if minor initial =? 0 then s' = put_wallet (stored_wallet w) s
    else exists tid eid q events,
      id_ok tid /\ id_ok eid /\ s_txs s !! id_value tid = None /\
      eventsForOutcome (opening_tx tid (w_id w) player initial at_) w
        (opening_entry eid tid (w_id w) initial at_) true = Ok events /\
      appended
        (add_entry q (stored_entry (opening_entry eid tid (w_id w) initial at_))
          (put_tx (stored_tx (opening_tx tid (w_id w) player initial at_))
            (put_wallet (stored_wallet w) s))) events s'.

Inductive opening_error (s : Store) (player : PlayerID) (cur : Currency) : error -> Prop :=
| oe_exists : has_wallet s player cur ->
  opening_error s player cur (NewConflict "wallets_one_per_player_and_currency")
| oe_id_collision name :
  name = "wallets_pkey" \/ name = "wager_transactions_pkey" \/
  name = "wallet_ledger_entries_pkey" \/ name = "outbox_events_pkey" ->
  opening_error s player cur (NewConflict name).

(** ** Lemmas *)

Record opening_ok (player : PlayerID) (initial : Money) : Prop := {
  oo_player : id_ok player;
  oo_money : money_ok initial;
  oo_amount : 0 <= minor initial;
  oo_initialised : Money_IsInitialised initial = true;
  oo_currency : currency_ok (currency initial)
}.

Lemma Open_parse_ok cmd player initial : Open_parse cmd = Ok (player, initial) ->
  opening_ok player initial.
Proof.
  unfold Open_parse. intros H'.
  apply result_bind_Ok in H' as (pl & [Hpl _]%parseIdentifier_iff & H').
  apply result_bind_Ok in H' as (cur & [_ Hcur]%ParseCurrency_value & H').
  apply result_bind_Ok in H' as (m & Hm & H'). injection H' as <- <-.
  unfold ParseExternalMoney in Hm. apply result_bind_Ok in Hm as (m' & Hm & Hneg).
  destruct (Z.ltb_spec (minor m') 0); [done|]. injection Hneg as <-.
  pose proof (ParseMoney_ok _ _ _ Hm). apply ParseMoney_minor in Hm as (Hz & Hc & _).
  constructor; [done..| |by rewrite Hc]. unfold Money_IsInitialised. by rewrite Hc, Hz.
Qed.

Section values.
Context (player : PlayerID) (initial : Money) (Hok : opening_ok player initial)
  (wid : WalletID) (at_ : Time) (Hw : id_ok wid) (Hat : clock_time at_).

Lemma opening_at : Time_UTC at_ = at_ /\ Time_IsZero at_ = false /\ set_late at_ /\ is_utc at_.
Proof using Hat.
  split_and!; [by apply clock_time_UTC|by apply clock_time_nonzero|by apply clock_time_late|apply Hat].
Qed.

Lemma new_wallet_storable : wallet_storable (new_wallet wid player initial at_).
Proof using All.
  destruct Hok, opening_at as (? & ? & ? & ?). unfold money_ok in *. constructor; cbn; try done.
  constructor; cbn; try done; [by apply id_ok_not_zero|by apply id_ok_not_zero|].
  width; lia.
Qed.

Section positive.
Context (tid : TransactionID) (eid : LedgerEntryID) (Ht : id_ok tid) (He : id_ok eid)
  (Hpos : 0 < minor initial).

Lemma opening_entry_storable : entry_storable (opening_entry eid tid wid initial at_).
Proof using All.
  destruct Hok, opening_at as (? & ? & ? & ?). unfold money_ok in *. constructor; cbn; try done.
  constructor; cbn; try done; try by apply id_ok_not_zero. by right.
Qed.

Lemma NewOpeningTransaction_exact :
  NewOpeningTransaction (mkOpeningTransactionParams tid wid player initial at_) =
    Ok (opening_tx tid wid player initial at_).
Proof using All.
  destruct Hok, opening_at as (Hu & Hz & _ & _). unfold NewOpeningTransaction. cbn -[Kind_validateAmount].
  rewrite !id_ok_not_zero, Hz by done.
  assert (Ha : Kind_validateAmount KindOpening initial = Ok ()).
  { apply Kind_validateAmount_iff. split; [done|]. right. split; [done|lia]. }
  rewrite Ha. cbn. by rewrite Hu.
Qed.

Lemma opening_tx_storable : tx_storable (opening_tx tid wid player initial at_).
Proof using All.
  pose proof (NewOpeningTransaction_ok _ _ NewOpeningTransaction_exact).
  destruct Hok, opening_at as (? & ? & ? & ?). unfold money_ok in *.
  constructor; cbn; try done; try (by left); try (width; lia). intros Hz. congruence.
Qed.
End positive.

Lemma OpenWallet_exact tid eid : (0 < minor initial -> id_ok tid /\ id_ok eid) ->
  OpenWallet (mkOpenWalletParams wid player initial tid eid at_) =
    Ok (mkOpening (new_wallet wid player initial at_)
      (if minor initial =? 0 then [] else [opening_entry eid tid wid initial at_])).
Proof using All.
  intros Hids. destruct opening_at as (Hu & Hz & _ & _). pose proof (oo_amount _ _ Hok) as Hnn.
  pose proof (oo_initialised _ _ Hok) as Hi. unfold OpenWallet. cbn -[NewLedgerEntry ZeroMoney].
  rewrite !id_ok_not_zero by (done || apply Hok). rewrite Hz, Hi. cbn -[NewLedgerEntry ZeroMoney].
  unfold Money_IsNegative, Money_IsZero. destruct (Z.ltb_spec (minor initial) 0); [lia|].
  unfold ZeroMoney. unfold Money_IsInitialised in Hi. destruct (Currency_IsZero _); [done|].
  cbn -[NewLedgerEntry]. rewrite Hu. destruct (Z.eqb_spec (minor initial) 0) as [E|E]; [done|].
  destruct Hids as [Ht He]; [lia|].
  pose proof (opening_entry_storable tid eid Ht He ltac:(lia)) as Hent.
  pose proof (NewLedgerEntry_rehydrate _ (es_ok _ Hent)) as Hre.
  unfold entry_params in Hre. cbn -[NewLedgerEntry] in Hre. by rewrite Hre.
Qed.
End values.

(** *** An opening keeps the invariant *)

(** The wallet before its opening credit. *)
Definition empty_wallet (w : Wallet) : Wallet :=
  mkWallet (w_id w) (w_playerID w) (w_currency w) (mkMoney 0 (w_currency w)) (w_version w)
    (w_createdAt w) (w_updatedAt w).

Lemma empty_wallet_storable w : wallet_storable w -> wallet_storable (empty_wallet w).
Proof.
  intros [Hok ? ? ? ? ?]. constructor; cbn; try done. destruct Hok as [? ? Hc Hi]. constructor; cbn; try done.
  unfold Money_IsInitialised in *. cbn. by rewrite <- Hc.
Qed.

Section keeps.
Context (s : Store) (player : PlayerID) (initial : Money) (wid : WalletID) (at_ : Time).
Context (Hs : store_ok s) (Hok : opening_ok player initial) (Hw : id_ok wid) (Hat : clock_time at_).
Context (Hfresh : s_wallets s !! id_value wid = None) (Hone : ~ has_wallet s player (currency initial)).

Let w : Wallet := new_wallet wid player initial at_.

Lemma opened_alone k w0 : s_wallets s !! k = Some w0 -> w_playerID w0 = player ->
  w_currency w0 <> currency initial.
Proof using Hone. intros Hk Hp Hc. apply Hone. by exists k, w0. Qed.

Lemma opened_empty_ok : minor initial = 0 ->
  store_ok (put_wallet (stored_wallet w) s) /\ evolves s (put_wallet (stored_wallet w) s).
Proof using All.
  intros Hz. pose proof (new_wallet_storable player initial Hok wid at_ Hw Hat) as Hst. split.
  - apply put_wallet_fresh_ok; [done|done|by apply opened_alone| | |done].
    + by apply stored_wallet_ok.
    + by apply stored_wallet_idem.
  - split; [by apply grows_put_wallet_fresh|by apply announced_same].
Qed.

Context (tid : TransactionID) (eid : LedgerEntryID) (Ht : id_ok tid) (He : id_ok eid)
  (Hpos : 0 < minor initial) (Htx : s_txs s !! id_value tid = None) (q : Z).

Let t : WagerTransaction := opening_tx tid wid player initial at_.
Let e : LedgerEntry := opening_entry eid tid wid initial at_.
Let s1 : Store := put_wallet (empty_wallet (stored_wallet w)) s.

Lemma opening_store_ok : store_ok s1.
Proof using All.
  pose proof (new_wallet_storable player initial Hok wid at_ Hw Hat) as Hst.
  apply put_wallet_fresh_ok; [done|done|by apply opened_alone| | |done].
  - by apply empty_wallet_storable, stored_wallet_ok.
  - unfold empty_wallet, stored_wallet. cbn. by rewrite !norm_norm by (by apply clock_time_late).
Qed.

(** Only its own identity can be taken: no other opening, business name or
    reversal can be in its way. *)
Lemma opening_no_conflict s2 name : s_txs s2 = s_txs s -> name <> "wager_transactions_pkey" ->
  ~ tx_conflict s2 t name.
Proof using Hs Hfresh.
  intros E Hn Hc. destruct Hc as [[? _]|[(_ & ? & _)|[(_ & ? & _)|[(_ & _ & Hc)|(_ & _ & ? & _)]]]]; try done.
  destruct Hc as (k & t' & Hk & _ & _ & Hwal). cbn in Hwal. rewrite E in Hk.
  destruct (so_tx s Hs k t' Hk) as (_ & _ & _ & (w0 & Hw0 & _)). rewrite Hwal in Hw0. congruence.
Qed.

Lemma opening_recordable : recordable s1 (stored_tx t).
Proof using All.
  pose proof (opening_tx_storable player initial Hok wid at_ Hw Hat tid eid Ht He Hpos) as Hst. constructor.
  - by apply stored_tx_ok.
  - by apply stored_tx_idem.
  - unfold writable. cbn. by rewrite Htx.
  - intros name Hn. by apply (opening_no_conflict s1).
  - done.
  - exists (empty_wallet (stored_wallet w)). cbn. by rewrite lookup_insert_eq.
Qed.

Lemma opening_movable :
  movable s1 (stored_tx t) (empty_wallet (stored_wallet w)) (stored_wallet w) (stored_entry e).
Proof using All.
  pose proof (new_wallet_storable player initial Hok wid at_ Hw Hat) as Hst.
  pose proof (opening_entry_storable player initial Hok wid at_ Hw Hat tid eid Ht He Hpos) as Hent.
  constructor.
  - cbn. by rewrite lookup_insert_eq.
  - by split_and!.
  - split; [by apply stored_wallet_ok|by apply stored_wallet_idem].
  - split; [by apply stored_entry_ok|by apply stored_entry_idem].
  - by split_and!.
  - done.
  - done.
Qed.

Lemma opening_recorded :
  add_entry q (stored_entry e) (put_tx (stored_tx t) (put_wallet (stored_wallet w) s)) =
  record_moved (stored_tx t) (stored_wallet w) q (stored_entry e) s1.
Proof. unfold record_moved, s1, add_entry, put_tx, put_wallet. cbn. by rewrite insert_insert_eq. Qed.

Lemma opened_credited_ok s' events :
  eventsForOutcome t w e true = Ok events ->
  appended (add_entry q (stored_entry e) (put_tx (stored_tx t) (put_wallet (stored_wallet w) s))) events s' ->
  store_ok s' /\ evolves s s'.
Proof using All.
  rewrite opening_recorded. intros Hev Happ.
  pose proof opening_store_ok as Hs1. pose proof opening_recordable as Hr. pose proof opening_movable as Hm. split.
  - eapply store_ok_appended; [exact Happ|]. by apply (record_moved_ok _ _ _ _ _ _ Hs1 Hr Hm).
  - eapply (evolves_written s (record_moved (stored_tx t) (stored_wallet w) q (stored_entry e) s1) s' t w e true events);
      [|reflexivity|by left|exact Hev|exact Happ].
    eapply grows_trans; [|exact (grows_record_moved _ _ _ _ q _ Hs1 (rc_writable _ _ Hr) Hm)].
    by apply grows_put_wallet_fresh.
Qed.
End keeps.

Lemma opened_ok s player initial w s' : store_ok s -> opening_ok player initial ->
  opened s player initial w s' -> store_ok s' /\ evolves s s'.
Proof.
  intros Hs Hok (at_ & Hat & Ew & Hid & Hfresh & Hone & Hwr).
  remember (w_id w) as wid eqn:Ewid. subst w. pose proof (oo_amount _ _ Hok) as Hnn.
  destruct (Z.eqb_spec (minor initial) 0) as [Hz|Hz].
  - subst s'. by apply (opened_empty_ok s player initial wid at_).
  - destruct Hwr as (tid & eid & q & events & Ht & He & Htx & Hev & Happ).
    apply (opened_credited_ok s player initial wid at_ Hs Hok Hid Hat Hfresh Hone tid eid Ht He
      ltac:(lia) Htx q s' events); done.
Qed.

(** What opening a wallet did to the tables. *)
Record opening_effect (s : Store) (player : PlayerID) (initial : Money) (w : Wallet) (s' : Store) : Prop := {
  oe_new : s_wallets s !! id_value (w_id w) = None;
  oe_only : ~ has_wallet s player (currency initial);
  oe_wallet : w_playerID w = player /\ w_balance w = initial /\ w_version w = 1;
  oe_wallets : s_wallets s' = <[id_value (w_id w) := stored_wallet w]> (s_wallets s);
  oe_money : if minor initial =? 0 then s_txs s' = s_txs s /\ s_ledger s' = s_ledger s
    else exists t q e,
      s_txs s !! id_value (t_id t) = None /\ s_txs s' = <[id_value (t_id t) := t]> (s_txs s) /\
      t_kind t = KindOpening /\ t_status t = StatusProcessed /\ t_walletID t = w_id w /\ t_money t = initial /\
      s_ledger s' = s_ledger s ++ [(q, e)] /\ le_walletID e = w_id w /\ le_transactionID e = t_id t /\
      le_direction e = Credit /\ le_amount e = initial;
  oe_inbox : s_inbox s' = s_inbox s
}.

Lemma opened_effect s player initial w s' : opened s player initial w s' -> opening_effect s player initial w s'.
Proof.
  intros (at_ & _ & Ew & _ & Hfresh & Hone & Hwr).
  assert (Hw : w_playerID w = player /\ w_balance w = initial /\ w_version w = 1) by (rewrite Ew; by split_and!).
  destruct (minor initial =? 0) eqn:Hz.
  - subst s'. constructor; rewrite ?Hz; done.
  - destruct Hwr as (tid & eid & q & events & _ & _ & Htx & _ & (recs & -> & _)).
    constructor; rewrite ?Hz; [done..| |done].
    eexists (stored_tx (opening_tx tid (w_id w) player initial at_)), q, _. cbn. by split_and!.
Qed.
End spec.

(** ** The use case implements its specification *)

Section execute.
Context {W : Type} `{Storage W} `{Precision} `{!StorageLaws W}
  `{Clock W} `{!ClockLaws W} `{IDGenerator W} `{!IDLaws W}
  (repos : Repositories W) `{!RepositoriesLaws W repos}
  (uow : UnitOfWork W) `{!UnitOfWorkLaws W uow repos}.

(** What [Open_prepare] hands to the transaction. *)
Definition prepared (player : PlayerID) (initial : Money) (o : Opening) (tx : WagerTransaction) : Prop :=
  exists wid at_, id_ok wid /\ clock_time at_ /\ op_Wallet o = new_wallet wid player initial at_ /\
    if minor initial =? 0 then op_Entries o = [] /\ tx = noTx
    else exists tid eid, id_ok tid /\ id_ok eid /\
      op_Entries o = [opening_entry eid tid wid initial at_] /\
      tx = opening_tx tid wid player initial at_.

Lemma Open_prepare_aside ctx player initial : opening_ok player initial ->
  aside (Open_prepare ctx player initial) (fun otx => prepared player initial otx.1 otx.2).
Proof using All.
  intros Hok. pose proof (oo_amount _ _ Hok) as Hnn. unfold Open_prepare.
  eapply aside_bind; [apply aside_wrap, NewWalletID_aside|]. intros wid Hw.
  eapply aside_bind; [apply now_aside|]. intros at_ Hat.
  assert (Hpos : Money_IsPositive initial = negb (minor initial =? 0)).
  { unfold Money_IsPositive. destruct (Z.ltb_spec 0 (minor initial)), (Z.eqb_spec (minor initial) 0); lia. }
  rewrite Hpos. destruct (Z.eqb_spec (minor initial) 0) as [Hz|Hz]; cbn [negb].
  - eapply aside_bind; [apply (aside_ret (zeroId, zeroId) (fun te => te = (zeroId, zeroId))); done|].
    intros [tid eid] E. injection E as -> ->.
    rewrite (OpenWallet_exact player initial Hok wid at_ Hw Hat) by lia.
    eapply aside_bind; [by apply aside_pure_Ok|]. intros o ->.
    eapply aside_bind; [by apply (aside_ret noTx (fun tx => tx = noTx))|]. intros tx ->.
    apply aside_ret. exists wid, at_. cbn. by rewrite Hz.
  - eapply aside_bind.
    { eapply aside_bind; [apply aside_wrap, NewTransactionID_aside|]. intros tid Ht.
      eapply aside_bind; [apply aside_wrap, NewLedgerEntryID_aside|]. intros eid He.
      by apply (aside_ret (tid, eid) (fun te => id_ok te.1 /\ id_ok te.2)). }
    intros [tid eid] [Ht He]. cbn in Ht, He.
    rewrite (OpenWallet_exact player initial Hok wid at_ Hw Hat) by done.
    eapply aside_bind; [by apply aside_pure_Ok|]. intros o ->.
    rewrite (NewOpeningTransaction_exact player initial Hok wid at_ Hw Hat tid eid) by (done || lia).
    eapply aside_bind; [by apply aside_pure_Ok|]. intros tx ->.
    apply aside_ret. exists wid, at_. cbn. rewrite (proj2 (Z.eqb_neq _ _) Hz).
    split_and!; try done. by exists tid, eid.
Qed.

(** Inserting the wallet. *)
Lemma insert_wallet_ends s0 s w player initial wid at_ :
  opening_ok player initial -> id_ok wid -> clock_time at_ -> st_tx w s0 s ->
  ends s0 (w_Insert (r_Wallets repos) (new_wallet wid player initial at_)) w
    (fun _ s' => s_wallets s !! id_value wid = None /\ ~ has_wallet s player (currency initial) /\
       s' = put_wallet (stored_wallet (new_wallet wid player initial at_)) s)
    (opening_error s player (currency initial)).
Proof.
  intros Hok Hw Hat Htx. pose proof (new_wallet_storable player initial Hok wid at_ Hw Hat) as Hst.
  eapply ends_mono; [eapply ends_writes; [by apply Wallets_Insert_law|done|]| |].
  - intros e He. exact He.
  - intros _ s' (Hfresh & Hone & ->). split_and!; [done| |done]. intros (k & w0 & Hk & Hp & Hc).
    by apply (Hone k w0).
  - intros e (name & -> & [[-> _]|[-> (k & w0 & Hk & Hp & Hc)]]).
    + apply oe_id_collision. by left.
    + apply oe_exists. by exists k, w0.
Qed.

(** Inserting the operation and its entry over it. *)
Lemma credit_ends ctx s0 s w player initial wid at_ tid eid :
  store_ok s -> opening_ok player initial -> id_ok wid -> clock_time at_ ->
  id_ok tid -> id_ok eid -> 0 < minor initial -> s_wallets s !! id_value wid = None ->
  let wallet := new_wallet wid player initial at_ in
  let t := opening_tx tid wid player initial at_ in
  let e := opening_entry eid tid wid initial at_ in
  st_tx w s0 (put_wallet (stored_wallet wallet) s) ->
  ends s0 (_ ← t_Insert (r_Transactions repos) t; _ ← append_each repos [e];
           emit ctx repos t wallet e true) w
    (fun _ s' => exists q events, s_txs s !! id_value tid = None /\
       eventsForOutcome t wallet e true = Ok events /\
       appended (add_entry q (stored_entry e) (put_tx (stored_tx t) (put_wallet (stored_wallet wallet) s)))
         events s')
    (opening_error s player (currency initial)).
Proof.
  intros Hs Hok Hw Hat Ht He Hpos Hfresh wallet t e Htx.
  pose proof (opening_tx_storable player initial Hok wid at_ Hw Hat tid eid Ht He Hpos) as Hst.
  pose proof (opening_entry_storable player initial Hok wid at_ Hw Hat tid eid Ht He Hpos) as Hent.
  set (s1 := put_wallet (stored_wallet wallet) s) in *.
  eapply ends_bind.
  { eapply ends_mono; [apply (Insert_ends repos t s0 s1 w Hst); [|done|exact Htx]|intros ? ? Hq; exact Hq|].
    - cbn. rewrite lookup_insert_eq. eauto.
    - intros x (name & -> & Hc). destruct (decide (name = "wager_transactions_pkey")) as [->|Hn].
      + apply oe_id_collision. auto.
      + by destruct (opening_no_conflict s player initial wid at_ Hs Hfresh tid s1 name). }
  intros [] s2 w2 (Hno & ->) Htx2.
  assert (Htid : s_txs s !! id_value tid = None).
  { destruct (s_txs s !! id_value tid) eqn:E; [exfalso|done]. apply (Hno "wager_transactions_pkey").
    left. split; [done|]. change (is_Some (s_txs s !! id_value tid)). rewrite E. eauto. }
  eapply ends_bind.
  { cbn [append_each]. eapply ends_bind; [eapply ends_writes; [by apply Append_law|exact Htx2|]|].
    - intros x [(name & -> & [->|(-> & q & e' & Hin & _ & Hid)])|(_ & [Hn|Hn])].
      + apply oe_id_collision. auto.
      + exfalso. destruct (so_entry s Hs q e' Hin) as (_ & _ & (t' & Ht' & _) & _).
        rewrite Hid in Ht'. cbn in Ht'. congruence.
      + exfalso. revert Hn. cbn. by rewrite lookup_insert_eq.
      + exfalso. revert Hn. cbn. by rewrite lookup_insert_eq.
    - intros _ s' w' [_ Hq] Htx3. by eapply (ends_ret _ _ _ _ (fun _ s' => exists q, s' = add_entry q _ _)). }
  intros [] s3 w3 [q ->] Htx3.
  destruct (events_moved_Ok t wallet e) as [events Hev]; [apply Hst|done| |by apply clock_time_nonzero|done|done|].
  { unfold Wallet_IsInitialised. cbn. by rewrite (id_ok_not_zero _ Hw). }
  eapply ends_mono; [by eapply emit_ends| |].
  - intros a s' Happ. by exists q, events.
  - intros x ->. apply oe_id_collision. auto.
Qed.

Lemma Open_write_ends ctx player initial o tx s0 s w :
  store_ok s -> opening_ok player initial -> prepared player initial o tx -> st_tx w s0 s ->
  ends s0 (Open_write ctx repos o tx) w (fun _ s' => opened s player initial (op_Wallet o) s')
    (opening_error s player (currency initial)).
Proof.
  intros Hs Hok (wid & at_ & Hw & Hat & Ewal & Hrest) Htx. unfold Open_write. rewrite Ewal.
  pose proof (oo_amount _ _ Hok) as Hnn.
  eapply ends_bind; [by eapply insert_wallet_ends|]. intros [] s1 w1 (Hfresh & Hone & ->) Htx1.
  assert (Hopened : forall s', (if minor initial =? 0
      then s' = put_wallet (stored_wallet (new_wallet wid player initial at_)) s
      else exists tid eid q events, id_ok tid /\ id_ok eid /\ s_txs s !! id_value tid = None /\
        eventsForOutcome (opening_tx tid wid player initial at_) (new_wallet wid player initial at_)
          (opening_entry eid tid wid initial at_) true = Ok events /\
        appended (add_entry q (stored_entry (opening_entry eid tid wid initial at_))
          (put_tx (stored_tx (opening_tx tid wid player initial at_))
            (put_wallet (stored_wallet (new_wallet wid player initial at_)) s))) events s') ->
    opened s player initial (new_wallet wid player initial at_) s').
  { intros s' Hs'. exists at_. split_and!; done. }
  destruct (Z.eqb_spec (minor initial) 0) as [Hz|Hz].
  - destruct Hrest as [-> ->]. cbn [append_each Tx_IsInitialised].
    eapply ends_bind; [by apply (ends_ret _ _ _ _ (fun _ s' => s' = _) _ Htx1 eq_refl)|].
    intros [] s2 w2 -> Htx2.
    eapply ends_bind; [by apply (ends_ret _ _ _ _ (fun _ s' => s' = _) _ Htx2 eq_refl)|].
    intros [] s3 w3 -> Htx3. eapply ends_ret; [exact Htx3|by apply Hopened].
  - destruct Hrest as (tid & eid & Ht & He & -> & ->).
    assert (Hini : Tx_IsInitialised (opening_tx tid wid player initial at_) = true).
    { unfold Tx_IsInitialised. cbn. by rewrite (id_ok_not_zero _ Ht). }
    rewrite Hini. cbn [negb].
    eapply ends_mono; [apply (credit_ends ctx s0 s w1 player initial wid at_ tid eid); done || lia| |done].
    intros _ s' (q & events & Htid & Hev & Happ). apply Hopened. by exists tid, eid, q, events.
Qed.

(** Where opening a wallet may leave the world. *)
Definition open_error (ctx : Context) (cmd : OpenWalletCommand) (s : Store) (e : error) : Prop :=
  caller ctx ScopeWallets = Err e \/
  (is_Ok (caller ctx ScopeWallets) = true /\ Open_parse cmd = Err e) \/
  (exists player initial, Open_parse cmd = Ok (player, initial) /\
     opening_error s player (currency initial) e).

Definition wallet_opened (ctx : Context) (cmd : OpenWalletCommand) (s : Store)
    (r : result Wallet) (w' : W) : Prop :=
  match r with
  | Ok wallet => exists i player initial s0 s1, caller ctx ScopeWallets = Ok i /\
      Open_parse cmd = Ok (player, initial) /\ st_others s s0 /\
      opened s0 player initial wallet s1 /\ st_idle w' s1
  | Err e =>
    (exists s1, st_others s s1 /\ st_idle w' s1 /\ (open_error ctx cmd s1 e \/ st_infra e)) \/
    (exists player initial wallet s0 s1, Open_parse cmd = Ok (player, initial) /\ st_others s s0 /\
       opened s0 player initial wallet s1 /\ st_idle w' s1 /\ st_infra e)
  end.

Lemma OpenWallet_Execute_ends ctx cmd s w :
  cx_insideUnitOfWork ctx = false -> st_idle w s -> store_ok s ->
  let '(r, w') := OpenWallet_Execute uow ctx cmd w in wallet_opened ctx cmd s r w'.
Proof using All.
  intros Hin Hi Hs. unfold OpenWallet_Execute, mbind, M_bind, pure.
  destruct (caller ctx ScopeWallets) as [i|e] eqn:Hcal.
  2:{ left. exists s. split_and!; [apply st_others_refl|done|]. left. by left. }
  destruct (Open_parse cmd) as [[player initial]|e] eqn:Hp.
  2:{ left. exists s. split_and!; [apply st_others_refl|done|]. left. right; left. by rewrite Hcal. }
  pose proof (Open_parse_ok _ _ _ Hp) as Hok.
  pose proof (proj2 (Open_prepare_aside ctx player initial Hok) w s Hi) as Hprep. unfold wp in Hprep.
  destruct (Open_prepare ctx player initial w) as [[[o tx]|e] w1].
  2:{ destruct Hprep as [He Hi1]. left. exists s. split_and!; [apply st_others_refl|done|by right]. }
  destruct Hprep as [Hpre Hi1]. cbn in Hpre. unfold Open_commit.
  pose proof (Do_law (UnitOfWorkLaws := UnitOfWorkLaws0) unit ctx
    (fun ctx repos => no_capture (Open_write ctx repos o tx))
    store_ok (fun _ => True) (fun s0 s1 _ => opened s0 player initial (op_Wallet o) s1)
    (fun s0 e => opening_error s0 player (currency initial) e) () w1 s Hin Hi1 Hs I) as Hdo.
  assert (Hst : forall s s', store_ok s -> st_others s s' -> store_ok s').
  { intros s1 s2 Hx Hy. by eapply st_others_ok. }
  specialize (Hdo Hst).
  assert (Hbody : forall s0, store_ok s0 ->
    attempt_ok (no_capture (Open_write (inside ctx) repos o tx)) (fun _ => True)
      (fun s0 s1 _ => opened s0 player initial (op_Wallet o) s1)
      (fun s0 e => opening_error s0 player (currency initial) e) s0).
  { intros s0 Hs0 c w2 _ Htx.
    pose proof (Open_write_ends (inside ctx) player initial o tx s0 s0 w2 Hs0 Hok Hpre Htx) as He.
    unfold ends, wp, no_capture in *. destruct (Open_write _ _ _ _ w2) as [[a|e] w3].
    - destruct He as (s' & Ha & Htx'). split; [done|]. by exists s'.
    - destruct He as [He Hd]. by split_and!. }
  specialize (Hdo Hbody). destruct (uow_Do _ _ _ _ _) as [[[[]|e] []] w'].
  - destruct Hdo as (s0 & s1 & Ho & Hop & Hi'). by exists i, player, initial, s0, s1.
  - destruct Hdo as [(s1 & Ho & Hi' & He & _)|(s0 & s1 & Ho & Hop & Hi' & He)].
    + left. exists s1. split_and!; [done..|]. destruct He as [He|He]; [left|by right].
      right; right. by exists player, initial.
    + right. by exists player, initial, (op_Wallet o), s0, s1.
Qed.
End execute.
