(* ===== verification/Reconcile.v ===== *)
(** * Reconcile: [internal/app/reconcile.go]

    Rebuilding a wallet's balance from its ledger and comparing, against one
    unchanging view of the database.  The log line and the metric of [report]
    are not modelled. *)

From S2P Require Import Prelude Errors GoTime Money Identifier Ledger Wallet Transaction Event.
From S2P Require Import Identity Ports Store StoreInv Storable SubmitProof.

#[local] Open Scope string_scope.
#[local] Open Scope list_scope.
#[local] Open Scope Z_scope.

(** ** Definitions *)

Record Reconciliation := mkReconciliation {
  rn_WalletID : WalletID;
  rn_Stored : Money;
  rn_Rebuilt : Money;
  rn_Difference : Money;
  rn_Entries : Z;
  rn_Version : Z;
  rn_CheckedAt : Time
}.

Definition Drifted (r : Reconciliation) : bool := negb (Money_IsZero (rn_Difference r)).

Section reconcile.
Context {W : Type} `{Clock W}.

(** The callback: both reads, the difference and the time of the check. *)
Definition Reconcile_check (id : WalletID) (ctx : Context) (queries : Queries W) : M W Reconciliation :=
  wallet ← wr_FindByID (q_Wallets queries) id;
  '(rebuilt, entries) ← lr_SumByWallet (q_Ledger queries) id (currency (w_balance wallet));
  difference ← pure (Money_Sub (w_balance wallet) rebuilt);
  at_ ← now;
  mret {|
    rn_WalletID := id;
    rn_Stored := w_balance wallet;
    rn_Rebuilt := rebuilt;
    rn_Difference := difference;
    rn_Entries := entries;
    rn_Version := w_version wallet;
    rn_CheckedAt := at_
  |}.

Definition Reconcile_Execute (snapshot : Snapshot W) (ctx : Context) (walletID : string)
    : M W Reconciliation :=
  _ ← pure (caller ctx ScopeWallets);
  id ← pure (ParseWalletID walletID);
  snap_Do snapshot ctx (Reconcile_check id).
End reconcile.

(** ** Specification *)

(** What the check reports is what the store holds. *)
Record reconciled (s : Store) (id : WalletID) (wallet : Wallet) (r : Reconciliation) : Prop := {
  rd_wallet : s_wallets s !! id_value id = Some wallet;
  rd_id : rn_WalletID r = id;
  rd_stored : rn_Stored r = w_balance wallet;
  rd_rebuilt : rn_Rebuilt r = mkMoney (entries_sum (entries_of id s)) (w_currency wallet);
  rd_difference : rn_Difference r =
    mkMoney (minor (w_balance wallet) - entries_sum (entries_of id s)) (w_currency wallet);
  rd_entries : rn_Entries r = Z.of_nat (length (entries_of id s));
  rd_version : rn_Version r = w_version wallet;
  rd_checked : clock_time (rn_CheckedAt r)
}.

(** Why a check fails: the wallet is not there, or its entries or the
    difference do not fit an [int64]. *)
Inductive reconcile_error (s : Store) (id : WalletID) : error -> Prop :=
| re_no_wallet : s_wallets s !! id_value id = None -> reconcile_error s id (SentinelError ErrNotFound)
| re_sum e : ~ is_i64 (entries_sum (entries_of id s)) -> reconcile_error s id e
| re_difference wallet :
  s_wallets s !! id_value id = Some wallet ->
  ~ is_i64 (minor (w_balance wallet) - entries_sum (entries_of id s)) ->
  reconcile_error s id (DomainError CodeAmountOverflow).

Lemma reconciled_drift s id wallet r : reconciled s id wallet r ->
  Drifted r = true <-> minor (w_balance wallet) <> entries_sum (entries_of id s).
Proof.
  intros Hr. unfold Drifted, Money_IsZero. rewrite (rd_difference _ _ _ _ Hr). cbn.
  rewrite negb_true_iff, Z.eqb_neq. lia.
Qed.

(** ** The use case implements its specification *)

Section execute.
Context {W : Type} `{Storage W} `{Precision} `{!StorageLaws W} `{Clock W} `{!ClockLaws W}
  (snapshot : Snapshot W) (queries : Queries W) `{!SnapshotLaws W snapshot queries}.

Lemma Reconcile_check_wp id ctx w s0 s : id_ok id -> st_tx w s0 s ->
  wp (Reconcile_check id ctx queries) w
    (fun r w' => (exists wallet, reconciled s id wallet r) /\ st_dead w' s0)
    (fun e w' => (reconcile_error s id e \/ st_infra e) /\ st_dead w' s0).
Proof using All.
  intros Hid Htx. unfold Reconcile_check. apply wp_bind.
  eapply wp_mono; [by apply Snap_Wallet_law| |].
  2:{ intros e w' [(-> & Hno & Htx')|He]; [|by destruct He; auto].
      split; [left|by eapply st_tx_dead]. apply re_no_wallet.
      destruct (s_wallets s !! id_value id) eqn:E; [by destruct (Hno _ E)|done]. }
  intros wallet w1 [Hw Htx1]. unfold wallet_with_id in Hw.
  destruct (Snap_storable _ _ _ _ _ Htx1 Hw) as [Hk Hst]. pose proof (ws_ok _ Hst) as Hok.
  apply wp_bind. rewrite (wo_currency _ Hok).
  eapply wp_mono; [apply (Snap_Sum_law id (w_currency wallet) (ws_currency _ Hst)); exact Htx1| |].
  2:{ intros e w' [[He|He] Hd]; (split; [|done]); [left; by apply re_sum|by right]. }
  intros [rebuilt entries] w2 (E & Hsum & Htx2). injection E as -> ->.
  apply wp_bind. rewrite Money_Sub_exact; [|unfold money_ok; pose proof (wo_balance _ Hok); width; lia|done].
  assert (Hcmp : requireComparable (w_balance wallet)
    (mkMoney (entries_sum (entries_of id s)) (w_currency wallet)) = Ok ()).
  { apply requireComparable_Ok. pose proof (wo_initialised _ Hok) as Hi. pose proof (wo_currency _ Hok) as Hc.
    split_and!; [done| |done]. unfold Money_IsInitialised in *. by rewrite <- Hc. }
  unfold sub_ref. rewrite Hcmp. cbn [mbind result_bind minor currency]. rewrite (wo_currency _ Hok).
  case_decide as Hdiff; (apply wp_pure; [|intros e [= <-]]).
  2:{ done. }
  2:{ split; [left; by eapply re_difference|by eapply st_tx_dead]. }
  intros difference [= <-]. apply wp_bind.
  eapply wp_mono; [exact (aside_tx _ _ _ _ _ now_aside Htx2)| |].
  2:{ intros e w' [He Htx']. split; [by right|by eapply st_tx_dead]. }
  intros at_ w3 [Hat Htx3]. apply wp_ret. split; [|by eapply st_tx_dead]. by exists wallet.
Qed.

(** Where a check may leave the world: nothing changed, whatever it answers. *)
Definition reconciles (ctx : Context) (walletID : string) (s : Store) (r : result Reconciliation)
    (w' : W) : Prop :=
  exists s0, st_others s s0 /\ st_idle w' s0 /\
  match r with
  | Ok rec => exists i id wallet, caller ctx ScopeWallets = Ok i /\ ParseWalletID walletID = Ok id /\
      reconciled s0 id wallet rec
  | Err e =>
    caller ctx ScopeWallets = Err e \/
    (is_Ok (caller ctx ScopeWallets) = true /\ ParseWalletID walletID = Err e) \/
    (exists id, ParseWalletID walletID = Ok id /\ reconcile_error s0 id e) \/ st_infra e
  end.

Lemma Reconcile_Execute_ends ctx walletID s w : st_idle w s ->
  let '(r, w') := Reconcile_Execute snapshot ctx walletID w in reconciles ctx walletID s r w'.
Proof using All.
  intros Hi. unfold Reconcile_Execute, mbind, M_bind, pure.
  destruct (caller ctx ScopeWallets) as [i|e] eqn:Hcal.
  2:{ exists s. split_and!; [apply st_others_refl|done|by left]. }
  destruct (ParseWalletID walletID) as [id|e] eqn:Hid.
  2:{ exists s. split_and!; [apply st_others_refl|done|]. right; left. by rewrite Hcal. }
  destruct (proj1 (parseIdentifier_iff KWallet _ _) Hid) as [Hok _].
  pose proof (Snap_Do_law (SnapshotLaws := SnapshotLaws0) Reconciliation ctx (Reconcile_check id)
    (fun s0 r => exists wallet, reconciled s0 id wallet r) (fun s0 e => reconcile_error s0 id e) w s Hi) as Hdo.
  assert (Hbody : forall s0 w0, st_others s s0 -> st_tx w0 s0 s0 ->
    wp (Reconcile_check id ctx queries) w0
      (fun r w' => (exists wallet, reconciled s0 id wallet r) /\ st_dead w' s0)
      (fun e w' => (reconcile_error s0 id e \/ st_infra e) /\ st_dead w' s0)).
  { intros s0 w0 _ Htx. by apply Reconcile_check_wp. }
  specialize (Hdo Hbody). unfold wp in Hdo. destruct (snap_Do _ _ _ _) as [[rec|e] w'].
  - destruct Hdo as (s0 & Ho & (wallet & Hr) & Hi'). exists s0. split_and!; [done..|]. by exists i, id, wallet.
  - destruct Hdo as (s0 & Ho & He & Hi'). exists s0. split_and!; [done..|]. do 2 right.
    destruct He as [He|He]; [left|by right]. by exists id.
Qed.
End execute.
