(* ===== verification/Queries.v ===== *)
(** * Queries: [internal/app/queries.go]

    The reads that need no transaction: a wallet, a page of its ledger, an
    operation by either of its names; what a caller may learn from them, and
    what following the pages of a ledger enumerates. *)

From stdpp Require Import sorting.
From S2P Require Import Prelude Errors GoTime Money Identifier Ledger Wallet Transaction Event.
From S2P Require Import Identity Ports Store StoreInv.

#[local] Open Scope string_scope.
#[local] Open Scope list_scope.
#[local] Open Scope Z_scope.

(** ** Definitions *)

Definition DefaultLedgerPageSize : Z := 50.
Definition MaxLedgerPageSize : Z := 200.

(** The switch on the limit. *)
Definition Ledger_limit (limit : Z) : result Z :=
  if limit <=? 0 then Ok DefaultLedgerPageSize
  else if MaxLedgerPageSize <? limit then Err (Wrapped (SentinelError ErrInvalidInput))
  else Ok limit.

Section queries.
Context {W : Type} (queries : Queries W).

Definition WalletQueries_Get (ctx : Context) (walletID : string) : M W Wallet :=
  _ ← pure (caller ctx ScopeWallets);
  id ← pure (ParseWalletID walletID);
  wr_FindByID (q_Wallets queries) id.

Definition WalletQueries_Ledger (ctx : Context) (walletID : string) (cursor : LedgerCursor)
    (limit : Z) : M W LedgerPage :=
  _ ← pure (caller ctx ScopeWallets);
  id ← pure (ParseWalletID walletID);
  limit ← pure (Ledger_limit limit);
  _ ← wr_FindByID (q_Wallets queries) id;
  lr_ListByWallet (q_Ledger queries) id cursor limit.

Definition TransactionQueries_Get (ctx : Context) (transactionID : string) : M W WagerTransaction :=
  identity ← pure (caller ctx ScopeRead);
  id ← pure (ParseTransactionID transactionID);
  transaction ← tr_FindByID (q_Transactions queries) id;
  if negb (owns identity (t_providerID transaction)) then throw (SentinelError ErrNotFound)
  else mret transaction.

Definition TransactionQueries_GetByBusinessID (ctx : Context) (providerID externalID : string)
    : M W WagerTransaction :=
  identity ← pure (caller ctx ScopeRead);
  provider ← pure (ParseProviderID providerID);
  if negb (owns identity provider) then throw (SentinelError ErrNotFound)
  else
    external ← pure (ParseExternalTransactionID externalID);
    tr_FindByBusinessID (q_Transactions queries) provider external.

(** A client that follows the cursors, at most [fuel] pages, and says whether
    it reached the end. *)
Fixpoint read_ledger (fuel : nat) (ctx : Context) (walletID : string) (cursor : LedgerCursor)
    (limit : Z) : M W (list LedgerEntry * bool) :=
  match fuel with
  | O => mret ([], false)
  | S fuel =>
    page ← WalletQueries_Ledger ctx walletID cursor limit;
    if lg_HasMore page then
      '(rest, finished) ← read_ledger fuel ctx walletID (lg_Next page) limit;
      mret (lg_Entries page ++ rest, finished)
    else mret (lg_Entries page, true)
  end.
End queries.

(** ** Specification *)

(** The part of the store a caller may see: the operations that are its own. *)
Definition own_operations (i : Identity) (s : Store) : gmap string WagerTransaction :=
  filter (fun kt => owns i (t_providerID kt.2) = true) (s_txs s).

(** ** Pages *)

Lemma entries_after_grow id c s s' es : s_ledger s' = s_ledger s ++ es ->
  exists more, entries_after id c s' = entries_after id c s ++ more.
Proof. intros E. unfold entries_after. rewrite E, filter_app. eauto. Qed.

(** The entries after the cursor of a page are those the page left out. *)
Lemma entries_after_next id c k s page rest : StronglySorted Z.lt (s_ledger s).*1 ->
  entries_after id c s = page ++ rest -> last page.*1 = Some k ->
  entries_after id (NewLedgerCursor k) s = rest.
Proof.
  intros Hs E Hk.
  assert (Hsorted : StronglySorted Z.lt (page ++ rest).*1).
  { rewrite <- E. unfold entries_after. by apply (sorted_filter fst). }
  rewrite <- (filter_after fst page rest k Hsorted Hk), <- E.
  assert (Hck : cursor_after c < k).
  { rewrite fmap_last in Hk. destruct (last page) as [x|] eqn:Ex; [|done]. injection Hk as <-.
    apply last_Some in Ex as [l ->].
    assert (Hin : x ∈ entries_after id c s) by (rewrite E; set_solver). unfold entries_after in Hin.
    apply list_elem_of_filter in Hin as [[_ ?] _]. done. }
  unfold entries_after. cbn [cursor_after]. rewrite list_filter_filter.
  apply list_filter_iff. intros x. split; [|tauto]. intros [? ?]. split_and!; [done|done|lia].
Qed.

(** No entry is enumerated twice. *)
Lemma entries_after_once `{Precision} id c s : store_ok s ->
  NoDup (le_transactionID <$> (entries_after id c s).*2).
Proof.
  intros Hs. eapply sublist_NoDup; [exact (so_once s Hs)|].
  apply fmap_sublist, fmap_sublist, sublist_filter.
Qed.

Lemma Ledger_limit_bounds limit l : Ledger_limit limit = Ok l -> 0 < l <= MaxLedgerPageSize.
Proof.
  unfold Ledger_limit, DefaultLedgerPageSize, MaxLedgerPageSize.
  destruct (Z.leb_spec limit 0); [intros [= <-]; lia|].
  destruct (Z.ltb_spec 200 limit); [done|]. intros [= <-]. lia.
Qed.

(** ** The use cases implement their specification *)

Section execute.
Context {W : Type} `{Storage W} `{Precision} `{!StorageLaws W}
  (queries : Queries W) `{!QueriesLaws W queries}.

(** A read: it changes nothing, and what it answered or why it fails is said
    of the store it was served from. *)
Definition answered {A} (s : Store) (x : result A * W) (Q : Store -> A -> Prop)
    (E : Store -> error -> Prop) : Prop :=
  exists s', st_others s s' /\ st_idle x.2 s' /\
    match x.1 with Ok a => Q s' a | Err e => E s' e \/ st_infra e end.

Lemma answers_now {A} s w (r : result A) (Q : Store -> A -> Prop) (E : Store -> error -> Prop) :
  st_idle w s -> match r with Ok a => Q s a | Err e => E s e end -> answered s (r, w) Q E.
Proof using StorageLaws0.
  intros Hi Hr. exists s. split_and!; [apply st_others_refl|done|]. destruct r; [done|by left].
Qed.

Lemma answers_reads {A B} (m : M W A) (f : A -> M W B) Found s w (Q : Store -> B -> Prop)
    (E : Store -> error -> Prop) :
  reads m Found -> st_idle w s ->
  (forall a w' s', st_others s s' -> Found s' a -> st_idle w' s' -> answered s (f a w') Q E) ->
  (forall s', st_others s s' -> (forall a, ~ Found s' a) -> E s' (SentinelError ErrNotFound)) ->
  answered s ((m ≫= f) w) Q E.
Proof.
  intros Hm Hi Hf Hno. pose proof (Hm w s Hi) as Hread. unfold wp, mbind, M_bind in *.
  destruct (m w) as [[a|e] w'].
  - destruct Hread as (s' & Ho & Ha & Hi'). by apply (Hf a w' s').
  - destruct Hread as (s' & Ho & Hi' & He). exists s'. split_and!; [done..|]. cbn.
    destruct He as [[-> Hn]|He]; [left; by apply Hno|by right].
Qed.

(** What [Get] and [GetByBusinessID] of an operation tell a caller. *)
Lemma Get_transaction_answers ctx transactionID s w : st_idle w s -> store_ok s ->
  answered s (TransactionQueries_Get queries ctx transactionID w)
    (fun s' t => exists i, caller ctx ScopeRead = Ok i /\ own_operations i s' !! transactionID = Some t)
    (fun s' e => caller ctx ScopeRead = Err e \/ ParseTransactionID transactionID = Err e \/
       exists i, caller ctx ScopeRead = Ok i /\ own_operations i s' !! transactionID = None /\
         e = SentinelError ErrNotFound).
Proof using All.
  intros Hi Hs. unfold TransactionQueries_Get.
  destruct (caller ctx ScopeRead) as [i|e] eqn:Hcal.
  2:{ apply (answers_now s w (Err e)); [done|by left]. }
  rewrite bind_pure_Ok.
  destruct (ParseTransactionID transactionID) as [id|e] eqn:Hid.
  2:{ apply (answers_now s w (Err e)); [done|by right; left]. }
  destruct (proj1 (parseIdentifier_iff KTransaction _ _) Hid) as [Hok Hv].
  rewrite bind_pure_Ok.
  eapply answers_reads; [by apply Q_FindByID_law|done| |].
  - intros t w' s' Ho Ht Hi'. rewrite Hv in Ht. unfold own_operations.
    destruct (owns i (t_providerID t)) eqn:Hown; cbn [negb].
    + exists s'. split_and!; [done..|]. exists i. split; [done|]. cbn.
      apply map_lookup_filter_Some. done.
    + exists s'. split_and!; [done..|]. left; right; right. exists i. split_and!; [done| |done].
      apply map_lookup_filter_None. right. intros t' Ht'. cbn. congruence.
  - intros s' Ho Hno. right; right. exists i. split_and!; [done| |done].
    apply map_lookup_filter_None. left. rewrite <- Hv. destruct (s_txs s' !! id_value id) eqn:E; [|done].
    by destruct (Hno _ E).
Qed.

Definition own_named (i : Identity) (s : Store) (provider external : string) (t : WagerTransaction) : Prop :=
  own_operations i s !! id_value (t_id t) = Some t /\
  id_value (t_providerID t) = provider /\ id_value (t_externalID t) = external.

Lemma GetByBusinessID_answers ctx providerID externalID s w : st_idle w s -> store_ok s ->
  answered s (TransactionQueries_GetByBusinessID queries ctx providerID externalID w)
    (fun s' t => exists i, caller ctx ScopeRead = Ok i /\ own_named i s' providerID externalID t)
    (fun s' e => caller ctx ScopeRead = Err e \/ ParseProviderID providerID = Err e \/
       ParseExternalTransactionID externalID = Err e \/
       exists i, caller ctx ScopeRead = Ok i /\ (forall t, ~ own_named i s' providerID externalID t) /\
         e = SentinelError ErrNotFound).
Proof using All.
  intros Hi Hs. unfold TransactionQueries_GetByBusinessID.
  destruct (caller ctx ScopeRead) as [i|e] eqn:Hcal.
  2:{ apply (answers_now s w (Err e)); [done|by left]. }
  rewrite bind_pure_Ok.
  destruct (ParseProviderID providerID) as [provider|e] eqn:Hp.
  2:{ apply (answers_now s w (Err e)); [done|by right; left]. }
  destruct (proj1 (parseIdentifier_iff KProvider _ _) Hp) as [Hpok Hpv].
  rewrite bind_pure_Ok.
  destruct (owns i provider) eqn:Hown; cbn [negb].
  2:{ apply (answers_now s w (Err _)); [done|]. do 3 right. exists i. split_and!; [done| |done].
      intros t ([_ Ht]%map_lookup_filter_Some & Hpt & _). cbn in Ht. rewrite <- Hpv in Hpt.
      apply id_value_inj in Hpt. congruence. }
  destruct (ParseExternalTransactionID externalID) as [external|e] eqn:He.
  2:{ apply (answers_now s w (Err e)); [done|by right; right; left]. }
  destruct (proj1 (parseIdentifier_iff KExternalTransaction _ _) He) as [Heok Hev].
  rewrite bind_pure_Ok.
  pose proof (Q_FindByBusinessID_law provider external Hpok Heok w s Hi) as Hread. unfold wp in Hread.
  destruct (tr_FindByBusinessID _ _ _ w) as [[t|e] w'].
  - destruct Hread as (s' & Ho & (Ht & Htp & Hte) & Hi'). exists s'. split_and!; [done..|]. exists i. cbn.
    split; [done|]. split_and!; [|congruence..]. apply map_lookup_filter_Some. split; [done|]. cbn. congruence.
  - destruct Hread as (s' & Ho & Hi' & Hre). exists s'. split_and!; [done..|]. cbn.
    destruct Hre as [[-> Hno]|Hre]; [left|by right]. do 3 right. exists i. split_and!; [done| |done].
    intros t ([Ht _]%map_lookup_filter_Some & Hpt & Het). apply (Hno t). split; [done|].
    split; apply id_value_inj; congruence.
Qed.

Definition ledger_refusal (ctx : Context) (id : WalletID) (s : Store) (e : error) : Prop :=
  caller ctx ScopeWallets = Err e \/
  (s_wallets s !! id_value id = None /\ e = SentinelError ErrNotFound).

Section ledger.
Context (ctx : Context) (walletID : string) (limit : Z) (id : WalletID) (l : Z)
  (Hid : ParseWalletID walletID = Ok id) (Hl : Ledger_limit limit = Ok l).

Lemma Ledger_answers cursor s w : st_idle w s ->
  answered s (WalletQueries_Ledger queries ctx walletID cursor limit w)
    (fun s' page => is_Ok (caller ctx ScopeWallets) = true /\ page = ledger_page id cursor l s')
    (ledger_refusal ctx id).
Proof using All.
  intros Hi. unfold WalletQueries_Ledger.
  destruct (caller ctx ScopeWallets) as [i|e] eqn:Hcal.
  2:{ apply (answers_now s w (Err e)); [done|by left]. }
  rewrite bind_pure_Ok, Hid, bind_pure_Ok, Hl, bind_pure_Ok.
  destruct (proj1 (parseIdentifier_iff KWallet _ _) Hid) as [Hok _].
  pose proof (Ledger_limit_bounds _ _ Hl) as [Hpos Hmax].
  eapply answers_reads; [by apply Q_Wallet_law|done| |].
  - intros wallet w' s' Ho _ Hi'.
    pose proof (Q_ListByWallet_law id cursor l ltac:(unfold MaxLedgerPageSize, MaxInt64 in *; lia) w' s' Hi') as Hread.
    unfold wp in Hread. destruct (lr_ListByWallet _ _ _ _ w') as [[page|e] w''].
    + destruct Hread as (s2 & Ho2 & -> & Hi2). exists s2.
      split_and!; [by eapply st_others_trans|done|done..].
    + destruct Hread as (s2 & Ho2 & Hi2 & He). exists s2.
      split_and!; [by eapply st_others_trans|done|by right].
  - intros s' Ho Hno. right. split; [|done].
    destruct (s_wallets s' !! id_value id) eqn:E; [by destruct (Hno _ E)|done].
Qed.

(** What following the pages has enumerated so far. *)
Definition enumerated (fuel : nat) (cursor : LedgerCursor) (s : Store) (r : list LedgerEntry * bool) : Prop :=
  exists rest, (entries_after id cursor s).*2 = r.1 ++ rest /\
    if r.2 then rest = [] else Z.of_nat fuel * l <= Z.of_nat (length r.1).

Lemma read_ledger_answers fuel cursor s w : st_idle w s -> store_ok s ->
  answered s (read_ledger queries fuel ctx walletID cursor limit w) (enumerated fuel cursor)
    (ledger_refusal ctx id).
Proof using All.
  revert cursor s w. induction fuel as [|fuel IH]; intros cursor s w Hi Hs; cbn [read_ledger].
  { apply (answers_now s w (Ok _)); [done|]. by exists (entries_after id cursor s).*2. }
  unfold mbind, M_bind. pose proof (Ledger_answers cursor s w Hi) as Hpage.
  destruct (WalletQueries_Ledger _ _ _ _ _ w) as [[page|e] w1];
    destruct Hpage as (s1 & Ho1 & Hi1 & Hp); cbn in Hi1, Hp; [|by exists s1].
  destruct Hp as [_ ->]. destruct (st_others_ok _ _ Ho1 Hs) as [Hs1 _].
  pose proof (Ledger_limit_bounds _ _ Hl) as [Hpos _].
  unfold ledger_page. cbn [lg_HasMore lg_Entries lg_Next].
  set (rest1 := entries_after id cursor s1). case_bool_decide as Hmore.
  2:{ exists s1. split_and!; [done..|]. cbn. exists []. split; [|done]. rewrite app_nil_r. f_equal.
      fold rest1. rewrite take_ge by lia. done. }
  set (page := take (Z.to_nat l) rest1).
  assert (Hlen : length page = Z.to_nat l) by (unfold page; rewrite length_take; lia).
  destruct (last page.*1) as [k|] eqn:Hk.
  2:{ apply last_None in Hk. apply (f_equal length) in Hk. rewrite length_fmap in Hk. cbn in Hk. lia. }
  cbn [default]. pose proof (IH (NewLedgerCursor k) s1 w1 Hi1 Hs1) as Hrest.
  destruct (read_ledger _ fuel _ _ _ _ w1) as [[[es fin]|e] w2];
    destruct Hrest as (s2 & Ho2 & Hi2 & Hr); cbn in Hi2, Hr;
    (exists s2; split_and!; [by eapply st_others_trans|done|]); [|done]. cbn.
  destruct Hr as (rest & E & Hfin). cbn in E, Hfin.
  destruct (st_others_ok _ _ Ho2 Hs1) as [_ [[(new & Hnew) _ _ _ _] _]].
  destruct (entries_after_grow id cursor s1 s2 new Hnew) as [more Hm]. fold rest1 in Hm.
  rewrite <- (take_drop (Z.to_nat l) rest1), <- app_assoc in Hm. fold page in Hm.
  rewrite (entries_after_next id cursor k s2 page _ (Q_ordered _ _ Hi2) Hm Hk) in E.
  exists rest. split; [by rewrite Hm, fmap_app, E, app_assoc|]. destruct fin; [done|]. cbn.
  rewrite length_app, length_fmap, Hlen. lia.
Qed.
End ledger.

Lemma Wallet_answers ctx walletID s w : st_idle w s ->
  answered s (WalletQueries_Get queries ctx walletID w)
    (fun s' wallet => is_Ok (caller ctx ScopeWallets) = true /\ s_wallets s' !! walletID = Some wallet)
    (fun s' e => caller ctx ScopeWallets = Err e \/ ParseWalletID walletID = Err e \/
       (s_wallets s' !! walletID = None /\ e = SentinelError ErrNotFound)).
Proof using All.
  intros Hi. unfold WalletQueries_Get.
  destruct (caller ctx ScopeWallets) as [i|e] eqn:Hcal.
  2:{ apply (answers_now s w (Err e)); [done|by left]. }
  rewrite bind_pure_Ok. destruct (ParseWalletID walletID) as [id|e] eqn:Hid.
  2:{ apply (answers_now s w (Err e)); [done|by right; left]. }
  rewrite bind_pure_Ok. destruct (proj1 (parseIdentifier_iff KWallet _ _) Hid) as [Hok Hv].
  pose proof (Q_Wallet_law id Hok w s Hi) as Hread. unfold wp in Hread.
  destruct (wr_FindByID _ id w) as [[wallet|e] w'].
  - destruct Hread as (s' & Ho & Ht & Hi'). unfold wallet_with_id in Ht. rewrite Hv in Ht. by exists s'.
  - destruct Hread as (s' & Ho & Hi' & He). exists s'. split_and!; [done..|]. cbn.
    destruct He as [[-> Hno]|He]; [left; right; right|by right]. split; [|done]. rewrite <- Hv.
    destruct (s_wallets s' !! id_value id) eqn:E; [by destruct (Hno _ E)|done].
Qed.
End execute.
