(* ===== verification/Worker.v ===== *)
(** * Worker: [internal/app/reference_worker.go]

    The reversals that are waiting for what they undo: claiming one that is
    due, looking for its reference again, and ending or extending the wait.
    The loop of [Run] is in [Loops]; the log lines are not modelled. *)

From S2P Require Import Prelude Errors GoTime Money Identifier Ledger Wallet Transaction Event.
From S2P Require Import Identity Ports Store StoreInv Policy Recorder Reversal Submit Storable.
From S2P Require Import SubmitSpec SubmitProof SubmitExecute SubmitFacts.

#[local] Open Scope string_scope.
#[local] Open Scope list_scope.
#[local] Open Scope Z_scope.

(** ** Definitions *)

Section worker.
Context {W : Type} `{Clock W} `{IDGenerator W} `{Rand W} `{Cancellation W}.

Definition Worker_reject (ctx : Context) (repos : Repositories W) (pending : WagerTransaction)
    (code : Code) (now_ : Time) : M W unit :=
  rejected ← pure (Tx_Reject pending code now_);
  _ ← t_Update (r_Transactions repos) rejected;
  emit ctx repos rejected noWallet noEntry false.

(** The wait is over, or there is another look to come. *)
Definition Worker_wait (policy : ReferencePolicy) (ctx : Context) (repos : Repositories W)
    (pending : WagerTransaction) (now_ : Time) : M W unit :=
  if ReferenceDeadlinePassed pending now_ || (rp_MaxAttempts policy <=? t_referenceAttempts pending)
  then Worker_reject ctx repos pending CodeReferenceNotFound now_
  else
    next ← ReferencePolicy_nextAttemptAt policy now_ (i64 (t_referenceAttempts pending + 1));
    rescheduled ← pure (RescheduleReference pending now_ next);
    t_Update (r_Transactions repos) rescheduled.

(** What follows the claim of [pending]. *)
Definition Worker_resolve (policy : ReferencePolicy) (ctx : Context) (repos : Repositories W)
    (pending : WagerTransaction) (now_ : Time) : M W unit :=
  wallet ← w_FindByIDForUpdate (r_Wallets repos) (t_walletID pending);
  decision ← resolveReference repos pending;
  match rs_outcome decision with
  | resolveApply =>
    catch (applyReversal ctx repos pending decision wallet now_)
      (fun '(applied, movement) => emit ctx repos applied (mv_Wallet movement) (mv_Entry movement) true)
      (fun e => match As_domain e with
                | None => throw e
                | Some code => Worker_reject ctx repos pending code now_
                end)
  | resolveReject => Worker_reject ctx repos pending (rs_code decision) now_
  | resolveWait => Worker_wait policy ctx repos pending now_
  end.

Definition Worker_claim (repos : Repositories W) : M W (Time * list WagerTransaction) :=
  now_ ← now;
  due ← t_ClaimDueReferences (r_Transactions repos) now_ 1;
  mret (now_, due).

(** The callback of [handleOne], with the variable [worked] it captures. *)
Definition handleOne_callback (policy : ReferencePolicy) (ctx : Context) (repos : Repositories W)
    : Callback W bool := fun worked w =>
  match Worker_claim repos w with
  | (Err e, w) => (Err e, worked, w)
  | (Ok (_, []), w) => (Ok (), worked, w)
  | (Ok (now_, pending :: _), w) =>
    let '(r, w) := Worker_resolve policy ctx repos pending now_ w in (r, true, w)
  end.

(** Its caller reads [worked] only when there is no error. *)
Definition handleOne (uow : UnitOfWork W) (policy : ReferencePolicy) (ctx : Context) : M W bool := fun w =>
  match uow_Do uow ctx (handleOne_callback policy) false w with
  | (Ok _, worked, w) => (Ok worked, w)
  | (Err e, _, w) => (Err e, w)
  end.

(** The loop of [RunOnce]; [more] is what is left of the batch.  It returns
    how many were handled next to the error that stopped it. *)
Fixpoint run_batch (uow : UnitOfWork W) (policy : ReferencePolicy) (ctx : Context) (more : nat)
    (handled : Z) (w : W) : Z * result unit * W :=
  match more with
  | O => (handled, Ok (), w)
  | S more =>
    match ctx_Err ctx w with
    | (Err e, w) => (handled, Err e, w)
    | (Ok _, w) =>
      match handleOne uow policy ctx w with
      | (Err e, w) => (handled, Err e, w)
      | (Ok false, w) => (handled, Ok (), w)
      | (Ok true, w) => run_batch uow policy ctx more (handled + 1) w
      end
    end
  end.

Definition Worker_RunOnce (uow : UnitOfWork W) (policy : ReferencePolicy) (ctx : Context) (w : W)
    : Z * result unit * W :=
  run_batch uow policy ctx (Z.to_nat (rp_BatchSize policy)) 0 w.
End worker.

(** ** Specification *)

Section spec.
Context `{Precision}.

(** Why a waiting reversal is rejected: its reference can never be reversed by
    it, the wallet refuses the movement, or it has waited long enough. *)
Inductive gives_up (policy : ReferencePolicy) (s : Store) (at_ : Time) (t : WagerTransaction)
    : Code -> Prop :=
| gu_unresolvable code : code <> "" -> decides s t (rejectResolution code) -> gives_up policy s at_ t code
| gu_refused wallet r d eid e code :
  s_wallets s !! id_value (t_walletID t) = Some wallet -> id_ok eid ->
  decides s t (mkResolution resolveApply r d "") ->
  reversal_movement wallet t d eid at_ = Err e -> As_domain e = Some code -> code <> "" ->
  gives_up policy s at_ t code
| gu_waited :
  decides s t waitResolution ->
  instant (t_referenceDeadlineAt t) <= instant at_ \/ rp_MaxAttempts policy <= t_referenceAttempts t ->
  gives_up policy s at_ t CodeReferenceNotFound.

(** What one look at the waiting reversal [t] does: it leaves [t'] in its
    place. *)
Inductive looked (policy : ReferencePolicy) (s : Store) (at_ : Time) (t : WagerTransaction)
    : WagerTransaction -> Store -> Prop :=
| lk_applied wallet r d t' mv s1 events s' :
  s_wallets s !! id_value (t_walletID t) = Some wallet ->
  decides s t (mkResolution resolveApply r d "") ->
  reversal_applied s wallet t r d at_ t' mv s1 ->
  eventsForOutcome t' (mv_Wallet mv) (mv_Entry mv) true = Ok events -> appended s1 events s' ->
  looked policy s at_ t t' s'
| lk_rejected code t' events s' :
  gives_up policy s at_ t code -> Tx_Reject t code at_ = Ok t' ->
  eventsForOutcome t' noWallet noEntry false = Ok events -> appended (put_tx (stored_tx t') s) events s' ->
  looked policy s at_ t t' s'
| lk_rescheduled wait t' :
  decides s t waitResolution -> instant at_ < instant (t_referenceDeadlineAt t) ->
  t_referenceAttempts t < rp_MaxAttempts policy -> 0 <= wait <= rp_MaxBackoff policy ->
  RescheduleReference t at_ (Time_Add at_ wait) = Ok t' ->
  looked policy s at_ t t' (put_tx (stored_tx t') s).

(** One commit of the worker, at an instant it has [read]: a look at one
    reversal that was due then, or nothing when none could be claimed. *)
Definition worker_step (policy : ReferencePolicy) (free : Prop) (read : Time -> Prop) (s s' : Store) : Prop :=
  exists at_, clock_time at_ /\ read at_ /\
  ((exists t t', due_reference at_ s t /\ looked policy s at_ t t' s') \/
   (s' = s /\ (free -> forall t, ~ due_reference at_ s t))).

(** Why it fails: an identity is taken, or the version of a wallet has run
    out. *)
Inductive worker_error (s : Store) : error -> Prop :=
| we_id_collision name :
  name = "wallet_ledger_entries_pkey" \/ name = "outbox_events_pkey" ->
  worker_error s (NewConflict name)
| we_version_exhausted k wallet name :
  s_wallets s !! k = Some wallet -> w_version wallet = MaxInt64 ->
  worker_error s (NewInvariantViolation name).

(** ** A look keeps the invariant *)

(** Nothing else stands in the way of writing a request over its own row, but
    another reversal of the same operation. *)
Lemma no_conflict_over s t t' name : store_ok s -> s_txs s !! id_value (t_id t) = Some t ->
  same_request t t' -> name <> "wager_transactions_pkey" ->
  (t_status t' = StatusProcessed -> forall t2, s_txs s !! id_value (t_id t2) = Some t2 ->
     t_status t2 = StatusProcessed -> t_resolvedReferenceID t2 <> t_resolvedReferenceID t') ->
  ~ tx_conflict s t' name.
Proof.
  intros Hs Hk Hreq%same_request_frame Hn Hrev Hc. destruct_and!.
  pose proof (so_unique s Hs _ t name Hk Hn) as Hno. apply Hno.
  destruct Hc as [[? _]|[(? & ? & k & t2 & Hc)|[(? & ? & k & t2 & Hc)|[(? & ? & k & t2 & Hc)|(? & Hst & _ & Hc)]]]];
    [done|destruct_and!..|].
  - right; left. split_and!; [done|congruence|]. exists k, t2. split_and!; congruence.
  - right; right; left. split_and!; [done|congruence|]. exists k, t2. split_and!; congruence.
  - right; right; right; left. split_and!; [done|congruence|]. exists k, t2. split_and!; congruence.
  - exfalso. destruct Hc as (k & t2 & Hk2 & _ & Hst2 & Hres2). destruct (so_tx s Hs _ _ Hk2) as (-> & _).
    by apply (Hrev Hst t2).
Qed.

Lemma recordable_over s t t' : store_ok s -> s_txs s !! id_value (t_id t) = Some t ->
  Tx_IsTerminal t = false -> same_request t t' -> tx_storable t' ->
  t_referenceAttempts t <= t_referenceAttempts t' ->
  (t_resolvedReferenceID t' <> zeroId -> t_status t' = StatusProcessed) ->
  (forall name, name <> "wager_transactions_pkey" -> ~ tx_conflict s t' name) ->
  recordable s (stored_tx t').
Proof.
  intros Hs Hk Hterm Hreq Ht' Hatt Hres Hno. pose proof (same_request_frame _ _ Hreq). destruct_and!.
  constructor.
  - by apply stored_tx_ok.
  - by apply stored_tx_idem.
  - unfold writable. cbn. replace (t_id t') with (t_id t) by done. rewrite Hk.
    split; [exact Hterm|]. split; [|exact Hatt].
    destruct (so_tx s Hs _ t Hk) as (_ & _ & Hst & _). destruct Hreq as (st & r & c & a & n & d & b & u & ->).
    unfold stored_tx, tx_with. cbn. rewrite (f_equal t_createdAt Hst : norm (t_createdAt t) = t_createdAt t).
    by repeat eexists.
  - exact Hno.
  - exact Hres.
  - destruct (so_tx s Hs _ t Hk) as (_ & _ & _ & (w & Hw & Hp)). exists w. cbn. split; congruence.
Qed.

Lemma transition_attempts t to at_ f t' : transition t to at_ f = Ok t' ->
  (forall x, t_referenceAttempts (f x) = t_referenceAttempts x) ->
  t_referenceAttempts t' = t_referenceAttempts t.
Proof. intros (_ & _ & _ & ->)%transition_Ok Hf. cbn. by rewrite Hf. Qed.

Lemma Tx_Reject_attempts t code at_ t' : Tx_Reject t code at_ = Ok t' ->
  t_referenceAttempts t' = t_referenceAttempts t.
Proof. unfold Tx_Reject. intros H'. guards H'. by eapply transition_attempts. Qed.

Lemma applied_attempts t i b at_ t1 t' : ResolveReference t i at_ = Ok t1 ->
  MarkProcessed t1 b at_ = Ok t' -> t_referenceAttempts t' = t_referenceAttempts t.
Proof.
  unfold ResolveReference, MarkProcessed. intros H1 H2. guards H1. guards H2. injection H1 as <-.
  by apply transition_attempts in H2.
Qed.

Lemma RescheduleReference_attempts t at_ n t' : is_i64 (t_referenceAttempts t + 1) ->
  RescheduleReference t at_ n = Ok t' ->
  t_referenceAttempts t' = t_referenceAttempts t + 1 /\ t_status t' = t_status t /\
  t_referenceNextAttemptAt t' = Time_UTC n /\ t_referenceDeadlineAt t' = t_referenceDeadlineAt t.
Proof.
  unfold RescheduleReference. intros Hi H'. guards H'. injection H' as <-. cbn. by rewrite i64_id.
Qed.

(** The rows a look starts from. *)
Lemma due_facts at_ s t : store_ok s -> due_reference at_ s t ->
  s_txs s !! id_value (t_id t) = Some t /\ tx_storable t /\ stored_tx t = t /\
  t_status t = StatusPendingReference /\ unfinished t /\ Tx_IsTerminal t = false /\
  Kind_IsReversal (t_kind t) = true /\ 0 < t_referenceAttempts t /\
  Time_IsZero (t_referenceDeadlineAt t) = false /\ t_resolvedReferenceID t = zeroId /\
  exists w, s_wallets s !! id_value (t_walletID t) = Some w /\ w_playerID w = t_playerID t /\
    id_value (t_walletID t) = id_value (w_id w) /\ wallet_storable w.
Proof.
  intros Hs (Hk & Hst & _). destruct (so_tx s Hs _ t Hk) as (_ & Hts & Hsto & (w & Hw & Hp)).
  destruct (so_wallet s Hs _ w Hw) as (Hwk & Hws & _).
  destruct (to_waiting t (ts_ok t Hts) Hst) as (Hrev & Hatt & _ & Hdl).
  assert (Hu : unfinished t) by by right.
  assert (Hz : t_resolvedReferenceID t = zeroId).
  { destruct (decide (t_resolvedReferenceID t = zeroId)) as [|Hne]; [done|].
    apply (so_resolved s Hs _ t Hk) in Hne. by rewrite Hne in Hst. }
  split_and!; try done; [by apply unfinished_not_terminal|]. exists w. by split_and!.
Qed.

Lemma looked_applied_ok s at_ t wallet r d t' mv s1 events s' :
  store_ok s -> clock_time at_ -> due_reference at_ s t ->
  s_wallets s !! id_value (t_walletID t) = Some wallet ->
  decides s t (mkResolution resolveApply r d "") ->
  reversal_applied s wallet t r d at_ t' mv s1 ->
  eventsForOutcome t' (mv_Wallet mv) (mv_Entry mv) true = Ok events -> appended s1 events s' ->
  store_ok s' /\ evolves s s'.
Proof.
  intros Hs Hat Hdue Hw Hdec (eid & t1 & q & He & Hmv & Ht1 & Ht' & Hc & _ & Hver & ->) Hev Happ.
  destruct (due_facts _ _ _ Hs Hdue) as (Hk & Hts & _ & _ & _ & Hterm & Hrev & _ & _ & _ & (w' & Hw' & _ & Hwk & _)).
  rewrite Hw in Hw'. injection Hw' as <-.
  pose proof (reversed_facts s wallet t r d eid mv t1 t' at_ Hs Hts Hat Hw He Hrev Hdec Hmv Ht1 Ht') as Hf.
  pose proof (sf_storable _ _ _ _ _ Hf) as Hts'.
  pose proof (same_request_frame _ _ (sf_request _ _ _ _ _ Hf)) as Hfr. destruct_and!.
  assert (Hrec : recordable s (stored_tx t')).
  { apply (recordable_over s t t'); try done; [apply Hf| |].
    - rewrite (applied_attempts _ _ _ _ _ _ Ht1 Ht'). lia.
    - apply Hf. }
  assert (Hid : t_walletID t' = w_id wallet) by (apply id_value_inj; congruence).
  pose proof (settled_movable s wallet t t' mv Hs ltac:(by rewrite <- Hwk) Hid Hf Hver) as Hm. split.
  - eapply store_ok_appended; [exact Happ|]. by apply (record_moved_ok s _ wallet).
  - eapply (evolves_written s _ s' t');
      [exact (grows_record_moved s _ wallet _ q _ Hs (rc_writable _ _ Hrec) Hm)|done|apply Hf|exact Hev|exact Happ].
Qed.

Lemma rejected_over s at_ t code t' : store_ok s -> clock_time at_ -> due_reference at_ s t ->
  Tx_Reject t code at_ = Ok t' ->
  tx_storable t' /\ t_status t' = StatusRejected /\ recordable s (stored_tx t') /\
  (forall name, name <> "wager_transactions_pkey" -> ~ tx_conflict s t' name).
Proof.
  intros Hs Hat Hdue Hr. destruct (due_facts _ _ _ Hs Hdue) as (Hk & Hts & _ & _ & _ & Hterm & _ & _ & _ & Hz & _).
  pose proof (Tx_Reject_step _ _ _ _ Hr) as Hreq.
  destruct (Tx_Reject_storable _ _ _ _ Hts Hat Hr) as (Hts' & Hst & Hres).
  assert (Hno : forall name, name <> "wager_transactions_pkey" -> ~ tx_conflict s t' name).
  { intros name Hn. eapply no_conflict_over; [done|exact Hk|done|done|]. rewrite Hst. done. }
  split_and!; try done. apply (recordable_over s t t'); try done.
  - rewrite (Tx_Reject_attempts _ _ _ _ Hr). lia.
  - congruence.
Qed.

Lemma rescheduled_over s at_ t wait t' : store_ok s -> clock_time at_ -> due_reference at_ s t ->
  0 <= wait -> t_referenceAttempts t < int32_max ->
  RescheduleReference t at_ (Time_Add at_ wait) = Ok t' ->
  tx_storable t' /\ t_status t' = StatusPendingReference /\ recordable s (stored_tx t') /\
  (forall name, name <> "wager_transactions_pkey" -> ~ tx_conflict s t' name).
Proof.
  intros Hs Hat Hdue Hwait Hmax Hr.
  destruct (due_facts _ _ _ Hs Hdue) as (Hk & Hts & _ & _ & _ & Hterm & _ & Hatt & _ & Hz & _).
  assert (Hreq : same_request t t') by by eapply tx_step_frame, step_reschedule.
  assert (Hlate : set_late (Time_Add at_ wait)) by (right; destruct Hat; cbn; lia).
  destruct (RescheduleReference_storable _ _ _ _ Hts Hat Hlate Hmax Hr) as (Hts' & Hst & Hres).
  assert (Hno : forall name, name <> "wager_transactions_pkey" -> ~ tx_conflict s t' name).
  { intros name Hn. eapply no_conflict_over; [done|exact Hk|done|done|]. rewrite Hst. done. }
  split_and!; try done. apply (recordable_over s t t'); try done.
  - apply RescheduleReference_attempts in Hr as [-> _]; [lia|]. unfold int32_max in *. width. lia.
  - congruence.
Qed.

Lemma looked_ok policy s at_ t t' s' : rp_MaxAttempts policy <= int32_max ->
  store_ok s -> clock_time at_ -> due_reference at_ s t -> looked policy s at_ t t' s' ->
  store_ok s' /\ evolves s s'.
Proof.
  intros Hmax Hs Hat Hdue Hl.
  destruct Hl as [wallet r d t' mv s1 events s' Hw Hdec Happl Hev Happ
    |code t' events s' Hgu Hr Hev Happ|wait t' Hdec Hdl Hlt Hwait Hr].
  - by eapply looked_applied_ok.
  - destruct (rejected_over _ _ _ _ _ Hs Hat Hdue Hr) as (Hts & Hst & Hrec & _). split.
    + eapply store_ok_appended; [exact Happ|]. apply put_unmoved_ok; [done|done|]. cbn. by rewrite Hst.
    + eapply (evolves_written s _ s' t'); [exact (grows_put_tx s _ Hs (rc_writable _ _ Hrec))|done| |exact Hev|exact Happ].
      auto.
  - destruct (rescheduled_over _ _ _ _ _ Hs Hat Hdue (proj1 Hwait) ltac:(lia) Hr) as (Hts & Hst & Hrec & _). split.
    + apply put_unmoved_ok; [done|done|]. cbn. by rewrite Hst.
    + split; [exact (grows_put_tx s _ Hs (rc_writable _ _ Hrec))|].
      destruct (due_facts _ _ _ Hs Hdue) as (Hk & _ & _ & Hst0 & _).
      apply (announced_put_same s _ t); cbn; [|congruence].
      assert (Hreq : same_request t t') by by eapply tx_step_frame, step_reschedule.
      apply same_request_kind in Hreq as (-> & _). done.
Qed.

Lemma worker_step_ok policy free read s s' : rp_MaxAttempts policy <= int32_max ->
  store_ok s -> worker_step policy free read s s' -> store_ok s' /\ evolves s s'.
Proof.
  intros Hmax Hs (at_ & Hat & _ & [(t & t' & Hdue & Hl)|[-> _]]); [by eapply looked_ok|].
  split; [done|apply evolves_refl].
Qed.

(** ** What a look did *)

(** The three ends of a look at [t], seen in the balances and the row. *)
Definition look_effect (policy : ReferencePolicy) (s : Store) (at_ : Time) (t t' : WagerTransaction)
    (s' : Store) : Prop :=
  s_txs s' = <[id_value (t_id t) := t']> (s_txs s) /\ same_request t t' /\
  ((t_status t' = StatusProcessed /\ exists wallet r d,
      s_wallets s !! id_value (t_walletID t) = Some wallet /\ reversible s t r d /\
      t_resolvedReferenceID t' = t_id r /\ moved s wallet t d s') \/
   (t_status t' = StatusRejected /\ gives_up policy s at_ t (t_failureCode t') /\ unmoved s s') \/
   (t_status t' = StatusPendingReference /\ decides s t waitResolution /\ unmoved s s' /\
    instant at_ < instant (t_referenceDeadlineAt t) /\
    t_referenceDeadlineAt t' = t_referenceDeadlineAt t /\
    t_referenceAttempts t' = t_referenceAttempts t + 1 /\ t_referenceAttempts t' <= rp_MaxAttempts policy /\
    instant (t_referenceNextAttemptAt t') <= instant at_ + rp_MaxBackoff policy)).

Lemma same_request_stored t t' : stored_tx t = t -> same_request t t' -> same_request t (stored_tx t').
Proof.
  intros Hst (st & r & c & a & n & d & b & u & ->). unfold stored_tx, tx_with. cbn.
  rewrite (f_equal t_createdAt Hst : norm (t_createdAt t) = t_createdAt t). by repeat eexists.
Qed.

Lemma moved_same_request s w t t' d s' : t_id t' = t_id t -> t_money t' = t_money t ->
  moved s w t' d s' -> moved s w t d s'.
Proof. unfold moved. by intros -> ->. Qed.

Lemma moved_outbox s w t d s' o : moved s w t d s' -> moved s w t d (set_outbox o s').
Proof. done. Qed.

Lemma looked_effect policy s at_ t t0 s' : rp_MaxAttempts policy <= int32_max ->
  store_ok s -> clock_time at_ -> due_reference at_ s t -> looked policy s at_ t t0 s' ->
  look_effect policy s at_ t (stored_tx t0) s'.
Proof.
  intros Hmax Hs Hat Hdue Hl.
  destruct (due_facts _ _ _ Hs Hdue) as (Hk & Hts & Hsto & Hst0 & _ & _ & Hrev & Hatt & Hdl & _ & _).
  destruct Hl as [wallet r d t' mv s1 events s' Hw Hdec (eid & t1 & q & He & Hmv & Ht1 & Ht' & _ & _ & Hver & ->) _ (recs & -> & _)
    |code t' events s' Hgu Hr _ (recs & -> & _)|wait t' Hdec Hlt Hle Hwait Hr].
  - pose proof (reversed_facts s wallet t r d eid mv t1 t' at_ Hs Hts Hat Hw He Hrev Hdec Hmv Ht1 Ht') as Hf.
    pose proof (sf_request _ _ _ _ _ Hf) as Hreq. pose proof (same_request_frame _ _ Hreq) as Hfr. destruct_and!.
    destruct (so_wallet s Hs _ _ Hw) as (Hwk & _).
    assert (Hid : t_walletID t' = w_id wallet) by (apply id_value_inj; congruence).
    destruct (recorded_moved s wallet t t' mv q Hs ltac:(by rewrite <- Hwk) Hid Hf Hver) as (d' & _ & Has & Hm).
    pose proof (decides_apply _ _ _ _ Hs Hdec) as Hrv.
    assert (Hres : t_resolvedReferenceID t' = t_id r).
    { apply MarkProcessed_storable in Ht' as (_ & _ & _ & ->); [| |done|].
      - by apply ResolveReference_storable in Ht1 as (_ & ? & _); [|done|done|destruct (so_tx s Hs _ _ (proj1 (rv_found _ _ _ _ Hrv))) as (_ & Hx & _); apply Hx].
      - by apply ResolveReference_storable in Ht1 as (? & _ & _); [|done|done|destruct (so_tx s Hs _ _ (proj1 (rv_found _ _ _ _ Hrv))) as (_ & Hx & _); apply Hx].
      - apply reversal_movement_Ok in Hmv; [|by eapply ReversalDirection_valid, Hrv].
        destruct (so_wallet s Hs _ _ Hw) as (_ & Hws & _).
        eapply moved_balance_bounds; [exact Hws|apply Hts|by eapply ReversalDirection_valid, Hrv|exact Hmv]. }
    assert (d' = d) as ->.
    { unfold moved_as in Has. replace (t_kind t') with (t_kind t) in Has by done. rewrite Hrev in Has.
      destruct Has as (r' & Hr' & Hd'). rewrite Hres, (proj1 (rv_found _ _ _ _ Hrv)) in Hr'.
      injection Hr' as <-. pose proof (rv_direction _ _ _ _ Hrv). congruence. }
    split; [cbn; congruence|]. split; [by apply same_request_stored|]. left.
    split; [cbn; apply (sf_moved _ _ _ _ _ Hf mv eq_refl)|]. exists wallet, r, d. split_and!; [done|done|done|].
    apply moved_outbox. eapply moved_same_request; [| |exact Hm]; congruence.
  - pose proof (Tx_Reject_step _ _ _ _ Hr) as Hreq. pose proof (same_request_kind _ _ Hreq) as (Hid & _).
    apply Tx_Reject_codes in Hr as [Hst Hc].
    split; [cbn; congruence|]. split; [by apply same_request_stored|]. right; left. cbn. rewrite Hc.
    split_and!; [done|done|by split].
  - assert (Hreq : same_request t t') by by eapply tx_step_frame, step_reschedule.
    pose proof (same_request_kind _ _ Hreq) as (Hid & _).
    destruct (rescheduled_over _ _ _ wait _ Hs Hat Hdue ltac:(lia) ltac:(lia) Hr) as (Hts' & Hst & _).
    apply RescheduleReference_attempts in Hr as (Ha & _ & Hn & Hd); [|unfold int32_max in *; width; lia].
    split; [cbn; congruence|]. split; [by apply same_request_stored|]. right; right. cbn.
    rewrite Ha, Hn, Hd. split_and!; try done.
    + exact (f_equal t_referenceDeadlineAt Hsto).
    + lia.
    + rewrite norm_instant. pose proof (proj2 Hat). cbn. case_match; [lia|].
      pose proof (Z.mod_pos_bound (instant at_ + wait) 1000 ltac:(lia)). lia.
Qed.
(** A look never leaves everything as it was. *)
Lemma looked_changes policy s at_ t t0 s' : rp_MaxAttempts policy <= int32_max ->
  store_ok s -> clock_time at_ -> due_reference at_ s t -> looked policy s at_ t t0 s' -> s' <> s.
Proof.
  intros Hmax Hs Hat Hdue Hl ->.
  destruct (looked_effect _ _ _ _ _ _ Hmax Hs Hat Hdue Hl) as (E & _ & Heff).
  destruct Hdue as (Hk & Hst & _). apply (f_equal (lookup (id_value (t_id t)))) in E.
  rewrite Hk, lookup_insert_eq in E. injection E as E. rewrite <- E in Heff.
  destruct Heff as [[Hst' _]|[[Hst' _]|(_ & _ & _ & _ & _ & Ha & _)]];
    [by rewrite Hst' in Hst..|lia].
Qed.

(** ** How long a reversal waits *)

(** One look at the reversal named [k], at an instant that was [read]. *)
Definition looked_at (policy : ReferencePolicy) (read : Time -> Prop) (k : string) (s s' : Store) : Prop :=
  exists at_ t t', clock_time at_ /\ read at_ /\ due_reference at_ s t /\ id_value (t_id t) = k /\
    look_effect policy s at_ t t' s'.

Lemma worker_step_looked policy free read s s' : rp_MaxAttempts policy <= int32_max -> store_ok s ->
  worker_step policy free read s s' ->
  (exists k, looked_at policy read k s s') \/
  (s' = s /\ (free -> exists at_, clock_time at_ /\ read at_ /\ forall t, ~ due_reference at_ s' t)).
Proof.
  intros Hmax Hs (at_ & Hat & Hread & [(t & t0 & Hdue & Hl)|[-> Hno]]); [left|right].
  - exists (id_value (t_id t)), at_, t, (stored_tx t0). split_and!; [done..|by apply looked_effect].
  - split; [done|]. intros Hfree. exists at_. split_and!; [done..|by apply Hno].
Qed.

(** A look leaves a mark on the row of the reversal. *)
Lemma looked_at_changes policy read k s s' : looked_at policy read k s s' -> s_txs s' !! k <> s_txs s !! k.
Proof.
  intros (at_ & t & t' & _ & _ & Hdue & <- & E & _ & Heff). destruct Hdue as (Hk & Hst & _).
  rewrite E, lookup_insert_eq, Hk. intros [= ->].
  destruct Heff as [[Hst' _]|[[Hst' _]|(_ & _ & _ & _ & _ & Ha & _)]]; [by rewrite Hst' in Hst..|lia].
Qed.

(** It leaves no other row changed. *)
Lemma looked_at_others policy read k k' s s' : looked_at policy read k s s' -> k' <> k ->
  s_txs s' !! k' = s_txs s !! k'.
Proof. intros (at_ & t & t' & _ & _ & _ & <- & E & _) Hk. by rewrite E, lookup_insert_ne. Qed.

(** How many of its looks an operation has used up: all when it is decided. *)
Definition used (policy : ReferencePolicy) (s : Store) (k : string) : Z :=
  match s_txs s !! k with
  | None => 0
  | Some t => if Tx_IsTerminal t then rp_MaxAttempts policy
              else Z.max 0 (Z.min (rp_MaxAttempts policy - 1) (t_referenceAttempts t - 1))
  end.

Lemma used_bounds policy s k : 1 <= rp_MaxAttempts policy -> 0 <= used policy s k <= rp_MaxAttempts policy.
Proof. intros Hmax. unfold used. repeat case_match; lia. Qed.

Lemma used_grows policy s s' k : 1 <= rp_MaxAttempts policy -> grows s s' -> used policy s k <= used policy s' k.
Proof.
  intros Hmax Hg. pose proof (used_bounds policy s' k Hmax) as Hb. unfold used in *.
  destruct (s_txs s !! k) as [t|] eqn:Ht; [|lia].
  destruct (ev_txs _ _ Hg k t Ht) as (t' & Ht' & Hterm & Hrest). rewrite Ht' in *.
  destruct (Tx_IsTerminal t) eqn:Et; [by rewrite (Hterm eq_refl), Et|].
  destruct_and!. destruct (Tx_IsTerminal t'); lia.
Qed.

Lemma used_look policy read s s' k : 1 <= rp_MaxAttempts policy -> store_ok s -> looked_at policy read k s s' ->
  used policy s k + 1 <= used policy s' k.
Proof.
  intros Hmax Hs (at_ & t & t' & Hat & _ & Hdue & <- & E & _ & Heff).
  destruct (due_facts _ _ _ Hs Hdue) as (Hk & _ & _ & _ & _ & Hnt & _ & Ha & _).
  unfold used. rewrite E, lookup_insert_eq, Hk, Hnt. unfold Tx_IsTerminal, Status_IsTerminal.
  destruct Heff as [[-> _]|[[-> _]|(-> & _ & _ & _ & _ & Ha' & Hle & _)]]; [case_bool_decide; [lia|set_solver]..|].
  case_bool_decide; lia.
Qed.
End spec.

(** ** The worker implements its specification *)

Section execute.
Context {W : Type} `{Storage W} `{Precision} `{!StorageLaws W}
  `{Clock W} `{!ClockLaws W} `{IDGenerator W} `{!IDLaws W} `{Rand W} `{!RandLaws W}
  `{Cancellation W} `{!CancellationLaws W} (reads : Time -> Prop) `{!ClockReads W reads}
  (repos : Repositories W) `{!RepositoriesLaws W repos}
  (uow : UnitOfWork W) `{!UnitOfWorkLaws W uow repos}.
Context (policy : ReferencePolicy) (Hpol : policy_sane policy) (Hmax : rp_MaxAttempts policy <= int32_max).

(** Writing a waiting request over its own row. *)
Lemma update_over_ends t t' s0 s w : store_ok s -> s_txs s !! id_value (t_id t) = Some t ->
  t_id t' = t_id t -> tx_storable t' -> tc tx_step t t' -> stored_tx t = t ->
  t_resolvedReferenceID t' = zeroId ->
  (forall name, name <> "wager_transactions_pkey" -> ~ tx_conflict s t' name) -> st_tx w s0 s ->
  ends s0 (t_Update (r_Transactions repos) t') w (fun _ s' => s' = put_tx (stored_tx t') s) (fun _ => False).
Proof.
  intros Hs Hk Hid Hts Hstep Hst Hz Hno Htx.
  eapply wp_mono; [eapply Transactions_Update_law; [done|exact Hstep|done|done|by rewrite Hid]| |].
  - intros _ w' [_ Htx']. eexists. split; [reflexivity|done].
  - intros e w' [[(name & -> & Hn & Hc)|[(_ & Hne & _)|He]] Hd]; [by destruct (Hno name Hn)|done|].
    split; [by right|done].
Qed.

Section look.
Context (ctx : Context) (at_ : Time) (Hat : clock_time at_) (s : Store) (Hs : store_ok s)
  (t : WagerTransaction) (Hdue : due_reference at_ s t).

Definition look_done (_ : unit) (s' : Store) : Prop := exists t', looked policy s at_ t t' s'.

Lemma Worker_reject_ends code s0 w : gives_up policy s at_ t code -> code <> "" -> st_tx w s0 s ->
  ends s0 (Worker_reject ctx repos t code at_) w look_done (worker_error s).
Proof using All.
  intros Hgu Hcode Htx. destruct (due_facts _ _ _ Hs Hdue) as (Hk & Hts & Hst & _ & Hu & _ & _ & _ & _ & Hz & _).
  unfold Worker_reject. destruct (Tx_Reject_succeeds t code at_ (ts_ok t Hts) Hu Hat Hcode) as [t' Hr].
  rewrite Hr. apply wp_bind, wp_pure; [|done]. intros x [= <-].
  destruct (rejected_over _ _ _ _ _ Hs Hat Hdue Hr) as (Hts' & Hst' & _ & Hno).
  pose proof (same_request_kind _ _ (Tx_Reject_step _ _ _ _ Hr)) as (Hid & _ & _).
  eapply ends_bind.
  { eapply ends_mono; [apply (update_over_ends t t' s0 s w); try done| |].
    - apply tc_once. by eapply step_reject.
    - apply Tx_Reject_storable in Hr as (_ & _ & ->); done.
    - intros ? ? Hq. exact Hq.
    - done. }
  intros [] s1 w1 -> Htx1.
  destruct (events_unmoved_Ok t' noWallet (ts_ok t' Hts')) as [events Hev]; [auto|].
  eapply ends_mono; [by eapply emit_ends| |].
  - intros a s' Happ. exists t'. by eapply lk_rejected.
  - intros e ->. apply we_id_collision. auto.
Qed.

Lemma Worker_wait_ends s0 w : decides s t waitResolution -> st_tx w s0 s ->
  ends s0 (Worker_wait policy ctx repos t at_) w look_done (worker_error s).
Proof using All.
  intros Hdec Htx. destruct (due_facts _ _ _ Hs Hdue) as (Hk & Hts & Hst & Hstatus & Hu & _ & _ & Hatt & Hdl & Hz & _).
  unfold Worker_wait, ReferenceDeadlinePassed, Time_Before. rewrite Hdl. cbn [negb andb].
  destruct (Z.ltb_spec (instant at_) (instant (t_referenceDeadlineAt t))) as [Hlt|Hge]; cbn [negb orb].
  2:{ apply Worker_reject_ends; [|done|done]. apply gu_waited; [done|by left]. }
  destruct (Z.leb_spec (rp_MaxAttempts policy) (t_referenceAttempts t)) as [Hle|Hgt].
  { apply Worker_reject_ends; [|done|done]. apply gu_waited; [done|by right]. }
  assert (Hi : is_i64 (t_referenceAttempts t + 1)) by (unfold int32_max in *; width; lia).
  rewrite i64_id by done.
  eapply ends_bind; [eapply ends_aside; [apply nextAttemptAt_aside; [apply Hpol|width; lia]|done]|].
  intros next s1 w1 [(wait & -> & Hwait) ->] Htx1.
  destruct (backoff_window_spec _ _ (t_referenceAttempts t + 1) (proj1 Hpol) ltac:(width; lia)) as [Hwin _].
  assert (Hnn : 0 <= backoff_window (rp_BaseBackoff policy) (rp_MaxBackoff policy) (t_referenceAttempts t + 1) / 2)
    by (apply Z.div_pos; lia).
  destruct (RescheduleReference_succeeds t at_ (Time_Add at_ wait) Hstatus Hat) as [t' Hr].
  { unfold Time_IsZero. cbn. pose proof (proj2 Hat). lia. }
  rewrite Hr. apply wp_bind, wp_pure; [|done]. intros x [= <-].
  destruct (rescheduled_over _ _ _ wait _ Hs Hat Hdue ltac:(lia) ltac:(lia) Hr) as (Hts' & Hst' & _ & Hno).
  assert (Hreq : same_request t t') by by eapply tx_step_frame, step_reschedule.
  pose proof (same_request_kind _ _ Hreq) as (Hid & _ & _).
  eapply ends_mono; [apply (update_over_ends t t' s0 s w1); try done| |done].
  - apply tc_once. by eapply step_reschedule.
  - apply RescheduleReference_storable in Hr as (_ & _ & ->); try done; [|lia].
    right. pose proof (proj2 Hat). cbn. lia.
  - intros [] s' ->. exists t'. apply (lk_rescheduled _ _ _ _ wait); try done. lia.
Qed.

Lemma Worker_resolve_ends s0 w : st_tx w s0 s ->
  ends s0 (Worker_resolve policy ctx repos t at_) w look_done (worker_error s).
Proof using All.
  intros Htx. destruct (due_facts _ _ _ Hs Hdue) as
    (Hk & Hts & Hst & Hstatus & Hu & _ & Hrev & Hatt & _ & Hz & (wallet & Hw & _ & Hwk & Hwst)).
  unfold Worker_resolve. apply wp_bind.
  eapply wp_mono; [apply FindByIDForUpdate_law; [apply Hts|exact Htx]| |].
  2:{ intros e w' [(_ & Hno & _)|[He Hd]]; [by destruct (Hno wallet)|by split; [right|]]. }
  intros wallet' w1 [Hw' Htx1]. unfold wallet_with_id in Hw'. rewrite Hw in Hw'. injection Hw' as <-.
  assert (Hids : id_ok (t_providerID t) /\ id_ok (t_referenceExternalID t)).
  { destruct (to_shape t (ts_ok t Hts)) as [(_ & Hko & _)|(_ & _ & Hpr & _ & _ & _ & _ & _ & Href)].
    - by rewrite Hko in Hrev.
    - apply Href in Hrev. destruct (ts_providerID t Hts), (ts_reference t Hts); done. }
  destruct Hids as [Hpr Href].
  eapply ends_bind.
  { eapply ends_mono; [apply (resolveReference_ends repos t s0 s w1 Hs Hpr Href Htx1)| |done].
    intros d s' Hd. exact Hd. }
  intros d s' w2 [Hdec ->] Htx2.
  destruct (decides_cases _ _ _ Hdec) as [->|[(code & Hcode & ->)|(r & dir & -> & Hnrev)]];
    cbn [rs_outcome waitResolution rejectResolution rs_code].
  - by apply Worker_wait_ends.
  - apply Worker_reject_ends; [by apply gu_unresolvable|done|done].
  - apply wp_catch. eapply wp_mono;
      [apply (applyReversal_wp repos ctx t wallet r dir at_ s0 s w2 Hs Hts Hu Hrev); try done| |].
    + unfold own_row. replace (0 <? t_referenceAttempts t) with true by lia. done.
    + intros [t' mv] w3 (s1 & Happl & Htx3). pose proof Happl as (eid & t1 & q & He & Hmv & Ht1 & Ht' & _).
      pose proof (reversed_facts s wallet t r dir eid mv t1 t' at_ Hs Hts Hat Hw He Hrev Hdec Hmv Ht1 Ht') as Hf.
      destruct (settled_events s wallet t t' mv Hwst Hf) as [events Hev].
      eapply ends_mono; [by eapply emit_ends| |].
      * intros a s' Happ. exists t'. by eapply lk_applied.
      * intros e ->. apply we_id_collision. auto.
    + intros e w3 [(code & eid & He & Hcode & Hne & Herr & Htx3)|(Hnd & He & Hdead)].
      * rewrite Hcode. apply Worker_reject_ends; [|done|done]. by eapply gu_refused.
      * rewrite Hnd. apply wp_throw. split; [|done]. destruct He as [He|He]; [left|by right].
        destruct He as [(t' & Hreq & Hres & (name & -> & Hn & Hc))|[(Hv & name & ->)| ->]].
        -- exfalso. eapply (no_conflict_over s t t' name Hs Hk Hreq); [|intros _ t2 Hk2 Hst2 Hr2|exact Hc].
           ++ apply Hn. lia.
           ++ apply Hnrev. exists t2. split_and!; [done|congruence|done].
        -- by eapply we_version_exhausted.
        -- apply we_id_collision. auto.
Qed.
End look.

Lemma Worker_claim_wp s0 s w : st_tx w s0 s ->
  wp (Worker_claim repos) w
    (fun '(at_, l) w' => (clock_time at_ /\ reads at_) /\ Forall (due_reference at_ s) l /\
       (l = [] -> st_unlocked -> forall t, ~ due_reference at_ s t) /\ st_tx w' s0 s)
    (fun e w' => st_infra e /\ st_dead w' s0).
Proof using All.
  intros Htx. unfold Worker_claim. apply wp_bind.
  eapply wp_mono; [exact (aside_tx _ _ _ _ _ (aside_both _ _ _ now_aside now_reads) Htx)| |].
  2:{ intros e w' [He Htx']. split; [done|by eapply st_tx_dead]. }
  intros at_ w1 [Hat Htx1]. apply wp_bind.
  eapply wp_mono; [apply ClaimDueReferences_law; [lia|exact Htx1]| |done].
  intros l w2 (Hl & _ & Hall & Htx2). apply wp_ret. split_and!; [apply Hat|apply Hat|done| |done].
  intros -> Hfree t Ht. destruct (Hall Hfree t Ht) as [Hin|Hlen]; [by apply not_elem_of_nil in Hin|done].
Qed.

(** Between two attempts the captured variable has been set only when the
    infrastructure failed, and what it says of a commit is true without such a
    failure. *)
Definition unworked (worked : bool) : Prop := worked = false \/ exists e, st_infra e.

Definition reported (s0 s1 : Store) (worked : bool) : Prop :=
  (worked = false -> s1 = s0) /\ (worked = true -> s1 <> s0 \/ exists e, st_infra e).

Lemma worker_error_final s e : worker_error s e -> retriable e = false.
Proof. by intros []. Qed.

Lemma handleOne_attempt ctx s0 : store_ok s0 ->
  attempt_ok (handleOne_callback policy ctx repos) unworked
    (fun s0 s1 worked => worker_step policy st_unlocked reads s0 s1 /\ reported s0 s1 worked) worker_error s0.
Proof using All.
  intros Hs worked w Hun Htx. unfold handleOne_callback.
  pose proof (Worker_claim_wp s0 s0 w Htx) as Hclaim. unfold wp in Hclaim.
  destruct (Worker_claim repos w) as [[[at_ [|t l]]|e] w1].
  - destruct Hclaim as ([Hat Hread] & _ & Hnone & Htx1). split; [done|]. exists s0. split; [done|].
    split; [|split; [done|intros ->; destruct Hun as [?|?]; [done|by right]]].
    exists at_. split; [done|]. split; [done|]. right. split; [done|by apply Hnone].
  - destruct Hclaim as ([Hat Hread] & Hdue%Forall_cons_1 & _ & Htx1). destruct Hdue as [Hdue _].
    pose proof (Worker_resolve_ends ctx at_ Hat s0 Hs t Hdue s0 w1 Htx1) as Hends. unfold ends, wp in Hends.
    destruct (Worker_resolve _ _ _ _ _ w1) as [[[]|e] w2].
    + destruct Hends as (s' & (t' & Hl) & Htx2). split; [by right|]. exists s'. split; [done|].
      split; [|split; [done|left; by eapply looked_changes]].
      exists at_. split; [done|]. split; [done|]. left. by exists t, t'.
    + destruct Hends as [He Hd]. split_and!; [done..|]. intros Hagain. right.
      destruct He as [He|He]; [by rewrite (worker_error_final _ _ He) in Hagain|by exists e].
  - destruct Hclaim as [He Hd]. split_and!; [done|by right|done].
Qed.

(** Where one call may leave the world. *)
Definition handled_one (s : Store) (r : result bool) (w' : W) : Prop :=
  match r with
  | Ok worked => exists s0 s1, st_others s s0 /\ worker_step policy st_unlocked reads s0 s1 /\
      reported s0 s1 worked /\ st_idle w' s1
  | Err e =>
    (exists s1, st_others s s1 /\ st_idle w' s1 /\ (worker_error s1 e \/ st_infra e)) \/
    (exists s0 s1, st_others s s0 /\ worker_step policy st_unlocked reads s0 s1 /\ st_idle w' s1 /\ st_infra e)
  end.

Lemma handleOne_ends ctx s w : cx_insideUnitOfWork ctx = false -> st_idle w s -> store_ok s ->
  let '(r, w') := handleOne uow policy ctx w in handled_one s r w'.
Proof using All.
  intros Hin Hi Hs. unfold handleOne.
  pose proof (Do_law (UnitOfWorkLaws := UnitOfWorkLaws0) bool ctx (handleOne_callback policy)
    store_ok unworked (fun s0 s1 worked => worker_step policy st_unlocked reads s0 s1 /\ reported s0 s1 worked)
    worker_error false w s Hin Hi Hs (or_introl eq_refl)) as Hdo.
  assert (Hst : forall s s', store_ok s -> st_others s s' -> store_ok s').
  { intros s1 s2 Hx Hy. by eapply st_others_ok. }
  specialize (Hdo Hst (handleOne_attempt (inside ctx))).
  destruct (uow_Do _ _ _ _ _) as [[[[]|e] worked] w'].
  - destruct Hdo as (s0 & s1 & Ho & [Hstep Hw] & Hi'). by exists s0, s1.
  - destruct Hdo as [(s1 & Ho & Hi' & He & _)|(s0 & s1 & Ho & [Hstep _] & Hi' & He)].
    + left. by exists s1.
    + right. by exists s0, s1.
Qed.

Lemma handled_one_ok s r w' : store_ok s -> handled_one s r w' ->
  exists s', st_idle w' s' /\ store_ok s' /\ evolves s s'.
Proof using All.
  intros Hs Hh.
  assert (Hstep : forall s0 s1, st_others s s0 -> worker_step policy st_unlocked reads s0 s1 -> store_ok s1 /\ evolves s s1).
  { intros s0 s1 Ho Hst. destruct (st_others_ok _ _ Ho Hs) as [Hs0 He0].
    destruct (worker_step_ok _ _ _ _ _ Hmax Hs0 Hst) as [? ?]. split; [done|by eapply evolves_trans]. }
  destruct r as [worked|e].
  - destruct Hh as (s0 & s1 & Ho & Hst & _ & Hi). exists s1. split; [done|by eapply Hstep].
  - destruct Hh as [(s1 & Ho & Hi & _)|(s0 & s1 & Ho & Hst & Hi & _)]; exists s1; (split; [done|]).
    + by apply st_others_ok.
    + by eapply Hstep.
Qed.

(** A call that finds nothing to do leaves nothing due. *)
Lemma handled_nothing s w' : store_ok s -> handled_one s (Ok false) w' ->
  exists s', st_idle w' s' /\ store_ok s' /\ evolves s s' /\
    exists at_, reads at_ /\ (st_unlocked -> forall t, ~ due_reference at_ s' t).
Proof using All.
  intros Hs (s0 & s1 & Ho & (at_ & Hat & Hread & Hstep) & [Hsame _] & Hi). specialize (Hsame eq_refl). subst s1.
  destruct (st_others_ok _ _ Ho Hs) as [Hs0 He0]. exists s0. split_and!; [done..|]. exists at_. split; [done|].
  destruct Hstep as [(t & t' & Hdue & Hl)|[_ Hno]]; [|exact Hno].
  by destruct (looked_changes _ _ _ _ _ _ Hmax Hs0 Hat Hdue Hl).
Qed.

(** A batch never handles more than its size, stops at the first call that
    finds nothing, and keeps the invariant whatever happens.  One that ends
    before it is full leaves nothing due. *)
Lemma run_batch_ok ctx more handled s w : cx_insideUnitOfWork ctx = false -> st_idle w s -> store_ok s ->
  let '(n, r, w') := run_batch uow policy ctx more handled w in
  handled <= n <= handled + Z.of_nat more /\
  exists s', st_idle w' s' /\ store_ok s' /\ evolves s s' /\
    (r = Ok () -> n < handled + Z.of_nat more -> st_unlocked ->
     exists at_, reads at_ /\ forall t, ~ due_reference at_ s' t).
Proof using All.
  intros Hin. revert handled s w. induction more as [|more IH]; intros handled s w Hi Hs; cbn [run_batch].
  { split; [lia|]. exists s. split_and!; [done|done|apply evolves_refl|lia]. }
  pose proof (proj2 (ctx_Err_aside ctx) w s Hi) as Hctx. unfold wp in Hctx.
  destruct (ctx_Err ctx w) as [[[]|e] w1]; destruct Hctx as [_ Hi1].
  2:{ split; [lia|]. exists s. split_and!; [done|done|apply evolves_refl|done]. }
  pose proof (handleOne_ends ctx s w1 Hin Hi1 Hs) as Hone.
  destruct (handleOne uow policy ctx w1) as [r w2].
  destruct r as [[]|e].
  - destruct (handled_one_ok s _ w2 Hs Hone) as (s2 & Hi2 & Hs2 & He2).
    pose proof (IH (handled + 1) s2 w2 Hi2 Hs2) as Hrest.
    destruct (run_batch _ _ _ more (handled + 1) w2) as [[n r] w3].
    destruct Hrest as [Hn (s3 & Hi3 & Hs3 & He3 & Hdrain)]. split; [lia|]. exists s3.
    split_and!; [done|done|by eapply evolves_trans|]. intros Hr Hlt. apply Hdrain; [done|lia].
  - destruct (handled_nothing s w2 Hs Hone) as (s2 & Hi2 & Hs2 & He2 & at_ & Hat & Hno).
    split; [lia|]. exists s2. split_and!; [done..|]. intros _ _ Hfree. exists at_. split; [done|by apply Hno].
  - destruct (handled_one_ok s _ w2 Hs Hone) as (s2 & Hi2 & Hs2 & He2). split; [lia|]. by exists s2.
Qed.
End execute.
