(* ===== verification/Publisher.v ===== *)
(** * Publisher: [internal/app/publisher.go]

    Sending what the outbox holds: one transaction claims a batch, hands each
    event to the broker, and marks it published or reschedules it.  The broker
    is an interface; the loop of [Run] is in [Loops], the metrics in
    [Measured]; the publish timeout and the log lines are not modelled. *)

From stdpp Require Import sorting.
From S2P Require Import Prelude Errors GoTime Money Identifier Ledger Wallet Transaction Event.
From S2P Require Import Identity Ports Store StoreInv Policy SubmitSpec SubmitProof.

#[local] Open Scope string_scope.
#[local] Open Scope list_scope.
#[local] Open Scope Z_scope.

(** ** Definitions *)

(** [EventPublisher] of [outbox.go]. *)
Class EventPublisher (W : Type) := { Publish : Context -> OutboxRecord -> M W unit }.

Section publisher.
Context {W : Type} `{Clock W} `{Rand W} `{EventPublisher W}.
Context (Error : error -> string) (policy : PublisherPolicy).   (* [err.Error()] *)

Definition publishOne (ctx : Context) (repos : Repositories W) (record : OutboxRecord) (now_ : Time)
    : M W unit :=
  catch (Publish ctx record)
    (fun _ => ob_MarkPublished (r_Outbox repos) (or_EventID record) now_)
    (fun err =>
       next ← Publisher_nextAttemptAt policy now_ (i64 (or_Attempts record + 1));
       ob_Reschedule (r_Outbox repos) (or_EventID record) next (Error err)).

(** The loop over the batch, counting in the captured variable [published]. *)
Fixpoint publish_each (ctx : Context) (repos : Repositories W) (due : list OutboxRecord) (now_ : Time)
    : Callback W Z := fun published w =>
  match due with
  | [] => (Ok (), published, w)
  | record :: due =>
    match publishOne ctx repos record now_ w with
    | (Err e, w) => (Err e, published, w)
    | (Ok _, w) => publish_each ctx repos due now_ (published + 1) w
    end
  end.

Definition Publisher_claim (repos : Repositories W) : M W (Time * list OutboxRecord) :=
  now_ ← now;
  due ← ob_ClaimDue (r_Outbox repos) now_ (pp_BatchSize policy);
  mret (now_, due).

Definition RunOnce_callback (ctx : Context) (repos : Repositories W) : Callback W Z := fun published w =>
  match Publisher_claim repos w with
  | (Err e, w) => (Err e, published, w)
  | (Ok (now_, due), w) => publish_each ctx repos due now_ published w
  end.

Definition Publisher_RunOnce (uow : UnitOfWork W) (ctx : Context) (w : W) : Z * result unit * W :=
  let '(r, published, w) := uow_Do uow ctx RunOnce_callback 0 w in (published, r, w).
End publisher.

(** ** Specification *)

Section spec.
Context `{Precision} (accepted : OutboxRecord -> Prop) (refused : OutboxRecord -> error -> Prop)
  (Error : error -> string) (policy : PublisherPolicy).

(** What happens to the events of a batch, one after the other: an event the
    broker has accepted is marked, another one is put off. *)
Inductive publishes (at_ : Time) : list OutboxRecord -> Store -> Store -> Prop :=
| pb_done s : publishes at_ [] s s
| pb_sent r rest s s' :
  accepted r ->
  publishes at_ rest (set_outbox (update_record (or_EventID r) (published_record at_) (s_outbox s)) s) s' ->
  publishes at_ (r :: rest) s s'
| pb_refused r rest wait err s s' :
  refused r err -> 0 <= wait <= pp_MaxBackoff policy ->
  publishes at_ rest
    (set_outbox (update_record (or_EventID r) (rescheduled_record (Time_Add at_ wait) (Error err)) (s_outbox s)) s) s' ->
  publishes at_ (r :: rest) s s'.

(** One commit of the publisher, at an instant it has [read]. *)
Definition batch_published (free : Prop) (read : Time -> Prop) (s s' : Store) : Prop :=
  exists at_ qrs, clock_time at_ /\ read at_ /\ Forall (due_event at_ s) qrs /\ StronglySorted Z.lt qrs.*1 /\
    NoDup (or_EventID <$> qrs.*2) /\ Z.of_nat (length qrs) <= pp_BatchSize policy /\
    (free -> forall qr, due_event at_ s qr -> qr ∈ qrs \/ Z.of_nat (length qrs) = pp_BatchSize policy) /\
    publishes at_ qrs.*2 s s'.

(** ** Updating one record *)

Lemma update_record_elem id f o q r : (q, r) ∈ update_record id f o <->
  exists r0, (q, r0) ∈ o /\
    r = if bool_decide (or_EventID r0 = id) && negb (Outbox_Published r0) then f r0 else r0.
Proof.
  unfold update_record. rewrite list_elem_of_fmap. split.
  - intros ([q0 r0] & E & Hin). cbn in E. exists r0. destruct (_ && _); by injection E as -> ->.
  - intros (r0 & Hin & ->). exists (q, r0). split; [|done]. cbn. by destruct (_ && _).
Qed.

(** A change that leaves the event alone. *)
Definition keeps_event (f : OutboxRecord -> OutboxRecord) : Prop := forall r,
  or_EventID (f r) = or_EventID r /\ or_Event (f r) = or_Event r /\
  or_CorrelationID (f r) = or_CorrelationID r.

Lemma grows_update_record s id f : keeps_event f ->
  grows s (set_outbox (update_record id f (s_outbox s)) s).
Proof.
  intros Hf. destruct (grows_refl s) as [L1 W1 T1 I1 _]. constructor; try done.
  intros q r Hr. eexists. split; [cbn; apply update_record_elem; by exists r|].
  destruct (Outbox_Published r) eqn:Hp; [rewrite andb_false_r; done|]. rewrite andb_true_r.
  case_bool_decide; [|done]. destruct (Hf r) as (? & ? & ?). by split_and!.
Qed.

Lemma publishes_grows at_ l s s' : publishes at_ l s s' ->
  grows s s' /\ s_wallets s' = s_wallets s /\ s_txs s' = s_txs s /\ s_ledger s' = s_ledger s /\
  s_inbox s' = s_inbox s.
Proof.
  induction 1 as [s|r rest s s' _ _ IH|r rest wait err s s' _ _ _ IH].
  - split_and!; [apply grows_refl|done..].
  - destruct IH as (Hg & ? & ? & ? & ?). split_and!; [|done..].
    eapply grows_trans; [|exact Hg]. by apply grows_update_record.
  - destruct IH as (Hg & ? & ? & ? & ?). split_and!; [|done..].
    eapply grows_trans; [|exact Hg]. by apply grows_update_record.
Qed.

Lemma batch_published_ok free read s s' : store_ok s -> batch_published free read s s' -> store_ok s' /\ evolves s s'.
Proof.
  intros Hs (at_ & qrs & _ & _ & _ & _ & _ & _ & _ & Hp). apply publishes_grows in Hp as (Hg & Hw & Ht & Hl & _).
  split; [by apply (store_ok_frame s)|]. split; [exact Hg|by apply announced_same].
Qed.

(** What became of one record of the outbox. *)
Inductive fate (at_ : Time) (r : OutboxRecord) : bool -> OutboxRecord -> Prop :=
| fate_sent : accepted r -> fate at_ r true (published_record at_ r)
| fate_refused wait err : refused r err -> 0 <= wait <= pp_MaxBackoff policy ->
  fate at_ r false (rescheduled_record (Time_Add at_ wait) (Error err) r).

(** The records of other events are left alone. *)
Lemma publishes_other at_ l s s' q r : publishes at_ l s s' -> (q, r) ∈ s_outbox s ->
  or_EventID r ∉ or_EventID <$> l -> (q, r) ∈ s_outbox s'.
Proof.
  induction 1 as [s|r0 rest s s' _ _ IH|r0 rest wait err s s' _ _ _ IH]; [done|..];
    rewrite fmap_cons, not_elem_of_cons; intros Hin [Hne Hno]; (apply IH; [|done]);
    cbn; apply update_record_elem; exists r; (split; [done|]);
    by rewrite bool_decide_eq_false_2 by congruence.
Qed.

Lemma publishes_fate at_ l s s' q r : publishes at_ l s s' -> NoDup (or_EventID <$> l) ->
  r ∈ l -> (q, r) ∈ s_outbox s -> Outbox_Published r = false ->
  exists sent r', fate at_ r sent r' /\ (q, r') ∈ s_outbox s'.
Proof.
  induction 1 as [s|r0 rest s s' Hacc Hp IH|r0 rest wait err s s' Href Hwait Hp IH];
    intros Hnd Hin Hq Hun; [by apply not_elem_of_nil in Hin|..];
    rewrite fmap_cons in Hnd; apply NoDup_cons in Hnd as [Hni Hnd];
    apply elem_of_cons in Hin as [<-|Hin].
  - exists true, (published_record at_ r). split; [by apply fate_sent|].
    eapply publishes_other; [exact Hp| |exact Hni]. cbn. apply update_record_elem. exists r. split; [done|].
    by rewrite bool_decide_eq_true_2, Hun.
  - apply IH; [done..| |done]. cbn. apply update_record_elem. exists r. split; [done|].
    rewrite bool_decide_eq_false_2; [done|]. intros E. apply Hni. rewrite <- E. by apply list_elem_of_fmap_2.
  - exists false, (rescheduled_record (Time_Add at_ wait) (Error err) r). split; [by apply fate_refused|].
    eapply publishes_other; [exact Hp| |exact Hni]. cbn. apply update_record_elem. exists r. split; [done|].
    by rewrite bool_decide_eq_true_2, Hun.
  - apply IH; [done..| |done]. cbn. apply update_record_elem. exists r. split; [done|].
    rewrite bool_decide_eq_false_2; [done|]. intros E. apply Hni. rewrite <- E. by apply list_elem_of_fmap_2.
Qed.

(** An event that is published now and was not before has been accepted. *)
Lemma publishes_accepted at_ l s s' q r' : publishes at_ l s s' ->
  (q, r') ∈ s_outbox s' -> Outbox_Published r' = true ->
  (q, r') ∈ s_outbox s \/ exists r, r ∈ l /\ accepted r /\ or_EventID r = or_EventID r'.
Proof.
  induction 1 as [s|r0 rest s s' Hacc Hp IH|r0 rest wait err s s' Href Hwait Hp IH]; intros Hin Hpub; [by left|..];
    (destruct (IH Hin Hpub) as [Hin1|(r & Hr & Ha & E)]; [|right; exists r; split; [by right|done]]);
    cbn in Hin1; apply update_record_elem in Hin1 as (r1 & Hin1 & E); revert E;
    (case_bool_decide as Eid; [|by intros ->; left]); (destruct (Outbox_Published r1) eqn:Hp1; cbn; [by intros ->; left|]);
    intros ->.
  - right. exists r0. split_and!; [by left|done|done].
  - unfold Outbox_Published in Hpub, Hp1. cbn in Hpub. congruence.
Qed.
End spec.

(** ** The publisher implements its specification *)

(** The broker: it may refuse an event at any time; what it has accepted it
    has accepted. *)
Class EventPublisherLaws (W : Type) `{Storage W, EventPublisher W} (accepted : OutboxRecord -> Prop)
    (refused : OutboxRecord -> error -> Prop) : Prop := {
  Publish_law : forall ctx r w s0 s, st_tx w s0 s ->
    wp (Publish ctx r) w (fun _ w' => accepted r /\ st_tx w' s0 s) (fun e w' => refused r e /\ st_tx w' s0 s)
}.

(** Why a batch fails: the attempts of an event no longer fit their column. *)
Definition publisher_error (l : list OutboxRecord) (s : Store) (e : error) : Prop :=
  exists what q r, e = Opaque what /\ or_EventID r ∈ or_EventID <$> l /\ (q, r) ∈ s_outbox s /\
    or_Attempts r = int32_max.

Section execute.
Context {W : Type} `{Storage W} `{Precision} `{!StorageLaws W}
  `{Clock W} `{!ClockLaws W} `{Rand W} `{!RandLaws W}
  `{EventPublisher W} (accepted : OutboxRecord -> Prop) (refused : OutboxRecord -> error -> Prop)
  `{!EventPublisherLaws W accepted refused} (reads : Time -> Prop) `{!ClockReads W reads}
  (repos : Repositories W) `{!RepositoriesLaws W repos}
  (uow : UnitOfWork W) `{!UnitOfWorkLaws W uow repos}.
Context (Error : error -> string) (policy : PublisherPolicy)
  (Hpol : policy_ok (pp_BaseBackoff policy) (pp_MaxBackoff policy)) (Hbatch : 1 <= pp_BatchSize policy).

Lemma publishOne_wp ctx at_ r q s0 s w : clock_time at_ -> (q, r) ∈ s_outbox s ->
  Outbox_Published r = false -> 0 <= or_Attempts r <= int32_max -> st_tx w s0 s ->
  wp (publishOne Error policy ctx repos r at_) w
    (fun _ w' => exists s1, st_tx w' s0 s1 /\
       ((accepted r /\ s1 = set_outbox (update_record (or_EventID r) (published_record at_) (s_outbox s)) s) \/
        exists wait err, refused r err /\ 0 <= wait <= pp_MaxBackoff policy /\
          s1 = set_outbox (update_record (or_EventID r) (rescheduled_record (Time_Add at_ wait) (Error err))
                 (s_outbox s)) s))
    (fun e w' => (publisher_error [r] s e \/ st_infra e) /\ st_dead w' s0).
Proof using All.
  intros Hat Hin Hun Ha Htx. unfold publishOne. apply wp_catch.
  eapply wp_mono; [apply Publish_law; exact Htx| |].
  - intros _ w1 [Hacc Htx1]. eapply wp_mono; [apply Outbox_MarkPublished_law; [exact Hat|exact Htx1]| |].
    + intros _ w2 [_ Htx2]. eexists. split; [exact Htx2|]. by left.
    + intros e w2 [(_ & _ & Hno)|[He Hd]]; [|by split; [right|]].
      rewrite (Hno q r Hin eq_refl) in Hun. done.
  - intros err w1 [Href Htx1]. apply wp_bind. rewrite i64_id by (unfold int32_max in *; width; lia).
    eapply wp_mono; [exact (aside_tx _ _ _ _ _
      (nextAttemptAt_aside _ _ at_ (or_Attempts r + 1) Hpol ltac:(unfold int32_max in *; width; lia)) Htx1)| |].
    2:{ intros e w2 [He Htx2]. split; [by right|by eapply st_tx_dead]. }
    intros next w2 [(wait & -> & Hwait) Htx2].
    destruct (backoff_window_spec _ _ (or_Attempts r + 1) Hpol ltac:(unfold int32_max in *; width; lia)) as [Hwin _].
    assert (0 <= backoff_window (pp_BaseBackoff policy) (pp_MaxBackoff policy) (or_Attempts r + 1) / 2)
      by (apply Z.div_pos; lia).
    eapply wp_mono; [apply Outbox_Reschedule_law; exact Htx2| |].
    + intros _ w3 (s1 & -> & Htx3). eexists. split; [exact Htx3|]. right. exists wait, err. split_and!; [done|lia|lia|done].
    + intros e w3 [[[[what ->] (q' & r' & Hin' & Hid & Hmax)]|He] Hd]; (split; [|done]); [left|by right].
      exists what, q', r'. split_and!; [done| |done|done]. cbn. rewrite Hid. left.
Qed.

Lemma publish_each_ends ctx at_ l s0 s w n : clock_time at_ -> NoDup (or_EventID <$> l) ->
  Forall (fun r => (exists q, (q, r) ∈ s_outbox s) /\ Outbox_Published r = false /\
    0 <= or_Attempts r <= int32_max) l -> st_tx w s0 s ->
  match publish_each Error policy ctx repos l at_ n w with
  | (Ok _, c, w') => exists s', publishes accepted refused Error policy at_ l s s' /\ st_tx w' s0 s' /\
      c = n + Z.of_nat (length l)
  | (Err e, _, w') => (publisher_error l s e \/ st_infra e) /\ st_dead w' s0
  end.
Proof using All.
  intros Hat. revert s w n. induction l as [|r l IH]; intros s w n Hnd Hl Htx; cbn [publish_each].
  { exists s. split_and!; [constructor|done|cbn; lia]. }
  rewrite fmap_cons in Hnd. apply NoDup_cons in Hnd as [Hni Hnd].
  apply Forall_cons in Hl as [((q & Hq) & Hun & Ha) Hl].
  pose proof (publishOne_wp ctx at_ r q s0 s w Hat Hq Hun Ha Htx) as Hone. unfold wp in Hone.
  destruct (publishOne _ _ _ _ r at_ w) as [[[]|e] w1].
  2:{ destruct Hone as [[(what & q' & r' & -> & Hid & Hrest)|He] Hd]; (split; [|done]); [left|by right].
      exists what, q', r'. split_and!; [done| |apply Hrest..]. cbn in Hid |- *.
      apply list_elem_of_singleton in Hid. rewrite Hid. left. }
  destruct Hone as (s1 & Htx1 & Hs1).
  assert (Hupd : exists f, keeps_event f /\ s1 = set_outbox (update_record (or_EventID r) f (s_outbox s)) s /\
    (forall s', publishes accepted refused Error policy at_ l s1 s' -> publishes accepted refused Error policy at_ (r :: l) s s')).
  { destruct Hs1 as [[Hacc ->]|(wait & err & Href & Hwait & ->)].
    - eexists. split; [|split; [reflexivity|]]; [done|]. intros s' Hp. by apply pb_sent.
    - eexists. split; [|split; [reflexivity|]]; [done|]. intros s' Hp. by eapply pb_refused. }
  destruct Hupd as (f & Hkeep & E & Hcons). clear Hs1.
  assert (Hother : forall q' r', or_EventID r' <> or_EventID r ->
    (q', r') ∈ s_outbox s1 <-> (q', r') ∈ s_outbox s).
  { intros q' r' Hne. rewrite E. cbn. rewrite update_record_elem. split.
    - intros (r0 & Hin & E'). revert E'. case_bool_decide as Eid; [|by intros ->].
      destruct (Outbox_Published r0); cbn; [by intros ->|]. intros ->. destruct Hne.
      by destruct (Hkeep r0) as [-> _].
    - intros Hin. exists r'. split; [done|]. by rewrite bool_decide_eq_false_2. }
  assert (Hne : forall r', or_EventID r' ∈ or_EventID <$> l -> or_EventID r' <> or_EventID r).
  { intros r' Hr' E'. by rewrite E' in Hr'. }
  assert (Hl1 : Forall (fun r => (exists q, (q, r) ∈ s_outbox s1) /\ Outbox_Published r = false /\
    0 <= or_Attempts r <= int32_max) l).
  { rewrite Forall_forall in Hl |- *. intros r' Hr'. destruct (Hl r' Hr') as [[q' Hq'] Hrest].
    split; [|exact Hrest]. exists q'. apply Hother; [|done]. apply Hne. by apply list_elem_of_fmap_2. }
  pose proof (IH s1 w1 (n + 1) Hnd Hl1 Htx1) as Hrest.
  destruct (publish_each _ _ _ _ l at_ (n + 1) w1) as [[[[]|e] c] w2].
  - destruct Hrest as (s' & Hp & Htx2 & ->). exists s'. split_and!; [by apply Hcons|done|cbn; lia].
  - destruct Hrest as [[(what & q' & r' & -> & Hid & Hin & Hmax)|He] Hd]; (split; [|done]); [left|by right].
    exists what, q', r'. split_and!; [done|by right|by apply Hother; [apply Hne|]|done].
Qed.

Lemma RunOnce_attempt ctx s0 : store_ok s0 ->
  attempt_ok (RunOnce_callback Error policy ctx repos) (fun _ => True)
    (fun s0 s1 _ => batch_published accepted refused Error policy st_unlocked reads s0 s1)
    (fun s0 e => exists l, publisher_error l s0 e) s0.
Proof using All.
  intros Hs n w _ Htx. unfold RunOnce_callback, Publisher_claim, mbind, M_bind.
  pose proof (aside_tx _ _ _ _ _ (aside_both _ _ _ now_aside now_reads) Htx) as Hnow. unfold wp in Hnow.
  destruct (now w) as [[at_|e] w1]; [destruct Hnow as [[Hat Hread] Htx1]|destruct Hnow as [Hat Htx1]].
  2:{ split_and!; [by eapply st_tx_dead|by right|done]. }
  pose proof (Outbox_ClaimDue_law at_ (pp_BatchSize policy) ltac:(lia) w1 s0 s0 Htx1) as Hclaim.
  unfold wp in Hclaim. destruct (ob_ClaimDue _ at_ _ w1) as [[l|e] w2].
  2:{ destruct Hclaim as [He Hd]. split_and!; [done|by right|done]. }
  destruct Hclaim as ((qrs & -> & Hdue & Hsorted & Hnd & Hlen & Hall) & Htx2). cbn [mret M_ret].
  rewrite length_fmap in Hlen, Hall.
  assert (Hl : Forall (fun r => (exists q, (q, r) ∈ s_outbox s0) /\ Outbox_Published r = false /\
    0 <= or_Attempts r <= int32_max) qrs.*2).
  { rewrite Forall_fmap, Forall_forall in *. intros [q r] Hin. destruct (Hdue _ Hin) as (Hq & Hu & _ & Ha).
    split_and!; [by exists q|done|apply Ha..]. }
  pose proof (publish_each_ends ctx at_ qrs.*2 s0 s0 w2 n Hat Hnd Hl Htx2) as Hends.
  unfold mret, M_ret. destruct (publish_each _ _ _ _ _ _ _ w2) as [[[[]|e] c] w3].
  - destruct Hends as (s' & Hp & Htx3 & _). split; [done|]. exists s'. split; [done|]. exists at_, qrs. done.
  - destruct Hends as [[He|He] Hd]; split_and!; try done; [left|by right]. by eexists.
Qed.

(** Where one run may leave the world. *)
Definition ran_once (s : Store) (r : result unit) (w' : W) : Prop :=
  match r with
  | Ok _ => exists s0 s1, st_others s s0 /\ batch_published accepted refused Error policy st_unlocked reads s0 s1 /\ st_idle w' s1
  | Err e =>
    (exists s1, st_others s s1 /\ st_idle w' s1 /\ ((exists l, publisher_error l s1 e) \/ st_infra e)) \/
    (exists s0 s1, st_others s s0 /\ batch_published accepted refused Error policy st_unlocked reads s0 s1 /\
       st_idle w' s1 /\ st_infra e)
  end.

Lemma Publisher_RunOnce_ends ctx s w : cx_insideUnitOfWork ctx = false -> st_idle w s -> store_ok s ->
  let '(_, r, w') := Publisher_RunOnce Error policy uow ctx w in ran_once s r w'.
Proof using All.
  intros Hin Hi Hs. unfold Publisher_RunOnce.
  pose proof (Do_law (UnitOfWorkLaws := UnitOfWorkLaws0) Z ctx (RunOnce_callback Error policy)
    store_ok (fun _ => True) (fun s0 s1 _ => batch_published accepted refused Error policy st_unlocked reads s0 s1)
    (fun s0 e => exists l, publisher_error l s0 e) 0 w s Hin Hi Hs I) as Hdo.
  assert (Hst : forall s s', store_ok s -> st_others s s' -> store_ok s').
  { intros s1 s2 Hx Hy. by eapply st_others_ok. }
  specialize (Hdo Hst (RunOnce_attempt (inside ctx))).
  destruct (uow_Do _ _ _ _ _) as [[[[]|e] n] w'].
  - exact Hdo.
  - destruct Hdo as [(s1 & Ho & Hi' & He & _)|Hlost]; [left|by right]. by exists s1.
Qed.
End execute.
