(* ===== verification/Consumer.v ===== *)
(** * Consumer: [internal/app/consumer.go]

    Applying the operations a queue delivers at least once: the envelope, the
    identity a delivery acts as, the inbox record written in the transaction of
    the operation, and what becomes of the message.  The broker is an
    interface; the loop of [Run] is in [Loops], the metrics in [Measured]; the
    log lines are not modelled. *)

From S2P Require Import Encoding Rfc3339 Json.
From S2P Require Import Prelude Errors GoTime Money Identifier Ledger Wallet Transaction Event.
From S2P Require Import Idempotency Identity Ports Store StoreInv Policy Recorder Reversal Submit Storable.
From S2P Require Import SubmitSpec SubmitProof SubmitExecute.

#[local] Open Scope string_scope.
#[local] Open Scope list_scope.
#[local] Open Scope Z_scope.

(** ** Definitions *)

Record QueueMessage := mkQueueMessage {
  qm_ReceiptHandle : string;
  qm_Body : string
}.

(** [Queue] *)
Class Queue (W : Type) := {
  q_Receive : Context -> Z -> M W (list QueueMessage);
  q_Delete : Context -> string -> M W unit;
  q_Release : Context -> string -> M W unit
}.

Record MoneyData := mkMoneyData { md_Amount : string; md_Currency : string }.

Record EnvelopeData := mkEnvelopeData {
  ed_ProviderID : string;
  ed_ExternalID : string;
  ed_IdempotencyKey : string;
  ed_PlayerID : string;
  ed_WalletID : string;
  ed_RoundID : string;
  ed_GameID : string;
  ed_Kind : string;
  ed_Money : MoneyData;
  ed_ReferenceExternalID : string
}.

Record Envelope := mkEnvelope {
  en_MessageID : string;
  en_Type : string;
  en_OccurredAt : Time;
  en_Data : EnvelopeData
}.

Definition TypeWagerTransactionRequested : string := "WagerTransactionRequested".

Definition Envelope_Command (e : Envelope) : SubmitCommand :=
  let d := en_Data e in
  {|
    sc_IdempotencyKey := ed_IdempotencyKey d;
    sc_ProviderID := ed_ProviderID d;
    sc_ExternalID := ed_ExternalID d;
    sc_PlayerID := ed_PlayerID d;
    sc_WalletID := ed_WalletID d;
    sc_RoundID := ed_RoundID d;
    sc_GameID := ed_GameID d;
    sc_Kind := ed_Kind d;
    sc_Amount := md_Amount (ed_Money d);
    sc_Currency := md_Currency (ed_Money d);
    sc_ReferenceExternalID := ed_ReferenceExternalID d
  |}.

Record ConsumerConfig := mkConsumerConfig {
  cc_Name : string;
  cc_BatchSize : Z;
  cc_IdleBackoff : Duration
}.

(** The defaults [NewConsumer] fills in. *)
Definition NewConsumer_config (cfg : ConsumerConfig) : ConsumerConfig := {|
  cc_Name := if bool_decide (cc_Name cfg = "") then "wager-transactions" else cc_Name cfg;
  cc_BatchSize := if cc_BatchSize cfg <=? 0 then 10 else cc_BatchSize cfg;
  cc_IdleBackoff := if cc_IdleBackoff cfg <=? 0 then Second else cc_IdleBackoff cfg
|}.

(** The fields of the message, as [encoding/json] finds them. *)
Definition MoneyData_fields : list (string * (MoneyData -> value -> option MoneyData)) :=
  [("amount", into_field md_Amount (fun x '(mkMoneyData _ c) => mkMoneyData x c) into_string);
   ("currency", into_field md_Currency (fun x '(mkMoneyData a _) => mkMoneyData a x) into_string)].

Definition EnvelopeData_fields : list (string * (EnvelopeData -> value -> option EnvelopeData)) :=
  [("providerId", into_field ed_ProviderID
      (fun x '(mkEnvelopeData _ b c d e f g h m r) => mkEnvelopeData x b c d e f g h m r) into_string);
   ("externalTransactionId", into_field ed_ExternalID
      (fun x '(mkEnvelopeData a _ c d e f g h m r) => mkEnvelopeData a x c d e f g h m r) into_string);
   ("idempotencyKey", into_field ed_IdempotencyKey
      (fun x '(mkEnvelopeData a b _ d e f g h m r) => mkEnvelopeData a b x d e f g h m r) into_string);
   ("playerId", into_field ed_PlayerID
      (fun x '(mkEnvelopeData a b c _ e f g h m r) => mkEnvelopeData a b c x e f g h m r) into_string);
   ("walletId", into_field ed_WalletID
      (fun x '(mkEnvelopeData a b c d _ f g h m r) => mkEnvelopeData a b c d x f g h m r) into_string);
   ("roundId", into_field ed_RoundID
      (fun x '(mkEnvelopeData a b c d e _ g h m r) => mkEnvelopeData a b c d e x g h m r) into_string);
   ("gameId", into_field ed_GameID
      (fun x '(mkEnvelopeData a b c d e f _ h m r) => mkEnvelopeData a b c d e f x h m r) into_string);
   ("kind", into_field ed_Kind
      (fun x '(mkEnvelopeData a b c d e f g _ m r) => mkEnvelopeData a b c d e f g x m r) into_string);
   ("money", into_field ed_Money
      (fun x '(mkEnvelopeData a b c d e f g h _ r) => mkEnvelopeData a b c d e f g h x r)
      (into_struct true MoneyData_fields));
   ("referenceExternalTransactionId", into_field ed_ReferenceExternalID
      (fun x '(mkEnvelopeData a b c d e f g h m _) => mkEnvelopeData a b c d e f g h m x) into_string)].

Definition Envelope_fields : list (string * (Envelope -> value -> option Envelope)) :=
  [("messageId", into_field en_MessageID (fun x '(mkEnvelope _ b c d) => mkEnvelope x b c d) into_string);
   ("type", into_field en_Type (fun x '(mkEnvelope a _ c d) => mkEnvelope a x c d) into_string);
   ("occurredAt", into_field en_OccurredAt (fun x '(mkEnvelope a b _ d) => mkEnvelope a b x d) into_time);
   ("data", into_field en_Data (fun x '(mkEnvelope a b c _) => mkEnvelope a b c x)
      (into_struct true EnvelopeData_fields))].

Definition noEnvelope : Envelope :=
  mkEnvelope "" "" zeroTime (mkEnvelopeData "" "" "" "" "" "" "" "" (mkMoneyData "" "") "").

(** [decoder.Decode(&envelope)]: whatever follows the first value is left
    unread. *)
Definition Envelope_Decode (body : string) : option Envelope :=
  '(v, _) ← readValue false body; into_struct true Envelope_fields noEnvelope v.

Inductive delivery_outcome := outcomeDelete | outcomeRelease.

Definition decodeEnvelope (body : string) : result (Envelope * SubmitCommand) :=
  match Envelope_Decode body with
  | None => Err (Wrapped (SentinelError ErrInvalidInput))
  | Some envelope =>
    if bool_decide (en_MessageID envelope = "") then Err (Wrapped (SentinelError ErrInvalidInput))
    else if negb (bool_decide (en_Type envelope = TypeWagerTransactionRequested))
    then Err (Wrapped (SentinelError ErrInvalidInput))
    else if bool_decide (ed_IdempotencyKey (en_Data envelope) = "")
    then Err (Wrapped (SentinelError ErrInvalidInput))
    else Ok (envelope, Envelope_Command envelope)
  end.

Definition Consumer_identity (cfg : ConsumerConfig) (envelope : Envelope) : result Identity :=
  NewIdentity {|
    ip_Subject := "queue:" +:+ cc_Name cfg;
    ip_ProviderID := ed_ProviderID (en_Data envelope);
    ip_Scopes := [ScopeSubmit]
  |}.

Section consumer.
Context {W : Type} `{Clock W} `{IDGenerator W} `{Rand W}.
Context (cfg : ConsumerConfig) (waiting : ReferencePolicy).

Definition alreadySeen (repos : Repositories W) (envelope : Envelope) (hash : PayloadHash) : M W unit :=
  seen ← in_Find (r_Inbox repos) (cc_Name cfg) (en_MessageID envelope);
  if negb (bool_decide (im_PayloadHash seen = hash)) then mret ()
  else if negb (Inbox_Handled seen) then throw (Wrapped (SentinelError ErrSerializationFailure))
  else mret ().

(** The variables [result] and [worked] of [apply]. *)
Abbreviation captured := (SubmitResult * bool)%type.

(** The end of the callback: [worked = true; return Complete(...)]. *)
Definition complete (envelope : Envelope) (now_ : Time) (repos : Repositories W) (result : SubmitResult)
    : W -> Errors.result unit * captured * W := fun w =>
  let '(r, w) := in_Complete (r_Inbox repos) (cc_Name cfg) (en_MessageID envelope) now_ w in
  (r, (result, true), w).

(** A message nobody has seen: the operation, then its inbox record. *)
Definition consume_new (envelope : Envelope) (cmd : SubmitCommand) (now_ : Time) (ctx : Context)
    (repos : Repositories W) : Callback W captured := fun c w =>
  match ExecuteIn waiting ctx repos cmd w with
  | (Ok applied, w) => complete envelope now_ repos applied w
  | (Err e, w) =>
    match As_domain e with
    | None => (Err e, c, w)
    | Some _ => complete envelope now_ repos c.1 w
    end
  end.

Definition received (envelope : Envelope) (hash : PayloadHash) (now_ : Time) : InboxMessage :=
  mkInboxMessage (cc_Name cfg) (en_MessageID envelope) hash now_ zeroTime.

(** The callback of [apply]. *)
Definition apply_callback (envelope : Envelope) (cmd : SubmitCommand) (hash : PayloadHash)
    (ctx : Context) (repos : Repositories W) : Callback W captured := fun c w =>
  match (now_ ← now; mret now_) w with
  | (Err e, w) => (Err e, c, w)
  | (Ok now_, w) =>
    match in_Claim (r_Inbox repos) (received envelope hash now_) w with
    | (Ok _, w) => consume_new envelope cmd now_ ctx repos c w
    | (Err claimErr, w) =>
      if is_sentinel claimErr ErrConflict
      then let '(r, w) := alreadySeen repos envelope hash w in (r, c, w)
      else (Err claimErr, c, w)
    end
  end.

Definition Consumer_work (ctx : Context) (envelope : Envelope) (identity : Identity) : Context :=
  WithIdentity (WithCorrelationID ctx (en_MessageID envelope)) identity.

Definition Consumer_commit (uow : UnitOfWork W) (work : Context) (envelope : Envelope)
    (cmd : SubmitCommand) (hash : PayloadHash) : M W captured := fun w =>
  match uow_Do uow work (apply_callback envelope cmd hash) (noSubmitResult, false) w with
  | (Ok _, c, w) => (Ok c, w)
  | (Err e, _, w) => (Err e, w)
  end.

Definition Consumer_apply (uow : UnitOfWork W) (ctx : Context) (envelope : Envelope)
    (cmd : SubmitCommand) (identity : Identity) : M W captured :=
  hash ← pure (Command_PayloadHash cmd);
  Consumer_commit uow (Consumer_work ctx envelope identity) envelope cmd hash.

(** [handle], up to what is done with the message. *)
Definition Consumer_decide (uow : UnitOfWork W) (ctx : Context)
    (message : QueueMessage) (w : W) : delivery_outcome * W :=
  match decodeEnvelope (qm_Body message) with
  | Err _ => (outcomeDelete, w)
  | Ok (envelope, cmd) =>
    match Consumer_identity cfg envelope with
    | Err _ => (outcomeDelete, w)
    | Ok identity =>
      match Consumer_apply uow ctx envelope cmd identity w with
      | (Err _, w) => (outcomeRelease, w)
      | (Ok _, w) => (outcomeDelete, w)
      end
    end
  end.

Context `{Queue W}.

(** A failing broker call is logged and forgotten. *)
Definition Consumer_finish (ctx : Context) (message : QueueMessage) (what : delivery_outcome) (w : W) : W :=
  match what with
  | outcomeRelease => (q_Release ctx (qm_ReceiptHandle message) w).2
  | outcomeDelete => (q_Delete ctx (qm_ReceiptHandle message) w).2
  end.

Definition Consumer_handle (uow : UnitOfWork W) (ctx : Context)
    (message : QueueMessage) (w : W) : W :=
  let '(what, w) := Consumer_decide uow ctx message w in Consumer_finish ctx message what w.

Definition Consumer_RunOnce (uow : UnitOfWork W) (ctx : Context)
    : M W Z := fun w =>
  match q_Receive ctx (cc_BatchSize cfg) w with
  | (Err e, w) => (Err e, w)
  | (Ok messages, w) =>
    (Ok (Z.of_nat (length messages)), foldl (fun w m => Consumer_handle uow ctx m w) w messages)
  end.
End consumer.

(** ** Specification *)

Section spec.
Context `{Precision}.

(** What one delivery of a message commits.  [ctx] is the context of the
    work, [c] what its caller is told. *)
Inductive delivered (cfg : ConsumerConfig) (waiting : ReferencePolicy) (ctx : Context)
    (envelope : Envelope) (cmd : SubmitCommand) (hash : PayloadHash) (s : Store)
    : Store -> SubmitResult * bool -> Prop :=
| dl_applied at_ res s1 m :
  clock_time at_ -> m = stored_message (received cfg envelope hash at_) ->
  s_inbox s !! (cc_Name cfg, en_MessageID envelope) = None ->
  accepts waiting ctx cmd (put_inbox m s) res s1 ->
  delivered cfg waiting ctx envelope cmd hash s (put_inbox (completed_message at_ m) s1) (res, true)
| dl_unusable at_ e code m res :
  clock_time at_ -> m = stored_message (received cfg envelope hash at_) ->
  s_inbox s !! (cc_Name cfg, en_MessageID envelope) = None ->
  execute_error ctx cmd (put_inbox m s) e -> As_domain e = Some code ->
  delivered cfg waiting ctx envelope cmd hash s (put_inbox (completed_message at_ m) (put_inbox m s)) (res, true)
| dl_duplicate m c :
  s_inbox s !! (cc_Name cfg, en_MessageID envelope) = Some m ->
  im_PayloadHash m <> hash \/ Inbox_Handled m = true ->
  delivered cfg waiting ctx envelope cmd hash s s c.

(** Why a delivery is handed back: the operation is refused for another reason
    than its content, or an earlier attempt has not finished. *)
Inductive delivery_error (cfg : ConsumerConfig) (ctx : Context) (envelope : Envelope)
    (cmd : SubmitCommand) (hash : PayloadHash) (s : Store) : error -> Prop :=
| de_execute m e : execute_error ctx cmd (put_inbox m s) e -> As_domain e = None ->
  s_inbox s !! (cc_Name cfg, en_MessageID envelope) = None ->
  delivery_error cfg ctx envelope cmd hash s e
| de_unfinished m :
  s_inbox s !! (cc_Name cfg, en_MessageID envelope) = Some m ->
  im_PayloadHash m = hash -> Inbox_Handled m = false ->
  delivery_error cfg ctx envelope cmd hash s (Wrapped (SentinelError ErrSerializationFailure)).

(** ** A delivery keeps the invariant, and its message stays handled *)

Lemma grows_put_inbox s m :
  (forall old, s_inbox s !! (im_ConsumerName m, im_MessageID m) = Some old ->
     im_PayloadHash m = im_PayloadHash old /\ Inbox_Handled old = false) ->
  grows s (put_inbox m s).
Proof.
  intros Hold. destruct (grows_refl s) as [L1 W1 T1 _ O1]. constructor; try done.
  intros k m0 Hk. cbn. destruct (decide (k = (im_ConsumerName m, im_MessageID m))) as [->|Hne].
  - exists m. rewrite lookup_insert_eq. destruct (Hold m0 Hk) as [? Hn]. split_and!; [done..|]. congruence.
  - exists m0. by rewrite lookup_insert_ne by done.
Qed.

Lemma put_inbox_ok s m :
  (forall old, s_inbox s !! (im_ConsumerName m, im_MessageID m) = Some old ->
     im_PayloadHash m = im_PayloadHash old /\ Inbox_Handled old = false) ->
  store_ok s -> store_ok (put_inbox m s) /\ evolves s (put_inbox m s).
Proof.
  intros Hold Hs. split; [by apply (store_ok_frame s)|].
  split; [by apply grows_put_inbox|by apply announced_same].
Qed.

Lemma submit_outcome_inbox waiting s p r s' : submit_outcome waiting s p r s' -> s_inbox s' = s_inbox s.
Proof.
  intros [(t & _ & _ & ->)|(tid & at_ & w & t0 & t & omv & Hap)]; [done|].
  destruct (ap_writes _ _ _ _ _ _ _ _ _ _ _ Hap) as [_ Hwr]. destruct omv.
  - by destruct Hwr as (_ & _ & q & events & _ & (recs & -> & _)).
  - by destruct Hwr as (_ & events & _ & (recs & -> & _)).
Qed.

Lemma completed_handled at_ m : clock_time at_ -> Inbox_Handled (completed_message at_ m) = true.
Proof.
  intros [_ Hlow]. unfold Inbox_Handled, Time_IsZero. cbn. rewrite stored_time_law.
  pose proof (Z.mod_pos_bound (instant at_) 1000 ltac:(lia)).
  pose proof (Z.mod_le (instant at_) 1000 ltac:(lia) ltac:(lia)). apply negb_true_iff, Z.eqb_neq.
  pose proof (Z.div_mod (instant at_) 1000 ltac:(lia)).
  assert (1 <= instant at_ / 1000) by (apply Z.div_le_lower_bound; lia). lia.
Qed.

Lemma delivered_ok cfg waiting ctx envelope cmd hash s s' c : 0 <= rp_TTL waiting -> store_ok s ->
  delivered cfg waiting ctx envelope cmd hash s s' c ->
  store_ok s' /\ evolves s s' /\
  is_Some (s_inbox s' !! (cc_Name cfg, en_MessageID envelope)).
Proof.
  intros Httl Hs Hd. destruct Hd as [at_ res s1 m Hat -> Hnew Hacc|at_ e code m res Hat -> Hnew He Hcode|m c Hm Hh].
  - set (m := stored_message (received cfg envelope hash at_)) in *.
    destruct (put_inbox_ok s m) as [Hs0 He0]; [cbn; congruence|done|].
    destruct Hacc as (i & p & _ & Hp & _ & Hout).
    destruct (submit_outcome_ok waiting _ p res s1 Hs0 (Submit_parse_ok _ _ Hp) Httl Hout) as [Hs1 He1].
    pose proof (submit_outcome_inbox _ _ _ _ _ Hout) as Hin.
    destruct (put_inbox_ok s1 (completed_message at_ m)) as [Hs2 He2]; [|done|].
    { intros old Hold. rewrite Hin in Hold. cbn in Hold. rewrite lookup_insert_eq in Hold. by injection Hold as <-. }
    split; [exact Hs2|]. split; [eapply evolves_trans; [exact He0|by eapply evolves_trans]|].
    cbn. rewrite lookup_insert_eq. eauto.
  - set (m := stored_message (received cfg envelope hash at_)) in *.
    destruct (put_inbox_ok s m) as [Hs0 He0]; [cbn; congruence|done|].
    destruct (put_inbox_ok (put_inbox m s) (completed_message at_ m)) as [Hs2 He2]; [|done|].
    { intros old Hold. cbn in Hold. rewrite lookup_insert_eq in Hold. by injection Hold as <-. }
    split; [exact Hs2|]. split; [by eapply evolves_trans|]. cbn. rewrite lookup_insert_eq. eauto.
  - split_and!; [done|apply evolves_refl|eauto].
Qed.
End spec.

(** A message that is in the inbox changes nothing any more. *)
Lemma delivered_again `{Precision} cfg waiting ctx envelope cmd hash s s' c :
  is_Some (s_inbox s !! (cc_Name cfg, en_MessageID envelope)) ->
  delivered cfg waiting ctx envelope cmd hash s s' c -> s' = s.
Proof. intros [m Hm] Hd. destruct Hd; [congruence..|done]. Qed.

(** ** The consumer implements its specification *)

Section execute.
Context {W : Type} `{Storage W} `{Precision} `{!StorageLaws W}
  `{Clock W} `{!ClockLaws W} `{IDGenerator W} `{!IDLaws W} `{Rand W} `{!RandLaws W}
  (repos : Repositories W) `{!RepositoriesLaws W repos}
  (uow : UnitOfWork W) `{!UnitOfWorkLaws W uow repos}.
Context (cfg : ConsumerConfig) (waiting : ReferencePolicy) (Hpol : policy_sane waiting).
Context (envelope : Envelope) (cmd : SubmitCommand) (hash : PayloadHash)
  (Hhash : Command_PayloadHash cmd = Ok hash).

#[local] Abbreviation key := (cc_Name cfg, en_MessageID envelope).

(** Completing the record claimed by the same attempt. *)
Lemma complete_attempt at_ m res s0 s w (Q : Store -> SubmitResult * bool -> Prop) (E : error -> Prop) :
  clock_time at_ -> s_inbox s !! key = Some m -> st_tx w s0 s ->
  Q (put_inbox (completed_message at_ m) s) (res, true) ->
  match complete cfg envelope at_ repos res w with
  | (Ok _, c, w') => exists s', st_tx w' s0 s' /\ Q s' c
  | (Err e, c, w') => st_dead w' s0 /\ (E e \/ st_infra e)
  end.
Proof using All.
  intros Hat Hm Htx HQ. unfold complete.
  pose proof (Inbox_Complete_law (cc_Name cfg) (en_MessageID envelope) at_ Hat w s0 s Htx) as Hc. unfold wp in Hc.
  destruct (in_Complete _ _ _ _ w) as [[[]|e] w'].
  - destruct Hc as (m' & Hm' & Htx'). rewrite Hm in Hm'. injection Hm' as <-. eauto.
  - destruct Hc as [(_ & Hno & _)|[He Hd]]; [congruence|auto].
Qed.

Lemma consume_new_attempt ctx at_ c s0 w : store_ok s0 -> clock_time at_ ->
  s_inbox s0 !! key = None ->
  let m := stored_message (received cfg envelope hash at_) in
  st_tx w s0 (put_inbox m s0) ->
  match consume_new cfg waiting envelope cmd at_ ctx repos c w with
  | (Ok _, c', w') => exists s', st_tx w' s0 s' /\ delivered cfg waiting ctx envelope cmd hash s0 s' c'
  | (Err e, _, w') => st_dead w' s0 /\ (delivery_error cfg ctx envelope cmd hash s0 e \/ st_infra e)
  end.
Proof using All.
  intros Hs Hat Hnew m Htx. unfold consume_new.
  destruct (put_inbox_ok s0 m) as [Hs1 _]; [cbn; congruence|done|].
  pose proof (ExecuteIn_safe repos waiting ctx cmd s0 (put_inbox m s0) w Hpol Hs1 Htx) as Hex.
  unfold safe_ends, wp in Hex. destruct (ExecuteIn waiting ctx repos cmd w) as [[res|e] w1].
  - destruct Hex as (s1 & Hacc & Htx1).
    apply (complete_attempt at_ m res s0 s1 w1 (fun s' c' => delivered cfg waiting ctx envelope cmd hash s0 s' c'));
      [done| |done|by eapply dl_applied].
    destruct Hacc as (i & p & _ & _ & _ & Hout). rewrite (submit_outcome_inbox _ _ _ _ _ Hout).
    cbn. by rewrite lookup_insert_eq.
  - destruct Hex as (He & Hd & Hsafe). destruct (As_domain e) as [code|] eqn:Hcode.
    2:{ split; [done|]. destruct He as [He|He]; [left|by right]. by eapply de_execute. }
    specialize (Hsafe ltac:(done)).
    destruct He as [He|He]; [|destruct (st_infra_error e He) as (Hn & _); congruence].
    apply (complete_attempt at_ m c.1 s0 (put_inbox m s0) w1
      (fun s' c' => delivered cfg waiting ctx envelope cmd hash s0 s' c'));
      [done| |done|by eapply dl_unusable].
    cbn. by rewrite lookup_insert_eq.
Qed.

Lemma alreadySeen_wp s0 w : is_Some (s_inbox s0 !! key) -> st_tx w s0 s0 ->
  wp (alreadySeen cfg repos envelope hash) w
    (fun _ w' => st_tx w' s0 s0 /\ exists m, s_inbox s0 !! key = Some m /\
       (im_PayloadHash m <> hash \/ Inbox_Handled m = true))
    (fun e w' => ((exists m, s_inbox s0 !! key = Some m /\ im_PayloadHash m = hash /\ Inbox_Handled m = false /\
         e = Wrapped (SentinelError ErrSerializationFailure)) \/ st_infra e) /\ st_dead w' s0).
Proof using All.
  intros [m Hm] Htx. unfold alreadySeen. apply wp_bind.
  eapply wp_mono; [apply Inbox_Find_law; exact Htx| |].
  2:{ intros e w' [(_ & Hno & _)|[He Hd]]; [by destruct (Hno m)|]. split; [by right|done]. }
  intros m' w1 [Hm' Htx1]. cbn in Hm'. rewrite Hm in Hm'. injection Hm' as <-.
  case_bool_decide as Hh; cbn [negb].
  2:{ apply wp_ret. split; [done|]. exists m. auto. }
  destruct (Inbox_Handled m) eqn:Hhd; cbn [negb].
  - apply wp_ret. split; [done|]. exists m. auto.
  - apply wp_throw. split; [|by eapply st_tx_dead]. left. by exists m.
Qed.

Lemma apply_attempt ctx s0 : store_ok s0 ->
  attempt_ok (apply_callback cfg waiting envelope cmd hash ctx repos) (fun _ => True)
    (fun s0 s1 c => delivered cfg waiting ctx envelope cmd hash s0 s1 c)
    (delivery_error cfg ctx envelope cmd hash) s0.
Proof using All.
  intros Hs c w _ Htx. unfold apply_callback.
  assert (Hbind : forall w : W, (now_ ← now; mret (M := M W) now_) w = now w).
  { intros w'. unfold mbind, M_bind. by destruct (now w') as [[?|?] ?]. }
  rewrite Hbind. pose proof (aside_tx _ _ _ _ _ now_aside Htx) as Hnow. unfold wp in Hnow.
  destruct (now w) as [[at_|e] w1]; destruct Hnow as [Hat Htx1].
  2:{ split_and!; [by eapply st_tx_dead|by right|done]. }
  assert (Hid : id_ok (im_PayloadHash (received cfg envelope hash at_))).
  { cbn. unfold Command_PayloadHash in Hhash. by apply parseIdentifier_iff in Hhash as [? _]. }
  pose proof (Inbox_Claim_law _ Hid w1 s0 s0 Htx1) as Hclaim. unfold wp in Hclaim.
  destruct (in_Claim _ _ w1) as [[[]|e] w2].
  - destruct Hclaim as [Hnew Htx2].
    pose proof (consume_new_attempt ctx at_ c s0 w2 Hs Hat Hnew Htx2) as Hc.
    destruct (consume_new _ _ _ _ _ _ _ c w2) as [[[[]|e] c'] w3]; [by split|]. destruct Hc. by split_and!.
  - destruct Hclaim as [(Hseen & (name & ->) & Htx2)|[He Hd]].
    + change (is_sentinel (NewConflict name) ErrConflict) with true. cbn [negb].
      pose proof (alreadySeen_wp s0 w2 Hseen Htx2) as Hc. unfold wp in Hc.
      destruct (alreadySeen _ _ _ _ w2) as [[[]|e] w3].
      * destruct Hc as (Htx3 & m & Hm & Hh). split; [done|]. exists s0. split; [done|]. by eapply dl_duplicate.
      * destruct Hc as [[(m & Hm & Hh & Hun & ->)|He] Hd]; split_and!; try done; [left|by right].
        by eapply de_unfinished.
    + destruct (st_infra_error e He) as (_ & _ & ->). split_and!; [done|by right|done].
Qed.

(** Where a delivery may leave the world. *)
Definition applied_delivery (work : Context) (s : Store) (r : result (SubmitResult * bool)) (w' : W) : Prop :=
  match r with
  | Ok c => exists s0 s1, st_others s s0 /\ delivered cfg waiting (inside work) envelope cmd hash s0 s1 c /\
      st_idle w' s1
  | Err e =>
    (exists s1, st_others s s1 /\ st_idle w' s1 /\
       (delivery_error cfg (inside work) envelope cmd hash s1 e \/ st_infra e)) \/
    (exists s0 s1 c, st_others s s0 /\ delivered cfg waiting (inside work) envelope cmd hash s0 s1 c /\
       st_idle w' s1 /\ st_infra e)
  end.

Lemma Consumer_apply_ends ctx identity s w : cx_insideUnitOfWork ctx = false -> st_idle w s -> store_ok s ->
  let '(r, w') := Consumer_apply cfg waiting uow ctx envelope cmd identity w in
  applied_delivery (Consumer_work ctx envelope identity) s r w'.
Proof using All.
  intros Hin Hi Hs. unfold Consumer_apply. rewrite Hhash, bind_pure_Ok. unfold Consumer_commit.
  set (work := Consumer_work ctx envelope identity).
  assert (Hwork : cx_insideUnitOfWork work = false).
  { unfold work, Consumer_work, WithIdentity, WithCorrelationID. cbn. by case_bool_decide. }
  pose proof (Do_law (UnitOfWorkLaws := UnitOfWorkLaws0) _ work (apply_callback cfg waiting envelope cmd hash)
    store_ok (fun _ => True) (fun s0 s1 c => delivered cfg waiting (inside work) envelope cmd hash s0 s1 c)
    (delivery_error cfg (inside work) envelope cmd hash) (noSubmitResult, false) w s Hwork Hi Hs I) as Hdo.
  assert (Hst : forall s s', store_ok s -> st_others s s' -> store_ok s').
  { intros s1 s2 Hx Hy. by eapply st_others_ok. }
  specialize (Hdo Hst (apply_attempt (inside work))).
  destruct (uow_Do _ _ _ _ _) as [[[[]|e] c] w'].
  - exact Hdo.
  - destruct Hdo as [(s1 & Ho & Hi' & He & _)|(s0 & s1 & Ho & Hd & Hi' & He)]; [left; by exists s1|right].
    by exists s0, s1, c.
Qed.
End execute.
