(* ===== verification/Locks.v ===== *)
(** * Locks: which wallets a transaction touches

    The deadlock rule of [docs/adr/0007-per-wallet-concurrency.md], that the
    comments of [postgres/wallet.go] and [reference_worker.go] rely on: a
    transaction locks one wallet row, so the locks of wallets cannot deadlock.

    Every unit of work of the program is run over repositories that note which
    wallet rows a statement locks: the row that [FindByIDForUpdate] reads, the
    one that [UpdateBalance] writes, a row that [Insert] creates, and the row
    that an operation or an entry refers to, which its foreign key locks
    against deletion.  [transaction_locks] then runs any number of such
    transactions beside each other.  The rows of operations are claimed with
    SKIP LOCKED, which does not wait; unique indexes are not considered. *)

From S2P Require Import Prelude Errors GoTime Money Identifier Ledger Wallet Transaction Event.
From S2P Require Import Identity Ports Policy Recorder Reversal Submit Opening Worker Publisher Consumer.

#[local] Open Scope string_scope.
#[local] Open Scope list_scope.
#[local] Open Scope Z_scope.

(** ** Definitions *)

(** What a statement does to a row of [wallets].  [Locked] says which wallet
    was asked for and the one that was read, if any. *)
Inductive access :=
| Locked (id : WalletID) (read : option WalletID)
| Stored (id : WalletID)
| Created (id : WalletID)
| Referenced (id : WalletID).

Abbreviation Traced W := (list access * W)%type (only parsing).

Section traced.
Context {W : Type}.

Definition unnoted {A} (m : M W A) : M (Traced W) A := fun tw =>
  let '(r, w) := m tw.2 in (r, (tw.1, w)).

Definition noted {A} (note : result A -> access) (m : M W A) : M (Traced W) A := fun tw =>
  let '(r, w) := m tw.2 in (r, (tw.1 ++ [note r], w)).

Definition locked_note (id : WalletID) (r : result Wallet) : access :=
  Locked id match r with Ok wallet => Some (w_id wallet) | Err _ => None end.

Definition traced (repos : Repositories W) : Repositories (Traced W) :=
  let wallets := r_Wallets repos in
  let ledger := r_Ledger repos in
  let transactions := r_Transactions repos in
  let inbox := r_Inbox repos in
  let outbox := r_Outbox repos in
  mkRepositories _
    (mkWalletRepository _
      (mkWalletReader _ (fun id => unnoted (wr_FindByID (w_reader wallets) id))
         (fun player cur => unnoted (wr_FindByPlayerAndCurrency (w_reader wallets) player cur)))
      (fun id => noted (locked_note id) (w_FindByIDForUpdate wallets id))
      (fun wallet => noted (fun _ => Created (w_id wallet)) (w_Insert wallets wallet))
      (fun wallet version => noted (fun _ => Stored (w_id wallet)) (w_UpdateBalance wallets wallet version)))
    (mkLedgerRepository _
      (mkLedgerReader _ (fun id cursor limit => unnoted (lr_ListByWallet (l_reader ledger) id cursor limit))
         (fun id cur => unnoted (lr_SumByWallet (l_reader ledger) id cur)))
      (fun entry => noted (fun _ => Referenced (le_walletID entry)) (l_Append ledger entry)))
    (mkTransactionRepository _
      (mkTransactionReader _ (fun id => unnoted (tr_FindByID (t_reader transactions) id))
         (fun provider external => unnoted (tr_FindByBusinessID (t_reader transactions) provider external))
         (fun id => unnoted (tr_FindProcessedReversalOf (t_reader transactions) id)))
      (fun t => noted (fun _ => Referenced (t_walletID t)) (t_Insert transactions t))
      (fun t => unnoted (t_Update transactions t))
      (fun at_ limit => unnoted (t_ClaimDueReferences transactions at_ limit)))
    (mkInboxRepository _ (fun message => unnoted (in_Claim inbox message))
      (fun name id at_ => unnoted (in_Complete inbox name id at_)) (fun name id => unnoted (in_Find inbox name id)))
    (mkOutboxRepository _ (fun r => unnoted (ob_Append outbox r)) (fun at_ limit => unnoted (ob_ClaimDue outbox at_ limit))
      (fun id at_ => unnoted (ob_MarkPublished outbox id at_))
      (fun id at_ cause => unnoted (ob_Reschedule outbox id at_ cause))).

#[export] Instance Clock_traced `{Clock W} : Clock (Traced W) :=
  {| Clock_Now := fun tw => let '(t, w) := Clock_Now tw.2 in (t, (tw.1, w)) |}.

#[export] Instance IDGenerator_traced `{IDGenerator W} : IDGenerator (Traced W) := {|
  NewWalletID ctx := unnoted (NewWalletID ctx);
  NewTransactionID ctx := unnoted (NewTransactionID ctx);
  NewLedgerEntryID ctx := unnoted (NewLedgerEntryID ctx);
  NewEventID ctx := unnoted (NewEventID ctx) |}.

#[export] Instance Rand_traced `{Rand W} : Rand (Traced W) :=
  {| Int64N := fun n tw => let '(r, w) := Int64N n tw.2 in (r, (tw.1, w)) |}.

#[export] Instance EventPublisher_traced `{EventPublisher W} : EventPublisher (Traced W) :=
  {| Publish := fun ctx r => unnoted (Publish ctx r) |}.
End traced.

(** *** The rule *)

Definition on_row (rows : list WalletID) (a : access) : bool :=
  match a with Stored id | Referenced id => bool_decide (id ∈ rows) | Locked _ _ | Created _ => false end.

(** Nothing is locked, or one row is, before anything else is done to it, and
    it is the only one. *)
Definition one_wallet (tr : list access) : bool :=
  match tr with
  | [] => true
  | Locked id read :: rest => forallb (on_row (id :: option_list read)) rest
  | Created id :: rest => forallb (on_row [id]) rest
  | _ => false
  end.

(** [m] does what [m'] does, and [P] is true of what it notes. *)
Definition notes {W A} (P : list access -> Prop) (m : M (Traced W) A) (m' : M W A) : Prop := forall tr w,
  exists r w' new, m (tr, w) = (r, (tr ++ new, w')) /\ m' w = (r, w') /\ P new.

Definition notes_callback {W C} (P : list access -> Prop) (f : Callback (Traced W) C) (g : Callback W C) : Prop :=
  forall c tr w, exists r c' w' new, f c (tr, w) = (r, c', (tr ++ new, w')) /\ g c w = (r, c', w') /\ P new.

(** *** Many transactions *)

(** A transaction that runs: the rows it holds, and what it has still to do. *)
Record txn := mkTxn { tn_held : list WalletID; tn_todo : list access }.

Definition row_of (a : access) : WalletID :=
  match a with Locked id _ | Stored id | Created id | Referenced id => id end.

(** A row is read under its own key. *)
Definition keyed (a : access) : bool :=
  match a with Locked id (Some id') => bool_decide (id = id') | _ => true end.

(** Nobody but [n] holds the row. *)
Definition free_for (n : nat) (id : WalletID) (ts : gmap nat txn) : Prop :=
  forall n' t, ts !! n' = Some t -> n' <> n -> id ∉ tn_held t.

(** A lock is kept until the transaction ends, which it may at any time. *)
Inductive transaction_locks : relation (gmap nat txn) :=
| tl_begin n tr ts : ts !! n = None -> one_wallet tr = true -> forallb keyed tr = true ->
  transaction_locks ts (<[n := mkTxn [] tr]> ts)
| tl_step n held a todo ts : ts !! n = Some (mkTxn held (a :: todo)) -> free_for n (row_of a) ts ->
  transaction_locks ts (<[n := mkTxn (row_of a :: held) todo]> ts)
| tl_end n ts : transaction_locks ts (delete n ts).

(** [n] cannot go on because of [n']. *)
Definition waits_for (ts : gmap nat txn) (n n' : nat) : Prop :=
  exists held a todo t, ts !! n = Some (mkTxn held (a :: todo)) /\ ts !! n' = Some t /\ n <> n' /\ row_of a ∈ tn_held t.

(** ** What a transaction notes *)

(** Only the rows [ids] are touched, and [P] is true of the result. *)
Definition confined {W A} (ids : list WalletID) (P : A -> Prop) (m : M (Traced W) A) (m' : M W A) : Prop := forall tr w,
  exists r w' new, m (tr, w) = (r, (tr ++ new, w')) /\ m' w = (r, w') /\ forallb (on_row ids) new = true /\
    match r with Ok a => P a | Err _ => True end.

Section confined.
Context {W : Type} (ids : list WalletID).

Lemma confined_mono {A} (P Q : A -> Prop) (m : M (Traced W) A) m' :
  confined ids P m m' -> (forall a, P a -> Q a) -> confined ids Q m m'.
Proof.
  intros Hm HPQ tr w. destruct (Hm tr w) as (r & w' & new & E & E' & Hn & HP). exists r, w', new.
  split_and!; [done..|]. destruct r; auto.
Qed.

Lemma confined_ret {A} (P : A -> Prop) a : P a -> confined (W := W) ids P (mret a) (mret a).
Proof. intros HP tr w. exists (Ok a), w, []. by rewrite app_nil_r. Qed.

Lemma confined_pure {A} (P : A -> Prop) r : (forall a, r = Ok a -> P a) -> confined (W := W) ids P (pure r) (pure r).
Proof. intros HP tr w. exists r, w, []. rewrite app_nil_r. split_and!; [done..|]. destruct r; auto. Qed.

Lemma confined_throw {A} (P : A -> Prop) e : confined (W := W) ids P (throw e) (throw e).
Proof. intros tr w. exists (Err e), w, []. by rewrite app_nil_r. Qed.

Lemma confined_catch {A B} (P : A -> Prop) (Q : B -> Prop) (m : M (Traced W) A) m' k k' h h' :
  confined ids P m m' -> (forall a, P a -> confined ids Q (k a) (k' a)) -> (forall e, confined ids Q (h e) (h' e)) ->
  confined ids Q (catch m k h) (catch m' k' h').
Proof.
  intros Hm Hk Hh tr w. destruct (Hm tr w) as (r & w1 & n1 & E & E' & Hn & HP). unfold catch. rewrite E, E'.
  assert (H : exists r2 w2 n2,
    (match r with Ok a => k a | Err e => h e end) (tr ++ n1, w1) = (r2, ((tr ++ n1) ++ n2, w2)) /\
    (match r with Ok a => k' a | Err e => h' e end) w1 = (r2, w2) /\ forallb (on_row ids) n2 = true /\
    match r2 with Ok b => Q b | Err _ => True end) by (destruct r; [by apply Hk|by apply Hh]).
  destruct H as (r2 & w2 & n2 & E2 & E2' & Hn2 & HQ). exists r2, w2, (n1 ++ n2).
  rewrite app_assoc, forallb_app, Hn, Hn2. by destruct r.
Qed.

Lemma confined_bind {A B} (P : A -> Prop) (Q : B -> Prop) (m : M (Traced W) A) m' f f' :
  confined ids P m m' -> (forall a, P a -> confined ids Q (f a) (f' a)) -> confined ids Q (m ≫= f) (m' ≫= f').
Proof. intros Hm Hf. by apply (confined_catch P Q m m' f f' throw throw); [..|intros e; apply confined_throw]. Qed.

Lemma confined_wrap {A} (P : A -> Prop) (m : M (Traced W) A) m' :
  confined ids P m m' -> confined ids P (wrap_errM m) (wrap_errM m').
Proof.
  intros Hm tr w. destruct (Hm tr w) as (r & w' & new & E & E' & Hn & HP). unfold wrap_errM. rewrite E, E'.
  exists (wrap_err r), w', new. split_and!; [done..|]. by destruct r.
Qed.

Lemma confined_unnoted {A} (m : M W A) : confined ids (fun _ => True) (unnoted m) m.
Proof.
  intros tr w. unfold unnoted. cbn [fst snd]. destruct (m w) as [r w']. exists r, w', [].
  rewrite app_nil_r. by destruct r.
Qed.

Lemma confined_noted {A} note (m : M W A) : (forall r, on_row ids (note r) = true) ->
  confined ids (fun _ => True) (noted note m) m.
Proof.
  intros Hn tr w. unfold noted. cbn [fst snd]. destruct (m w) as [r w']. exists r, w', [note r].
  cbn [forallb]. rewrite Hn. by destruct r.
Qed.

Lemma confined_now `{Clock W} : confined ids (fun _ => True) now now.
Proof. intros tr w. unfold now. cbn. destruct (Clock_Now w) as [t w']. exists (Ok t), w', []. by rewrite app_nil_r. Qed.

Lemma confined_rand `{Rand W} n : confined ids (fun _ => True) (rand_Int64N n) (rand_Int64N n).
Proof.
  intros tr w. unfold rand_Int64N. cbn. destruct (Int64N n w) as [r w']. exists (Ok r), w', [].
  by rewrite app_nil_r.
Qed.
End confined.

Lemma row_in ids id (note : access) : id ∈ ids -> note = Stored id \/ note = Referenced id -> on_row ids note = true.
Proof. intros Hin [-> | ->]; by apply bool_decide_eq_true_2. Qed.

Create HintDb confined discriminated.
#[export] Hint Resolve confined_now confined_rand confined_throw : confined.

(** One statement, or a computation that is known. *)
Ltac confined_leaf :=
  first
    [ solve [eauto 3 with confined]
    | exact (confined_unnoted _ _)
    | refine (confined_noted _ _ _ _); intros ?; eapply row_in; [|by eauto]; solve [auto] ].

(** Walks through a computation and its traced copy. *)
Ltac confine1 :=
  match goal with
  | |- confined _ _ (mret _) _ => apply confined_ret; try done
  | |- confined _ _ (throw _) _ => apply confined_throw
  | |- confined _ _ (pure _) _ => apply confined_pure; try done
  | |- confined _ _ (pure ?r ≫= _) _ => apply (confined_bind _ (fun a => r = Ok a)); [by apply confined_pure|intros ? ?]
  | |- confined _ _ (_ ≫= _) _ => eapply confined_bind; [confined_leaf|intros ? ?]
  | |- confined _ _ (catch _ _ _) _ => eapply confined_catch; [confined_leaf|intros ? ?|intros ?]
  | |- confined _ _ (if ?b then _ else _) _ => destruct b eqn:?
  | |- confined _ _ (match ?x with _ => _ end) _ => destruct x eqn:?
  | |- confined _ _ (wrap_errM _) _ => apply confined_wrap
  | |- confined _ _ _ _ => confined_leaf
  end.
Ltac confine := repeat (cbv zeta; confine1).

(** *** The wallet of what is built *)

(** Takes a chain of guards apart until the value is in sight. *)
Ltac take_apart H :=
  repeat first
    [ apply result_bind_Ok in H as (? & ? & H)
    | match type of H with (if ?b then _ else _) = _ => destruct b; [try done|] end
    | match type of H with (if ?b then _ else _) = _ => destruct b; [|try done] end ];
  try (injection H as <-); try done.

Lemma NewLedgerEntry_names p e : NewLedgerEntry p = Ok e -> le_walletID e = lp_WalletID p.
Proof. unfold NewLedgerEntry. cbv zeta. intros H. take_apart H. Qed.

Lemma Wallet_move_wallet w d eid tid a at_ mv : Wallet_move w d eid tid a at_ = Ok mv ->
  w_id (mv_Wallet mv) = w_id w /\ le_walletID (mv_Entry mv) = w_id w.
Proof.
  unfold Wallet_move. intros H. do 4 (case_match; [done|]).
  apply result_bind_Ok in H as (after & _ & H). case_match; [done|].
  apply result_bind_Ok in H as (entry & He & H). injection H as <-. split; [done|]. by apply NewLedgerEntry_names in He.
Qed.

Lemma wallet_movement_wallet wallet t tid eid at_ mv : wallet_movement wallet t tid eid at_ = Ok mv ->
  w_id (mv_Wallet mv) = w_id wallet /\ le_walletID (mv_Entry mv) = w_id wallet.
Proof. unfold wallet_movement. intros H. do 2 (case_match; [by apply Wallet_move_wallet in H|]). done. Qed.

Lemma reversal_movement_wallet wallet t d eid at_ mv : reversal_movement wallet t d eid at_ = Ok mv ->
  w_id (mv_Wallet mv) = w_id wallet /\ le_walletID (mv_Entry mv) = w_id wallet.
Proof.
  unfold reversal_movement. intros H. case_match; [by apply Wallet_move_wallet in H|].
  destruct (Wallet_Debit _ _ _ _ _) as [mv'|e] eqn:E; [|by case_match]. injection H as <-. by apply Wallet_move_wallet in E.
Qed.

Lemma transition_wallet t to at_ f t' : (forall t, t_walletID (f t) = t_walletID t) ->
  transition t to at_ f = Ok t' -> t_walletID t' = t_walletID t.
Proof. unfold transition. intros Hf H. do 3 (case_match; [done|]). injection H as <-. by rewrite Hf. Qed.

Lemma MarkProcessed_wallet t b at_ t' : MarkProcessed t b at_ = Ok t' -> t_walletID t' = t_walletID t.
Proof. unfold MarkProcessed. intros H. do 2 (case_match; [done|]). by apply transition_wallet in H. Qed.

Lemma Tx_Reject_wallet t code at_ t' : Tx_Reject t code at_ = Ok t' -> t_walletID t' = t_walletID t.
Proof. unfold Tx_Reject. intros H. case_match; [done|]. by apply transition_wallet in H. Qed.

Lemma MarkPendingReference_wallet t at_ next deadline t' :
  MarkPendingReference t at_ next deadline = Ok t' -> t_walletID t' = t_walletID t.
Proof. unfold MarkPendingReference. intros H. do 2 (case_match; [done|]). by apply transition_wallet in H. Qed.

Lemma ResolveReference_wallet t id at_ t' : ResolveReference t id at_ = Ok t' -> t_walletID t' = t_walletID t.
Proof. unfold ResolveReference. intros H. take_apart H. Qed.

Lemma NewExternalTransaction_wallet p t : NewExternalTransaction p = Ok t -> t_walletID t = et_WalletID p.
Proof. unfold NewExternalTransaction. cbv zeta. intros H. take_apart H. Qed.

Lemma NewOpeningTransaction_wallet p t : NewOpeningTransaction p = Ok t -> t_walletID t = ot_WalletID p.
Proof. unfold NewOpeningTransaction. cbv zeta. intros H. take_apart H. Qed.

Lemma OpenWallet_wallet p opening : OpenWallet p = Ok opening ->
  w_id (op_Wallet opening) = ow_ID p /\ Forall (fun e => le_walletID e = ow_ID p) (op_Entries opening).
Proof.
  unfold OpenWallet. intros H. do 5 (case_match; [done|]). apply result_bind_Ok in H as (zero & _ & H).
  case_match; [by injection H as <-|]. apply result_bind_Ok in H as (entry & He & H). injection H as <-.
  split; [done|]. constructor; [|constructor]. by apply NewLedgerEntry_names in He.
Qed.

(** *** The use cases *)

Section use_cases.
Context {W : Type} `{Clock W} `{IDGenerator W} `{Rand W} (ids : list WalletID).
Implicit Types repos : Repositories W.

Lemma confined_record_each ctx repos correlationID at_ events :
  confined ids (fun _ => True) (record_each ctx (traced repos) correlationID at_ events)
    (record_each ctx repos correlationID at_ events).
Proof using Type. induction events as [|event events IH]; cbn [record_each]; confine. Qed.

Lemma confined_emit ctx repos t wallet entry moved :
  confined ids (fun _ => True) (emit ctx (traced repos) t wallet entry moved) (emit ctx repos t wallet entry moved).
Proof using Type. pose proof confined_record_each. unfold emit, record. confine. Qed.

Lemma confined_nextAttemptAt base cap at_ attempt :
  confined (W := W) ids (fun _ => True) (nextAttemptAt base cap at_ attempt) (nextAttemptAt base cap at_ attempt).
Proof using Type. unfold nextAttemptAt. confine. Qed.

Lemma confined_resolveReference repos reversal :
  confined ids (fun _ => True) (resolveReference (traced repos) reversal) (resolveReference repos reversal).
Proof using Type. unfold resolveReference. confine. Qed.

Lemma confined_NewLedgerEntryID ctx :
  confined (W := W) ids (fun _ => True) (NewLedgerEntryID ctx) (NewLedgerEntryID ctx).
Proof using Type. apply confined_unnoted. Qed.
#[local] Hint Resolve confined_emit confined_nextAttemptAt confined_resolveReference confined_NewLedgerEntryID : confined.

(** What follows touches the wallet that was read and the one that was asked
    for. *)
Lemma confined_writeReversal repos applied movement version :
  t_walletID applied ∈ ids -> w_id (mv_Wallet movement) ∈ ids -> le_walletID (mv_Entry movement) ∈ ids ->
  confined ids (fun _ => True) (writeReversal (traced repos) applied movement version) (writeReversal repos applied movement version).
Proof using Type.
  intros Ht Hw He. unfold writeReversal. destruct (0 <? t_referenceAttempts applied); confine.
Qed.

Lemma confined_applyReversal ctx repos reversal decision wallet at_ :
  t_walletID reversal ∈ ids -> w_id wallet ∈ ids ->
  confined ids (fun _ => True) (applyReversal ctx (traced repos) reversal decision wallet at_)
    (applyReversal ctx repos reversal decision wallet at_).
Proof using Type.
  intros Ht Hw. unfold applyReversal. confine1. do 3 confine1.
  match goal with H : reversal_movement _ _ _ _ _ = _ |- _ => apply reversal_movement_wallet in H as [Hm He] end.
  match goal with H : MarkProcessed _ _ _ = _ |- _ => apply MarkProcessed_wallet in H end.
  match goal with H : ResolveReference _ _ _ = _ |- _ => apply ResolveReference_wallet in H end.
  eapply confined_bind; [apply confined_writeReversal; congruence|]. intros ? ?. confine.
Qed.

Lemma confined_insert_and_emit ctx repos t wallet : t_walletID t ∈ ids ->
  confined ids (fun _ => True) (insert_and_emit ctx (traced repos) t wallet) (insert_and_emit ctx repos t wallet).
Proof using Type. intros Ht. unfold insert_and_emit. confine. Qed.

Lemma confined_recordReversalRejection ctx repos reversal code wallet at_ : t_walletID reversal ∈ ids ->
  confined ids (fun _ => True) (recordReversalRejection ctx (traced repos) reversal code wallet at_)
    (recordReversalRejection ctx repos reversal code wallet at_).
Proof using Type.
  intros Ht. unfold recordReversalRejection. confine1. apply confined_insert_and_emit.
  match goal with H : Tx_Reject _ _ _ = _ |- _ => by rewrite (Tx_Reject_wallet _ _ _ _ H) end.
Qed.

Lemma confined_Submit_resolve waiting ctx repos reversal wallet at_ : t_walletID reversal ∈ ids -> w_id wallet ∈ ids ->
  confined ids (fun _ => True) (Submit_resolve waiting ctx (traced repos) reversal wallet at_)
    (Submit_resolve waiting ctx repos reversal wallet at_).
Proof using Type.
  intros Ht Hw. unfold Submit_resolve. do 2 confine1.
  - do 2 confine1. apply confined_insert_and_emit.
    match goal with H : MarkPendingReference _ _ _ _ = _ |- _ => by rewrite (MarkPendingReference_wallet _ _ _ _ _ H) end.
  - eapply confined_catch; [by apply confined_applyReversal|intros [applied movement] _; confine|intros e].
    destruct (As_domain e); [by apply confined_recordReversalRejection|apply confined_throw].
  - by apply confined_recordReversalRejection.
Qed.

Lemma confined_apply_movement ctx repos t tid wallet at_ : t_walletID t ∈ ids -> w_id wallet ∈ ids ->
  confined ids (fun _ => True) (apply_movement ctx (traced repos) t tid wallet at_)
    (apply_movement ctx repos t tid wallet at_).
Proof using Type.
  intros Ht Hw. unfold apply_movement.
  apply (confined_catch _ (fun mv : Movement * bool => mv.2 = true ->
    w_id (mv_Wallet mv.1) = w_id wallet /\ le_walletID (mv_Entry mv.1) = w_id wallet)).
  - unfold Submit_movement. destruct (negb _); [by apply confined_ret|].
    eapply confined_bind; [apply confined_wrap, confined_NewLedgerEntryID|]. intros eid _. confine1.
    apply confined_ret. intros _. by eapply wallet_movement_wallet.
  - intros [movement moved] Hm. cbn [fst snd] in Hm. confine1.
    match goal with H : MarkProcessed _ _ _ = _ |- _ => apply MarkProcessed_wallet in H end.
    destruct moved; cbn [negb]; [|apply confined_insert_and_emit; congruence].
    destruct (Hm eq_refl) as [Hw' He]. rewrite <- Hw' in He.
    assert (w_id (mv_Wallet movement) ∈ ids) by congruence.
    assert (le_walletID (mv_Entry movement) ∈ ids) by congruence. assert (t_walletID a ∈ ids) by congruence. confine.
  - intros e. unfold Submit_reject. destruct (As_domain e); confine1; [|done]. apply confined_insert_and_emit.
    match goal with H : Tx_Reject _ _ _ = _ |- _ => by rewrite (Tx_Reject_wallet _ _ _ _ H) end.
Qed.
End use_cases.
#[export] Hint Resolve confined_emit confined_nextAttemptAt confined_resolveReference confined_NewLedgerEntryID : confined.
#[export] Hint Resolve confined_applyReversal confined_insert_and_emit confined_Submit_resolve confined_apply_movement : confined.

(** *** The units of work *)

Abbreviation ruled := (fun tr => one_wallet tr = true) (only parsing).

Lemma on_no_row tr : forallb (on_row []) tr = true -> tr = [].
Proof.
  destruct tr as [|a tr]; [done|]. cbn. intros [Ha _]%andb_prop.
  destruct a; try done; apply bool_decide_eq_true in Ha; by apply not_elem_of_nil in Ha.
Qed.

Section units.
Context {W : Type}.

Lemma notes_confined {A} (P : A -> Prop) (m : M (Traced W) A) m' : confined [] P m m' -> notes ruled m m'.
Proof.
  intros Hm tr w. destruct (Hm tr w) as (r & w' & new & E & E' & Hn & _). exists r, w', new.
  by rewrite (on_no_row new Hn) in *.
Qed.

Lemma notes_catch {A B} (P : A -> Prop) (m : M (Traced W) A) m' (k : A -> M (Traced W) B) k' h h' :
  confined [] P m m' -> (forall a, P a -> notes ruled (k a) (k' a)) -> (forall e, notes ruled (h e) (h' e)) ->
  notes ruled (catch m k h) (catch m' k' h').
Proof.
  intros Hm Hk Hh tr w. destruct (Hm tr w) as (r & w1 & n1 & E & E' & Hn & HP).
  rewrite (on_no_row n1 Hn), app_nil_r in E. unfold catch. rewrite E, E'. destruct r; [by apply Hk|by apply Hh].
Qed.

Lemma notes_throw {A} e : notes (A := A) (W := W) ruled (throw e) (throw e).
Proof. apply (notes_confined (fun _ => True)), confined_throw. Qed.

Lemma notes_bind {A B} (P : A -> Prop) (m : M (Traced W) A) m' (f : A -> M (Traced W) B) f' :
  confined [] P m m' -> (forall a, P a -> notes ruled (f a) (f' a)) -> notes ruled (m ≫= f) (m' ≫= f').
Proof. intros Hm Hf. by apply (notes_catch P m m' f f' throw throw); [..|intros e; apply notes_throw]. Qed.

(** The first statement on a wallet: what follows stays on its row. *)
Lemma notes_lock {A} repos id (k : Wallet -> M (Traced W) A) k' (Q : A -> Prop) :
  (forall wallet, confined [id; w_id wallet] Q (k wallet) (k' wallet)) ->
  notes ruled (w_FindByIDForUpdate (r_Wallets (traced repos)) id ≫= k) (w_FindByIDForUpdate (r_Wallets repos) id ≫= k').
Proof.
  intros Hk tr w. unfold mbind, M_bind. cbn [w_FindByIDForUpdate r_Wallets traced]. unfold noted. cbn [fst snd].
  destruct (w_FindByIDForUpdate (r_Wallets repos) id w) as [[wallet|e] w1]; unfold locked_note.
  - destruct (Hk wallet (tr ++ [Locked id (Some (w_id wallet))]) w1) as (r & w2 & new & E & E' & Hn & _).
    exists r, w2, (Locked id (Some (w_id wallet)) :: new). rewrite E, <- app_assoc. by split_and!.
  - by exists (Err e), w1, [Locked id None].
Qed.

Lemma notes_create {A} repos wallet (k : unit -> M (Traced W) A) k' (Q : A -> Prop) :
  (forall u, confined [w_id wallet] Q (k u) (k' u)) ->
  notes ruled (w_Insert (r_Wallets (traced repos)) wallet ≫= k) (w_Insert (r_Wallets repos) wallet ≫= k').
Proof.
  intros Hk tr w. unfold mbind, M_bind. cbn [w_Insert r_Wallets traced]. unfold noted. cbn [fst snd].
  destruct (w_Insert (r_Wallets repos) wallet w) as [[u|e] w1].
  - destruct (Hk u (tr ++ [Created (w_id wallet)]) w1) as (r & w2 & new & E & E' & Hn & _).
    exists r, w2, (Created (w_id wallet) :: new). rewrite E, <- app_assoc. by split_and!.
  - by exists (Err e), w1, [Created (w_id wallet)].
Qed.

Context `{Clock W} `{IDGenerator W} `{Rand W}.
Implicit Types repos : Repositories W.

Lemma notes_Submit_apply waiting ctx repos p :
  notes ruled (Submit_apply waiting ctx (traced repos) p) (Submit_apply waiting ctx repos p).
Proof using Type.
  unfold Submit_apply. eapply notes_bind; [apply confined_wrap, confined_unnoted|intros tid _].
  eapply notes_bind; [apply confined_now|intros at_ _].
  eapply (notes_bind (fun t => t_walletID t = ps_walletID p));
    [apply confined_pure; intros t Ht; by apply NewExternalTransaction_wallet in Ht|intros t Ht].
  eapply notes_lock. intros wallet.
  assert (t_walletID t ∈ [ps_walletID p; w_id wallet]) by (rewrite Ht; left).
  assert (w_id wallet ∈ [ps_walletID p; w_id wallet]) by (right; left). confine.
Qed.

Lemma notes_ExecuteIn waiting ctx repos cmd :
  notes ruled (ExecuteIn waiting ctx (traced repos) cmd) (ExecuteIn waiting ctx repos cmd).
Proof using Type.
  unfold ExecuteIn. do 3 (eapply (notes_bind (fun _ => True)); [by apply confined_pure|intros ? _]).
  eapply notes_catch; [exact (confined_unnoted _ _)|..].
  - intros existing _. apply (notes_confined (fun _ => True)). by apply confined_pure.
  - intros e. destruct (negb _); [apply notes_throw|apply notes_Submit_apply].
Qed.

Lemma confined_Worker_reject ids ctx repos pending code at_ :
  confined ids (fun _ => True) (Worker_reject ctx (traced repos) pending code at_) (Worker_reject ctx repos pending code at_).
Proof using Type. unfold Worker_reject. confine. Qed.

Lemma confined_Worker_wait ids policy ctx repos pending at_ :
  confined ids (fun _ => True) (Worker_wait policy ctx (traced repos) pending at_) (Worker_wait policy ctx repos pending at_).
Proof using Type. unfold Worker_wait. pose proof confined_Worker_reject. confine. Qed.

Lemma notes_Worker_resolve policy ctx repos pending at_ :
  notes ruled (Worker_resolve policy ctx (traced repos) pending at_) (Worker_resolve policy ctx repos pending at_).
Proof using Type.
  unfold Worker_resolve. eapply (notes_lock _ _ _ _ (fun _ => True)). intros wallet. set (ids := [_; _]).
  assert (t_walletID pending ∈ ids) by left. assert (w_id wallet ∈ ids) by (right; left).
  pose proof confined_Worker_reject. pose proof confined_Worker_wait. confine.
Qed.

Lemma notes_handleOne policy ctx repos :
  notes_callback ruled (handleOne_callback policy ctx (traced repos)) (handleOne_callback policy ctx repos).
Proof using Type.
  intros worked tr w. unfold handleOne_callback.
  assert (Hc : confined [] (fun _ => True) (Worker_claim (traced repos)) (Worker_claim repos))
    by (unfold Worker_claim; confine).
  destruct (Hc tr w) as (r & w1 & new & -> & -> & Hn & _). rewrite (on_no_row new Hn), app_nil_r.
  destruct r as [[at_ [|pending rest]]|e]; [by eexists _, _, _, []; rewrite app_nil_r| |by eexists _, _, _, []; rewrite app_nil_r].
  destruct (notes_Worker_resolve policy ctx repos pending at_ tr w1) as (r & w2 & n & -> & -> & Hr).
  by exists r, true, w2, n.
Qed.

Lemma notes_apply_callback cfg waiting envelope cmd hash ctx repos :
  notes_callback ruled (apply_callback cfg waiting envelope cmd hash ctx (traced repos))
    (apply_callback cfg waiting envelope cmd hash ctx repos).
Proof using Type.
  intros c tr w. unfold apply_callback.
  assert (Hnow : confined (W := W) [] (fun _ => True) (now_ ← now; mret now_) (now_ ← now; mret now_)) by confine.
  destruct (Hnow tr w) as (r & w1 & new & -> & -> & Hn & _). rewrite (on_no_row new Hn), app_nil_r. clear new Hn.
  destruct r as [at_|e]; [|by exists (Err e), c, w1, []; rewrite app_nil_r].
  cbn [in_Claim r_Inbox traced]. unfold unnoted at 1. cbn [fst snd].
  destruct (in_Claim (r_Inbox repos) _ w1) as [[[]|e] w2].
  - unfold consume_new. destruct (notes_ExecuteIn waiting ctx repos cmd tr w2) as (r & w3 & n & -> & -> & Hr).
    assert (Hc : forall res, exists r' c' w', complete cfg envelope at_ (traced repos) res (tr ++ n, w3) = (r', c', (tr ++ n, w')) /\
      complete cfg envelope at_ repos res w3 = (r', c', w')).
    { intros res. unfold complete. cbn [in_Complete r_Inbox traced]. unfold unnoted. cbn [fst snd].
      destruct (in_Complete _ _ _ _ w3) as [r' w']. by eexists _, _, _. }
    destruct r as [applied|e].
    + destruct (Hc applied) as (r' & c' & w' & -> & ->). by exists r', c', w', n.
    + destruct (As_domain e); [|by exists (Err e), c, w3, n]. destruct (Hc c.1) as (r' & c' & w' & -> & ->).
      by exists r', c', w', n.
  - destruct (is_sentinel e ErrConflict); [|by exists (Err e), c, w2, []; rewrite app_nil_r].
    assert (Hs : confined [] (fun _ => True) (alreadySeen cfg (traced repos) envelope hash) (alreadySeen cfg repos envelope hash))
      by (unfold alreadySeen; confine).
    destruct (Hs tr w2) as (r & w3 & n & -> & -> & Hn & _). rewrite (on_no_row n Hn), app_nil_r.
    exists r, c, w3, []. by rewrite app_nil_r.
Qed.

Lemma confined_append_each ids repos entries : Forall (fun e => le_walletID e ∈ ids) entries ->
  confined ids (fun _ => True) (append_each (traced repos) entries) (append_each repos entries).
Proof using Type. induction 1 as [|entry entries He _ IH]; cbn [append_each]; confine. Qed.

Lemma notes_Open_write ctx repos opening openingTx :
  Forall (fun e => le_walletID e = w_id (op_Wallet opening)) (op_Entries opening) ->
  (Tx_IsInitialised openingTx = true -> t_walletID openingTx = w_id (op_Wallet opening)) ->
  notes ruled (Open_write ctx (traced repos) opening openingTx) (Open_write ctx repos opening openingTx).
Proof using Type.
  intros He Ht. unfold Open_write. apply (notes_create _ _ _ _ (fun _ => True)). intros u.
  set (ids := [w_id (op_Wallet opening)]). apply (confined_bind _ (fun _ => True)).
  { destruct (Tx_IsInitialised openingTx); [|by apply confined_ret].
    assert (t_walletID openingTx ∈ ids) by (rewrite Ht by done; left). confine. }
  intros _ _. assert (Forall (fun e => le_walletID e ∈ ids) (op_Entries opening)).
  { eapply Forall_impl; [exact He|]. intros e ->. left. }
  pose proof confined_append_each. confine.
Qed.

Lemma bind_done {A B} (m : M W A) (f : A -> M W B) w b w' : (m ≫= f) w = (Ok b, w') ->
  exists a w1, m w = (Ok a, w1) /\ f a w1 = (Ok b, w').
Proof using Type. unfold mbind, M_bind. destruct (m w) as [[a|e] w1]; [|done]. by exists a, w1. Qed.

(** What is prepared is about one wallet. *)
Lemma Open_prepare_wallet ctx player initial opening openingTx w w' :
  Open_prepare ctx player initial w = (Ok (opening, openingTx), w') ->
  Forall (fun e => le_walletID e = w_id (op_Wallet opening)) (op_Entries opening) /\
  (Tx_IsInitialised openingTx = true -> t_walletID openingTx = w_id (op_Wallet opening)).
Proof using Type.
  unfold Open_prepare. intros Hp.
  apply bind_done in Hp as (wid & w1 & _ & Hp). apply bind_done in Hp as (at_ & w2 & _ & Hp).
  apply bind_done in Hp as ([tid eid] & w3 & _ & Hp). apply bind_done in Hp as (o & w4 & Ho & Hp).
  apply bind_done in Hp as (tx & w5 & Htx & Hp). injection Hp as -> -> _. injection Ho as Ho _.
  apply OpenWallet_wallet in Ho as [Hw He]. cbn [ow_ID] in Hw, He. rewrite Hw. split; [done|].
  intros Hi. destruct (Money_IsPositive initial); [|by injection Htx as <- _].
  injection Htx as Htx _. by apply NewOpeningTransaction_wallet in Htx.
Qed.
End units.

Section publisher.
Context {W : Type} `{Clock W} `{Rand W} `{EventPublisher W} (Error : error -> string) (policy : PublisherPolicy).

Lemma confined_publishOne ctx repos record at_ :
  confined [] (fun _ => True) (publishOne Error policy ctx (traced repos) record at_)
    (publishOne Error policy ctx repos record at_).
Proof using Type.
  unfold publishOne. apply (confined_catch _ (fun _ => True)); [exact (confined_unnoted _ _)|intros; confine|].
  intros err. unfold Publisher_nextAttemptAt. confine.
Qed.

Lemma notes_publish_each ctx repos due at_ :
  notes_callback (fun tr => tr = []) (publish_each Error policy ctx (traced repos) due at_)
    (publish_each Error policy ctx repos due at_).
Proof using Type.
  induction due as [|record due IH]; intros published tr w; cbn [publish_each].
  - exists (Ok ()), published, w, []. by rewrite app_nil_r.
  - destruct (confined_publishOne ctx repos record at_ tr w) as (r & w1 & n & -> & -> & Hn & _).
    rewrite (on_no_row n Hn), app_nil_r. destruct r; [apply IH|].
    exists (Err e), published, w1, []. by rewrite app_nil_r.
Qed.

Lemma notes_RunOnce ctx repos :
  notes_callback (fun tr => tr = []) (RunOnce_callback Error policy ctx (traced repos))
    (RunOnce_callback Error policy ctx repos).
Proof using Type.
  intros published tr w. unfold RunOnce_callback.
  assert (Hc : confined [] (fun _ => True) (Publisher_claim policy (traced repos)) (Publisher_claim policy repos))
    by (unfold Publisher_claim; confine).
  destruct (Hc tr w) as (r & w1 & n & -> & -> & Hn & _). rewrite (on_no_row n Hn), app_nil_r.
  destruct r as [[at_ due]|e]; [apply notes_publish_each|]. exists (Err e), published, w1, []. by rewrite app_nil_r.
Qed.
End publisher.

Lemma notes_assign {W A} (zero : A) (m : M (Traced W) A) m' : notes ruled m m' ->
  notes_callback ruled (assign zero m) (assign zero m').
Proof.
  intros Hm c tr w. destruct (Hm tr w) as (r & w' & n & E & E' & Hr). unfold assign. rewrite E, E'.
  destruct r as [a|e]; [by exists (Ok ()), a, w', n|by exists (Err e), zero, w', n].
Qed.

Lemma notes_no_capture {W} (m : M (Traced W) unit) m' : notes ruled m m' ->
  notes_callback ruled (no_capture m) (no_capture m').
Proof.
  intros Hm c tr w. destruct (Hm tr w) as (r & w' & n & E & E' & Hr). unfold no_capture. rewrite E, E'.
  by exists r, (), w', n.
Qed.

(** ** Transactions beside each other *)

(** A transaction that holds a row needs no other one. *)
Definition on_its_row (t : txn) : Prop :=
  (tn_held t = [] /\ one_wallet (tn_todo t) = true /\ forallb keyed (tn_todo t) = true) \/
  exists id, id ∈ tn_held t /\ Forall (eq id) (tn_held t) /\ Forall (fun a => row_of a = id) (tn_todo t).

Record locks_ok (ts : gmap nat txn) : Prop := {
  lk_rows : forall n t, ts !! n = Some t -> on_its_row t;
  lk_one : forall n n' t t' id, ts !! n = Some t -> ts !! n' = Some t' -> id ∈ tn_held t -> id ∈ tn_held t' -> n = n'
}.

Lemma on_row_row ids a : on_row ids a = true -> row_of a ∈ ids.
Proof. destruct a; try done; intros H; by apply bool_decide_eq_true in H. Qed.

Lemma rest_on_row a rest : one_wallet (a :: rest) = true -> keyed a = true ->
  Forall (fun b => row_of b = row_of a) rest.
Proof.
  intros Ho Hk. apply Forall_forall. intros b Hb.
  assert (Hrow : forall ids, forallb (on_row ids) rest = true -> row_of b ∈ ids).
  { intros ids H. apply on_row_row. rewrite forallb_forall in H. by apply H, list_elem_of_In. }
  destruct a as [id [read|]|id|id|id]; cbn in *; try done.
  - apply bool_decide_eq_true in Hk. subst read. apply Hrow in Ho. set_solver.
  - by apply Hrow, list_elem_of_singleton in Ho.
  - by apply Hrow, list_elem_of_singleton in Ho.
Qed.

Lemma on_its_row_step held a todo : on_its_row (mkTxn held (a :: todo)) -> on_its_row (mkTxn (row_of a :: held) todo).
Proof.
  intros [(Hh & Ho & Hk)|(id & Hin & Hh & Ht)]; right; cbn in *.
  - subst held. apply andb_prop in Hk as [Hk _]. exists (row_of a).
    split_and!; [left|by constructor|by apply rest_on_row].
  - apply Forall_cons in Ht as [Ha Ht]. exists id. rewrite Ha.
    split_and!; [left|by constructor|done].
Qed.

Lemma transaction_locks_ok ts ts' : locks_ok ts -> transaction_locks ts ts' -> locks_ok ts'.
Proof.
  intros [Hr Ho]. destruct 1 as [n tr ts Hn Hone Hk|n held a todo ts Hn Hfree|n ts].
  - split.
    + intros m t [[<- <-]|[_ Hm]]%lookup_insert_Some; [by left|by apply (Hr m)].
    + intros m m' t t' id [[<- <-]|[_ Hm]]%lookup_insert_Some [[<- <-]|[_ Hm']]%lookup_insert_Some H1 H2;
        [done|by apply not_elem_of_nil in H1|by apply not_elem_of_nil in H2|by apply (Ho m m' t t' id)].
  - split.
    + intros m t [[<- <-]|[_ Hm]]%lookup_insert_Some; [by apply on_its_row_step, (Hr n)|by apply (Hr m)].
    + assert (Hother : forall m t id, n <> m -> ts !! m = Some t -> id ∈ tn_held t -> id ∈ row_of a :: held -> False).
      { intros m t id Hne Hm Hid [->|Hin]%elem_of_cons; [by apply (Hfree m t Hm)|].
        apply Hne. by apply (Ho n m _ t id Hn Hm). }
      intros m m' t t' id [[<- <-]|[Hne Hm]]%lookup_insert_Some [[<- <-]|[Hne' Hm']]%lookup_insert_Some H1 H2;
        [done|by destruct (Hother m' t' id)|by destruct (Hother m t id)|by apply (Ho m m' t t' id)].
  - split.
    + intros m t [_ Hm]%lookup_delete_Some. by apply (Hr m).
    + intros m m' t t' id [_ Hm]%lookup_delete_Some [_ Hm']%lookup_delete_Some. by apply (Ho m m' t t' id).
Qed.

Lemma locks_reachable_ok ts ts' : locks_ok ts -> rtc transaction_locks ts ts' -> locks_ok ts'.
Proof. intros Hok Hrun. induction Hrun as [|ts t ts' Hstep _ IH]; [done|]. apply IH. by eapply transaction_locks_ok. Qed.

Lemma no_locks : locks_ok ∅.
Proof. split; [by intros n t ?%lookup_empty_Some|by intros n n' t t' id ?%lookup_empty_Some]. Qed.

(** ** Properties *)

(** C14: the locks of wallets cannot deadlock.  Whatever a unit of work of the
    program is given, and however its statements fail, it touches the row of
    one wallet, which it locks or creates before anything else; the publisher
    touches none.  And when any number of such transactions run beside each
    other, a row is held by one of them, one that waits for a row holds none,
    so that nobody waits for it. *)
Theorem wallet_locks_never_deadlock {W} `{Clock W} `{IDGenerator W} `{Rand W} `{EventPublisher W}
    (repos : Repositories W) ctx waiting consumer publisher Error :
  (forall cmd, notes_callback ruled (assign noSubmitResult (ExecuteIn waiting ctx (traced repos) cmd))
     (assign noSubmitResult (ExecuteIn waiting ctx repos cmd))) /\
  (forall envelope cmd hash, notes_callback ruled (apply_callback consumer waiting envelope cmd hash ctx (traced repos))
     (apply_callback consumer waiting envelope cmd hash ctx repos)) /\
  (forall player initial w opening openingTx w',
     Open_prepare ctx player initial w = (Ok (opening, openingTx), w') ->
     notes_callback ruled (no_capture (Open_write ctx (traced repos) opening openingTx))
       (no_capture (Open_write ctx repos opening openingTx))) /\
  notes_callback ruled (handleOne_callback waiting ctx (traced repos)) (handleOne_callback waiting ctx repos) /\
  notes_callback (fun tr => tr = []) (RunOnce_callback Error publisher ctx (traced repos))
    (RunOnce_callback Error publisher ctx repos) /\
  (forall ts, rtc transaction_locks ∅ ts ->
     (forall n n' t t' id, ts !! n = Some t -> ts !! n' = Some t' -> id ∈ tn_held t -> id ∈ tn_held t' -> n = n') /\
     (forall n n', waits_for ts n n' ->
        (forall t, ts !! n = Some t -> tn_held t = []) /\ forall n'', ~ waits_for ts n'' n)).
Proof.
  split_and!.
  - intros cmd. apply notes_assign, notes_ExecuteIn.
  - intros envelope cmd hash. apply notes_apply_callback.
  - intros player initial w opening openingTx w' Hp. apply Open_prepare_wallet in Hp as [He Ht].
    by apply notes_no_capture, notes_Open_write.
  - apply notes_handleOne.
  - apply notes_RunOnce.
  - intros ts Hrun. pose proof (locks_reachable_ok _ _ no_locks Hrun) as [Hr Ho]. split; [exact Ho|].
    intros n n' (held & a & todo & t' & Hn & Hn' & Hne & Hin).
    assert (Hheld : held = []).
    { destruct (Hr n _ Hn) as [[Hh _]|(id & Hid & _ & Ht)]; [done|]. cbn in *. apply Forall_cons in Ht as [Ha _].
      rewrite Ha in Hin. by destruct (Hne (Ho n n' _ t' id Hn Hn' Hid Hin)). }
    subst held. split; [intros t Ht; rewrite Hn in Ht; by injection Ht as <-|].
    intros n'' (held & b & todo' & t & _ & Ht & _ & Hb). rewrite Hn in Ht. injection Ht as <-.
    by apply not_elem_of_nil in Hb.
Qed.
