(* ===== verification/Loops.v ===== *)
(** * Loops: the [Run] methods of the worker, the publisher and the consumer

    The loops the process keeps running until it is stopped.  A loop waits in
    a [select] between the end of its context and a ticker or a timer; which
    of the two comes is an operation of the world ([Waiting]).  A loop has no
    bound in the program: it is run for a number of turns, and the answer says
    whether it has returned by then. *)

From S2P Require Import Prelude Errors GoTime Money Identifier Ledger Wallet Transaction.
From S2P Require Import Identity Ports Policy Submit Worker Publisher Consumer.

#[local] Open Scope string_scope.
#[local] Open Scope list_scope.
#[local] Open Scope Z_scope.

(** ** Waiting *)

(** [select] on [ctx.Done()] and a ticker of some interval, or a timer: is it
    time, or has the context ended? *)
Class Waiting (W : Type) := {
  ticker_first : Context -> Duration -> W -> bool * W;
  timer_first : Context -> Duration -> W -> bool * W
}.

(** ** The loops *)

Section loops.
Context {W : Type} `{Waiting W}.

(** [for { select { case <-ctx.Done(): return; case <-ticker.C: ... } }].  An
    error of a pass is logged and nothing else. *)
Fixpoint ticking (turns : nat) (ctx : Context) (interval : Duration) (pass : W -> W) (w : W) : bool * W :=
  match turns with
  | O => (false, w)
  | S turns =>
    match ticker_first ctx interval w with
    | (false, w) => (true, w)
    | (true, w) => ticking turns ctx interval pass (pass w)
    end
  end.

Context `{Clock W} `{IDGenerator W} `{Rand W} `{Cancellation W}.

Definition ReferenceWorker_Run (uow : UnitOfWork W) (policy : ReferencePolicy) (turns : nat) (ctx : Context)
    (w : W) : bool * W :=
  ticking turns ctx (rp_Interval policy) (fun w => (Worker_RunOnce uow policy ctx w).2) w.

Definition Publisher_Run `{EventPublisher W} (Error : error -> string) (policy : PublisherPolicy)
    (uow : UnitOfWork W) (turns : nat) (ctx : Context) (w : W) : bool * W :=
  ticking turns ctx (pp_Interval policy) (fun w => (Publisher_RunOnce Error policy uow ctx w).2) w.

(** [sleep] of [consumer.go]. *)
Definition sleep (ctx : Context) (d : Duration) (w : W) : bool * W := timer_first ctx d w.

(** [is_canceled e] is [errors.Is(e, context.Canceled)]. *)
Fixpoint Consumer_Run `{Queue W} (is_canceled : error -> bool) (cfg : ConsumerConfig) (waiting : ReferencePolicy)
    (uow : UnitOfWork W) (turns : nat) (ctx : Context) (w : W) : bool * W :=
  match turns with
  | O => (false, w)
  | S turns =>
    match ctx_Err ctx w with
    | (Err _, w) => (true, w)
    | (Ok _, w) =>
      match Consumer_RunOnce cfg waiting uow ctx w with
      | (Err e, w) =>
        if is_canceled e then Consumer_Run is_canceled cfg waiting uow turns ctx w
        else match sleep ctx (cc_IdleBackoff cfg) w with
             | (false, w) => (true, w)
             | (true, w) => Consumer_Run is_canceled cfg waiting uow turns ctx w
             end
      | (Ok _, w) => Consumer_Run is_canceled cfg waiting uow turns ctx w
      end
    end
  end.
End loops.

(** ** What a loop keeps

    A relation between the world before and after that waiting keeps, and every
    pass, is kept by the loop however long it runs. *)

Section kept.
Context {W : Type} `{Waiting W} (I : W -> W -> Prop).
Context (I_refl : forall w, I w w) (I_trans : forall a b c, I a b -> I b c -> I a c).
Context (I_ticker : forall ctx d w, I w (ticker_first ctx d w).2) (I_timer : forall ctx d w, I w (timer_first ctx d w).2).

Lemma ticking_kept turns ctx interval pass w : (forall w, I w (pass w)) -> I w (ticking turns ctx interval pass w).2.
Proof using I_refl I_trans I_ticker.
  intros Hpass. revert w. induction turns as [|turns IH]; intros w; cbn; [apply I_refl|].
  pose proof (I_ticker ctx interval w) as Ht. destruct (ticker_first ctx interval w) as [[|] w1]; cbn in *; [|exact Ht].
  eapply I_trans; [exact Ht|]. eapply I_trans; [apply Hpass|apply IH].
Qed.

Context `{Clock W} `{IDGenerator W} `{Rand W} `{Cancellation W} `{Queue W}.
Context (cfg : ConsumerConfig) (waiting : ReferencePolicy) (uow : UnitOfWork W) (ctx : Context).
Context (I_err : forall w, I w (ctx_Err ctx w).2)
  (I_receive : forall n w, I w (q_Receive ctx n w).2)
  (I_delete : forall h w, I w (q_Delete ctx h w).2) (I_release : forall h w, I w (q_Release ctx h w).2)
  (I_decide : forall m w, I w (Consumer_decide cfg waiting uow ctx m w).2).

Lemma Consumer_handle_kept m w : I w (Consumer_handle cfg waiting uow ctx m w).
Proof using I_trans I_delete I_release I_decide.
  unfold Consumer_handle. pose proof (I_decide m w) as Hd.
  destruct (Consumer_decide cfg waiting uow ctx m w) as [[|] w1]; cbn in *;
    (eapply I_trans; [exact Hd|]); [apply I_delete|apply I_release].
Qed.

Lemma Consumer_RunOnce_kept w : I w (Consumer_RunOnce cfg waiting uow ctx w).2.
Proof using I_refl I_trans I_receive I_delete I_release I_decide.
  unfold Consumer_RunOnce. pose proof (I_receive (cc_BatchSize cfg) w) as Hr.
  destruct (q_Receive ctx (cc_BatchSize cfg) w) as [[messages|e] w1]; cbn in *; [|exact Hr].
  eapply I_trans; [exact Hr|]. clear Hr w. revert w1.
  induction messages as [|m messages IH]; intros w; cbn; [apply I_refl|].
  eapply I_trans; [apply Consumer_handle_kept|apply IH].
Qed.

Lemma Consumer_Run_kept is_canceled turns w : I w (Consumer_Run is_canceled cfg waiting uow turns ctx w).2.
Proof using I_refl I_trans I_timer I_err I_receive I_delete I_release I_decide.
  revert w. induction turns as [|turns IH]; intros w; cbn; [apply I_refl|].
  pose proof (I_err w) as He. destruct (ctx_Err ctx w) as [[[]|e] w1]; cbn in *; [|exact He].
  eapply I_trans; [exact He|]. pose proof (Consumer_RunOnce_kept w1) as Hr.
  destruct (Consumer_RunOnce cfg waiting uow ctx w1) as [[n|e] w2]; cbn in *;
    (eapply I_trans; [exact Hr|]); [apply IH|]. destruct (is_canceled e); [apply IH|].
  pose proof (I_timer ctx (cc_IdleBackoff cfg) w2) as Hs. unfold sleep.
  destruct (timer_first ctx (cc_IdleBackoff cfg) w2) as [[|] w3]; cbn in *; [|exact Hs].
  eapply I_trans; [exact Hs|apply IH].
Qed.
End kept.

(** ** When a loop returns *)

Section returns.
Context {W : Type} `{Waiting W}.

(** A loop that has returned does not run again, and one that has not can be
    continued. *)
Lemma ticking_more turns more ctx interval pass w :
  ticking (turns + more) ctx interval pass w =
  let '(returned, w1) := ticking turns ctx interval pass w in
  if returned then (true, w1) else ticking more ctx interval pass w1.
Proof.
  revert w. induction turns as [|turns IH]; intros w; cbn; [done|].
  destruct (ticker_first ctx interval w) as [[|] w1]; [apply IH|done].
Qed.

(** The world after [n] ticks, with a pass after each of them. *)
Fixpoint passes (n : nat) (ctx : Context) (interval : Duration) (pass : W -> W) (w : W) : W :=
  match n with
  | O => w
  | S n => passes n ctx interval pass (pass (ticker_first ctx interval w).2)
  end.

(** A loop returns exactly when its context ends, after as many passes as
    there were ticks before. *)
Lemma ticking_returns turns ctx interval pass w :
  (ticking turns ctx interval pass w).1 = true <->
  exists n, (n < turns)%nat /\
    (forall m, (m < n)%nat -> (ticker_first ctx interval (passes m ctx interval pass w)).1 = true) /\
    (ticker_first ctx interval (passes n ctx interval pass w)).1 = false.
Proof.
  revert w. induction turns as [|turns IH]; intros w; cbn; [split; [done|by intros (n & ? & _); lia]|].
  destruct (ticker_first ctx interval w) as [[|] w1] eqn:E; cbn.
  - rewrite IH. split.
    + intros (n & Hn & Hm & Hlast). exists (S n). cbn. rewrite E. cbn. split; [lia|]. split; [|done].
      intros [|m] Hlt; cbn; [by rewrite E|]. rewrite E. cbn. apply Hm. lia.
    + intros ([|n] & Hn & Hm & Hlast); cbn in Hlast; rewrite E in Hlast; [done|]. exists n. split; [lia|].
      split; [|done]. intros m Hlt. specialize (Hm (S m)). cbn in Hm. rewrite E in Hm. apply Hm. lia.
  - split; [intros _|done]. exists O. cbn. rewrite E. split; [lia|]. split; [lia|done].
Qed.
End returns.
