(* ===== verification/Lifecycle.v ===== *)
(** * Lifecycle: [internal/platform/modules.go], [cmd/api]

    How the process is put together, started and stopped.  The first part is
    the graph of constructors given to the composition library (Fx): what each
    takes and gives, and what is invoked.  The second is what the hooks do when
    the process starts and stops, beside the requests and the loops that are
    running meanwhile, as one step relation.  Fx is not part of the program: it
    appears as what it documents, [built] (in which order it may call the
    constructors) and [FxLaws] (in which order it runs the hooks). *)

From S2P Require Import Prelude Errors GoTime.

#[local] Open Scope string_scope.
#[local] Open Scope list_scope.
#[local] Open Scope Z_scope.

(** ** The graph *)

(** The types the constructors exchange. *)
Variant dep :=
| DLifecycle | DAppConfig | DDatabaseConfig | DOIDCConfig | DLogger
| DPool | DUnitOfWork | DSnapshot | DQueries | DProbe
| DRecorder | DOperationMetrics | DQueueMetrics | DOutboxMetrics | DReconciliationMetrics | DStorageMetrics
| DRequestObserver | DClock | DIDGenerator
| DReferencePolicy | DOpenWallet | DSubmitTransaction | DReferenceWorker | DWalletQueries | DTransactionQueries
| DReconcileWallet | DAuthenticator | DWalletHandler | DTransactionHandler | DReconciliationHandler | DHealthHandler
| DServeMux | DHandler | DServer | DClient | DEventPublisher | DPublisherPolicy | DPublisher.

#[global] Instance dep_eq_dec : EqDecision dep.
Proof. solve_decision. Defined.

(** A function given to Fx: what it takes and what it gives, errors aside. *)
Record constructor := mkConstructor { co_name : string; co_takes : list dep; co_gives : list dep }.

#[global] Instance constructor_eq_dec : EqDecision constructor.
Proof. solve_decision. Defined.

Record fx_module := mkModule { md_provides : list constructor; md_invokes : list constructor }.

Definition ConfigModule : fx_module := mkModule
  [mkConstructor "AppConfigFromEnv" [] [DAppConfig];
   mkConstructor "DatabaseConfigFromEnv" [] [DDatabaseConfig];
   mkConstructor "OIDCConfigFromEnv" [] [DOIDCConfig];
   mkConstructor "NewLogger" [DAppConfig] [DLogger]] [].

Definition newPool : constructor :=
  mkConstructor "newPool" [DLifecycle; DAppConfig; DDatabaseConfig; DLogger] [DPool].

Definition DatabaseModule : fx_module := mkModule
  [newPool;
   mkConstructor "NewUnitOfWork" [DPool; DStorageMetrics] [DUnitOfWork];
   mkConstructor "NewSnapshot" [DPool] [DSnapshot];
   mkConstructor "NewQueries" [DPool] [DQueries];
   mkConstructor "NewProbe" [DPool] [DProbe]] [].

Definition runMetricsServer : constructor :=
  mkConstructor "runMetricsServer" [DLifecycle; DRecorder; DAppConfig; DLogger] [].

Definition MetricsModule : fx_module := mkModule
  [mkConstructor "metrics.New" [] [DRecorder];
   mkConstructor "OperationMetrics" [DRecorder] [DOperationMetrics];
   mkConstructor "QueueMetrics" [DRecorder] [DQueueMetrics];
   mkConstructor "OutboxMetrics" [DRecorder] [DOutboxMetrics];
   mkConstructor "ReconciliationMetrics" [DRecorder] [DReconciliationMetrics];
   mkConstructor "StorageMetrics" [DRecorder] [DStorageMetrics];
   mkConstructor "RequestObserver" [DRecorder] [DRequestObserver]]
  [runMetricsServer].

Definition AdaptersModule : fx_module := mkModule
  [mkConstructor "NewClock" [] [DClock];
   mkConstructor "NewIDGenerator" [] [DIDGenerator]] [].

Definition UseCasesModule : fx_module := mkModule
  [mkConstructor "referencePolicy" [DAppConfig] [DReferencePolicy];
   mkConstructor "NewOpenWallet" [DUnitOfWork; DIDGenerator; DClock] [DOpenWallet];
   mkConstructor "NewSubmitTransaction"
     [DUnitOfWork; DQueries; DIDGenerator; DClock; DReferencePolicy; DOperationMetrics; DLogger] [DSubmitTransaction];
   mkConstructor "newReferenceWorker" [DUnitOfWork; DIDGenerator; DClock; DReferencePolicy; DLogger] [DReferenceWorker];
   mkConstructor "NewWalletQueries" [DQueries] [DWalletQueries];
   mkConstructor "NewTransactionQueries" [DQueries] [DTransactionQueries];
   mkConstructor "NewReconcileWallet" [DSnapshot; DClock; DReconciliationMetrics; DLogger] [DReconcileWallet]] [].

Definition runServer : constructor := mkConstructor "runServer" [DLifecycle; DServer; DAppConfig; DLogger] [].

Definition HTTPModule : fx_module := mkModule
  [mkConstructor "newAuthenticator" [DOIDCConfig; DLogger] [DAuthenticator];
   mkConstructor "newWalletHandler" [DOpenWallet; DWalletQueries] [DWalletHandler];
   mkConstructor "newTransactionHandler" [DSubmitTransaction; DTransactionQueries] [DTransactionHandler];
   mkConstructor "newReconciliationHandler" [DReconcileWallet] [DReconciliationHandler];
   mkConstructor "newHealthHandler" [DProbe] [DHealthHandler];
   mkConstructor "Routes"
     [DAuthenticator; DRequestObserver; DWalletHandler; DTransactionHandler; DReconciliationHandler; DHealthHandler]
     [DServeMux];
   mkConstructor "Handler" [DServeMux] [DHandler];
   mkConstructor "newServer" [DAppConfig; DHandler] [DServer]]
  [runServer].

Definition QueueModule : fx_module := mkModule
  [mkConstructor "newQueueClient" [DAppConfig; DLogger] [DClient];
   mkConstructor "newEventPublisher" [DAppConfig; DLogger] [DEventPublisher];
   mkConstructor "publisherPolicy" [DAppConfig] [DPublisherPolicy];
   mkConstructor "newPublisher"
     [DUnitOfWork; DEventPublisher; DClock; DPublisherPolicy; DOutboxMetrics; DLogger] [DPublisher]] [].

Definition runReferenceWorker : constructor :=
  mkConstructor "runReferenceWorker" [DLifecycle; DReferenceWorker; DLogger] [].
Definition runConsumers : constructor := mkConstructor "runConsumers"
  [DLifecycle; DClient; DUnitOfWork; DSubmitTransaction; DClock; DAppConfig; DQueueMetrics; DLogger] [].
Definition runPublisher : constructor := mkConstructor "runPublisher" [DLifecycle; DPublisher; DLogger] [].

Definition WorkersModule : fx_module := mkModule [] [runReferenceWorker; runConsumers; runPublisher].

Definition Module_ : list fx_module :=
  [ConfigModule; MetricsModule; DatabaseModule; AdaptersModule; UseCasesModule; QueueModule; HTTPModule; WorkersModule].

Definition provided : list constructor := Module_ ≫= md_provides.
Definition invoked : list constructor := Module_ ≫= md_invokes.

(** What [fx.New] has done when it has not failed: it has called the invoked
    functions in the order they were given, each function at most once, and
    each after the constructors of everything it takes; it gives the lifecycle
    itself. *)
Record built (calls : list constructor) : Prop := {
  bt_invoked : filter (fun c => c ∈ invoked) calls = invoked;
  bt_known : Forall (fun c => c ∈ provided ++ invoked) calls;
  bt_once : NoDup calls;
  bt_supplied : forall before c after d, calls = before ++ c :: after -> d ∈ co_takes c ->
    d = DLifecycle \/ exists g, g ∈ before /\ d ∈ co_gives g
}.

(** ** The hooks *)

Variant site := Business | Scrapes.
Variant background := Worker | Consumers | Publisher.

#[global] Instance site_eq_dec : EqDecision site.
Proof. solve_decision. Defined.
#[global] Instance background_eq_dec : EqDecision background.
Proof. solve_decision. Defined.

Variant hook := HMetrics | HPool | HServer | HLoop (s : background).

#[global] Instance hook_eq_dec : EqDecision hook.
Proof. solve_decision. Defined.

(** Which function appends which hook. *)
Definition hooks_appended : list (constructor * hook) :=
  [(runMetricsServer, HMetrics); (newPool, HPool); (runServer, HServer); (runReferenceWorker, HLoop Worker);
   (runConsumers, HLoop Consumers); (runPublisher, HLoop Publisher)].

Definition hook_of (c : constructor) : option hook :=
  snd <$> find (fun p => bool_decide (p.1 = c)) hooks_appended.

Definition appended (calls : list constructor) : list hook := omap hook_of calls.

(** ** What the hooks do *)

(** What the process consists of while it runs: the addresses it accepts on,
    the requests it is serving, the loops that have not returned, the contexts
    that are cancelled, the pool, and whether the time to stop is up, a server
    was closed before its requests were done, the closed pool was used. *)
Record process := mkProcess {
  ps_listening : list site;
  ps_inflight : list site;
  ps_alive : list (background * nat);
  ps_cancelled : list background;
  ps_pool : bool;
  ps_deadline : bool;
  ps_cut : list site;
  ps_missed : bool
}.

(** After construction: the pool is open and nothing runs. *)
Definition constructed : process := mkProcess [] [] [] [] true false [] false.

Inductive action :=
| Cancel (s : background)          (* [cancel()] *)
| Join (s : background)            (* [select] on the end of the loops and of the time *)
| StopAccepting (x : site)      (* [server.Shutdown], its first half *)
| Drain (x : site)              (* its second half, and [server.Close] *)
| ClosePool.                    (* [pool.Close()] *)

(** [OnStop] of each hook. *)
Definition on_stop (h : hook) : list action :=
  match h with
  | HMetrics => [StopAccepting Scrapes; Drain Scrapes]
  | HPool => [ClosePool]
  | HServer => [StopAccepting Business; Drain Business]
  | HLoop s => [Cancel s; Join s]
  end.

(** The goroutines a hook starts; [n] is [QUEUE_CONSUMERS]. *)
Definition spawned (n : nat) (s : background) : list (background * nat) :=
  match s with Consumers => (fun i => (Consumers, i)) <$> seq 0 n | _ => [(s, O)] end.

Definition accepting (x : site) (p : process) : process :=
  mkProcess (x :: ps_listening p) (ps_inflight p) (ps_alive p) (ps_cancelled p) (ps_pool p) (ps_deadline p)
    (ps_cut p) (ps_missed p).
Definition spawning (ts : list (background * nat)) (p : process) : process :=
  mkProcess (ps_listening p) (ps_inflight p) (ts ++ ps_alive p) (ps_cancelled p) (ps_pool p) (ps_deadline p)
    (ps_cut p) (ps_missed p).
Definition refusing (x : site) (p : process) : process :=
  mkProcess (filter (fun y => y <> x) (ps_listening p)) (ps_inflight p) (ps_alive p) (ps_cancelled p) (ps_pool p)
    (ps_deadline p) (ps_cut p) (ps_missed p).
Definition with_inflight (l : list site) (p : process) : process :=
  mkProcess (ps_listening p) l (ps_alive p) (ps_cancelled p) (ps_pool p) (ps_deadline p) (ps_cut p) (ps_missed p).
Definition with_alive (l : list (background * nat)) (p : process) : process :=
  mkProcess (ps_listening p) (ps_inflight p) l (ps_cancelled p) (ps_pool p) (ps_deadline p) (ps_cut p) (ps_missed p).
Definition cancelling (s : background) (p : process) : process :=
  mkProcess (ps_listening p) (ps_inflight p) (ps_alive p) (s :: ps_cancelled p) (ps_pool p) (ps_deadline p)
    (ps_cut p) (ps_missed p).
Definition cutting (x : site) (p : process) : process :=
  mkProcess (ps_listening p) (ps_inflight p) (ps_alive p) (ps_cancelled p) (ps_pool p) (ps_deadline p)
    (x :: ps_cut p) (ps_missed p).
Definition closing (p : process) : process :=
  mkProcess (ps_listening p) (ps_inflight p) (ps_alive p) (ps_cancelled p) false (ps_deadline p) (ps_cut p) (ps_missed p).
Definition out_of_time (p : process) : process :=
  mkProcess (ps_listening p) (ps_inflight p) (ps_alive p) (ps_cancelled p) (ps_pool p) true (ps_cut p) (ps_missed p).
(** A statement on the pool: it misses when the pool is closed. *)
Definition touching (p : process) : process :=
  mkProcess (ps_listening p) (ps_inflight p) (ps_alive p) (ps_cancelled p) (ps_pool p) (ps_deadline p) (ps_cut p)
    (ps_missed p || negb (ps_pool p)).

(** [OnStart] of each hook: listening may fail, and then nothing is served. *)
Inductive on_start (n : nat) : hook -> process -> option process -> Prop :=
| st_metrics p : on_start n HMetrics p (Some (accepting Scrapes p))
| st_metrics_refused p : on_start n HMetrics p None
| st_pool p : on_start n HPool p (Some p)
| st_server p : on_start n HServer p (Some (accepting Business p))
| st_server_refused p : on_start n HServer p None
| st_loop s p : on_start n (HLoop s) p (Some (spawning (spawned n s) p)).

(** One action of a hook that stops.  Both servers drain under a time limit of
    their own, after which they are closed. *)
Inductive does : action -> process -> process -> Prop :=
| do_cancel s p : does (Cancel s) p (cancelling s p)
| do_joined s p : (forall t, t ∈ ps_alive p -> t.1 <> s) -> does (Join s) p p
| do_given_up s p : ps_deadline p = true -> does (Join s) p p
| do_refuse x p : does (StopAccepting x) p (refusing x p)
| do_drained x p : x ∉ ps_inflight p -> does (Drain x) p p
| do_cut x p : does (Drain x) p (cutting x p)
| do_close p : does ClosePool p (closing p).

(** What goes on beside: requests arrive where they are accepted and end, they
    and the loops use the pool, a loop returns once its context is cancelled
    ([Loops.ticking_returns]). *)
Inductive works : process -> process -> Prop :=
| wk_arrives x p : x ∈ ps_listening p -> works p (with_inflight (x :: ps_inflight p) p)
| wk_ends l1 x l2 p : ps_inflight p = l1 ++ x :: l2 -> works p (with_inflight (l1 ++ l2) p)
| wk_uses p : Business ∈ ps_inflight p \/ ps_alive p <> [] -> works p (touching p)
| wk_returns l1 t l2 p : ps_alive p = l1 ++ t :: l2 -> t.1 ∈ ps_cancelled p -> works p (with_alive (l1 ++ l2) p).

(** Where the process is: starting its hooks, serving, stopping, stopped. *)
Inductive phase :=
| Starting (todo started : list hook)
| Serving (started : list hook)
| Stopping (acts : list action)
| Stopped.

(** What Fx runs when it stops, of the hooks that were started. *)
Class Fx := { stops : list hook -> list hook }.

(** The hooks in reverse order; when its time is up it may leave the rest. *)
Class FxLaws `{Fx} : Prop := { stops_law : forall l, exists k, stops l = take k (reverse l) }.

Section run.
Context `{Fx} (n : nat).

Inductive step : phase * process -> phase * process -> Prop :=
| sp_works ph p p' : works p p' -> step (ph, p) (ph, p')
| sp_start h todo started p p' : on_start n h p (Some p') ->
  step (Starting (h :: todo) started, p) (Starting todo (started ++ [h]), p')
| sp_fails h todo started p : on_start n h p None ->
  step (Starting (h :: todo) started, p) (Stopping (stops started ≫= on_stop), p)
| sp_started started p : step (Starting [] started, p) (Serving started, p)
| sp_signal started p : step (Serving started, p) (Stopping (stops started ≫= on_stop), p)
| sp_acts a acts p p' : does a p p' -> step (Stopping (a :: acts), p) (Stopping acts, p')
| sp_time acts p : step (Stopping acts, p) (Stopping acts, out_of_time p)
| sp_stopped p : step (Stopping [], p) (Stopped, p).
End run.

(** [shutdownGrace] of [cmd/api]. *)
Definition shutdownGrace : Duration := 60 * Second.

(** ** Who is built before whom *)

Section order.
Context (calls : list constructor).

(** Wherever [c] is called, [g] has been called before. *)
Definition precedes (g c : constructor) : Prop := forall l1 l2, calls = l1 ++ c :: l2 -> g ∈ l1.

Lemma precedes_trans a b c : precedes a b -> precedes b c -> precedes a c.
Proof.
  intros Hab Hbc l1 l2 E. pose proof (Hbc _ _ E) as Hin. apply list_elem_of_split in Hin as (m1 & m2 & ->).
  rewrite <- app_assoc in E. pose proof (Hab _ _ E). set_solver.
Qed.

Context (Hb : built calls).

(** A type that only [g] gives is given before it is taken. *)
Lemma precedes_taken g c d : d <> DLifecycle -> d ∈ co_takes c ->
  Forall (fun x => d ∈ co_gives x -> x = g) (provided ++ invoked) -> precedes g c.
Proof using Hb.
  intros Hd Hin Honly l1 l2 E. destruct (bt_supplied _ Hb _ _ _ _ E Hin) as [?|(x & Hx & Hgives)]; [done|].
  rewrite Forall_forall in Honly. rewrite <- (Honly x); [done| |done].
  pose proof (bt_known _ Hb) as Hk. rewrite Forall_forall in Hk. apply Hk. rewrite E. set_solver.
Qed.
End order.

(** A function of the graph, by its name. *)
Definition named (name : string) : constructor :=
  default (mkConstructor name [] []) (find (fun c => bool_decide (co_name c = name)) (provided ++ invoked)).

(** [names] lists functions each of which takes what only the one before it
    gives. *)
Fixpoint chain (g : constructor) (links : list (dep * string)) : Prop :=
  match links with
  | [] => True
  | (d, name) :: links =>
    d <> DLifecycle /\ d ∈ co_takes (named name) /\
    Forall (fun x => d ∈ co_gives x -> x = g) (provided ++ invoked) /\ chain (named name) links
  end.

#[global] Instance chain_dec g links : Decision (chain g links).
Proof. revert g. induction links as [|[d name] links IH]; intros g; cbn [chain]; apply _. Defined.

Lemma precedes_chain calls g links d name : built calls -> chain g (links ++ [(d, name)]) ->
  precedes calls g (named name).
Proof.
  intros Hb. revert g. induction links as [|[d1 name1] links IH]; intros g (Hd & Hin & Honly & Hrest).
  - by apply (precedes_taken calls Hb g _ d).
  - apply (precedes_trans calls g (named name1)); [by apply (precedes_taken calls Hb g _ d1)|by apply IH].
Qed.

(** The pool is there before everything that uses it. *)
Lemma the_pool_comes_first calls : built calls ->
  precedes calls newPool runServer /\ precedes calls newPool runReferenceWorker /\
  precedes calls newPool runConsumers /\ precedes calls newPool runPublisher.
Proof.
  intros Hb. split_and!.
  - apply (precedes_chain calls newPool [(DPool, "NewUnitOfWork"); (DUnitOfWork, "NewOpenWallet");
      (DOpenWallet, "newWalletHandler"); (DWalletHandler, "Routes"); (DServeMux, "Handler"); (DHandler, "newServer")]
      DServer "runServer" Hb). apply (bool_decide_unpack _). vm_compute. exact I.
  - apply (precedes_chain calls newPool [(DPool, "NewUnitOfWork"); (DUnitOfWork, "newReferenceWorker")]
      DReferenceWorker "runReferenceWorker" Hb). apply (bool_decide_unpack _). vm_compute. exact I.
  - apply (precedes_chain calls newPool [(DPool, "NewUnitOfWork")] DUnitOfWork "runConsumers" Hb).
    apply (bool_decide_unpack _). vm_compute. exact I.
  - apply (precedes_chain calls newPool [(DPool, "NewUnitOfWork"); (DUnitOfWork, "newPublisher")]
      DPublisher "runPublisher" Hb). apply (bool_decide_unpack _). vm_compute. exact I.
Qed.

(** ** The order of the hooks *)

Lemma hook_of_who c h : hook_of c = Some h -> (c, h) ∈ hooks_appended.
Proof.
  unfold hook_of. destruct (find _ _) as [[c' h']|] eqn:E; [|done]. intros [= <-].
  apply find_some in E as [Hin Hc]. apply bool_decide_eq_true in Hc. cbn in *. subst.
  by apply list_elem_of_In.
Qed.

Lemma omap_split {A B} (f : A -> option B) l l1 b l2 : omap f l = l1 ++ b :: l2 ->
  exists m1 a m2, l = m1 ++ a :: m2 /\ omap f m1 = l1 /\ f a = Some b.
Proof.
  revert l1. induction l as [|a l IH]; intros l1; cbn; [by destruct l1|].
  destruct (f a) as [b'|] eqn:E.
  - destruct l1 as [|b1 l1]; cbn; intros [= -> Hrest].
    + by exists [], a, l.
    + destruct (IH l1 Hrest) as (m1 & a' & m2 & -> & <- & Ha). exists (a :: m1), a', m2. cbn. by rewrite E.
  - intros Hrest. destruct (IH l1 Hrest) as (m1 & a' & m2 & -> & <- & Ha). exists (a :: m1), a', m2. cbn. by rewrite E.
Qed.

(** The hooks that use the pool while they run. *)
Definition uses_the_pool (h : hook) : Prop := h <> HMetrics /\ h <> HPool.

Record in_order (hs : list hook) : Prop := {
  io_once : NoDup hs;
  io_pool : forall h l1 l2, uses_the_pool h -> hs = l1 ++ h :: l2 -> HPool ∈ l1
}.

Lemma NoDup_omap {A B} (f : A -> option B) l :
  (forall x y b, f x = Some b -> f y = Some b -> x = y) -> NoDup l -> NoDup (omap f l).
Proof.
  intros Hf. induction 1 as [|a l Hni _ IH]; cbn; [constructor|].
  destruct (f a) as [b|] eqn:E; [|done]. constructor; [|done].
  intros (a' & Hin & E')%list_elem_of_omap. by rewrite (Hf _ _ _ E E') in Hni.
Qed.

(** A hook is appended by one function. *)
Lemma hook_of_inj c1 c2 h : hook_of c1 = Some h -> hook_of c2 = Some h -> c1 = c2.
Proof.
  intros H1%hook_of_who H2%hook_of_who. unfold hooks_appended in *.
  rewrite !elem_of_cons, elem_of_nil in H1, H2. naive_solver.
Qed.

Lemma appended_in_order calls : built calls -> in_order (appended calls).
Proof.
  intros Hb. destruct (the_pool_comes_first calls Hb) as (Hserver & Hworker & Hconsumers & Hpublisher).
  split.
  - apply NoDup_omap; [|apply Hb]. apply hook_of_inj.
  - intros h l1 l2 Hh E. apply omap_split in E as (m1 & c & m2 & -> & <- & Hc%hook_of_who).
    apply list_elem_of_omap. exists newPool. split; [|by vm_compute].
    unfold hooks_appended in Hc. rewrite !elem_of_cons, elem_of_nil in Hc. destruct Hh as [? ?].
    destruct Hc as [Hc|[Hc|[Hc|[Hc|[Hc|[Hc|[]]]]]]]; injection Hc as -> ->; try done; naive_solver.
Qed.

(** ** Stopping *)

(** The first and the last action of a hook that ends a user of the pool. *)
Definition first_of (h : hook) : action := match h with HLoop s => Cancel s | _ => StopAccepting Business end.
Definition last_of (h : hook) : action := match h with HLoop s => Join s | _ => Drain Business end.

(** It has been told to end: it takes nothing new. *)
Definition told (h : hook) (p : process) : Prop :=
  match h with HLoop s => s ∈ ps_cancelled p | _ => Business ∉ ps_listening p end.

(** It has ended, or was left behind. *)
Definition ended (h : hook) (p : process) : Prop :=
  match h with
  | HLoop s => forall t, t ∈ ps_alive p -> t.1 = s -> ps_deadline p = true /\ s ∈ ps_cancelled p
  | _ => Business ∉ ps_listening p /\ (Business ∈ ps_inflight p -> Business ∈ ps_cut p)
  end.

(** It was never there. *)
Definition absent (h : hook) (p : process) : Prop :=
  match h with
  | HLoop s => forall t, t ∈ ps_alive p -> t.1 <> s
  | _ => Business ∉ ps_listening p /\ Business ∉ ps_inflight p
  end.

Lemma absent_ended h p : absent h p -> ended h p.
Proof. destruct h; cbn; naive_solver. Qed.

Ltac process := repeat match goal with H : does _ _ _ |- _ => inversion H; clear H; subst
  | H : works _ _ |- _ => inversion H; clear H; subst end; cbn in *; try done;
  rewrite ?list_elem_of_filter, ?elem_of_cons in *;
  try match goal with H : _ = _ ++ _ :: _ |- _ => rewrite H in * end;
  repeat setoid_rewrite elem_of_app; repeat setoid_rewrite elem_of_cons; try naive_solver;
  try (intros Hall ? ?; apply Hall; tauto).

Lemma told_works h p p' : works p p' -> told h p -> told h p'.
Proof. intros Hw. destruct h; process. Qed.

Lemma told_does h a p p' : does a p p' -> told h p -> told h p'.
Proof. intros Hd. destruct h; process. Qed.

Lemma told_first h p p' : does (first_of h) p p' -> told h p'.
Proof. intros Hd. destruct h; cbn in Hd; process. Qed.

Lemma ended_works h p p' : works p p' -> ended h p -> ended h p'.
Proof. intros Hw. destruct h; process. Qed.

Lemma ended_does h a p p' : does a p p' -> ended h p -> ended h p'.
Proof. intros Hd. destruct h; process. Qed.

Lemma ended_last h p p' : does (last_of h) p p' -> told h p -> ended h p'.
Proof. intros Hd. destruct h; cbn in Hd; process. Qed.

Lemma absent_works h p p' : works p p' -> absent h p -> absent h p'.
Proof. intros Hw. destruct h; process. Qed.

(** ** The actions in their order *)

(** Every [b] of a list has an [a] before it, or [P]. *)
Definition preceded (acts : list action) (a b : action) (P : Prop) : Prop :=
  forall l1 l2, acts = l1 ++ b :: l2 -> P \/ a ∈ l1.

Lemma preceded_head acts a b P : preceded (b :: acts) a b P -> P.
Proof. intros H. destruct (H [] acts eq_refl) as [?|Hin]; [done|]. by apply not_elem_of_nil in Hin. Qed.

Lemma preceded_step acts x a b (P P' : Prop) : preceded (x :: acts) a b P -> (P -> P') -> (x = a -> P') ->
  preceded acts a b P'.
Proof.
  intros H HP Hx l1 l2 ->. destruct (H (x :: l1) l2 eq_refl) as [?|Hin]; [by left; apply HP|].
  apply elem_of_cons in Hin as [->|Hin]; [by left; apply Hx|by right].
Qed.

Lemma preceded_weaken acts a b (P P' : Prop) : preceded acts a b P -> (P -> P') -> preceded acts a b P'.
Proof. intros H HP l1 l2 E. destruct (H l1 l2 E); auto. Qed.

Lemma bind_split {A B} (f : A -> list B) l l1 b l2 : l ≫= f = l1 ++ b :: l2 ->
  exists h1 h h2 m1 m2, l = h1 ++ h :: h2 /\ f h = m1 ++ b :: m2 /\ l1 = (h1 ≫= f) ++ m1.
Proof.
  revert l1. induction l as [|a l IH]; intros l1; cbn; [by destruct l1|]. intros E.
  apply app_eq_inv in E as [(k & E1 & E2)|(k & -> & E)].
  - destruct k as [|x k]; cbn in E2.
    + destruct (IH [] (eq_sym E2)) as (h1 & h & h2 & m1 & m2 & -> & Hf & E').
      exists (a :: h1), h, h2, m1, m2. cbn. rewrite app_nil_r in E1. subst. by rewrite <- app_assoc, <- E', app_nil_r.
    + injection E2 as -> ->. by exists [], a, l, l1, k.
  - destruct (IH k E) as (h1 & h & h2 & m1 & m2 & -> & Hf & ->).
    exists (a :: h1), h, h2, m1, m2. cbn. by rewrite app_assoc.
Qed.

(** A hook is told to end before it is waited for. *)
Lemma stopping_tells hs h P : uses_the_pool h -> preceded (hs ≫= on_stop) (first_of h) (last_of h) P.
Proof.
  intros [? ?] l1 l2 E. right. apply bind_split in E as (h1 & h' & h2 & m1 & m2 & _ & E & ->).
  apply elem_of_app. right.
  destruct h as [| | |s], h' as [| | |s']; cbn in E; try done;
    destruct m1 as [|x1 [|x2 m1]]; cbn in E; simplify_eq; try set_solver; by destruct m1.
Qed.

(** The pool is closed after everything that was started and uses it. *)
Lemma stopping_closes hs started h k P : in_order hs -> started `prefix_of` hs -> uses_the_pool h ->
  (h ∉ started -> P) ->
  preceded (take k (reverse started) ≫= on_stop) (last_of h) ClosePool P.
Proof.
  intros Hord [rest Hpre] Hh HP l1 l2 E. destruct (decide (h ∈ started)) as [Hin|]; [right|left; auto].
  apply bind_split in E as (h1 & h' & h2 & m1 & m2 & Ehs & E & ->).
  assert (h' = HPool) as ->.
  { destruct h' as [| | |s']; cbn in E; [|done| |]; destruct m1 as [|? [|? [|]]]; cbn in E; by simplify_eq. }
  apply elem_of_app. left. apply list_elem_of_bind.
  exists h. split; [destruct Hh; destruct h as [| | |s]; try done; cbn; rewrite !elem_of_cons; tauto|].
  assert (Est : started = reverse (h2 ++ drop k (reverse started)) ++ HPool :: reverse h1).
  { rewrite <- (reverse_involutive started) at 1. rewrite <- (take_drop k (reverse started)) at 1.
    rewrite Ehs, <- app_assoc, <- app_comm_cons, reverse_app, reverse_cons. by rewrite <- app_assoc. }
  rewrite Est in Hin. apply elem_of_app in Hin as [Hin'|Hin].
  2:{ apply elem_of_cons in Hin as [->|Hin]; [by destruct Hh|]. revert Hin. rewrite elem_of_reverse. done. }
  exfalso.
  apply list_elem_of_split in Hin' as (a1 & a2 & Ea). rewrite Ea in Est.
  assert (Ehs' : hs = a1 ++ h :: a2 ++ HPool :: reverse h1 ++ rest).
  { rewrite Hpre, Est. by rewrite <- !app_assoc, <- !app_comm_cons, <- ?app_assoc. }
  pose proof (io_pool _ Hord h _ _ Hh Ehs') as Hpool. pose proof (io_once _ Hord) as Hnd. rewrite Ehs' in Hnd.
  apply NoDup_app in Hnd as (_ & Hnd & _). apply (Hnd HPool Hpool).
  apply elem_of_cons. right. apply elem_of_app. right. by left.
Qed.

(** ** The invariant *)

Section invariant.
Context {fx : Fx} {fx_laws : FxLaws} (n : nat) (hs : list hook) (Hord : in_order hs).

(** While it starts and serves: what is there was started. *)
Definition started_only (started : list hook) (p : process) : Prop :=
  started `prefix_of` hs /\ ps_pool p = true /\ forall h, uses_the_pool h -> h ∉ started -> absent h p.

Definition stopping_well (acts : list action) (p : process) : Prop := forall h, uses_the_pool h ->
  preceded acts (first_of h) (last_of h) (told h p) /\ preceded acts (last_of h) ClosePool (ended h p) /\
  (ps_pool p = false -> ended h p).

Definition invariant (x : phase * process) : Prop :=
  let '(ph, p) := x in
  (ps_missed p = true -> ps_deadline p = true \/ Business ∈ ps_cut p) /\
  match ph with
  | Starting todo started => hs = started ++ todo /\ started_only started p
  | Serving started => started_only started p
  | Stopping acts => stopping_well acts p
  | Stopped => ps_pool p = false -> forall h, uses_the_pool h -> ended h p
  end.

(** The pool is used while it is open, or by what was left behind. *)
Lemma missed_works p p' : works p p' -> (ps_missed p = true -> ps_deadline p = true \/ Business ∈ ps_cut p) ->
  (ps_pool p = false -> forall h, uses_the_pool h -> ended h p) ->
  ps_missed p' = true -> ps_deadline p' = true \/ Business ∈ ps_cut p'.
Proof.
  intros Hw Hm Hend. inversion Hw; subst; cbn; try done. intros [Hx|Hx]%orb_true_iff; [auto|].
  apply negb_true_iff in Hx. specialize (Hend Hx).
  match goal with H : _ \/ ps_alive _ <> [] |- _ => destruct H as [Hb|Ha] end.
  - right. destruct (Hend HServer ltac:(done)) as [_ He]. auto.
  - left. destruct (ps_alive p) as [|[s i] l] eqn:E; [done|].
    destruct (Hend (HLoop s) ltac:(done) (s, i)) as [Hd _]; [rewrite E; by left|done|done].
Qed.

Lemma pool_works p p' : works p p' -> ps_pool p' = ps_pool p.
Proof. by inversion 1. Qed.

Lemma invariant_works ph p p' : works p p' -> invariant (ph, p) -> invariant (ph, p').
Proof.
  intros Hw [Hm Hph]. split.
  - apply (missed_works p p' Hw Hm). destruct ph as [todo started|started|acts|]; [..|done].
    + destruct Hph as (_ & _ & Hpool & _). congruence.
    + destruct Hph as (_ & Hpool & _). congruence.
    + intros Hpool h Hh. by apply (Hph h Hh).
  - assert (Hso : forall started, started_only started p -> started_only started p').
    { intros started (? & Hpool & Ha). split_and!; [done|by rewrite (pool_works p p' Hw)|].
      intros h Hh Hni. eapply absent_works; eauto. }
    destruct ph as [todo started|started|acts|]; [destruct Hph; auto|auto|..].
    + intros h Hh. destruct (Hph h Hh) as (H1 & H2 & H3). rewrite (pool_works p p' Hw). split_and!.
      * eapply preceded_weaken; [exact H1|exact (told_works h p p' Hw)].
      * eapply preceded_weaken; [exact H2|exact (ended_works h p p' Hw)].
      * intros Hc. eapply ended_works; eauto.
    + rewrite (pool_works p p' Hw). intros Hc h Hh. eapply ended_works; eauto.
Qed.

(** Stopping what was started. *)
Lemma invariant_stop started p : started_only started p ->
  stopping_well (stops started ≫= on_stop) p.
Proof using Hord fx_laws.
  intros (Hpre & Hpool & Habs) h Hh. split_and!; [by apply stopping_tells| |congruence].
  destruct (stops_law started) as [k ->]. eapply stopping_closes; [exact Hord|exact Hpre|exact Hh|].
  intros Hni. apply absent_ended. auto.
Qed.

Lemma invariant_acts a acts p p' : does a p p' -> stopping_well (a :: acts) p -> stopping_well acts p'.
Proof.
  intros Hd Hw h Hh. destruct (Hw h Hh) as (H1 & H2 & H3). split_and!.
  - eapply preceded_step; [exact H1|exact (told_does h a p p' Hd)|]. intros ->. exact (told_first h _ _ Hd).
  - eapply preceded_step; [exact H2|exact (ended_does h a p p' Hd)|]. intros ->. apply (ended_last h _ _ Hd).
    by apply preceded_head in H1.
  - intros Hc. destruct (ps_pool p) eqn:Hp; [|eapply ended_does; eauto].
    inversion Hd; subst; cbn in *; try congruence. apply preceded_head in H2. exact (ended_does h _ _ _ Hd H2).
Qed.

Lemma missed_does a p p' : does a p p' -> (ps_missed p = true -> ps_deadline p = true \/ Business ∈ ps_cut p) ->
  ps_missed p' = true -> ps_deadline p' = true \/ Business ∈ ps_cut p'.
Proof. intros Hd. inversion Hd; subst; cbn; try done. intros Hx Hm. destruct (Hx Hm); [by left|right; by right]. Qed.

Lemma started_more h todo started p p' : hs = started ++ h :: todo -> on_start n h p (Some p') ->
  started_only started p -> started_only (started ++ [h]) p' /\ ps_missed p' = ps_missed p /\
  ps_deadline p' = ps_deadline p /\ ps_cut p' = ps_cut p.
Proof.
  intros E Hst (_ & Hpool & Ha). split; [|by inversion Hst].
  split_and!; [exists todo; by rewrite <- app_assoc|by inversion Hst; subst|].
  intros h' Hh' [Hni Hne]%not_elem_of_app. specialize (Ha h' Hh' Hni).
  assert (h' <> h) by set_solver. destruct Hh' as [? ?].
  inversion Hst; subst; destruct h' as [| | |s']; cbn in *; try done.
  all: try (rewrite not_elem_of_cons; naive_solver).
  intros t [Ht|Ht]%elem_of_app; [|by apply Ha]. intros Es. subst s'.
  assert (t.1 = s); [|congruence].
  destruct s; cbn in Ht; try (apply list_elem_of_singleton in Ht; by subst).
  apply list_elem_of_fmap in Ht as (i & -> & _). done.
Qed.

Lemma invariant_step x y : step n x y -> invariant x -> invariant y.
Proof using Hord fx_laws.
  intros Hst Hinv. destruct Hst as [ph p p' Hw|h todo started p p' Hs|h todo started p Hs|started p|started p
    |a acts p p' Hd|acts p|p].
  - by eapply invariant_works.
  - destruct Hinv as (Hm & E & Hso). destruct (started_more h todo started p p' E Hs Hso) as (Hso' & Em & Ed & Ec).
    split; [by rewrite Em, Ed, Ec|]. split; [by rewrite <- app_assoc|done].
  - destruct Hinv as (Hm & E & Hso). split; [done|]. by apply invariant_stop.
  - destruct Hinv as (Hm & E & Hso). by split.
  - destruct Hinv as (Hm & Hso). split; [done|]. by apply invariant_stop.
  - destruct Hinv as (Hm & Hw). split; [by eapply missed_does|by eapply invariant_acts].
  - destruct Hinv as (Hm & Hw). split; [by left|]. intros h Hh. destruct (Hw h Hh) as (H1 & H2 & H3).
    assert (He : ended h p -> ended h (out_of_time p)) by (destruct h; cbn; naive_solver).
    split_and!; [|by eapply preceded_weaken|auto].
    eapply preceded_weaken; [exact H1|by destruct h].
  - destruct Hinv as (Hm & Hw). split; [done|]. intros Hc h Hh. by apply (Hw h Hh).
Qed.

Lemma invariant_reachable x : rtc (step n) (Starting hs [], constructed) x -> invariant x.
Proof using Hord fx_laws.
  intros Hr. assert (Hinv : invariant (Starting hs [], constructed)).
  { split; [done|]. split; [done|]. split; [by exists hs|]. split; [done|].
    intros h _ _. destruct h; cbn; set_solver. }
  revert Hinv. induction Hr as [x|x y z Hs _ IH]; [done|]. intros Hinv. apply IH. by eapply invariant_step.
Qed.
End invariant.

(** ** The end of a stop *)

(** C30: the pool is closed last: in whatever order the parts were
    constructed and whenever the process was told to stop, or failed to start,
    once the pool is closed no request is accepted, none is being served unless
    its server was cut off at the end of its own time, and every loop has
    returned unless the time to stop is up, each of them having been told to.
    So nothing finds the pool closed unless one of these times ran out. *)
Theorem the_pool_closes_last {fx : Fx} {fx_laws : FxLaws} n calls ph p :
  built calls -> rtc (step n) (Starting (appended calls) [], constructed) (ph, p) ->
  (ps_pool p = false ->
     Business ∉ ps_listening p /\ (Business ∈ ps_inflight p -> Business ∈ ps_cut p) /\
     forall s i, (s, i) ∈ ps_alive p -> ps_deadline p = true /\ s ∈ ps_cancelled p) /\
  (ps_missed p = true -> ps_deadline p = true \/ Business ∈ ps_cut p).
Proof.
  intros Hb Hr. pose proof (invariant_reachable n _ (appended_in_order calls Hb) _ Hr) as [Hm Hph].
  split; [|exact Hm]. intros Hc.
  assert (Hend : forall h, uses_the_pool h -> ended h p).
  { intros h Hh. destruct ph as [todo started|started|acts|]; [..|by apply Hph].
    - destruct Hph as (_ & _ & Hpool & _). congruence.
    - destruct Hph as (_ & Hpool & _). congruence.
    - by apply (Hph h Hh). }
  destruct (Hend HServer ltac:(done)) as [? ?]. split_and!; [done..|].
  intros s i Hin. by apply (Hend (HLoop s) ltac:(done) (s, i) Hin).
Qed.

(** Stopping ends: whatever state a stop is in, it is over once the time to
    stop is up and each server has been closed, whatever the requests and the
    loops do. *)
Lemma a_stop_ends {fx : Fx} n acts p : exists p', rtc (step n) (Stopping acts, p) (Stopped, p').
Proof.
  assert (Hrun : forall q, ps_deadline q = true -> exists q', rtc (step n) (Stopping acts, q) (Stopped, q')).
  { induction acts as [|a acts IH]; intros q Hq.
    - exists q. apply rtc_once. constructor.
    - assert (exists q1, does a q q1 /\ ps_deadline q1 = true) as (q1 & Hd & Hq1).
      { destruct a; eexists.
        - split; [apply do_cancel|done].
        - split; [by apply do_given_up|done].
        - split; [apply do_refuse|done].
        - split; [apply do_cut|done].
        - split; [apply do_close|done]. }
      destruct (IH q1 Hq1) as [q' Hr]. exists q'. eapply rtc_l; [by apply sp_acts|exact Hr]. }
  destruct (Hrun (out_of_time p) eq_refl) as [p' Hr]. exists p'. eapply rtc_l; [apply sp_time|exact Hr].
Qed.

(** ** An order that satisfies what is known of it *)

(** Everything a call takes was given before. *)
Fixpoint supplied (given : list dep) (calls : list constructor) : bool :=
  match calls with
  | [] => true
  | c :: calls => forallb (fun d => bool_decide (d ∈ given)) (co_takes c) && supplied (co_gives c ++ given) calls
  end.

Lemma supplied_before given calls before c after d : supplied given calls = true ->
  calls = before ++ c :: after -> d ∈ co_takes c -> d ∈ given \/ exists g, g ∈ before /\ d ∈ co_gives g.
Proof.
  revert given before. induction calls as [|x calls IH]; intros given before Hs E Hd; [by destruct before|].
  cbn in Hs. apply andb_true_iff in Hs as [Hx Hs].
  destruct before as [|y before]; injection E as -> E.
  - left. rewrite forallb_forall in Hx. apply list_elem_of_In in Hd. exact (bool_decide_eq_true_1 _ (Hx d Hd)).
  - destruct (IH _ _ Hs E Hd) as [Hin|(g & Hg & Hgd)].
    + apply elem_of_app in Hin as [Hin|Hin]; [right; exists y; split; [by left|done]|by left].
    + right. exists g. split; [by right|done].
Qed.

Lemma built_checked calls :
  bool_decide (filter (fun c => c ∈ invoked) calls = invoked) = true ->
  forallb (fun c => bool_decide (c ∈ provided ++ invoked)) calls = true ->
  bool_decide (NoDup calls) = true -> supplied [DLifecycle] calls = true -> built calls.
Proof.
  intros H1%bool_decide_eq_true H2 H3%bool_decide_eq_true H4. split; [done| |done|].
  - apply Forall_forall. intros c Hc%list_elem_of_In. rewrite forallb_forall in H2.
    exact (bool_decide_eq_true_1 _ (H2 c Hc)).
  - intros before c after d E Hd. destruct (supplied_before _ _ _ _ _ _ H4 E Hd) as [Hin|?]; [left|by right].
    by apply list_elem_of_singleton in Hin.
Qed.

(** Depth first: before a call, the calls of what it takes. *)
Fixpoint resolve (fuel : nat) (todo : list constructor) (done_ : list constructor) : list constructor :=
  match fuel with
  | O => done_
  | S fuel =>
    foldl (fun done_ c =>
      if bool_decide (c ∈ done_) then done_
      else resolve fuel (co_takes c ≫= fun d => filter (fun g => d ∈ co_gives g) provided) done_ ++ [c])
      done_ todo
  end.

Definition call_order : list constructor := resolve 12 invoked [].

Lemma call_order_built : built call_order.
Proof. apply built_checked; vm_compute; reflexivity. Qed.

(** Nothing is missing from the graph, and nothing in it needs itself. *)
Lemma the_graph_is_complete : exists calls, built calls.
Proof. exists call_order. exact call_order_built. Qed.

(** Everything that was started, in reverse. *)
Definition in_reverse : Fx := {| stops := reverse |}.

#[local] Instance in_reverse_laws : @FxLaws in_reverse.
Proof. constructor. intros l. exists (length (reverse l)). by rewrite firstn_all. Qed.

(** One step of a run, and the next ones. *)
Ltac turn rule := eapply rtc_l; [rule|].

Lemma the_pool_closes_last_witness : exists p,
  built call_order /\ rtc (@step in_reverse 1) (Starting (appended call_order) [], constructed) (Stopped, p) /\
  ps_pool p = false /\ ps_missed p = false /\
  ((ps_pool p = false ->
     Business ∉ ps_listening p /\ (Business ∈ ps_inflight p -> Business ∈ ps_cut p) /\
     forall s i, (s, i) ∈ ps_alive p -> ps_deadline p = true /\ s ∈ ps_cancelled p) /\
   (ps_missed p = true -> ps_deadline p = true \/ Business ∈ ps_cut p)).
Proof.
  assert (Hrun : exists p,
    rtc (@step in_reverse 1) (Starting (appended call_order) [], constructed) (Stopped, p) /\
    ps_pool p = false /\ ps_missed p = false).
  { eexists. split.
    - replace (appended call_order) with [HMetrics; HPool; HServer; HLoop Worker; HLoop Consumers; HLoop Publisher]
        by (vm_compute; reflexivity).
      do 6 turn ltac:(apply sp_start; constructor). turn ltac:(apply sp_started). cbn.
      turn ltac:(apply sp_works, (wk_arrives Business); cbn; by left).
      turn ltac:(apply sp_works, wk_uses; right; done). turn ltac:(apply sp_signal). cbn.
      turn ltac:(apply sp_acts; constructor). cbn.
      turn ltac:(apply sp_works, (wk_returns [] (Publisher, O) [(Consumers, O); (Worker, O)]); cbn; [reflexivity|by left]). cbn.
      turn ltac:(apply sp_acts, do_joined; cbn; set_solver). turn ltac:(apply sp_acts; constructor). cbn.
      turn ltac:(apply sp_works, (wk_returns [] (Consumers, O) [(Worker, O)]); cbn; [reflexivity|by left]). cbn.
      turn ltac:(apply sp_acts, do_joined; cbn; set_solver). turn ltac:(apply sp_acts; constructor). cbn.
      turn ltac:(apply sp_works, (wk_returns [] (Worker, O) []); cbn; [reflexivity|by left]). cbn.
      turn ltac:(apply sp_acts, do_joined; cbn; set_solver). turn ltac:(apply sp_acts; constructor). cbn.
      turn ltac:(apply sp_works, wk_uses; left; cbn; by left).
      turn ltac:(apply sp_works, (wk_ends [] Business []); reflexivity). cbn.
      turn ltac:(apply sp_acts, do_drained; cbn; set_solver). turn ltac:(apply sp_acts, do_close).
      turn ltac:(apply sp_acts, do_refuse). turn ltac:(apply sp_acts, do_drained; cbn; set_solver).
      turn ltac:(apply sp_stopped). apply rtc_refl.
    - vm_compute. done. }
  destruct Hrun as (p & Hr & Hc & Hm). exists p. split; [exact call_order_built|]. split; [exact Hr|].
  split; [exact Hc|]. split; [exact Hm|].
  exact (the_pool_closes_last (fx := in_reverse) (fx_laws := in_reverse_laws) 1 call_order Stopped p call_order_built Hr).
Defined.
