(* ===== verification/Schema.v ===== *)
(** * Schema: the tables of [migrations/*.sql]

    The rows, the CHECK constraints in the order PostgreSQL tests them (by
    name), the unique indexes and the foreign keys.  A NULL column is [None]; a
    [timestamptz] is a count of nanoseconds that is a whole number of
    microseconds; [BIGINT] columns receive [int64] values from Go, so only the
    narrower types need a range.  The triggers are in [Guard]. *)

From S2P Require Import Prelude Errors Money Event.

#[local] Open Scope string_scope.
#[local] Open Scope list_scope.
#[local] Open Scope Z_scope.

(** ** Rows *)

Record wallet_row := mkWalletRow {
  cw_id : string;
  cw_player_id : string;
  cw_currency : string;
  cw_balance_minor : Z;
  cw_version : Z;
  cw_created_at : Z;
  cw_updated_at : Z
}.

Record tx_row := mkTxRow {
  ct_id : string;
  ct_origin : string;
  ct_kind : string;
  ct_status : string;
  ct_wallet_id : string;
  ct_player_id : string;
  ct_amount_minor : Z;
  ct_currency : string;
  ct_provider_id : option string;
  ct_external_id : option string;
  ct_idempotency_key : option string;
  ct_payload_hash : option string;
  ct_round_id : option string;
  ct_game_id : option string;
  ct_reference_external_id : option string;
  ct_resolved_reference_id : option string;
  ct_reference_attempts : Z;
  ct_reference_next_attempt_at : option Z;
  ct_reference_deadline_at : option Z;
  ct_failure_code : option string;
  ct_balance_after_minor : option Z;
  ct_created_at : Z;
  ct_updated_at : Z
}.

Record ledger_row := mkLedgerRow {
  cl_seq : Z;
  cl_id : string;
  cl_wallet_id : string;
  cl_transaction_id : string;
  cl_direction : string;
  cl_amount_minor : Z;
  cl_balance_before_minor : Z;
  cl_balance_after_minor : Z;
  cl_currency : string;
  cl_created_at : Z
}.

(** The primary key of the inbox is the key of its table. *)
Record inbox_row := mkInboxRow {
  ci_payload_hash : string;
  ci_received_at : Z;
  ci_completed_at : option Z
}.

Record outbox_row := mkOutboxRow {
  co_seq : Z;
  co_event_id : string;
  co_event_type : string;
  co_event_version : Z;
  co_aggregate_id : string;
  co_payload : json;
  co_correlation_id : option string;
  co_causation_id : option string;
  co_occurred_at : Z;
  co_attempts : Z;
  co_next_attempt_at : Z;
  co_published_at : option Z;
  co_last_error : option string
}.

(** The tables, and the next values of the two sequences. *)
Record DB := mkDB {
  db_wallets : gmap string wallet_row;
  db_txs : gmap string tx_row;
  db_ledger : list ledger_row;
  db_inbox : gmap (string * string) inbox_row;
  db_outbox : list outbox_row;
  db_ledger_seq : Z;
  db_outbox_seq : Z
}.

Definition emptyDB : DB := mkDB ∅ ∅ [] ∅ [] 1 1.

(** ** Column types *)

(** [CHAR(3)]: blank padded, and refused when longer. *)
Definition char3 (s : string) : option string :=
  match String.length s with
  | O => Some "   "
  | 1%nat => Some (s +:+ "  ")
  | 2%nat => Some (s +:+ " ")
  | 3%nat => Some s
  | _ => None
  end.

(** [INTEGER] is 32 bits wide. *)
Definition int4_ok (z : Z) : bool := (-2147483648 <=? z) && (z <=? 2147483647).

(** [currency ~ '^[A-Z]{3}$'] *)
Definition iso4217 (s : string) : bool := Nat.eqb (String.length s) 3 && all_uppercase s.

(** ** CHECK constraints *)

(** The name of the first violated check. *)
Fixpoint violated (checks : list (string * bool)) : option string :=
  match checks with
  | [] => None
  | (name, holds) :: checks => if holds then violated checks else Some name
  end.

Definition wallet_checks (r : wallet_row) : list (string * bool) :=
  [("wallets_balance_non_negative", 0 <=? cw_balance_minor r);
   ("wallets_currency_iso4217", iso4217 (cw_currency r));
   ("wallets_version_positive", 1 <=? cw_version r)].

Definition is_null {A} (o : option A) : bool := match o with None => true | Some _ => false end.

Definition is_in (s : string) (l : list string) : bool := bool_decide (s ∈ l).

Definition tx_checks (r : tx_row) : list (string * bool) :=
  let reversal := is_in (ct_kind r) ["REFUND"; "ROLLBACK"] in
  let failed := is_in (ct_status r) ["REJECTED"; "FAILED"] in
  [("wager_transactions_amount_policy",
      (bool_decide (ct_kind r = "LOSS") && (ct_amount_minor r =? 0)) ||
      (negb (bool_decide (ct_kind r = "LOSS")) && (0 <? ct_amount_minor r)));
   ("wager_transactions_balance_after",
      match ct_balance_after_minor r with None => true | Some b => 0 <=? b end);
   ("wager_transactions_currency", iso4217 (ct_currency r));
   ("wager_transactions_external_shape",
      negb (bool_decide (ct_origin r = "EXTERNAL")) ||
      (negb (bool_decide (ct_kind r = "OPENING")) && negb (is_null (ct_provider_id r)) &&
       negb (is_null (ct_external_id r)) && negb (is_null (ct_idempotency_key r)) &&
       negb (is_null (ct_payload_hash r)) && negb (is_null (ct_round_id r)) &&
       negb (is_null (ct_game_id r))));
   ("wager_transactions_failure_code",
      (failed && negb (is_null (ct_failure_code r))) ||
      (negb failed && is_null (ct_failure_code r)));
   ("wager_transactions_internal_shape",
      negb (bool_decide (ct_origin r = "INTERNAL")) ||
      (bool_decide (ct_kind r = "OPENING") && is_null (ct_provider_id r) &&
       is_null (ct_external_id r) && is_null (ct_idempotency_key r) &&
       is_null (ct_payload_hash r) && is_null (ct_round_id r) && is_null (ct_game_id r) &&
       is_null (ct_reference_external_id r)));
   ("wager_transactions_kind",
      is_in (ct_kind r) ["OPENING"; "BET"; "WIN"; "LOSS"; "REFUND"; "ROLLBACK"]);
   ("wager_transactions_origin", is_in (ct_origin r) ["INTERNAL"; "EXTERNAL"]);
   ("wager_transactions_reference_attempts", 0 <=? ct_reference_attempts r);
   ("wager_transactions_reference_policy",
      (reversal && negb (is_null (ct_reference_external_id r))) ||
      (negb reversal && is_null (ct_reference_external_id r)));
   ("wager_transactions_reference_wait",
      (bool_decide (ct_status r = "PENDING_REFERENCE") && reversal &&
       negb (is_null (ct_reference_next_attempt_at r)) &&
       negb (is_null (ct_reference_deadline_at r))) ||
      negb (bool_decide (ct_status r = "PENDING_REFERENCE")));
   ("wager_transactions_status",
      is_in (ct_status r) ["PENDING"; "PENDING_REFERENCE"; "PROCESSED"; "REJECTED"; "FAILED"])].

Definition ledger_checks (r : ledger_row) : list (string * bool) :=
  [("ledger_amount_positive", 0 <? cl_amount_minor r);
   ("ledger_arithmetic",
      (bool_decide (cl_direction r = "DEBIT") &&
       (cl_balance_after_minor r =? cl_balance_before_minor r - cl_amount_minor r)) ||
      (bool_decide (cl_direction r = "CREDIT") &&
       (cl_balance_after_minor r =? cl_balance_before_minor r + cl_amount_minor r)));
   ("ledger_balances_non_negative",
      (0 <=? cl_balance_before_minor r) && (0 <=? cl_balance_after_minor r));
   ("ledger_currency", iso4217 (cl_currency r));
   ("ledger_direction", is_in (cl_direction r) ["DEBIT"; "CREDIT"])].

Definition outbox_checks (r : outbox_row) : list (string * bool) :=
  [("outbox_events_attempts_non_negative", 0 <=? co_attempts r);
   ("outbox_events_version_positive", 1 <=? co_event_version r)].

(** ** Unique indexes: the names of those a new row would violate *)

Definition failing (checks : list (string * bool)) : list string :=
  map fst (filter (fun nb => nb.2 = false) checks).

(** No other row of the table satisfies [P]. *)
Definition no_other {R} (table : list R) (P : R -> bool) : bool := negb (existsb P table).

Definition wallet_uniques (db : DB) (r : wallet_row) : list string :=
  failing
    [("wallets_pkey", is_null (db_wallets db !! cw_id r));
     ("wallets_one_per_player_and_currency",
        no_other (map snd (map_to_list (delete (cw_id r) (db_wallets db)))) (fun r' =>
          bool_decide (cw_player_id r' = cw_player_id r) &&
          bool_decide (cw_currency r' = cw_currency r)))].

(** Two values of a unique column collide when both are set and equal. *)
Definition same_value (a b : option string) : bool :=
  match a, b with Some a, Some b => bool_decide (a = b) | _, _ => false end.

(** The partial unique indexes of [wager_transactions], against the other
    rows. *)
Definition tx_indexes (others : list tx_row) (r : tx_row) : list (string * bool) :=
  [("wager_transactions_business_identity",
      negb (bool_decide (ct_origin r = "EXTERNAL")) ||
      no_other others (fun r' =>
        bool_decide (ct_origin r' = "EXTERNAL") &&
        same_value (ct_provider_id r') (ct_provider_id r) &&
        same_value (ct_external_id r') (ct_external_id r)));
   ("wager_transactions_idempotency_key",
      negb (bool_decide (ct_origin r = "EXTERNAL")) ||
      no_other others (fun r' =>
        bool_decide (ct_origin r' = "EXTERNAL") &&
        same_value (ct_provider_id r') (ct_provider_id r) &&
        same_value (ct_idempotency_key r') (ct_idempotency_key r)));
   ("wager_transactions_one_opening_per_wallet",
      negb (bool_decide (ct_kind r = "OPENING")) ||
      no_other others (fun r' =>
        bool_decide (ct_kind r' = "OPENING") && bool_decide (ct_wallet_id r' = ct_wallet_id r)));
   ("wager_transactions_one_reversal_per_operation",
      negb (bool_decide (ct_status r = "PROCESSED")) ||
      no_other others (fun r' =>
        bool_decide (ct_status r' = "PROCESSED") &&
        same_value (ct_resolved_reference_id r') (ct_resolved_reference_id r)))].

Definition other_txs (db : DB) (id : string) : list tx_row :=
  map snd (map_to_list (delete id (db_txs db))).

Definition ledger_uniques (db : DB) (r : ledger_row) : list string :=
  failing
    [("wallet_ledger_entries_pkey",
        no_other (db_ledger db) (fun r' => bool_decide (cl_id r' = cl_id r)));
     ("ledger_one_per_transaction_and_wallet",
        no_other (db_ledger db) (fun r' =>
          bool_decide (cl_wallet_id r' = cl_wallet_id r) &&
          bool_decide (cl_transaction_id r' = cl_transaction_id r)))].

Definition outbox_uniques (db : DB) (r : outbox_row) : list string :=
  failing
    [("outbox_events_pkey",
        no_other (db_outbox db) (fun r' => bool_decide (co_event_id r' = co_event_id r)))].

(** ** Foreign keys, tested when the statement ends *)

Definition tx_wallet_fk (db : DB) (r : tx_row) : bool :=
  negb (is_null (db_wallets db !! ct_wallet_id r)).

Definition tx_reference_fk (db : DB) (r : tx_row) : bool :=
  match ct_resolved_reference_id r with
  | None => true
  | Some id => bool_decide (id = ct_id r) || negb (is_null (db_txs db !! id))
  end.

Definition ledger_wallet_fk (db : DB) (r : ledger_row) : bool :=
  negb (is_null (db_wallets db !! cl_wallet_id r)).

Definition ledger_transaction_fk (db : DB) (r : ledger_row) : bool :=
  negb (is_null (db_txs db !! cl_transaction_id r)).

(** ** Updates of a table *)

Definition with_wallets (f : gmap string wallet_row -> gmap string wallet_row) (db : DB) : DB :=
  mkDB (f (db_wallets db)) (db_txs db) (db_ledger db) (db_inbox db) (db_outbox db)
    (db_ledger_seq db) (db_outbox_seq db).
Definition with_txs (f : gmap string tx_row -> gmap string tx_row) (db : DB) : DB :=
  mkDB (db_wallets db) (f (db_txs db)) (db_ledger db) (db_inbox db) (db_outbox db)
    (db_ledger_seq db) (db_outbox_seq db).
Definition with_ledger (f : list ledger_row -> list ledger_row) (seq : Z) (db : DB) : DB :=
  mkDB (db_wallets db) (db_txs db) (f (db_ledger db)) (db_inbox db) (db_outbox db)
    seq (db_outbox_seq db).
Definition with_inbox (f : gmap (string * string) inbox_row -> gmap (string * string) inbox_row)
    (db : DB) : DB :=
  mkDB (db_wallets db) (db_txs db) (db_ledger db) (f (db_inbox db)) (db_outbox db)
    (db_ledger_seq db) (db_outbox_seq db).
Definition with_outbox (f : list outbox_row -> list outbox_row) (seq : Z) (db : DB) : DB :=
  mkDB (db_wallets db) (db_txs db) (db_ledger db) (db_inbox db) (f (db_outbox db))
    (db_ledger_seq db) seq.

(** Rolling back restores the tables; a sequence is never rewound. *)
Definition rollback_to (saved current : DB) : DB :=
  mkDB (db_wallets saved) (db_txs saved) (db_ledger saved) (db_inbox saved) (db_outbox saved)
    (db_ledger_seq current) (db_outbox_seq current).
