(* ===== verification/Postgres.v ===== *)
(** * Postgres: [internal/adapter/postgres]

    The repositories over the tables of [Schema], the translation of database
    errors, and the unit of work with its retries.  PostgreSQL and its driver
    are not part of the repository: what a statement may run into (a failure of
    the connection, a serialization failure, the order in which unique indexes
    are tested, rows locked elsewhere, the outcome of a commit, what other
    sessions commit) is an [Environment], a parameter of the model.  A
    transaction runs on the tables as they were committed when it began, with its
    own changes; other sessions commit between transactions, not inside one.
    The program opens its transactions READ COMMITTED, where each statement sees
    what was committed before it, so this leaves out the interleavings in which
    two transactions alternate statement by statement.  What protects the
    balances then is the version condition of [update_balance] and the unique
    indexes, which are modelled; the lock that [SELECT ... FOR UPDATE] takes
    first is an event of [Locks], and has no effect on the tables here. *)

From stdpp Require Import sorting.
From S2P Require Import Prelude Errors GoTime GoStrings Money Identifier Ledger Wallet Transaction.
From S2P Require Import Event Identity Ports Store Policy Schema.

#[local] Open Scope string_scope.
#[local] Open Scope list_scope.
#[local] Open Scope Z_scope.

(** ** Driver errors and their translation *)

(** A [*pgconn.PgError], or any other error of the driver. *)
Inductive pg_failure :=
| PgError (code constraint table message : string)
| DriverError (what : string).

(** What the driver returns: no row, or a failure. *)
Inductive db_error := NoRows | Failure (f : pg_failure).

Definition codeRestrictViolation : string := "23001".
Definition codeForeignKeyViolation : string := "23503".
Definition codeNotNullViolation : string := "23502".
Definition codeUniqueViolation : string := "23505".
Definition codeCheckViolation : string := "23514".
Definition codeSerializationFailed : string := "40001".
Definition codeDeadlockDetected : string := "40P01".

Definition constraintOf (constraint table message : string) : string :=
  if negb (bool_decide (constraint = "")) then constraint
  else if negb (bool_decide (table = "")) then table
  else message.

Definition translate (err : db_error) : error :=
  match err with
  | NoRows => SentinelError ErrNotFound
  | Failure (DriverError what) => Opaque what
  | Failure (PgError code constraint table message) =>
    if bool_decide (code = codeUniqueViolation) then NewConflict constraint
    else if bool_decide (code ∈ [codeCheckViolation; codeForeignKeyViolation;
                                 codeNotNullViolation; codeRestrictViolation])
    then NewInvariantViolation (constraintOf constraint table message)
    else if bool_decide (code ∈ [codeSerializationFailed; codeDeadlockDetected])
    then SentinelError ErrSerializationFailure
    else Opaque code
  end.

(** ** The environment *)

Inductive commit_outcome :=
| Committed
| CommitRefused (f : pg_failure)     (* rolled back *)
| CommitReplyLost (what : string).   (* applied, but the reply did not arrive *)

(** Every consultation of the environment is numbered, so that it may answer
    differently each time. *)
Record Environment := mkEnvironment {
  en_uuid : nat -> option string;              (* uuid.NewV7 *)
  en_now : nat -> Time;                        (* time.Now *)
  en_rand : nat -> Z -> Z;                     (* rand.Int64N *)
  en_fault : nat -> option pg_failure;         (* a statement that fails on its own *)
  en_commit : nat -> commit_outcome;
  en_others : nat -> DB -> DB;                 (* commits of other sessions *)
  en_pick : list string -> string;             (* which violated unique index is reported *)
  en_locked : nat -> string -> bool;           (* rows another session holds *)
  en_cancelled : nat -> bool;                  (* the caller went away while waiting *)
  en_encode : Time -> Z;                       (* timestamptz, as the driver writes it *)
  en_decode : Z -> Time;                       (* timestamptz, as the driver reads it *)
  en_jsonb : json -> json                      (* a JSONB value as it is read back *)
}.

Record World := mkWorld {
  wo_db : DB;
  wo_saved : DB;
  wo_aborted : bool;
  wo_calls : nat
}.

Definition tick (w : World) : World :=
  mkWorld (wo_db w) (wo_saved w) (wo_aborted w) (S (wo_calls w)).

Section postgres.
Context (env : Environment).

(** ** The clock, identifiers and random numbers: [internal/adapter/system] *)

#[local] Instance Clock_system : Clock World := {|
  Clock_Now := fun w => (Time_UTC (en_now env (wo_calls w)), tick w)
|}.

Definition IDGenerator_next : M World string := fun w =>
  match en_uuid env (wo_calls w) with
  | Some s => (Ok s, tick w)
  | None => (Err (Wrapped (Opaque "uuid")), tick w)
  end.

#[local] Instance IDGenerator_system : IDGenerator World := {|
  NewWalletID := fun _ => s ← IDGenerator_next; pure (ParseWalletID s);
  NewTransactionID := fun _ => s ← IDGenerator_next; pure (ParseTransactionID s);
  NewLedgerEntryID := fun _ => s ← IDGenerator_next; pure (ParseLedgerEntryID s);
  NewEventID := fun _ => IDGenerator_next
|}.

#[local] Instance Rand_system : Rand World := {|
  Int64N := fun n w => (en_rand env (wo_calls w) n, tick w)
|}.

(** [ctx.Err()] of a context whose caller may go away at any time. *)
#[local] Instance Cancellation_system : Cancellation World := {|
  ctx_Err := fun _ w =>
    (if en_cancelled env (wo_calls w) then Err (Opaque "context canceled") else Ok (), tick w)
|}.

(** ** Statements *)

(** Inside a transaction a failed statement aborts it, and every later one
    is refused until the transaction ends. *)
Definition statement {A} (f : DB -> (pg_failure + A) * DB) : World -> (pg_failure + A) * World :=
  fun w =>
    if wo_aborted w then (inl (PgError "25P02" "" "" "current transaction is aborted"), w)
    else match en_fault env (wo_calls w) with
         | Some e => (inl e, mkWorld (wo_db w) (wo_saved w) true (S (wo_calls w)))
         | None =>
           match f (wo_db w) with
           | (inl e, db) => (inl e, mkWorld db (wo_saved w) true (S (wo_calls w)))
           | (inr a, db) => (inr a, mkWorld db (wo_saved w) false (S (wo_calls w)))
           end
         end.

(** On the pool a statement is its own transaction, and sees what others
    have committed. *)
Definition pool_statement {A} (f : DB -> (pg_failure + A) * DB) : World -> (pg_failure + A) * World :=
  fun w =>
    let db := en_others env (wo_calls w) (wo_db w) in
    match en_fault env (wo_calls w) with
    | Some e => (inl e, mkWorld db (wo_saved w) false (S (wo_calls w)))
    | None =>
      match f db with
      | (inl e, db') => (inl e, mkWorld (rollback_to db db') (wo_saved w) false (S (wo_calls w)))
      | (inr a, db') => (inr a, mkWorld db' (wo_saved w) false (S (wo_calls w)))
      end
    end.

(** A [querier]: a transaction or the pool. *)
Definition querier : Type := forall A, (DB -> (pg_failure + A) * DB) -> World -> (pg_failure + A) * World.
Definition tx_querier : querier := fun A => statement.
Definition pool_querier : querier := fun A => pool_statement.

Definition select {A} (f : DB -> A) : DB -> (pg_failure + A) * DB := fun db => (inr (f db), db).

(** [err := q.Exec(...); return translate(err)] *)
Definition exec (q : querier) {A} (f : DB -> (pg_failure + A) * DB) : M World A := fun w =>
  match q A f w with
  | (inr a, w') => (Ok a, w')
  | (inl e, w') => (Err (translate (Failure e)), w')
  end.

(** [QueryRow(...).Scan(...)]: the first row. *)
Definition query_row (q : querier) {R} (f : DB -> list R) : M World R := fun w =>
  match q (list R) (select f) w with
  | (inr [], w') => (Err (translate NoRows), w')
  | (inr (r :: _), w') => (Ok r, w')
  | (inl e, w') => (Err (translate (Failure e)), w')
  end.

(** ** Refusals *)

Definition check_violation (table name : string) : pg_failure := PgError codeCheckViolation name table "".
Definition unique_violation (table : string) (names : list string) : pg_failure :=
  PgError codeUniqueViolation (en_pick env names) table "".
Definition fk_violation (table name : string) : pg_failure := PgError codeForeignKeyViolation name table "".
Definition too_long : pg_failure := PgError "22001" "" "" "value too long for type character(3)".
Definition out_of_int4 : pg_failure := DriverError "is greater than maximum value for int4".

(** ** Wallets: [wallet.go] *)

Definition wallet_row_of (w : Wallet) : wallet_row := {|
  cw_id := id_value (w_id w);
  cw_player_id := id_value (w_playerID w);
  cw_currency := cur_code (w_currency w);
  cw_balance_minor := minor (w_balance w);
  cw_version := w_version w;
  cw_created_at := en_encode env (w_createdAt w);
  cw_updated_at := en_encode env (w_updatedAt w)
|}.

Definition scanWallet (r : wallet_row) : result Wallet :=
  id ← wrap_err (ParseWalletID (cw_id r));
  player ← wrap_err (ParsePlayerID (cw_player_id r));
  cur ← wrap_err (ParseCurrency (TrimSpace (cw_currency r)));
  balance ← wrap_err (NewMoneyFromMinor (cw_balance_minor r) cur);
  RehydrateWallet {|
    rw_ID := id;
    rw_PlayerID := player;
    rw_Balance := balance;
    rw_Version := cw_version r;
    rw_CreatedAt := en_decode env (cw_created_at r);
    rw_UpdatedAt := en_decode env (cw_updated_at r)
  |}.

Definition select_wallet (id : string) (db : DB) : list wallet_row :=
  match db_wallets db !! id with Some r => [r] | None => [] end.

Definition pg_FindWallet (q : querier) (id : WalletID) : M World Wallet :=
  r ← query_row q (select_wallet (id_value id));
  pure (scanWallet r).

(** The same row; what [FOR UPDATE] adds, the lock it waits for and holds until
    the transaction ends, matters to other transactions only ([Locks]). *)
Definition pg_FindByIDForUpdate (q : querier) (id : WalletID) : M World Wallet := pg_FindWallet q id.

Definition pg_FindByPlayerAndCurrency (q : querier) (player : PlayerID) (cur : Currency)
    : M World Wallet :=
  r ← query_row q (fun db => filter (fun r => cw_player_id r = id_value player /\
        cw_currency r = cur_code cur) (map snd (map_to_list (db_wallets db))));
  pure (scanWallet r).

Definition insert_wallet (r : wallet_row) (db : DB) : (pg_failure + unit) * DB :=
  match char3 (cw_currency r) with
  | None => (inl too_long, db)
  | Some cur =>
    let r := mkWalletRow (cw_id r) (cw_player_id r) cur (cw_balance_minor r) (cw_version r)
               (cw_created_at r) (cw_updated_at r) in
    match violated (wallet_checks r) with
    | Some name => (inl (check_violation "wallets" name), db)
    | None =>
      match wallet_uniques db r with
      | [] => (inr (), with_wallets (insert (cw_id r) r) db)
      | names => (inl (unique_violation "wallets" names), db)
      end
    end
  end.

Definition pg_InsertWallet (q : querier) (wallet : Wallet) : M World unit :=
  if negb (Wallet_IsInitialised wallet) then throw (Opaque "inserting an uninitialised wallet")
  else exec q (insert_wallet (wallet_row_of wallet)).

(** The UPDATE of [UpdateBalance]; the result is the number of rows. *)
Definition update_balance (balance version updated_at : Z) (id : string) (expected : Z) (db : DB)
    : (pg_failure + Z) * DB :=
  match db_wallets db !! id with
  | None => (inr 0, db)
  | Some r =>
    if negb (cw_version r =? expected) then (inr 0, db)
    else
      let r' := mkWalletRow (cw_id r) (cw_player_id r) (cw_currency r) balance version
                  (cw_created_at r) updated_at in
      match violated (wallet_checks r') with
      | Some name => (inl (check_violation "wallets" name), db)
      | None => (inr 1, with_wallets (insert id r') db)
      end
  end.

Definition pg_UpdateBalance (q : querier) (wallet : Wallet) (expectedVersion : Z) : M World unit :=
  if negb (Wallet_IsInitialised wallet) then throw (Opaque "updating an uninitialised wallet")
  else
    rows ← exec q (update_balance (minor (w_balance wallet)) (w_version wallet)
             (en_encode env (w_updatedAt wallet)) (id_value (w_id wallet)) expectedVersion);
    if rows =? 1 then mret ()
    else
      _ ← query_row q (select_wallet (id_value (w_id wallet)));
      throw (Wrapped (SentinelError ErrVersionMismatch)).

(** ** Operations: [transaction.go] *)

Definition nullable (s : string) : option string := if bool_decide (s = "") then None else Some s.
Definition nullableTime (at_ : Time) : option Z :=
  if Time_IsZero at_ then None else Some (en_encode env at_).
Definition nullableMinor (m : Money) : option Z :=
  if negb (Money_IsInitialised m) then None else Some (minor m).
Definition deref (s : option string) : string := default "" s.
Definition derefTime (at_ : option Z) : Time :=
  match at_ with None => zeroTime | Some z => en_decode env z end.

Definition tx_row_of (t : WagerTransaction) : tx_row := {|
  ct_id := id_value (t_id t);
  ct_origin := t_origin t;
  ct_kind := t_kind t;
  ct_status := t_status t;
  ct_wallet_id := id_value (t_walletID t);
  ct_player_id := id_value (t_playerID t);
  ct_amount_minor := minor (t_money t);
  ct_currency := cur_code (currency (t_money t));
  ct_provider_id := nullable (id_value (t_providerID t));
  ct_external_id := nullable (id_value (t_externalID t));
  ct_idempotency_key := nullable (id_value (t_idempotencyKey t));
  ct_payload_hash := nullable (id_value (t_payloadHash t));
  ct_round_id := nullable (id_value (t_roundID t));
  ct_game_id := nullable (id_value (t_gameID t));
  ct_reference_external_id := nullable (id_value (t_referenceExternalID t));
  ct_resolved_reference_id := nullable (id_value (t_resolvedReferenceID t));
  ct_reference_attempts := t_referenceAttempts t;
  ct_reference_next_attempt_at := nullableTime (t_referenceNextAttemptAt t);
  ct_reference_deadline_at := nullableTime (t_referenceDeadlineAt t);
  ct_failure_code := nullable (t_failureCode t);
  ct_balance_after_minor := nullableMinor (t_balanceAfter t);
  ct_created_at := en_encode env (t_createdAt t);
  ct_updated_at := en_encode env (t_updatedAt t)
|}.

(** [parseOptional]: an absent or empty column leaves the zero value. *)
Definition parseOptional {k} (raw : option string) (parse : string -> result (identifier k))
    : result (identifier k) :=
  match raw with
  | None => Ok zeroId
  | Some s => if bool_decide (s = "") then Ok zeroId else parse s
  end.

Definition scanTransaction (r : tx_row) : result WagerTransaction :=
  cur ← wrap_err (ParseCurrency (TrimSpace (ct_currency r)));
  amount ← wrap_err (NewMoneyFromMinor (ct_amount_minor r) cur);
  id ← wrap_err (ParseTransactionID (ct_id r));
  walletID ← wrap_err (ParseWalletID (ct_wallet_id r));
  playerID ← wrap_err (ParsePlayerID (ct_player_id r));
  providerID ← wrap_err (parseOptional (ct_provider_id r) ParseProviderID);
  externalID ← wrap_err (parseOptional (ct_external_id r) ParseExternalTransactionID);
  key ← wrap_err (parseOptional (ct_idempotency_key r) ParseIdempotencyKey);
  hash ← wrap_err (parseOptional (ct_payload_hash r) ParsePayloadHash);
  roundID ← wrap_err (parseOptional (ct_round_id r) ParseRoundID);
  gameID ← wrap_err (parseOptional (ct_game_id r) ParseGameID);
  reference ← wrap_err (parseOptional (ct_reference_external_id r) ParseExternalTransactionID);
  resolved ← wrap_err (parseOptional (ct_resolved_reference_id r) ParseTransactionID);
  balanceAfter ← (match ct_balance_after_minor r with
                  | None => Ok noMoney
                  | Some b => wrap_err (NewMoneyFromMinor b cur)
                  end);
  RehydrateTransaction {|
    t_id := id;
    t_origin := ct_origin r;
    t_kind := ct_kind r;
    t_status := ct_status r;
    t_walletID := walletID;
    t_playerID := playerID;
    t_money := amount;
    t_providerID := providerID;
    t_externalID := externalID;
    t_idempotencyKey := key;
    t_payloadHash := hash;
    t_roundID := roundID;
    t_gameID := gameID;
    t_referenceExternalID := reference;
    t_resolvedReferenceID := resolved;
    t_failureCode := deref (ct_failure_code r);
    t_referenceAttempts := ct_reference_attempts r;
    t_referenceNextAttemptAt := derefTime (ct_reference_next_attempt_at r);
    t_referenceDeadlineAt := derefTime (ct_reference_deadline_at r);
    t_balanceAfter := balanceAfter;
    t_createdAt := en_decode env (ct_created_at r);
    t_updatedAt := en_decode env (ct_updated_at r)
  |}.

Definition select_txs (P : tx_row -> bool) (db : DB) : list tx_row :=
  filter (fun r => P r = true) (map snd (map_to_list (db_txs db))).

Definition pg_FindTransaction (q : querier) (id : TransactionID) : M World WagerTransaction :=
  r ← query_row q (fun db => match db_txs db !! id_value id with Some r => [r] | None => [] end);
  pure (scanTransaction r).

Definition pg_FindByBusinessID (q : querier) (provider : ProviderID)
    (external : ExternalTransactionID) : M World WagerTransaction :=
  r ← query_row q (select_txs (fun r =>
        same_value (ct_provider_id r) (Some (id_value provider)) &&
        same_value (ct_external_id r) (Some (id_value external))));
  pure (scanTransaction r).

Definition pg_FindProcessedReversalOf (q : querier) (reference : TransactionID)
    : M World WagerTransaction :=
  r ← query_row q (select_txs (fun r =>
        same_value (ct_resolved_reference_id r) (Some (id_value reference)) &&
        bool_decide (ct_status r = "PROCESSED")));
  pure (scanTransaction r).

(** The constraints of a row that is about to replace the one with its key;
    [fresh] says whether the primary key may exist. *)
Definition put_tx_row (fresh : bool) (r : tx_row) (db : DB) : (pg_failure + unit) * DB :=
  match char3 (ct_currency r) with
  | None => (inl too_long, db)
  | Some cur =>
    if negb (int4_ok (ct_reference_attempts r)) then (inl out_of_int4, db)
    else
      match violated (tx_checks r) with
      | Some name => (inl (check_violation "wager_transactions" name), db)
      | None =>
        match failing (("wager_transactions_pkey",
                          negb fresh || is_null (db_txs db !! ct_id r)) ::
                       tx_indexes (other_txs db (ct_id r)) r) with
        | [] =>
          if negb (tx_reference_fk db r)
          then (inl (fk_violation "wager_transactions" "wager_transactions_resolved_reference_id_fkey"), db)
          else if negb (tx_wallet_fk db r)
          then (inl (fk_violation "wager_transactions" "wager_transactions_wallet_id_fkey"), db)
          else (inr (), with_txs (insert (ct_id r) r) db)
        | names => (inl (unique_violation "wager_transactions" names), db)
        end
      end
  end.

Definition pg_InsertTransaction (q : querier) (tx : WagerTransaction) : M World unit :=
  if negb (Tx_IsInitialised tx) then throw (Opaque "inserting an uninitialised transaction")
  else exec q (put_tx_row true (tx_row_of tx)).

(** The UPDATE of [Update]: the stored row with the mutable columns of [r],
    unless it is terminal. *)
Definition update_tx (r : tx_row) (db : DB) : (pg_failure + Z) * DB :=
  match db_txs db !! ct_id r with
  | None => (inr 0, db)
  | Some old =>
    if is_in (ct_status old) ["PROCESSED"; "REJECTED"; "FAILED"] then (inr 0, db)
    else
      let r' := mkTxRow (ct_id old) (ct_origin old) (ct_kind old) (ct_status r)
        (ct_wallet_id old) (ct_player_id old) (ct_amount_minor old) (ct_currency old)
        (ct_provider_id old) (ct_external_id old) (ct_idempotency_key old)
        (ct_payload_hash old) (ct_round_id old) (ct_game_id old)
        (ct_reference_external_id old) (ct_resolved_reference_id r)
        (ct_reference_attempts r) (ct_reference_next_attempt_at r)
        (ct_reference_deadline_at r) (ct_failure_code r) (ct_balance_after_minor r)
        (ct_created_at old) (ct_updated_at r) in
      match put_tx_row false r' db with
      | (inr _, db') => (inr 1, db')
      | (inl e, db') => (inl e, db')
      end
  end.

Definition pg_UpdateTransaction (q : querier) (tx : WagerTransaction) : M World unit :=
  if negb (Tx_IsInitialised tx) then throw (Opaque "updating an uninitialised transaction")
  else
    rows ← exec q (update_tx (tx_row_of tx));
    if rows =? 1 then mret ()
    else
      _ ← query_row q (fun db => match db_txs db !! id_value (t_id tx) with
                                 | Some r => [r] | None => [] end);
      throw (Wrapped (SentinelError ErrConflict)).

(** Scanning the rows of a result set stops at the first that is refused. *)
Fixpoint scan_all {R A} (scan : R -> result A) (rows : list R) : result (list A) :=
  match rows with
  | [] => Ok []
  | r :: rows => a ← scan r; rest ← scan_all scan rows; Ok (a :: rest)
  end.

Definition due_at (r : tx_row) : Z := default 0 (ct_reference_next_attempt_at r).
Definition due_before (a b : tx_row) : Prop := due_at a <= due_at b.
#[local] Instance due_before_dec : RelDecision due_before.
Proof. intros a b. apply Z_le_dec. Defined.

(** [ORDER BY reference_next_attempt_at LIMIT n FOR UPDATE SKIP LOCKED]. *)
Definition select_due (call : nat) (at_ limit : Z) (db : DB) : list tx_row :=
  take (Z.to_nat limit)
    (merge_sort due_before
       (select_txs (fun r =>
          bool_decide (ct_status r = "PENDING_REFERENCE") &&
          match ct_reference_next_attempt_at r with None => false | Some z => z <=? at_ end &&
          negb (en_locked env call (ct_id r))) db)).

Definition pg_ClaimDueReferences (q : querier) (at_ : Time) (limit : Z)
    : M World (list WagerTransaction) :=
  if limit <=? 0 then throw (Opaque "limit must be positive")
  else
    rows ← (fun w => exec q (select (select_due (wo_calls w) (en_encode env at_) limit)) w);
    pure (scan_all scanTransaction rows).

(** ** The ledger: [ledger.go] *)

Definition ledger_row_of (seq : Z) (e : LedgerEntry) : ledger_row := {|
  cl_seq := seq;
  cl_id := id_value (le_id e);
  cl_wallet_id := id_value (le_walletID e);
  cl_transaction_id := id_value (le_transactionID e);
  cl_direction := le_direction e;
  cl_amount_minor := minor (le_amount e);
  cl_balance_before_minor := minor (le_balanceBefore e);
  cl_balance_after_minor := minor (le_balanceAfter e);
  cl_currency := cur_code (currency (le_amount e));
  cl_created_at := en_encode env (le_createdAt e)
|}.

(** The constraints of a row that is appended. *)
Definition insert_ledger_row (r : ledger_row) (db : DB) : (pg_failure + unit) * DB :=
  let used := with_ledger id (db_ledger_seq db + 1) db in
  match char3 (cl_currency r) with
  | None => (inl too_long, used)
  | Some _ =>
    match violated (ledger_checks r) with
    | Some name => (inl (check_violation "wallet_ledger_entries" name), used)
    | None =>
      match ledger_uniques db r with
      | [] =>
        if negb (ledger_transaction_fk db r)
        then (inl (fk_violation "wallet_ledger_entries" "wallet_ledger_entries_transaction_id_fkey"), used)
        else if negb (ledger_wallet_fk db r)
        then (inl (fk_violation "wallet_ledger_entries" "wallet_ledger_entries_wallet_id_fkey"), used)
        else (inr (), with_ledger (fun l => l ++ [r]) (db_ledger_seq db + 1) db)
      | names => (inl (unique_violation "wallet_ledger_entries" names), used)
      end
    end
  end.

Definition insert_ledger (e : LedgerEntry) (db : DB) : (pg_failure + unit) * DB :=
  insert_ledger_row (ledger_row_of (db_ledger_seq db) e) db.

Definition pg_Append (q : querier) (entry : LedgerEntry) : M World unit :=
  exec q (insert_ledger entry).

Definition scanLedgerEntry (r : ledger_row) : result (Z * LedgerEntry) :=
  id ← wrap_err (ParseLedgerEntryID (cl_id r));
  walletID ← wrap_err (ParseWalletID (cl_wallet_id r));
  txID ← wrap_err (ParseTransactionID (cl_transaction_id r));
  cur ← wrap_err (ParseCurrency (TrimSpace (cl_currency r)));
  amount ← NewMoneyFromMinor (cl_amount_minor r) cur;
  before ← NewMoneyFromMinor (cl_balance_before_minor r) cur;
  after ← NewMoneyFromMinor (cl_balance_after_minor r) cur;
  entry ← NewLedgerEntry {|
    lp_ID := id;
    lp_WalletID := walletID;
    lp_TransactionID := txID;
    lp_Direction := cl_direction r;
    lp_Amount := amount;
    lp_BalanceBefore := before;
    lp_BalanceAfter := after;
    lp_CreatedAt := en_decode env (cl_created_at r)
  |};
  Ok (cl_seq r, entry).

Definition seq_before (a b : ledger_row) : Prop := cl_seq a <= cl_seq b.
#[local] Instance seq_before_dec : RelDecision seq_before.
Proof. intros a b. apply Z_le_dec. Defined.

(** [WHERE wallet_id = $1 AND seq > $2 ORDER BY seq LIMIT $3] *)
Definition select_page (wallet : string) (after limit : Z) (db : DB) : list ledger_row :=
  take (Z.to_nat limit)
    (merge_sort seq_before
       (filter (fun r => cl_wallet_id r = wallet /\ after < cl_seq r) (db_ledger db))).

(** The loop over the rows: one row past the page only says that there is
    more. *)
Fixpoint page_loop (rows : list ledger_row) (limit : Z) (entries : list LedgerEntry) (lastSeq : Z)
    : result LedgerPage :=
  match rows with
  | [] => Ok (mkLedgerPage entries (NewLedgerCursor lastSeq) false)
  | r :: rows =>
    if Z.of_nat (length entries) =? limit
    then Ok (mkLedgerPage entries (NewLedgerCursor lastSeq) true)
    else
      '(seq, entry) ← scanLedgerEntry r;
      page_loop rows limit (entries ++ [entry]) seq
  end.

Definition pg_ListByWallet (q : querier) (wallet : WalletID) (cursor : LedgerCursor) (limit : Z)
    : M World LedgerPage :=
  if limit <=? 0 then throw (Opaque "limit must be positive")
  else
    rows ← exec q (select (select_page (id_value wallet) (cursor_after cursor) (i64 (limit + 1))));
    pure (page_loop rows limit [] (cursor_after cursor)).

Definition row_signed (r : ledger_row) : Z :=
  if bool_decide (cl_direction r = "CREDIT") then cl_amount_minor r else - cl_amount_minor r.

(** The aggregate query: the sum is cast to [bigint], which fails outside
    its range. *)
Definition sum_wallet (wallet : string) (db : DB) : (pg_failure + (Z * Z)) * DB :=
  let rows := filter (fun r => cl_wallet_id r = wallet) (db_ledger db) in
  let total := foldr (fun r acc => row_signed r + acc) 0 rows in
  if bool_decide (is_i64 total) then (inr (total, Z.of_nat (length rows)), db)
  else (inl (PgError "22003" "" "" "bigint out of range"), db).

Definition pg_SumByWallet (q : querier) (wallet : WalletID) (cur : Currency) : M World (Money * Z) :=
  '(total, count) ← exec q (sum_wallet (id_value wallet));
  money ← pure (NewMoneyFromMinor total cur);
  mret (money, count).

(** ** The inbox: [inbox.go] *)

Definition constraintInboxIdentity : string := "inbox_messages_identity".

(** [INSERT ... ON CONFLICT DO NOTHING]; the result is the number of rows. *)
Definition insert_inbox (key : string * string) (r : inbox_row) (db : DB) : (pg_failure + Z) * DB :=
  match db_inbox db !! key with
  | Some _ => (inr 0, db)
  | None => (inr 1, with_inbox (insert key r) db)
  end.

Definition pg_Claim (q : querier) (message : InboxMessage) : M World unit :=
  rows ← exec q (insert_inbox (im_ConsumerName message, im_MessageID message)
           (mkInboxRow (id_value (im_PayloadHash message))
              (en_encode env (im_ReceivedAt message)) None));
  if rows =? 0 then throw (NewConflict constraintInboxIdentity) else mret ().

Definition complete_inbox (key : string * string) (at_ : Z) (db : DB) : (pg_failure + Z) * DB :=
  match db_inbox db !! key with
  | None => (inr 0, db)
  | Some r => (inr 1, with_inbox (insert key
                        (mkInboxRow (ci_payload_hash r) (ci_received_at r) (Some at_))) db)
  end.

Definition pg_Complete (q : querier) (consumerName messageID : string) (at_ : Time) : M World unit :=
  rows ← exec q (complete_inbox (consumerName, messageID) (en_encode env at_));
  if rows =? 1 then mret () else throw (SentinelError ErrNotFound).

Definition pg_FindInbox (q : querier) (consumerName messageID : string) : M World InboxMessage :=
  r ← query_row q (fun db => match db_inbox db !! (consumerName, messageID) with
                             | Some r => [r] | None => [] end);
  pure (hash ← wrap_err (ParsePayloadHash (ci_payload_hash r));
        Ok (mkInboxMessage consumerName messageID hash (en_decode env (ci_received_at r))
              (derefTime (ci_completed_at r)))).

(** ** The outbox: [outbox.go] *)

Definition outbox_row_of (seq : Z) (r : OutboxRecord) : outbox_row := {|
  co_seq := seq;
  co_event_id := or_EventID r;
  co_event_type := ev_Type (or_Event r);
  co_event_version := ev_Version (or_Event r);
  co_aggregate_id := ev_AggregateID (or_Event r);
  co_payload := en_jsonb env (ev_Payload (or_Event r));
  co_correlation_id := nullable (or_CorrelationID r);
  co_causation_id := nullable (or_CausationID r);
  co_occurred_at := en_encode env (ev_OccurredAt (or_Event r));
  co_attempts := or_Attempts r;
  co_next_attempt_at := en_encode env (or_NextAttemptAt r);
  co_published_at := nullableTime (or_PublishedAt r);
  co_last_error := nullable (or_LastError r)
|}.

Definition insert_outbox_row (row : outbox_row) (db : DB) : (pg_failure + unit) * DB :=
  let used := with_outbox id (db_outbox_seq db + 1) db in
  if negb (int4_ok (co_event_version row) && int4_ok (co_attempts row))
  then (inl out_of_int4, db)
  else
    match violated (outbox_checks row) with
    | Some name => (inl (check_violation "outbox_events" name), used)
    | None =>
      match outbox_uniques db row with
      | [] => (inr (), with_outbox (fun l => l ++ [row]) (db_outbox_seq db + 1) db)
      | names => (inl (unique_violation "outbox_events" names), used)
      end
    end.

Definition insert_outbox (r : OutboxRecord) (db : DB) : (pg_failure + unit) * DB :=
  insert_outbox_row (outbox_row_of (db_outbox_seq db) r) db.

Definition pg_OutboxAppend (q : querier) (r : OutboxRecord) : M World unit :=
  exec q (insert_outbox r).

Definition outbox_before (a b : outbox_row) : Prop := co_seq a <= co_seq b.
#[local] Instance outbox_before_dec : RelDecision outbox_before.
Proof. intros a b. apply Z_le_dec. Defined.

(** [ORDER BY seq LIMIT n FOR UPDATE SKIP LOCKED] *)
Definition select_publishable (call : nat) (at_ limit : Z) (db : DB) : list outbox_row :=
  take (Z.to_nat limit)
    (merge_sort outbox_before
       (filter (fun r => (is_null (co_published_at r) && (co_next_attempt_at r <=? at_) &&
                          negb (en_locked env call (co_event_id r))) = true) (db_outbox db))).

Definition scanOutbox (r : outbox_row) : result OutboxRecord :=
  Ok (mkOutboxRecord (co_event_id r)
    (mkEvent (co_event_type r) (co_event_version r) (co_aggregate_id r)
       (en_decode env (co_occurred_at r)) (co_payload r))
    (deref (co_correlation_id r)) (deref (co_causation_id r)) (co_attempts r)
    (en_decode env (co_next_attempt_at r)) (derefTime (co_published_at r))
    (deref (co_last_error r))).

Definition pg_ClaimDue (q : querier) (at_ : Time) (limit : Z) : M World (list OutboxRecord) :=
  if limit <=? 0 then throw (Opaque "limit must be positive")
  else
    rows ← (fun w => exec q (select (select_publishable (wo_calls w) (en_encode env at_) limit)) w);
    pure (scan_all scanOutbox rows).

(** An UPDATE: every selected row is replaced, or the statement fails; the
    result is the number of rows. *)
Fixpoint update_rows {R} (P : R -> bool) (f : R -> pg_failure + R) (rows : list R)
    : pg_failure + (Z * list R) :=
  match rows with
  | [] => inr (0, [])
  | r :: rows =>
    match (if P r then f r else inr r), update_rows P f rows with
    | inl e, _ => inl e
    | _, inl e => inl e
    | inr r', inr (n, rest) => inr ((if P r then n + 1 else n), r' :: rest)
    end
  end.

Definition update_outbox (P : outbox_row -> bool) (f : outbox_row -> pg_failure + outbox_row) (db : DB)
    : (pg_failure + Z) * DB :=
  match update_rows P f (db_outbox db) with
  | inl e => (inl e, db)
  | inr (n, rows) => (inr n, with_outbox (fun _ => rows) (db_outbox_seq db) db)
  end.

(** [WHERE event_id = $2 AND published_at IS NULL] *)
Definition unpublished (eventID : string) (r : outbox_row) : bool :=
  bool_decide (co_event_id r = eventID) && is_null (co_published_at r).

Definition mark_published (at_ : Z) (r : outbox_row) : pg_failure + outbox_row :=
  inr (mkOutboxRow (co_seq r) (co_event_id r) (co_event_type r) (co_event_version r)
    (co_aggregate_id r) (co_payload r) (co_correlation_id r) (co_causation_id r)
    (co_occurred_at r) (co_attempts r) (co_next_attempt_at r) (Some at_) None).

Definition pg_MarkPublished (q : querier) (eventID : string) (at_ : Time) : M World unit :=
  rows ← exec q (update_outbox (unpublished eventID) (mark_published (en_encode env at_)));
  if rows =? 1 then mret () else throw (SentinelError ErrNotFound).

(** [attempts = attempts + 1] overflows an [INTEGER] column at its maximum. *)
Definition reschedule_row (at_ : Z) (cause : option string) (r : outbox_row) : pg_failure + outbox_row :=
  if negb (int4_ok (co_attempts r + 1)) then inl (PgError "22003" "" "" "integer out of range")
  else
    let r' := mkOutboxRow (co_seq r) (co_event_id r) (co_event_type r) (co_event_version r)
      (co_aggregate_id r) (co_payload r) (co_correlation_id r) (co_causation_id r)
      (co_occurred_at r) (co_attempts r + 1) at_ (co_published_at r) cause in
    match violated (outbox_checks r') with
    | Some name => inl (check_violation "outbox_events" name)
    | None => inr r'
    end.

Definition pg_Reschedule (q : querier) (eventID : string) (nextAttemptAt : Time) (cause : string)
    : M World unit :=
  _ ← exec q (update_outbox (unpublished eventID)
               (reschedule_row (en_encode env nextAttemptAt) (nullable cause)));
  mret ().

(** ** The bundles: [repositories] and [queries] *)

Definition pg_wallet_reader (q : querier) : WalletReader World :=
  mkWalletReader World (pg_FindWallet q) (pg_FindByPlayerAndCurrency q).
Definition pg_ledger_reader (q : querier) : LedgerReader World :=
  mkLedgerReader World (pg_ListByWallet q) (pg_SumByWallet q).
Definition pg_transaction_reader (q : querier) : TransactionReader World :=
  mkTransactionReader World (pg_FindTransaction q) (pg_FindByBusinessID q)
    (pg_FindProcessedReversalOf q).

(** [FindByIDForUpdate] adds the row lock; the row it yields is the same. *)
Definition pg_repositories (q : querier) : Repositories World := mkRepositories World
  (mkWalletRepository World (pg_wallet_reader q) (pg_FindByIDForUpdate q) (pg_InsertWallet q)
     (pg_UpdateBalance q))
  (mkLedgerRepository World (pg_ledger_reader q) (pg_Append q))
  (mkTransactionRepository World (pg_transaction_reader q) (pg_InsertTransaction q)
     (pg_UpdateTransaction q) (pg_ClaimDueReferences q))
  (mkInboxRepository World (pg_Claim q) (pg_Complete q) (pg_FindInbox q))
  (mkOutboxRepository World (pg_OutboxAppend q) (pg_ClaimDue q) (pg_MarkPublished q)
     (pg_Reschedule q)).

Definition pg_queries (q : querier) : Queries World :=
  mkQueries World (pg_wallet_reader q) (pg_ledger_reader q) (pg_transaction_reader q).

(** ** The unit of work: [uow.go] *)

Record RetryPolicy := mkRetryPolicy { rt_MaxAttempts : Z; rt_BaseBackoff : Z }.

Definition DefaultRetryPolicy : RetryPolicy := mkRetryPolicy 3 5000000.

Definition RetryPolicy_normalised (p : RetryPolicy) : RetryPolicy :=
  mkRetryPolicy
    (if rt_MaxAttempts p <? 1 then rt_MaxAttempts DefaultRetryPolicy else rt_MaxAttempts p)
    (if rt_BaseBackoff p <=? 0 then rt_BaseBackoff DefaultRetryPolicy else rt_BaseBackoff p).

Definition transient (err : error) : bool :=
  is_sentinel err ErrSerializationFailure || is_sentinel err ErrVersionMismatch.

(** The wait before the next attempt, and whether the caller went away
    during it. *)
Definition backoff (policy : RetryPolicy) (attempt : Z) (w : World) : (Z * bool) * World :=
  let window := i64 (Z.shiftl (rt_BaseBackoff policy) (attempt - 1)) in
  let n := i64 (Z.quot window 2 + 1) in
  let drawn := en_rand env (wo_calls w) n in
  ((i64 (Z.quot window 2 + drawn), en_cancelled env (S (wo_calls w))), tick (tick w)).

Definition begin (w : World) : option pg_failure * World :=
  let db := en_others env (wo_calls w) (wo_db w) in
  (en_fault env (wo_calls w), mkWorld db db false (S (wo_calls w))).

Definition rollback (w : World) : World :=
  mkWorld (rollback_to (wo_saved w) (wo_db w)) (wo_saved w) false (S (wo_calls w)).

(** Committing an aborted transaction rolls it back, which the driver
    reports as an error. *)
Definition commit (w : World) : result unit * World :=
  if wo_aborted w then (Err (Opaque "commit unexpectedly resulted in rollback"), rollback w)
  else
    match en_commit env (wo_calls w) with
    | Committed => (Ok (), tick w)
    | CommitRefused e => (Err (translate (Failure e)), rollback w)
    | CommitReplyLost what => (Err (translate (Failure (DriverError what))), tick w)
    end.

Definition attempt {C} (ctx : Context) (fn : Context -> Repositories World -> Callback World C)
    : Callback World C := fun c w =>
  match begin w with
  | (Some e, w) => (Err (translate (Failure e)), c, w)
  | (None, w) =>
    let inner := mkContext (cx_identity ctx) (cx_correlationID ctx) true in
    match fn inner (pg_repositories tx_querier) c w with
    | (Err e, c, w) => (Err e, c, rollback w)
    | (Ok _, c, w) => let '(r, w) := commit w in (r, c, w)
    end
  end.

(** The loop of [Do]; [more] is the number of further attempts the policy
    can allow. *)
Fixpoint attempts {C} (policy : RetryPolicy) (more : nat) (n : Z) (ctx : Context)
    (fn : Context -> Repositories World -> Callback World C) : Callback World C := fun c w =>
  match attempt ctx fn c w with
  | (Ok u, c, w) => (Ok u, c, w)
  | (Err e, c, w) =>
    if negb (transient e) || (rt_MaxAttempts policy <=? n) then (Err e, c, w)
    else
      let '((_, gone), w) := backoff policy n w in
      if gone then (Err e, c, w)
      else match more with
           | O => (Err e, c, w)
           | S more => attempts policy more (n + 1) ctx fn c w
           end
  end.

(** Other sessions commit when an attempt begins, and not again before it
    ends. *)
Definition pg_Do (retry : RetryPolicy) (C : Type) (ctx : Context)
    (fn : Context -> Repositories World -> Callback World C) : Callback World C := fun c w =>
  if cx_insideUnitOfWork ctx then (Err (SentinelError ErrNestedUnitOfWork), c, w)
  else
    let policy := RetryPolicy_normalised retry in
    attempts policy (Z.to_nat (rt_MaxAttempts policy)) 1 ctx fn c w.

Definition pg_UnitOfWork (retry : RetryPolicy) : UnitOfWork World := mkUnitOfWork World (pg_Do retry).

(** ** The snapshot: [snapshot.go] *)

Definition pg_SnapshotDo (A : Type) (ctx : Context) (fn : Context -> Queries World -> M World A)
    : M World A := fun w =>
  match begin w with
  | (Some e, w) => (Err (translate (Failure e)), w)
  | (None, w) => let '(r, w) := fn ctx (pg_queries tx_querier) w in (r, rollback w)
  end.

Definition pg_Snapshot : Snapshot World := mkSnapshot World pg_SnapshotDo.
End postgres.
