(* ===== verification/Rows.v ===== *)
(** * Rows: stored objects and their rows

    The round trip of wallets, operations and ledger entries through the
    columns of their tables, and the fact that every object the program stores
    satisfies the CHECK constraints of its table. *)

From S2P Require Import Prelude Errors GoTime GoStrings Money Identifier Ledger Wallet Transaction.
From S2P Require Import Event Identity Ports Store StoreInv Submit Storable Schema Postgres.

#[local] Open Scope string_scope.
#[local] Open Scope list_scope.
#[local] Open Scope Z_scope.

(** The driver keeps an instant to the microsecond. *)
Class DriverLaws (env : Environment) : Prop := {
  en_encode_law : forall t, en_encode env t = instant t - instant t mod 1000;
  en_decode_law : forall z, instant (en_decode env z) = z
}.

#[export] Instance pg_precision (env : Environment) `{DriverLaws env} : Precision := {|
  ts_encode := en_encode env;
  ts_decode := en_decode env;
  stored_json := en_jsonb env;
  ts_encode_law := en_encode_law;
  ts_decode_law := en_decode_law
|}.

Section rows.
Context (env : Environment) `{!DriverLaws env}.

(** ** Columns *)

Lemma deref_nullable s : deref (nullable s) = s.
Proof. unfold nullable. by case_bool_decide. Qed.

Lemma encode_norm t : Time_IsZero t = false -> en_encode env (norm t) = en_encode env t.
Proof.
  intros Hz. rewrite !en_encode_law, norm_instant, Hz.
  pose proof (Z.mod_pos_bound (instant t) 1000). rewrite Zminus_mod, Zmod_mod, Z.sub_diag, Zmod_0_l. lia.
Qed.

Lemma decode_encode_UTC t : Time_IsZero t = false ->
  Time_UTC (en_decode env (en_encode env t)) = norm t.
Proof. intros Hz. unfold norm. by rewrite Hz. Qed.

Lemma encode_nonzero t : Time_IsZero t = false -> set_late t ->
  Time_IsZero (en_decode env (en_encode env t)) = false.
Proof.
  intros Hz Hl. pose proof (norm_IsZero t Hl) as Hn. rewrite Hz in Hn.
  unfold norm in Hn. rewrite Hz in Hn. by rewrite Time_IsZero_UTC in Hn.
Qed.

Lemma derefTime_nullable t : Time_UTC (derefTime env (nullableTime env t)) = norm t.
Proof. unfold nullableTime, norm. by destruct (Time_IsZero t). Qed.

Lemma nullableTime_norm t : set_late t -> nullableTime env (norm t) = nullableTime env t.
Proof.
  intros Hl. unfold nullableTime. rewrite norm_IsZero by done.
  destruct (Time_IsZero t) eqn:E; [done|]. by rewrite encode_norm.
Qed.

Lemma derefTime_stored t : derefTime env (nullableTime env t) = stored_opt t.
Proof. unfold nullableTime, stored_opt. by destruct (Time_IsZero t). Qed.

Lemma currency_ok_code c : currency_ok c ->
  String.length (cur_code c) = 3%nat /\ all_uppercase (cur_code c) = true.
Proof.
  unfold currency_ok, ParseCurrency. destruct (Nat.eqb _ 3) eqn:E; [|done].
  apply Nat.eqb_eq in E. destruct (all_uppercase _); done.
Qed.

Lemma currency_ok_nonzero c : currency_ok c -> Currency_IsZero c = false.
Proof.
  intros [Hl _]%currency_ok_code. unfold Currency_IsZero. apply bool_decide_eq_false.
  intros E. by rewrite E in Hl.
Qed.

Lemma uppercase_trim s :
  String.length s = 3%nat -> all_uppercase s = true -> TrimSpace s = s.
Proof.
  destruct s as [|a [|b [|c [|]]]]; try done. intros _ H. cbn in H.
  repeat match type of H with (if ?b then _ else _) = _ => destruct b eqn:?; [done|] end.
  apply (TrimSpace_id a [b] c); apply plain_between; lia.
Qed.

Lemma currency_scan c : currency_ok c -> ParseCurrency (TrimSpace (cur_code c)) = Ok c.
Proof. intros Hc. destruct (currency_ok_code c Hc). by rewrite uppercase_trim. Qed.

Lemma currency_char3 c : currency_ok c -> char3 (cur_code c) = Some (cur_code c).
Proof. intros [H _]%currency_ok_code. unfold char3. by rewrite H. Qed.

Lemma currency_iso c : currency_ok c -> iso4217 (cur_code c) = true.
Proof. intros [H1 H2]%currency_ok_code. unfold iso4217. by rewrite H1, H2. Qed.

Lemma NewMoneyFromMinor_ok v c : currency_ok c -> NewMoneyFromMinor v c = Ok (mkMoney v c).
Proof. intros Hc. unfold NewMoneyFromMinor. by rewrite currency_ok_nonzero. Qed.

Lemma parseOptional_nullable {k} (i : identifier k) :
  id_fits i -> parseOptional (nullable (id_value i)) (parseIdentifier k) = Ok i.
Proof.
  intros [->|Hi]; [done|]. unfold nullable. destruct Hi as [Hne Hlen].
  rewrite bool_decide_eq_false_2 by done. cbn. rewrite bool_decide_eq_false_2 by done.
  by apply parseIdentifier_value.
Qed.

Lemma nullable_null {k} (i : identifier k) : is_null (nullable (id_value i)) = id_IsZero i.
Proof. unfold nullable, id_IsZero. by case_bool_decide. Qed.

Lemma same_value_nullable {k} (i j : identifier k) :
  i <> zeroId -> same_value (nullable (id_value j)) (nullable (id_value i)) = bool_decide (j = i).
Proof.
  intros Hi. assert (Hv : id_value i <> "") by (intros E; apply Hi; by apply id_value_inj).
  unfold nullable. rewrite (bool_decide_eq_false_2 (id_value i = "")) by done.
  case_bool_decide as E; cbn.
  - symmetry. apply bool_decide_eq_false. intros ->. done.
  - apply bool_decide_ext. split; [apply id_value_inj|by intros ->].
Qed.

(** ** Wallets *)

Lemma scanWallet_row w : wallet_storable w ->
  scanWallet env (wallet_row_of env w) = Ok (stored_wallet w).
Proof.
  intros [Hok Hid Hp Hc H1 H2]. destruct Hok as [Hid0 Hp0 Hcu Hini Hbal Hv [Hc0 _] [Hu0 _]].
  unfold scanWallet. cbn [cw_id cw_player_id cw_currency cw_balance_minor cw_version
    cw_created_at cw_updated_at wallet_row_of].
  unfold ParseWalletID, ParsePlayerID. rewrite !parseIdentifier_value by done. cbn [wrap_err mbind result_bind].
  rewrite currency_scan by done. cbn [wrap_err mbind result_bind].
  rewrite NewMoneyFromMinor_ok by done. cbn [wrap_err mbind result_bind].
  assert (Hm : mkMoney (minor (w_balance w)) (w_currency w) = w_balance w)
    by (rewrite <- Hcu; by destruct (w_balance w)).
  rewrite Hm. unfold RehydrateWallet. cbn [rw_ID rw_PlayerID rw_Balance rw_Version rw_CreatedAt rw_UpdatedAt].
  rewrite Hid0, Hp0, Hini, !encode_nonzero by done. cbn [negb].
  replace (Money_IsNegative (w_balance w)) with false
    by (symmetry; unfold Money_IsNegative; lia).
  replace (w_version w <? 1) with false by lia.
  unfold stored_wallet. by rewrite !decode_encode_UTC, Hcu.
Qed.

Lemma wallet_row_stored w : wallet_storable w ->
  wallet_row_of env (stored_wallet w) = wallet_row_of env w.
Proof.
  intros [Hok _ _ _ _ _]. destruct Hok as [_ _ _ _ _ _ [Hc _] [Hu _]].
  unfold wallet_row_of, stored_wallet; cbn. by rewrite !encode_norm.
Qed.

Lemma wallet_row_checks w : wallet_storable w -> violated (wallet_checks (wallet_row_of env w)) = None.
Proof.
  intros [Hok _ _ Hc _ _]. destruct Hok. unfold wallet_checks. cbn.
  rewrite currency_iso by done.
  replace (0 <=? minor (w_balance w)) with true by lia.
  by replace (1 <=? w_version w) with true by lia.
Qed.

(** ** Ledger entries *)

Lemma money_currency m c : currency m = c -> mkMoney (minor m) c = m.
Proof. intros <-. by destruct m. Qed.

Lemma scanLedgerEntry_row q e : entry_storable e ->
  scanLedgerEntry env (ledger_row_of env q e) = Ok (q, stored_entry e).
Proof.
  intros [Hok Hid Hw Ht Hc Hb H1]. unfold scanLedgerEntry. cbn [ledger_row_of cl_id cl_wallet_id
    cl_transaction_id cl_currency cl_amount_minor cl_balance_before_minor cl_balance_after_minor
    cl_direction cl_created_at cl_seq].
  unfold ParseWalletID, ParseTransactionID, ParseLedgerEntryID.
  rewrite !parseIdentifier_value by done. cbn [wrap_err mbind result_bind].
  rewrite currency_scan by done. cbn [wrap_err mbind result_bind].
  rewrite !NewMoneyFromMinor_ok by done. cbn [mbind result_bind].
  rewrite !money_currency by (apply Hok || done).
  pose proof (NewLedgerEntry_rehydrate _ Hok) as Hr. unfold entry_params in Hr.
  revert Hr. unfold NewLedgerEntry.
  cbn [lp_ID lp_WalletID lp_TransactionID lp_Direction lp_Amount lp_BalanceBefore lp_BalanceAfter lp_CreatedAt].
  rewrite encode_nonzero by (apply Hok || done). rewrite (eo_createdAt e Hok).
  unfold fail. repeat (case_match; try discriminate).
  destruct (applyDirection _ _ _) as [x|]; [|discriminate]. cbn [mbind result_bind].
  repeat (case_match; try discriminate). intros _. cbn [mbind result_bind].
  rewrite decode_encode_UTC by apply Hok. done.
Qed.

Lemma ledger_row_stored q e : entry_storable e ->
  ledger_row_of env q (stored_entry e) = ledger_row_of env q e.
Proof. intros [Hok _ _ _ _ _ _]. unfold ledger_row_of, stored_entry; cbn. by rewrite encode_norm by apply Hok. Qed.

Lemma ledger_row_checks q e : entry_storable e -> violated (ledger_checks (ledger_row_of env q e)) = None.
Proof.
  intros [Hok _ _ _ Hc [Hb Ha] _]. destruct Hok as [_ _ _ Hd _ _ _ Hpos _ _ _ _ _ Har].
  unfold ledger_checks.
  cbn [ledger_row_of cl_amount_minor cl_direction cl_balance_after_minor cl_balance_before_minor cl_currency].
  rewrite currency_iso by done. replace (0 <? minor (le_amount e)) with true by lia.
  replace (0 <=? minor (le_balanceBefore e)) with true by lia.
  replace (0 <=? minor (le_balanceAfter e)) with true by lia.
  destruct Hd as [Hd|Hd]; rewrite Hd in *; rewrite ?signed_Debit, ?signed_Credit in Har.
  - by replace (minor (le_balanceAfter e) =? minor (le_balanceBefore e) - minor (le_amount e))
      with true by lia.
  - by replace (minor (le_balanceAfter e) =? minor (le_balanceBefore e) + minor (le_amount e))
      with true by lia.
Qed.

(** ** Operations *)

(** The times of a stored operation, in UTC. *)
Definition tx_utc (t : WagerTransaction) : WagerTransaction :=
  mkTx (t_id t) (t_origin t) (t_kind t) (t_status t) (t_walletID t) (t_playerID t) (t_money t)
    (t_providerID t) (t_externalID t) (t_idempotencyKey t) (t_payloadHash t) (t_roundID t)
    (t_gameID t) (t_referenceExternalID t) (t_resolvedReferenceID t) (t_failureCode t)
    (t_referenceAttempts t) (Time_UTC (t_referenceNextAttemptAt t))
    (Time_UTC (t_referenceDeadlineAt t)) (t_balanceAfter t) (Time_UTC (t_createdAt t))
    (Time_UTC (t_updatedAt t)).

Lemma RehydrateTransaction_utc t : RehydrateTransaction (tx_utc t) = RehydrateTransaction t.
Proof.
  unfold RehydrateTransaction, tx_utc.
  cbn [t_id t_origin t_kind t_status t_walletID t_playerID t_money t_providerID t_externalID
    t_idempotencyKey t_payloadHash t_roundID t_gameID t_referenceExternalID t_resolvedReferenceID
    t_failureCode t_referenceAttempts t_referenceNextAttemptAt t_referenceDeadlineAt
    t_balanceAfter t_createdAt t_updatedAt].
  rewrite !Time_IsZero_UTC, !utcOrZero_UTC. done.
Qed.

Lemma balance_scan t : tx_storable t ->
  (match nullableMinor (t_balanceAfter t) with
   | None => Ok noMoney
   | Some b => wrap_err (NewMoneyFromMinor b (currency (t_money t)))
   end) = Ok (t_balanceAfter t).
Proof.
  intros Hs. unfold nullableMinor. destruct (Money_IsInitialised (t_balanceAfter t)) eqn:E; cbn [negb].
  - rewrite NewMoneyFromMinor_ok by apply Hs. cbn [wrap_err]. f_equal. apply money_currency.
    apply (ts_ok t Hs). by apply (ts_ok t Hs).
  - by rewrite (ts_no_balance t Hs E).
Qed.

Lemma scanTransaction_row t : tx_storable t ->
  scanTransaction env (tx_row_of env t) = Ok (stored_tx t).
Proof.
  intros Hs. unfold scanTransaction.
  cbn [tx_row_of ct_id ct_origin ct_kind ct_status ct_wallet_id ct_player_id ct_amount_minor
    ct_currency ct_provider_id ct_external_id ct_idempotency_key ct_payload_hash ct_round_id
    ct_game_id ct_reference_external_id ct_resolved_reference_id ct_reference_attempts
    ct_reference_next_attempt_at ct_reference_deadline_at ct_failure_code ct_balance_after_minor
    ct_created_at ct_updated_at].
  rewrite currency_scan by apply Hs. cbn [wrap_err mbind result_bind].
  rewrite NewMoneyFromMinor_ok by apply Hs. cbn [wrap_err mbind result_bind].
  unfold ParseWalletID, ParsePlayerID, ParseTransactionID, ParseProviderID, ParseRoundID, ParseGameID,
    ParseExternalTransactionID, ParseIdempotencyKey, ParsePayloadHash.
  rewrite !parseIdentifier_value by apply Hs. cbn [wrap_err mbind result_bind].
  rewrite !parseOptional_nullable by apply Hs. cbn [wrap_err mbind result_bind].
  rewrite balance_scan by done. cbn [mbind result_bind].
  rewrite <- RehydrateTransaction_utc.
  rewrite <- (RehydrateTransaction_ok (stored_tx t)) by apply stored_tx_ok, Hs.
  f_equal. unfold tx_utc, stored_tx.
  cbn [t_id t_origin t_kind t_status t_walletID t_playerID t_money t_providerID t_externalID
    t_idempotencyKey t_payloadHash t_roundID t_gameID t_referenceExternalID t_resolvedReferenceID
    t_failureCode t_referenceAttempts t_referenceNextAttemptAt t_referenceDeadlineAt
    t_balanceAfter t_createdAt t_updatedAt].
  rewrite !derefTime_nullable, deref_nullable, money_currency by done.
  destruct (to_createdAt t (ts_ok t Hs)) as [Hc _]. destruct (to_updatedAt t (ts_ok t Hs)) as [Hu _].
  by rewrite !decode_encode_UTC.
Qed.

Lemma tx_row_stored t : tx_storable t -> tx_row_of env (stored_tx t) = tx_row_of env t.
Proof.
  intros Hs. unfold tx_row_of, stored_tx.
  cbn [t_id t_origin t_kind t_status t_walletID t_playerID t_money t_providerID t_externalID
    t_idempotencyKey t_payloadHash t_roundID t_gameID t_referenceExternalID t_resolvedReferenceID
    t_failureCode t_referenceAttempts t_referenceNextAttemptAt t_referenceDeadlineAt
    t_balanceAfter t_createdAt t_updatedAt].
  destruct (to_createdAt t (ts_ok t Hs)) as [Hc _]. destruct (to_updatedAt t (ts_ok t Hs)) as [Hu _].
  by rewrite !encode_norm, !nullableTime_norm by (done || apply Hs).
Qed.

Lemma violated_None checks : Forall (fun nb => nb.2 = true) checks -> violated checks = None.
Proof. induction 1 as [|[n b] l Hb _ IH]; cbn in *; [done|]. by rewrite Hb. Qed.

Lemma is_in_true s l : s ∈ l -> is_in s l = true.
Proof. apply bool_decide_eq_true_2. Qed.

Lemma tx_amount_policy t : tx_ok t ->
  bool_decide (t_kind t = "LOSS") && (minor (t_money t) =? 0) ||
  negb (bool_decide (t_kind t = "LOSS")) && (0 <? minor (t_money t)) = true.
Proof.
  intros Hok. pose proof (to_amount t Hok) as H. apply Kind_validateAmount_iff in H as (_ & H).
  change "LOSS" with KindLoss. destruct H as [[Hk Hm]|[Hk Hm]].
  - rewrite bool_decide_eq_true_2 by done. by rewrite Hm.
  - rewrite bool_decide_eq_false_2 by done. cbn. by apply Z.ltb_lt.
Qed.

Lemma tx_shape_external t : tx_ok t ->
  negb (bool_decide (t_origin t = "EXTERNAL")) ||
  (negb (bool_decide (t_kind t = "OPENING")) && negb (id_IsZero (t_providerID t)) &&
   negb (id_IsZero (t_externalID t)) && negb (id_IsZero (t_idempotencyKey t)) &&
   negb (id_IsZero (t_payloadHash t)) && negb (id_IsZero (t_roundID t)) &&
   negb (id_IsZero (t_gameID t))) = true.
Proof.
  intros Hok. destruct (to_shape t Hok) as [(Ho & _)|(Ho & Hk & Hp & He & Hi & Hh & Hr & Hg & _)].
  - by rewrite Ho.
  - apply id_IsZero_neq in Hp, He, Hi, Hh, Hr, Hg. rewrite Hp, He, Hi, Hh, Hr, Hg, Ho.
    by rewrite (bool_decide_eq_false_2 (t_kind t = "OPENING")).
Qed.

Lemma tx_shape_internal t : tx_ok t ->
  negb (bool_decide (t_origin t = "INTERNAL")) ||
  (bool_decide (t_kind t = "OPENING") && id_IsZero (t_providerID t) &&
   id_IsZero (t_externalID t) && id_IsZero (t_idempotencyKey t) &&
   id_IsZero (t_payloadHash t) && id_IsZero (t_roundID t) && id_IsZero (t_gameID t) &&
   id_IsZero (t_referenceExternalID t)) = true.
Proof.
  intros Hok. destruct (to_shape t Hok) as [(Ho & Hk & Hp & He & Hi & Hh & Hr & Hg & Href)|(Ho & _)].
  - by rewrite Ho, Hk, Hp, He, Hi, Hh, Hr, Hg, Href.
  - by rewrite Ho.
Qed.

Lemma tx_failure_code t : tx_ok t ->
  (is_in (t_status t) ["REJECTED"; "FAILED"] && negb (is_null (nullable (t_failureCode t)))) ||
  (negb (is_in (t_status t) ["REJECTED"; "FAILED"]) && is_null (nullable (t_failureCode t))) = true.
Proof.
  intros Hok. pose proof (to_failure t Hok) as H.
  unfold is_in, nullable. case_bool_decide as E1; case_bool_decide as E2; cbn; try done.
  - exfalso. apply H; [|done]. set_solver.
  - exfalso. apply E1. apply H in E2. set_solver.
Qed.

Lemma tx_reference_policy t : tx_ok t ->
  (is_in (t_kind t) ["REFUND"; "ROLLBACK"] && negb (id_IsZero (t_referenceExternalID t))) ||
  (negb (is_in (t_kind t) ["REFUND"; "ROLLBACK"]) && id_IsZero (t_referenceExternalID t)) = true.
Proof.
  intros Hok. destruct (to_shape t Hok) as [(_ & Hk & Hsh)|(_ & _ & _ & _ & _ & _ & _ & _ & Href)].
  - rewrite Hk. cbn. apply id_IsZero_true. apply Hsh.
  - assert (Hrev : Kind_IsReversal (t_kind t) = is_in (t_kind t) ["REFUND"; "ROLLBACK"]).
    { apply eq_true_iff_eq. rewrite Kind_IsReversal_iff. unfold is_in. rewrite bool_decide_eq_true.
      change "REFUND" with KindRefund. change "ROLLBACK" with KindRollback. set_solver. }
    rewrite <- Hrev. rewrite <- id_IsZero_neq in Href.
    destruct (Kind_IsReversal _), (id_IsZero _) eqn:Hz; cbn; try done.
    + exfalso. by discriminate (proj1 Href eq_refl).
    + exfalso. by discriminate (proj2 Href eq_refl).
Qed.

Lemma tx_reference_wait t : tx_ok t ->
  (bool_decide (t_status t = "PENDING_REFERENCE") && is_in (t_kind t) ["REFUND"; "ROLLBACK"] &&
     negb (is_null (nullableTime env (t_referenceNextAttemptAt t))) &&
     negb (is_null (nullableTime env (t_referenceDeadlineAt t)))) ||
  negb (bool_decide (t_status t = "PENDING_REFERENCE")) = true.
Proof.
  intros Hok. pose proof (to_waiting t Hok) as H. case_bool_decide as E; [|done].
  destruct (H E) as (Hrev & _ & H1 & H2). unfold nullableTime. rewrite H1, H2. cbn.
  rewrite is_in_true; [done|]. apply Kind_IsReversal_iff in Hrev.
  change "REFUND" with KindRefund. change "ROLLBACK" with KindRollback. set_solver.
Qed.

Lemma tx_row_checks t : tx_storable t -> violated (tx_checks (tx_row_of env t)) = None.
Proof.
  intros Hs. pose proof (ts_ok t Hs) as Hok. apply violated_None. unfold tx_checks.
  cbn [tx_row_of ct_id ct_origin ct_kind ct_status ct_wallet_id ct_player_id ct_amount_minor
    ct_currency ct_provider_id ct_external_id ct_idempotency_key ct_payload_hash ct_round_id
    ct_game_id ct_reference_external_id ct_resolved_reference_id ct_reference_attempts
    ct_reference_next_attempt_at ct_reference_deadline_at ct_failure_code ct_balance_after_minor
    ct_created_at ct_updated_at].
  rewrite !nullable_null.
  repeat (apply Forall_cons; split); [..|by constructor]; cbn [snd].
  - by apply tx_amount_policy.
  - pose proof (ts_balance t Hs). unfold nullableMinor.
    destruct (Money_IsInitialised (t_balanceAfter t)); cbn [negb]; [apply Z.leb_le; lia|done].
  - apply currency_iso, Hs.
  - by apply tx_shape_external.
  - by apply tx_failure_code.
  - by apply tx_shape_internal.
  - apply is_in_true. apply Kind_Valid_iff, Hok.
  - apply is_in_true. destruct (to_shape t Hok) as [(Ho & _)|(Ho & _)]; rewrite Ho; set_solver.
  - pose proof (to_attempts t Hok). lia.
  - by apply tx_reference_policy.
  - by apply tx_reference_wait.
  - apply is_in_true. apply Status_Valid_iff, Hok.
Qed.

Lemma tx_row_int4 t : tx_storable t -> int4_ok (t_referenceAttempts t) = true.
Proof.
  intros Hs. pose proof (ts_attempts t Hs). pose proof (to_attempts t (ts_ok t Hs)).
  unfold int4_ok, int32_max in *. lia.
Qed.
End rows.
