(* ===== verification/PostgresLaws.v ===== *)
(** * PostgresLaws: the adapter keeps the promises of the store

    A database represents an abstract store when its rows are the rows of the
    store's objects; open, dead and idle transactions are worlds whose tables
    represent stores.  Under the documented behaviour of the environment the
    repositories, the queries and the unit of work of [Postgres] satisfy the
    laws of [Store]. *)

From stdpp Require Import sorting.
From S2P Require Import Prelude Errors GoTime GoStrings Money Identifier Ledger Wallet Transaction.
From S2P Require Import Event Identity Ports Store StoreInv Submit Storable Schema Postgres.
From S2P Require Import Rows.

#[local] Open Scope string_scope.
#[local] Open Scope list_scope.
#[local] Open Scope Z_scope.

(** ** Representation *)

Definition message_of_row (env : Environment) (k : string * string) (r : inbox_row) : InboxMessage :=
  mkInboxMessage k.1 k.2 (mkId (ci_payload_hash r)) (en_decode env (ci_received_at r))
    (derefTime env (ci_completed_at r)).

Definition record_of_row (env : Environment) (r : outbox_row) : OutboxRecord :=
  mkOutboxRecord (co_event_id r)
    (mkEvent (co_event_type r) (co_event_version r) (co_aggregate_id r)
       (en_decode env (co_occurred_at r)) (co_payload r))
    (deref (co_correlation_id r)) (deref (co_causation_id r)) (co_attempts r)
    (en_decode env (co_next_attempt_at r)) (derefTime env (co_published_at r))
    (deref (co_last_error r)).

(** Sequence numbers grow along a table and stay below the next one. *)
Definition numbered (seqs : list Z) (next : Z) : Prop :=
  StronglySorted Z.lt seqs /\ Forall (fun q => q < next) seqs.

(** A row of the outbox whose counters are in range, and whose instant of
    publication, when set, is not the zero one. *)
Definition outbox_row_ok (r : outbox_row) : Prop :=
  0 <= co_attempts r <= int32_max /\ 1 <= co_event_version r <= int32_max /\
  co_published_at r <> Some 0.

Record represents (env : Environment) `{!DriverLaws env} (db : DB) (s : Store) : Prop := {
  rep_wallets : db_wallets db = wallet_row_of env <$> s_wallets s;
  rep_txs : db_txs db = tx_row_of env <$> s_txs s;
  rep_ledger : db_ledger db = (fun qe => ledger_row_of env qe.1 qe.2) <$> s_ledger s;
  rep_inbox : s_inbox s = map_imap (fun k r => Some (message_of_row env k r)) (db_inbox db);
  rep_outbox : s_outbox s = (fun r => (co_seq r, record_of_row env r)) <$> db_outbox db;
  rep_wallet_ok : forall k w, s_wallets s !! k = Some w ->
    k = id_value (w_id w) /\ wallet_storable w /\ stored_wallet w = w;
  rep_tx_ok : forall k t, s_txs s !! k = Some t ->
    k = id_value (t_id t) /\ tx_storable t /\ stored_tx t = t /\
    is_Some (s_wallets s !! id_value (t_walletID t));
  rep_entry_ok : forall q e, (q, e) ∈ s_ledger s -> entry_storable e /\ stored_entry e = e;
  rep_hash_ok : forall k r, db_inbox db !! k = Some r -> id_ok (k:=KPayloadHash) (mkId (ci_payload_hash r));
  rep_ledger_seq : numbered (s_ledger s).*1 (db_ledger_seq db);
  rep_outbox_seq : numbered (s_outbox s).*1 (db_outbox_seq db);
  rep_outbox_ids : NoDup (co_event_id <$> db_outbox db);
  rep_outbox_ok : forall r, r ∈ db_outbox db -> outbox_row_ok r
}.

(** Sequences only advance. *)
Definition seq_le (db db' : DB) : Prop :=
  db_ledger_seq db <= db_ledger_seq db' /\ db_outbox_seq db <= db_outbox_seq db'.

(** ** The documented behaviour of the environment *)

(** A failure the statement did not cause: not a refused constraint. *)
Definition not_a_refusal (f : pg_failure) : Prop :=
  match f with
  | PgError code _ _ _ => code ∉ [codeUniqueViolation; codeCheckViolation; codeForeignKeyViolation;
                                  codeNotNullViolation; codeRestrictViolation]
  | DriverError _ => True
  end.

(** What a session running this program does to the committed store: it keeps
    the invariant, and appends to the ledger and the outbox at the end of their
    sequences.  [Sessions.populated_laws] derives it for sessions that serve
    requests.  A transaction that takes a sequence number before another one and
    commits after it, so that a lower number appears late, is left out with the
    rest of what needs two open transactions. *)
Definition interferes `{Precision} (s s' : Store) : Prop := store_ok s -> store_ok s' /\ evolves s s'.

Class EnvironmentLaws (env : Environment) : Prop := {
  el_driver :: DriverLaws env;
  el_uuid : forall n s, en_uuid env n = Some s -> String.length s = 36%nat;
  el_now : forall n, 1000 <= instant (en_now env n);
  el_rand : forall n m, 0 < m -> 0 <= en_rand env n m < m;
  el_fault : forall n f, en_fault env n = Some f -> not_a_refusal f;
  el_commit : forall n f, en_commit env n = CommitRefused f -> not_a_refusal f;
  el_others : forall n db s, represents env db s ->
    exists s', represents env (en_others env n db) s' /\ interferes s s';
  el_pick : forall names, names <> [] -> en_pick env names ∈ names
}.

(** What other sessions have committed between two moments: commits of the
    environment, one after the other. *)
Inductive others (env : Environment) `{!DriverLaws env} : Store -> Store -> Prop :=
| others_none s : others env s s
| others_commit n db s s1 s2 :
  represents env db s -> represents env (en_others env n db) s1 -> interferes s s1 ->
  others env s1 s2 -> others env s s2.

(** No other session ever commits. *)
Definition alone (env : Environment) : Prop := forall n db, en_others env n db = db.

(** The errors of the infrastructure: each comes from something the
    environment did. *)
Inductive infra (env : Environment) : error -> Prop :=
| infra_uuid n : en_uuid env n = None -> infra env (Wrapped (Opaque "uuid"))
| infra_fault n f : en_fault env n = Some f -> infra env (translate (Failure f))
| infra_refused n f : en_commit env n = CommitRefused f -> infra env (translate (Failure f))
| infra_lost n what : en_commit env n = CommitReplyLost what -> infra env (Opaque what)
| infra_cancelled n : en_cancelled env n = true -> infra env (Opaque "context canceled")
| infra_wrapped e : infra env e -> infra env (Wrapped e).

Section others.
Context (env : Environment) `{!EnvironmentLaws env}.

Lemma others_trans s1 s2 s3 : others env s1 s2 -> others env s2 s3 -> others env s1 s3.
Proof. induction 1; [done|]. intros. eapply others_commit; eauto. Qed.

Lemma others_interferes s s' : others env s s' -> interferes s s'.
Proof.
  induction 1 as [s|n db s s1 s2 _ _ Hi _ IH]; intros Hs; [split; [done|apply evolves_refl]|].
  destruct (Hi Hs) as [Hs1 He1]. destruct (IH Hs1) as [? ?]. split; [done|by eapply evolves_trans].
Qed.

Lemma others_ok s s' : others env s s' -> store_ok s -> store_ok s' /\ evolves s s'.
Proof. apply others_interferes. Qed.

(** One consultation of the environment. *)
Lemma others_once n db s : represents env db s ->
  exists s', represents env (en_others env n db) s' /\ others env s s'.
Proof.
  intros Hr. destruct (el_others n db s Hr) as (s' & Hr' & Hi). exists s'. split; [done|].
  eapply others_commit; [exact Hr|exact Hr'|exact Hi|apply others_none].
Qed.
End others.

Section laws.
Context (env : Environment) `{!EnvironmentLaws env}.

#[local] Instance Storage_pg : Storage World := {|
  st_tx := fun w s0 s => wo_aborted w = false /\ represents env (wo_db w) s /\
    represents env (wo_saved w) s0 /\ seq_le (wo_saved w) (wo_db w);
  st_dead := fun w s0 => represents env (wo_saved w) s0 /\ seq_le (wo_saved w) (wo_db w);
  st_idle := fun w s => represents env (wo_db w) s;
  st_infra := infra env;
  st_others := others env;
  st_unlocked := forall call name, en_locked env call name = false
|}.

Lemma translate_infra f : not_a_refusal f ->
  As_domain (translate (Failure f)) = None /\
  is_sentinel (translate (Failure f)) ErrNotFound = false /\
  is_sentinel (translate (Failure f)) ErrConflict = false.
Proof.
  destruct f as [code c t m|]; cbn; [|done]. intros H.
  rewrite (bool_decide_eq_false_2 (code = codeUniqueViolation)) by set_solver.
  rewrite (bool_decide_eq_false_2 (code ∈ [codeCheckViolation; _; _; _])) by set_solver.
  by case_bool_decide.
Qed.

#[local] Instance StorageLaws_pg : StorageLaws World.
Proof.
  constructor; cbn.
  - intros w s0 s (_ & _ & H1 & H2). done.
  - intros e. induction 1 as [n H|n f H|n f H|n what H|n H|e _ IH]; [done| | |done..].
    + by apply translate_infra, (el_fault n).
    + by apply translate_infra, (el_commit n).
  - apply infra_wrapped.
  - apply others_none.
  - intros s1 s2 s3. exact (others_trans env s1 s2 s3).
  - intros s s'. exact (others_ok env s s').
Qed.

(** ** Clock, identifiers, random numbers *)

Lemma st_tx_tick w s0 s : st_tx w s0 s -> st_tx (tick w) s0 s.
Proof. done. Qed.

Lemma clock_laws : ClockLaws (H := Storage_pg) (H0 := Clock_system env) World.
Proof.
  constructor. unfold aside, now, wp; cbn. split; intros; (split; [|done]);
    (split; [done|]); cbn; apply el_now.
Qed.

Lemma cancellation_laws : CancellationLaws (H := Storage_pg) (H0 := Cancellation_system env) World.
Proof.
  constructor. intros ctx. unfold aside, wp; cbn. split; intros w; intros;
    (destruct (en_cancelled env (wo_calls w)) eqn:Hc; split; [by eapply infra_cancelled|done|done|done]).
Qed.

Lemma next_aside {A} (f : string -> result A) (P : A -> Prop) :
  (forall s, String.length s = 36%nat -> exists a, f s = Ok a /\ P a) ->
  aside (s ← IDGenerator_next env; pure (f s)) P.
Proof.
  intros Hf. assert (H : forall w, (exists a, (s ← IDGenerator_next env; pure (f s)) w = (Ok a, tick w) /\ P a) \/
    ((s ← IDGenerator_next env; pure (f s)) w = (Err (Wrapped (Opaque "uuid")), tick w) /\
     infra env (Wrapped (Opaque "uuid")))).
  { intros w. unfold mbind, M_bind, IDGenerator_next, pure.
    destruct (en_uuid env (wo_calls w)) as [s|] eqn:E.
    - destruct (Hf s (el_uuid _ _ E)) as (a & -> & Ha). left. by exists a.
    - right. split; [done|]. by eapply infra_uuid. }
  split; intros; unfold wp; destruct (H w) as [(a & -> & Ha)|[-> Ha]]; done.
Qed.

Lemma id36_ok k s : String.length s = 36%nat -> parseIdentifier k s = Ok (mkId s) /\ id_ok (k:=k) (mkId s).
Proof.
  intros Hl. assert (Hok : id_ok (k:=k) (mkId s)).
  { split; cbn; [by intros ->|]. unfold len, maxIdentifierLength. rewrite Hl. done. }
  split; [|done]. by apply (parseIdentifier_value k (mkId s)).
Qed.

Lemma id_laws : IDLaws (H := Storage_pg) (H0 := IDGenerator_system env) World.
Proof.
  constructor; intros ctx; cbn.
  1-3: apply next_aside; intros s Hs; eexists; by apply id36_ok.
  assert (H := next_aside (fun s => Ok s) (fun s => s <> "")
    ltac:(intros s Hs; exists s; split; [done|by intros ->])).
  unfold aside, wp, mbind, M_bind, pure in *.
  destruct H as [H1 H2]. split; intros w; [intros s0 s Ht; specialize (H1 w s0 s Ht)|intros s Ht; specialize (H2 w s Ht)];
    destruct (IDGenerator_next env w) as [[?|?] ?]; done.
Qed.

Lemma rand_laws : RandLaws (H := Storage_pg) (H0 := Rand_system env) World.
Proof.
  constructor. intros n Hn. unfold aside, rand_Int64N, wp; cbn.
  split; intros; (split; [by apply el_rand|done]).
Qed.

(** ** Statements *)

Lemma numbered_le seqs n n' : numbered seqs n -> n <= n' -> numbered seqs n'.
Proof. intros [H1 H2] Hle. split; [done|]. eapply Forall_impl; [done|]. cbn. intros; lia. Qed.

Lemma numbered_snoc seqs n : numbered seqs n -> numbered (seqs ++ [n]) (n + 1).
Proof.
  intros [H1 H2]. split.
  - induction H1 as [|q seqs H1 IH Hq]; cbn; [by repeat constructor|].
    apply Forall_cons in H2 as [Hn H2]. constructor; [by apply IH|].
    apply Forall_app. split; [done|by repeat constructor].
  - apply Forall_app. split; [|repeat constructor; lia].
    eapply Forall_impl; [done|]. cbn. intros; lia.
Qed.

Lemma seq_le_refl db : seq_le db db.
Proof. unfold seq_le. lia. Qed.

Lemma seq_le_trans db1 db2 db3 : seq_le db1 db2 -> seq_le db2 db3 -> seq_le db1 db3.
Proof. unfold seq_le. lia. Qed.

Lemma represents_rollback db db' s :
  represents env db s -> seq_le db db' -> represents env (rollback_to db db') s.
Proof. intros [] [? ?]. constructor; cbn; eauto using numbered_le. Qed.

Lemma exec_tx {A} (f : DB -> (pg_failure + A) * DB) w s0 s (Q : A -> World -> Prop)
    (E : error -> World -> Prop) :
  st_tx w s0 s ->
  match f (wo_db w) with
  | (inr a, db') => seq_le (wo_db w) db' /\
      exists s', represents env db' s' /\ forall w', st_tx w' s0 s' -> Q a w'
  | (inl e, db') => seq_le (wo_db w) db' /\
      forall w', st_dead w' s0 -> E (translate (Failure e)) w'
  end ->
  (forall e w', infra env e -> st_dead w' s0 -> E e w') ->
  wp (exec (tx_querier env) f) w Q E.
Proof.
  intros (Ha & Hr & Hs & Hle) Hf Hi. unfold wp, exec, tx_querier, statement. rewrite Ha.
  destruct (en_fault env (wo_calls w)) as [e|] eqn:Ef.
  - apply Hi; [by eapply infra_fault|done].
  - destruct (f (wo_db w)) as [[e|a] db'].
    + destruct Hf as [Hle' Hf]. apply Hf. split; [done|]. cbn. by eapply seq_le_trans.
    + destruct Hf as (Hle' & s' & Hr' & Hf). apply Hf. split_and!; cbn; try done. by eapply seq_le_trans.
Qed.

Lemma writes_exec (f : DB -> (pg_failure + unit) * DB) (Done : Store -> Store -> Prop)
    (Refused : Store -> error -> Prop) :
  (forall db s, represents env db s ->
     match f db with
     | (inr _, db') => seq_le db db' /\ exists s', Done s s' /\ represents env db' s'
     | (inl e, db') => seq_le db db' /\ Refused s (translate (Failure e))
     end) ->
  writes (exec (tx_querier env) f) Done Refused.
Proof.
  intros Hf w s0 s Htx. eapply exec_tx; [exact Htx| |by auto].
  destruct Htx as (_ & Hr & _). specialize (Hf _ _ Hr).
  destruct (f (wo_db w)) as [[e|a] db']; destruct Hf as [Hle Hf]; (split; [done|]).
  - auto.
  - destruct Hf as (s' & Hd & Hr'). exists s'. split; [done|]. intros w' Htx'. by exists s'.
Qed.

Lemma query_row_tx {R} (sel : DB -> list R) w s0 s (Q : R -> World -> Prop)
    (E : error -> World -> Prop) :
  st_tx w s0 s ->
  (forall w', st_tx w' s0 s -> match sel (wo_db w) with
                               | [] => E (SentinelError ErrNotFound) w'
                               | r :: _ => Q r w'
                               end) ->
  (forall e w', infra env e -> st_dead w' s0 -> E e w') ->
  wp (query_row (tx_querier env) sel) w Q E.
Proof.
  intros (Ha & Hr & Hs & Hle) Hf Hi.
  unfold wp, query_row, tx_querier, statement, select. rewrite Ha.
  destruct (en_fault env (wo_calls w)) as [e|] eqn:Ef.
  { apply Hi; [by eapply infra_fault|done]. }
  specialize (Hf (mkWorld (wo_db w) (wo_saved w) false (S (wo_calls w)))).
  destruct (sel (wo_db w)); by apply Hf.
Qed.

(** What a selection answers for a store. *)
Definition selects {R A} (sel : DB -> list R) (scan : R -> result A) (Found : Store -> A -> Prop) :=
  forall db s, represents env db s ->
    match sel db with
    | [] => forall a, ~ Found s a
    | r :: _ => exists a, scan r = Ok a /\ Found s a
    end.

Lemma finds_query {R A} (sel : DB -> list R) (scan : R -> result A) Found :
  selects sel scan Found ->
  finds (r ← query_row (tx_querier env) sel; pure (scan r)) Found.
Proof.
  intros Hf w s0 s Htx. pose proof Htx as (_ & Hr & _). specialize (Hf _ _ Hr).
  apply wp_bind. eapply query_row_tx; [exact Htx| |by right].
  intros w' Htx'. destruct (sel (wo_db w)) as [|r l]; [by left|].
  destruct Hf as (a & E & Ha). unfold wp, pure. by rewrite E.
Qed.

Lemma reads_query {R A} (sel : DB -> list R) (scan : R -> result A) Found :
  selects sel scan Found ->
  reads (r ← query_row (pool_querier env) sel; pure (scan r)) Found.
Proof.
  intros Hf w s Hr. cbn in Hr.
  destruct (others_once env (wo_calls w) _ _ Hr) as (s' & Hr' & Hi). specialize (Hf _ _ Hr').
  unfold wp, mbind, M_bind, query_row, pool_querier, pool_statement, select, pure.
  destruct (en_fault env (wo_calls w)) as [e|] eqn:Ef.
  { exists s'. split_and!; try done. right. by eapply infra_fault. }
  destruct (sel (en_others env (wo_calls w) (wo_db w))) as [|r l].
  - exists s'. split_and!; try done. by left.
  - destruct Hf as (a & -> & Ha'). exists s'. by split_and!.
Qed.

(** ** Selections *)

Lemma rep_wallet_lookup db s k :
  represents env db s -> db_wallets db !! k = wallet_row_of env <$> (s_wallets s !! k).
Proof. intros H. by rewrite (rep_wallets _ _ _ H), lookup_fmap. Qed.

Lemma rep_tx_lookup db s k :
  represents env db s -> db_txs db !! k = tx_row_of env <$> (s_txs s !! k).
Proof. intros H. by rewrite (rep_txs _ _ _ H), lookup_fmap. Qed.

Lemma scan_stored_wallet db s k w : represents env db s -> s_wallets s !! k = Some w ->
  scanWallet env (wallet_row_of env w) = Ok w.
Proof.
  intros H Hk. destruct (rep_wallet_ok _ _ _ H _ _ Hk) as (_ & Hs & E).
  rewrite (scanWallet_row env w Hs). by rewrite E.
Qed.

Lemma scan_stored_tx db s k t : represents env db s -> s_txs s !! k = Some t ->
  scanTransaction env (tx_row_of env t) = Ok t.
Proof.
  intros H Hk. destruct (rep_tx_ok _ _ _ H _ _ Hk) as (_ & Hs & E & _).
  rewrite (scanTransaction_row env t Hs). by rewrite E.
Qed.

Lemma select_wallet_spec id :
  selects (select_wallet (id_value id)) (scanWallet env) (wallet_with_id id).
Proof.
  intros db s Hr. unfold select_wallet, wallet_with_id. rewrite (rep_wallet_lookup _ _ _ Hr).
  destruct (s_wallets s !! id_value id) as [w|] eqn:E; cbn; [|done].
  exists w. split; [by eapply scan_stored_wallet|done].
Qed.

Lemma select_tx_spec id :
  selects (fun db => match db_txs db !! id_value id with Some r => [r] | None => [] end)
    (scanTransaction env) (fun s t => s_txs s !! id_value (k:=KTransaction) id = Some t).
Proof.
  intros db s Hr. rewrite (rep_tx_lookup _ _ _ Hr).
  destruct (s_txs s !! id_value id) as [t|] eqn:E; cbn; [|done].
  exists t. split; [by eapply scan_stored_tx|done].
Qed.

Lemma elem_of_tx_rows db s r : represents env db s ->
  r ∈ map snd (map_to_list (db_txs db)) <->
  exists k t, s_txs s !! k = Some t /\ r = tx_row_of env t.
Proof.
  intros Hr. rewrite list_elem_of_fmap. split.
  - intros ([k r'] & -> & Hin%elem_of_map_to_list). rewrite (rep_tx_lookup _ _ _ Hr) in Hin.
    apply fmap_Some in Hin as (t & Ht & ->). by exists k, t.
  - intros (k & t & Ht & ->). exists (k, tx_row_of env t). split; [done|].
    apply elem_of_map_to_list. by rewrite (rep_tx_lookup _ _ _ Hr), Ht.
Qed.

Lemma select_txs_spec P (Found : Store -> WagerTransaction -> Prop) :
  (forall s t, tx_storable t -> P (tx_row_of env t) = true ->
     s_txs s !! id_value (t_id t) = Some t -> Found s t) ->
  (forall s t, tx_storable t -> Found s t ->
     s_txs s !! id_value (t_id t) = Some t -> P (tx_row_of env t) = true) ->
  (forall s t, Found s t -> s_txs s !! id_value (t_id t) = Some t) ->
  selects (select_txs P) (scanTransaction env) Found.
Proof.
  intros H1 H2 H3 db s Hr. unfold select_txs.
  destruct (filter _ _) as [|r l] eqn:E.
  - intros t Ht. pose proof (H3 _ _ Ht) as Hk.
    destruct (rep_tx_ok _ _ _ Hr _ _ Hk) as (_ & Hs & _).
    assert (Hin : tx_row_of env t ∈ filter (fun r => P r = true) (map snd (map_to_list (db_txs db)))).
    { apply list_elem_of_filter. split; [by eapply H2|]. apply (elem_of_tx_rows _ s); [done|]. eauto. }
    rewrite E in Hin. by apply not_elem_of_nil in Hin.
  - assert (Hin : r ∈ filter (fun r => P r = true) (map snd (map_to_list (db_txs db))))
      by (rewrite E; left).
    apply list_elem_of_filter in Hin as [HP Hin].
    apply (elem_of_tx_rows _ s) in Hin as (k & t & Hk & ->); [|done].
    exists t. split; [by eapply scan_stored_tx|].
    destruct (rep_tx_ok _ _ _ Hr _ _ Hk) as (-> & Hs & _). by apply H1.
Qed.

Lemma same_value_set {k} (i j : identifier k) : id_ok i ->
  same_value (nullable (id_value j)) (Some (id_value i)) = bool_decide (j = i).
Proof.
  intros Hi. assert (Hz : i <> zeroId) by (intros ->; by destruct Hi).
  rewrite <- same_value_nullable by done. unfold nullable at 3.
  by rewrite bool_decide_eq_false_2 by apply Hi.
Qed.

Lemma select_business_spec provider external : id_ok provider -> id_ok external ->
  selects (select_txs (fun r => same_value (ct_provider_id r) (Some (id_value provider)) &&
      same_value (ct_external_id r) (Some (id_value external)))) (scanTransaction env)
    (fun s t => s_txs s !! id_value (t_id t) = Some t /\
       t_providerID t = provider /\ t_externalID t = external).
Proof.
  intros Hp He. apply select_txs_spec.
  - intros s t Hs HP Hk. cbn in HP. rewrite !same_value_set in HP by done.
    apply andb_true_iff in HP as [?%bool_decide_eq_true ?%bool_decide_eq_true]. done.
  - intros s t Hs (_ & <- & <-) Hk. cbn. rewrite !same_value_set by done.
    by rewrite !bool_decide_eq_true_2.
  - by intros s t (? & _).
Qed.

Lemma select_reversal_spec reference : id_ok reference ->
  selects (select_txs (fun r => same_value (ct_resolved_reference_id r) (Some (id_value reference)) &&
      bool_decide (ct_status r = "PROCESSED"))) (scanTransaction env)
    (fun s t => s_txs s !! id_value (t_id t) = Some t /\
       t_resolvedReferenceID t = reference /\ t_status t = StatusProcessed).
Proof.
  intros Hp. apply select_txs_spec.
  - intros s t Hs HP Hk. cbn in HP. rewrite same_value_set in HP by done.
    apply andb_true_iff in HP as [?%bool_decide_eq_true ?%bool_decide_eq_true]. done.
  - intros s t Hs (_ & <- & Hst) Hk. cbn. rewrite same_value_set by done.
    rewrite bool_decide_eq_true_2 by done. by rewrite Hst.
  - by intros s t (? & _).
Qed.

(** Objects that read back from their rows are determined by them. *)
Lemma fmap_rows_inj {A R} (row : A -> R) (scan : R -> result A) (m1 m2 : gmap string A) :
  (forall k a, m1 !! k = Some a -> scan (row a) = Ok a) ->
  (forall k a, m2 !! k = Some a -> scan (row a) = Ok a) -> row <$> m1 = row <$> m2 -> m1 = m2.
Proof.
  intros H1 H2 E. apply map_eq. intros k. apply (f_equal (lookup k)) in E. rewrite !lookup_fmap in E.
  destruct (m1 !! k) as [a|] eqn:Ea, (m2 !! k) as [b|] eqn:Eb; try done.
  apply H1 in Ea. apply H2 in Eb. injection E as E. rewrite E in Ea. congruence.
Qed.

Lemma scan_stored_entries db s : represents env db s ->
  scanLedgerEntry env <$> db_ledger db = Ok <$> s_ledger s.
Proof.
  intros Hr. rewrite (rep_ledger _ _ _ Hr), <- list_fmap_compose. apply list_fmap_ext. intros i [q e] Hin.
  apply list_elem_of_lookup_2 in Hin. destruct (rep_entry_ok _ _ _ Hr q e Hin) as [Hst E]. cbn.
  by rewrite (scanLedgerEntry_row env q e Hst), E.
Qed.

(** A database represents one store. *)
Lemma represents_functional db s s' : represents env db s -> represents env db s' -> s = s'.
Proof.
  intros H1 H2.
  assert (s_wallets s = s_wallets s').
  { apply (fmap_rows_inj (wallet_row_of env) (scanWallet env)).
    - intros k a. by apply (scan_stored_wallet db).
    - intros k a. by apply (scan_stored_wallet db).
    - by rewrite <- (rep_wallets _ _ _ H1), <- (rep_wallets _ _ _ H2). }
  assert (s_txs s = s_txs s').
  { apply (fmap_rows_inj (tx_row_of env) (scanTransaction env)).
    - intros k a. by apply (scan_stored_tx db).
    - intros k a. by apply (scan_stored_tx db).
    - by rewrite <- (rep_txs _ _ _ H1), <- (rep_txs _ _ _ H2). }
  assert (s_ledger s = s_ledger s').
  { assert (Hok : Inj eq eq (@Ok (Z * LedgerEntry))) by by intros ? ? [= ->].
    apply (list_fmap_eq_inj _ Hok). by rewrite <- (scan_stored_entries db s H1), <- (scan_stored_entries db s' H2). }
  pose proof (rep_inbox _ _ _ H1). pose proof (rep_inbox _ _ _ H2).
  pose proof (rep_outbox _ _ _ H1). pose proof (rep_outbox _ _ _ H2).
  destruct s, s'. cbn in *. congruence.
Qed.

(** Alone, nothing changes on its own. *)
Lemma others_alone s s' : alone env -> others env s s' -> s' = s.
Proof.
  intros Ha. induction 1 as [s|n db s s1 s2 Hr Hr1 _ _ IH]; [done|].
  rewrite Ha in Hr1. rewrite IH. exact (represents_functional db s1 s Hr1 Hr).
Qed.
End laws.
