(* ===== verification/PostgresWrites.v ===== *)
(** * PostgresWrites: the statements that change the tables

    Each INSERT and UPDATE of the adapter does to the represented store what
    the law of its repository says, and is refused exactly by the constraints
    the store explains. *)

From stdpp Require Import sorting.
From S2P Require Import Prelude Errors GoTime GoStrings Money Identifier Ledger Wallet Transaction.
From S2P Require Import Event Identity Ports Store StoreInv Submit Storable Schema Postgres.
From S2P Require Import Rows PostgresLaws.

#[local] Open Scope string_scope.
#[local] Open Scope list_scope.
#[local] Open Scope Z_scope.

(** ** Unique indexes *)

Lemma elem_of_failing name checks : name ∈ failing checks <-> (name, false) ∈ checks.
Proof.
  unfold failing. rewrite list_elem_of_fmap. split.
  - intros ([n b] & -> & [Hb Hin]%list_elem_of_filter). cbn in *. by subst.
  - intros H. exists (name, false). split; [done|]. by apply list_elem_of_filter.
Qed.

Lemma failing_nil checks : failing checks = [] <-> forall name, (name, false) ∉ checks.
Proof.
  split.
  - intros H name Hin%elem_of_failing. rewrite H in Hin. by apply not_elem_of_nil in Hin.
  - intros H. destruct (failing checks) as [|n l] eqn:E; [done|].
    destruct (H n). apply elem_of_failing. rewrite E. left.
Qed.

Lemma no_other_false {R} (l : list R) P : no_other l P = false <-> exists r, r ∈ l /\ P r = true.
Proof.
  unfold no_other. rewrite negb_false_iff, existsb_exists.
  setoid_rewrite list_elem_of_In. done.
Qed.

Lemma no_other_true {R} (l : list R) P : no_other l P = true <-> forall r, r ∈ l -> P r = false.
Proof.
  split.
  - intros H r Hr. destruct (P r) eqn:E; [|done].
    assert (no_other l P = false) by (apply no_other_false; eauto). congruence.
  - intros H. destruct (no_other l P) eqn:E; [done|].
    apply no_other_false in E as (r & Hr & HP). by rewrite H in HP.
Qed.

Lemma orb_negb_false (b c : bool) : negb b || c = false <-> b = true /\ c = false.
Proof. destruct b, c; cbn; intuition congruence. Qed.

Section writes.
Context (env : Environment) `{!EnvironmentLaws env}.
#[local] Existing Instance Storage_pg.

Lemma open_dead w s0 s : st_tx w s0 s -> st_dead w s0.
Proof. by intros (_ & _ & ? & ?). Qed.

(** ** Wallets *)

Lemma wallet_uniques_spec db s w name : represents env db s ->
  name ∈ wallet_uniques db (wallet_row_of env w) <->
  (name = "wallets_pkey" /\ is_Some (s_wallets s !! id_value (w_id w))) \/
  (name = "wallets_one_per_player_and_currency" /\ exists k w', s_wallets s !! k = Some w' /\
     k <> id_value (w_id w) /\ w_playerID w' = w_playerID w /\ w_currency w' = w_currency w).
Proof.
  intros Hr. unfold wallet_uniques. rewrite elem_of_failing, !elem_of_cons. cbn [cw_id wallet_row_of].
  assert (H1 : is_null (db_wallets db !! id_value (w_id w)) = false <->
               is_Some (s_wallets s !! id_value (w_id w))).
  { rewrite (rep_wallet_lookup env _ _ _ Hr). destruct (s_wallets s !! _); cbn; [naive_solver|].
    split; [done|intros []; done]. }
  assert (H2 : no_other (map snd (map_to_list (delete (id_value (w_id w)) (db_wallets db)))) (fun r' =>
      bool_decide (cw_player_id r' = cw_player_id (wallet_row_of env w)) &&
      bool_decide (cw_currency r' = cw_currency (wallet_row_of env w))) = false <->
    exists k w', s_wallets s !! k = Some w' /\ k <> id_value (w_id w) /\
      w_playerID w' = w_playerID w /\ w_currency w' = w_currency w).
  { rewrite no_other_false. split.
    - intros (r & Hin & HP). apply list_elem_of_fmap in Hin as ([k r'] & -> & Hin%elem_of_map_to_list).
      apply lookup_delete_Some in Hin as [Hne Hin]. rewrite (rep_wallet_lookup env _ _ _ Hr) in Hin.
      apply fmap_Some in Hin as (w' & Hw' & ->). cbn in HP.
      apply andb_true_iff in HP as [HP%bool_decide_eq_true HC%bool_decide_eq_true].
      exists k, w'. split_and!; [done|done|by apply id_value_inj|].
      destruct (w_currency w'), (w_currency w); cbn in HC. by subst.
    - intros (k & w' & Hk & Hne & HP & HC). exists (wallet_row_of env w'). split.
      + apply list_elem_of_fmap. exists (k, wallet_row_of env w'). split; [done|].
        apply elem_of_map_to_list, lookup_delete_Some. split; [done|].
        by rewrite (rep_wallet_lookup env _ _ _ Hr), Hk.
      + cbn. by rewrite HP, HC, !bool_decide_eq_true_2. }
  rewrite <- H1, <- H2.
  split.
  - intros [[= -> E]|[[= -> E]|Hn%not_elem_of_nil]]; [left|right|done]; done.
  - intros [[-> ->]|[-> ->]]; [by left|right; by left].
Qed.

Lemma represents_put_wallet db s w (r := wallet_row_of env w) : represents env db s ->
  wallet_storable w -> stored_wallet w = w ->
  represents env (with_wallets (insert (id_value (w_id w)) r) db) (put_wallet w s).
Proof.
  intros Hr Hs Hst. destruct Hr. constructor; cbn; try done.
  - by rewrite rep_wallets, fmap_insert.
  - intros k w' [[<- <-]|[Hne Hk]]%lookup_insert_Some; [done|by apply rep_wallet_ok].
  - intros k t Hk. destruct (rep_tx_ok k t Hk) as (? & ? & ? & Hw). split_and!; try done.
    rewrite lookup_insert_is_Some. destruct (decide (id_value (w_id w) = id_value (t_walletID t))); auto.
Qed.

Lemma pick_conflict table names (P : string -> Prop) :
  names <> [] -> (forall name, name ∈ names -> P name) ->
  is_conflict (translate (Failure (unique_violation env table names))) P.
Proof. intros Hne H. exists (en_pick env names). split; [done|]. by apply H, el_pick. Qed.

Lemma InsertWallet_pg wallet : wallet_storable wallet ->
  writes (pg_InsertWallet env (tx_querier env) wallet)
    (fun s s' => s_wallets s !! id_value (w_id wallet) = None /\
       (forall k w, s_wallets s !! k = Some w ->
          w_playerID w = w_playerID wallet -> w_currency w <> w_currency wallet) /\
       s' = put_wallet (stored_wallet wallet) s)
    (fun s e => is_conflict e (fun name =>
       (name = "wallets_pkey" /\ is_Some (s_wallets s !! id_value (w_id wallet))) \/
       (name = "wallets_one_per_player_and_currency" /\ exists k w, s_wallets s !! k = Some w /\
          w_playerID w = w_playerID wallet /\ w_currency w = w_currency wallet))).
Proof.
  intros Hs. unfold pg_InsertWallet. rewrite wallet_ok_initialised by apply Hs. cbn [negb].
  apply writes_exec. intros db s Hr. unfold insert_wallet.
  replace (char3 (cw_currency (wallet_row_of env wallet))) with (Some (cur_code (w_currency wallet)))
    by (symmetry; apply currency_char3, Hs).
  change (mkWalletRow _ _ _ _ _ _ _) with (wallet_row_of env wallet).
  rewrite (wallet_row_checks env wallet Hs).
  assert (Hspec := fun name => wallet_uniques_spec db s wallet name Hr).
  destruct (wallet_uniques db (wallet_row_of env wallet)) as [|n names].
  - split; [unfold seq_le; cbn; lia|]. exists (put_wallet (stored_wallet wallet) s). split_and!; [|intros k w Hk Hp Hc|done|].
    + destruct (s_wallets s !! _) eqn:E; [|done]. exfalso.
      apply (not_elem_of_nil "wallets_pkey"), Hspec. left. split; [done|by eexists].
    + apply (not_elem_of_nil "wallets_one_per_player_and_currency"), Hspec. right. split; [done|].
      exists k, w. split_and!; try done. intros ->.
      apply (not_elem_of_nil "wallets_pkey"), Hspec. left. split; [done|by eexists].
    + rewrite <- (wallet_row_stored env wallet Hs).
      apply (represents_put_wallet db s (stored_wallet wallet)); [done|by apply stored_wallet_ok|by apply stored_wallet_idem].
  - split; [unfold seq_le; cbn; lia|]. apply pick_conflict; [done|]. intros name Hn%Hspec.
    destruct Hn as [?|(-> & k & w & ? & _ & ? & ?)]; [by left|right; eauto 10].
Qed.

(** No row was updated: either the wallet is not there, or it has moved on. *)
Definition balance_refused (wallet : Wallet) (expected : Z) (s : Store) (e : error) : Prop :=
  (e = SentinelError ErrNotFound /\ s_wallets s !! id_value (w_id wallet) = None) \/
  (e = Wrapped (SentinelError ErrVersionMismatch) /\
     exists old, s_wallets s !! id_value (w_id wallet) = Some old /\ w_version old <> expected) \/
  (is_violation e /\ w_version wallet < 1).

Lemma not_updated wallet expected w s0 s (Q : unit -> World -> Prop) : st_tx w s0 s ->
  (forall old, s_wallets s !! id_value (w_id wallet) = Some old -> w_version old <> expected) ->
  wp (_ ← query_row (tx_querier env) (select_wallet (id_value (w_id wallet)));
      throw (Wrapped (SentinelError ErrVersionMismatch))) w Q
    (fun e w' => (balance_refused wallet expected s e \/ infra env e) /\ st_dead w' s0).
Proof.
  intros Htx Hno. apply wp_bind. eapply query_row_tx; [exact Htx| |by auto].
  intros w' Htx'. pose proof Htx as (_ & Hr & _). apply open_dead in Htx'. unfold select_wallet.
  rewrite (rep_wallet_lookup env _ _ _ Hr).
  destruct (s_wallets s !! id_value (w_id wallet)) as [old|] eqn:E; cbn [fmap option_fmap option_map].
  - apply wp_throw. split; [|done]. left; right; left. eauto.
  - split; [|done]. left; by left.
Qed.

(** The row an accepted update leaves. *)
Definition advanced (old wallet : Wallet) : Wallet :=
  mkWallet (w_id old) (w_playerID old) (w_currency old)
    (mkMoney (minor (w_balance wallet)) (w_currency old)) (w_version wallet)
    (w_createdAt old) (norm (w_updatedAt wallet)).

Lemma advanced_storable old wallet :
  wallet_storable old -> stored_wallet old = old -> wallet_storable (with_version 1 wallet) ->
  1 <= w_version wallet <= MaxInt64 ->
  wallet_storable (advanced old wallet) /\ stored_wallet (advanced old wallet) = advanced old wallet.
Proof.
  intros Hso Hst Hs Hv. destruct (ws_ok _ Hs) as [_ _ _ _ Hb _ _ [Hu Huu]]. cbn in Hb, Hu.
  destruct (ws_ok _ Hso) as [Hid Hpl Hcu Hini _ _ Hcr _]. destruct Hso as [_ ? ? ? ? _].
  assert (Hlate : set_late (w_updatedAt wallet)) by apply Hs. split.
  - constructor; cbn; try done; [|by apply norm_late].
    constructor; cbn; try done; [unfold Money_IsInitialised; cbn; by rewrite currency_ok_nonzero|].
    split; [by rewrite norm_IsZero|apply norm_utc].
  - unfold stored_wallet, advanced; cbn. f_equal; [exact (f_equal w_createdAt Hst)|].
    by apply norm_norm.
Qed.

Lemma advanced_row old wallet : Time_IsZero (w_updatedAt wallet) = false ->
  wallet_row_of env (advanced old wallet) =
  mkWalletRow (id_value (w_id old)) (id_value (w_playerID old)) (cur_code (w_currency old))
    (minor (w_balance wallet)) (w_version wallet) (en_encode env (w_createdAt old))
    (en_encode env (w_updatedAt wallet)).
Proof. intros Hz. unfold wallet_row_of, advanced; cbn. by rewrite encode_norm. Qed.

(** The UPDATE itself: nothing, a refused check, or the advanced wallet. *)
Lemma update_balance_spec db s wallet expected : represents env db s ->
  wallet_storable (with_version 1 wallet) -> is_i64 (w_version wallet) ->
  match update_balance (minor (w_balance wallet)) (w_version wallet)
          (en_encode env (w_updatedAt wallet)) (id_value (w_id wallet)) expected db with
  | (inl e, db') => db' = db /\ is_violation (translate (Failure e)) /\ w_version wallet < 1
  | (inr n, db') =>
    (n = 0 /\ db' = db /\ forall old, s_wallets s !! id_value (w_id wallet) = Some old -> w_version old <> expected) \/
    (n = 1 /\ seq_le db db' /\ exists old, s_wallets s !! id_value (w_id wallet) = Some old /\
       w_version old = expected /\ 1 <= w_version wallet /\
       represents env db' (put_wallet (advanced old wallet) s))
  end.
Proof.
  intros Hr Hs Hv. unfold update_balance. rewrite (rep_wallet_lookup env _ _ _ Hr).
  destruct (s_wallets s !! id_value (w_id wallet)) as [old|] eqn:Eold; cbn [fmap option_fmap option_map]; [|by left].
  cbn [cw_version cw_id cw_player_id cw_currency cw_created_at wallet_row_of].
  destruct (Z.eqb_spec (w_version old) expected) as [Hv1|Hv1]; cbn [negb];
    [|left; split_and!; [done..|intros ? [= <-]; done]].
  destruct (rep_wallet_ok _ _ _ Hr _ _ Eold) as (Hk & Hso & Hst).
  destruct (wo_updatedAt _ (ws_ok _ Hs)) as [Hu _]. cbn in Hu. rewrite <- advanced_row by done.
  destruct (Z.ltb_spec (w_version wallet) 1) as [Hlt|Hge].
  - unfold wallet_checks. cbn. rewrite (currency_iso _ (ws_currency _ Hso)).
    pose proof (wo_balance _ (ws_ok _ Hs)) as Hb. cbn in Hb.
    replace (0 <=? minor (w_balance wallet)) with true by lia.
    replace (1 <=? w_version wallet) with false by lia.
    split_and!; [done|by eexists|done].
  - destruct (advanced_storable old wallet) as [Hs' Hst']; [done..|destruct Hv; lia|].
    rewrite (wallet_row_checks env _ Hs'). right.
    split_and!; [done|unfold seq_le; cbn; lia|]. exists old. split_and!; try done.
    rewrite Hk. by apply (represents_put_wallet db s (advanced old wallet)).
Qed.

Lemma UpdateBalance_pg wallet expected :
  wallet_storable (with_version 1 wallet) -> is_i64 (w_version wallet) ->
  writes (pg_UpdateBalance env (tx_querier env) wallet expected)
    (fun s s' => exists old, s_wallets s !! id_value (w_id wallet) = Some old /\
       w_version old = expected /\ 1 <= w_version wallet /\ s' = put_wallet (advanced old wallet) s)
    (balance_refused wallet expected).
Proof.
  intros Hs Hv. unfold pg_UpdateBalance.
  change (Wallet_IsInitialised wallet) with (Wallet_IsInitialised (with_version 1 wallet)).
  rewrite wallet_ok_initialised by apply Hs. cbn [negb].
  intros w s0 s Htx. pose proof Htx as (_ & Hr & _). cbn in Hr.
  apply wp_bind. eapply exec_tx; [exact Htx| |by auto].
  pose proof (update_balance_spec _ s wallet expected Hr Hs Hv) as Hspec.
  destruct (update_balance _ _ _ _ _ _) as [[e|n] db'].
  - destruct Hspec as (-> & Hviol & Hlt). split; [apply seq_le_refl|]. intros w' Hd.
    split; [left; right; right; done|done].
  - destruct Hspec as [(-> & -> & Hno)|(-> & Hle & old & Hold & Hv1 & Hge & Hr')].
    + split; [apply seq_le_refl|]. exists s. split; [done|]. intros w' Htx'. by apply not_updated.
    + split; [done|]. exists (put_wallet (advanced old wallet) s). split; [done|]. intros w' Htx'.
      apply wp_ret. exists (put_wallet (advanced old wallet) s). split; [|done]. by exists old.
Qed.

(** ** Operations *)

Lemma elem_of_other_txs db s i r : represents env db s ->
  r ∈ other_txs db (id_value i) <->
  exists k t, s_txs s !! k = Some t /\ t_id t <> i /\ r = tx_row_of env t.
Proof.
  intros Hr. unfold other_txs. rewrite list_elem_of_fmap. split.
  - intros ([k r'] & -> & Hin%elem_of_map_to_list). apply lookup_delete_Some in Hin as [Hne Hin].
    rewrite (rep_tx_lookup env _ _ _ Hr) in Hin. apply fmap_Some in Hin as (t & Ht & ->).
    exists k, t. split_and!; try done. intros <-. by destruct (rep_tx_ok _ _ _ Hr _ _ Ht) as (-> & _).
  - intros (k & t & Ht & Hne & ->). exists (k, tx_row_of env t). split; [done|].
    apply elem_of_map_to_list, lookup_delete_Some. split.
    + intros E. apply Hne. destruct (rep_tx_ok _ _ _ Hr _ _ Ht) as (-> & _). by apply id_value_inj.
    + by rewrite (rep_tx_lookup env _ _ _ Hr), Ht.
Qed.

(** A partial unique index refuses a row exactly when another operation has
    the value. *)
Lemma index_refuses db s i (P : tx_row -> bool) (Q : WagerTransaction -> Prop) :
  represents env db s ->
  (forall t, tx_storable t -> P (tx_row_of env t) = true <-> Q t) ->
  no_other (other_txs db (id_value i)) P = false <->
  exists k t, s_txs s !! k = Some t /\ t_id t <> i /\ Q t.
Proof.
  intros Hr HPQ. rewrite no_other_false. split.
  - intros (r & Hin & HP). apply (elem_of_other_txs _ s) in Hin as (k & t & Hk & Hne & ->); [|done].
    exists k, t. split_and!; try done. apply HPQ; [|done]. by destruct (rep_tx_ok _ _ _ Hr _ _ Hk) as (_ & ? & _).
  - intros (k & t & Hk & Hne & HQ). exists (tx_row_of env t). split.
    + apply (elem_of_other_txs _ s); [done|]. eauto.
    + apply HPQ; [|done]. by destruct (rep_tx_ok _ _ _ Hr _ _ Hk) as (_ & ? & _).
Qed.

Lemma external_ids t : tx_ok t -> t_origin t = OriginExternal ->
  t_providerID t <> zeroId /\ t_externalID t <> zeroId /\ t_idempotencyKey t <> zeroId.
Proof. intros Hok Ho. destruct (to_shape t Hok) as [(Ho' & _)|(_ & _ & ? & ? & ? & _)]; [by rewrite Ho' in Ho|done]. Qed.

Lemma in_named (name n : string) (b : bool) l (P R : Prop) :
  (b = false <-> P) -> ((name, false) ∈ l <-> R) ->
  (name, false) ∈ (n, b) :: l <-> (name = n /\ P) \/ R.
Proof.
  intros <- <-. rewrite elem_of_cons. split; (intros [H|H]; [left|by right]).
  - by injection H as -> <-.
  - by destruct H as [-> ->].
Qed.

Lemma guarded_index db s i (c : bool) (G : Prop) (P : tx_row -> bool) (Q : WagerTransaction -> Prop) :
  represents env db s -> (c = true <-> G) ->
  (G -> forall t, tx_storable t -> P (tx_row_of env t) = true <-> Q t) ->
  negb c || no_other (other_txs db (id_value i)) P = false <->
  G /\ exists k t, s_txs s !! k = Some t /\ t_id t <> i /\ Q t.
Proof.
  intros Hr Hc HPQ. rewrite orb_negb_false, Hc.
  split; intros [HG H]; (split; [done|]); by apply (index_refuses db s i P Q Hr (HPQ HG)).
Qed.

Lemma same_value_iff {k} (i j : identifier k) :
  same_value (nullable (id_value j)) (nullable (id_value i)) = true <-> i <> zeroId /\ j = i.
Proof.
  destruct (decide (i = zeroId)) as [->|Hi].
  - cbn. unfold same_value. case_match; naive_solver.
  - rewrite same_value_nullable by done. rewrite bool_decide_eq_true. tauto.
Qed.

Lemma tx_index_spec db s t name : represents env db s -> tx_storable t ->
  (name, false) ∈ tx_indexes (other_txs db (id_value (t_id t))) (tx_row_of env t) <->
  name <> "wager_transactions_pkey" /\ tx_conflict s t name.
Proof.
  intros Hr Hs. pose proof (external_ids t (ts_ok t Hs)) as Hext. unfold tx_indexes.
  cbn [ct_origin ct_kind ct_status ct_provider_id ct_external_id ct_idempotency_key
    ct_resolved_reference_id ct_wallet_id tx_row_of].
  etransitivity.
  { apply in_named; [|apply in_named; [|apply in_named; [|apply in_named; [|apply elem_of_nil]]]].
    - apply (guarded_index db s (t_id t) _ _ _ (fun t' => t_origin t' = OriginExternal /\
        t_providerID t' = t_providerID t /\ t_externalID t' = t_externalID t) Hr
        (bool_decide_eq_true _)).
      intros Ho t' _. cbn. rewrite !andb_true_iff, bool_decide_eq_true, !same_value_iff.
      destruct (Hext Ho) as (? & ? & ?). unfold OriginExternal. tauto.
    - apply (guarded_index db s (t_id t) _ _ _ (fun t' => t_origin t' = OriginExternal /\
        t_providerID t' = t_providerID t /\ t_idempotencyKey t' = t_idempotencyKey t) Hr
        (bool_decide_eq_true _)).
      intros Ho t' _. cbn. rewrite !andb_true_iff, bool_decide_eq_true, !same_value_iff.
      destruct (Hext Ho) as (? & ? & ?). unfold OriginExternal. tauto.
    - apply (guarded_index db s (t_id t) _ _ _ (fun t' => t_kind t' = KindOpening /\
        t_walletID t' = t_walletID t) Hr (bool_decide_eq_true _)).
      intros Ho t' _. cbn. rewrite !andb_true_iff, !bool_decide_eq_true. unfold KindOpening.
      split; intros [? Hw]; (split; [done|]); [by apply id_value_inj|by rewrite Hw].
    - apply (guarded_index db s (t_id t) _ _ _ (fun t' => t_status t' = StatusProcessed /\
        t_resolvedReferenceID t <> zeroId /\ t_resolvedReferenceID t' = t_resolvedReferenceID t) Hr
        (bool_decide_eq_true _)).
      intros Ho t' _. cbn. rewrite !andb_true_iff, bool_decide_eq_true, !same_value_iff.
      unfold StatusProcessed. tauto. }
  unfold tx_conflict. split.
  - intros [(-> & ? & H)|[(-> & ? & H)|[(-> & ? & H)|[(-> & ? & k & t' & ? & ? & ? & ? & ?)|[]]]]]; (split; [done|]).
    + right; left. done.
    + right; right; left. done.
    + do 3 right; left. done.
    + do 4 right. split_and!; try done. exists k, t'. done.
  - intros (Hne & [(-> & _)|[(-> & ? & H)|[(-> & ? & H)|[(-> & ? & H)|(-> & ? & ? & k & t' & ? & ? & ? & ?)]]]]).
    + done.
    + by left.
    + by right; left.
    + by right; right; left.
    + do 3 right; left. split_and!; try done. exists k, t'. done.
Qed.

Lemma is_null_fmap {A B} (f : A -> B) (o : option A) : is_null (f <$> o) = false <-> is_Some o.
Proof. destruct o; cbn; [split; [by eexists|done]|]. split; [done|by intros [? [=]]]. Qed.

Lemma represents_put_tx db s t : represents env db s -> tx_storable t ->
  is_Some (s_wallets s !! id_value (t_walletID t)) ->
  represents env (with_txs (insert (id_value (t_id t)) (tx_row_of env t)) db) (put_tx (stored_tx t) s).
Proof.
  intros Hr Hs Hw. rewrite <- (tx_row_stored env t Hs). destruct Hr. constructor; cbn; try done.
  - by rewrite rep_txs, fmap_insert.
  - intros k t' [[<- <-]|[Hne Hk]]%lookup_insert_Some; [|by apply rep_tx_ok].
    split_and!; [done|by apply stored_tx_ok|by apply stored_tx_idem|done].
Qed.

Lemma tx_reference_fk_false db s t : represents env db s ->
  tx_reference_fk db (tx_row_of env t) = false ->
  t_resolvedReferenceID t <> zeroId /\ s_txs s !! id_value (t_resolvedReferenceID t) = None.
Proof.
  intros Hr. unfold tx_reference_fk. cbn [ct_resolved_reference_id ct_id tx_row_of]. unfold nullable.
  case_bool_decide as Hz; [done|]. intros [_ H]%orb_false_iff. apply negb_false_iff in H.
  split; [by intros E; rewrite E in Hz|]. rewrite (rep_tx_lookup env _ _ _ Hr) in H.
  by destruct (s_txs s !! _).
Qed.

Lemma tx_wallet_fk_spec db s t : represents env db s ->
  if tx_wallet_fk db (tx_row_of env t) then is_Some (s_wallets s !! id_value (t_walletID t))
  else s_wallets s !! id_value (t_walletID t) = None.
Proof.
  intros Hr. unfold tx_wallet_fk. cbn [ct_wallet_id tx_row_of].
  rewrite (rep_wallet_lookup env _ _ _ Hr). destruct (s_wallets s !! _); cbn; [by eexists|done].
Qed.

Lemma put_tx_row_spec fresh db s t : represents env db s -> tx_storable t ->
  match put_tx_row env fresh (tx_row_of env t) db with
  | (inr _, db') =>
    (forall name, fresh = true \/ name <> "wager_transactions_pkey" -> ~ tx_conflict s t name) /\
    is_Some (s_wallets s !! id_value (t_walletID t)) /\
    seq_le db db' /\ represents env db' (put_tx (stored_tx t) s)
  | (inl e, db') => db' = db /\
    (is_conflict (translate (Failure e))
       (fun name => (fresh = true \/ name <> "wager_transactions_pkey") /\ tx_conflict s t name) \/
     (is_violation (translate (Failure e)) /\ (s_wallets s !! id_value (t_walletID t) = None \/
        (t_resolvedReferenceID t <> zeroId /\ s_txs s !! id_value (t_resolvedReferenceID t) = None))))
  end.
Proof.
  intros Hr Hs. unfold put_tx_row.
  replace (char3 (ct_currency (tx_row_of env t))) with (Some (cur_code (currency (t_money t))))
    by (symmetry; apply currency_char3, Hs).
  change (ct_reference_attempts (tx_row_of env t)) with (t_referenceAttempts t).
  rewrite (tx_row_int4 t Hs), (tx_row_checks env t Hs). cbn [negb].
  assert (Hspec : forall name, (name, false) ∈
      (("wager_transactions_pkey", negb fresh || is_null (db_txs db !! ct_id (tx_row_of env t))) ::
       tx_indexes (other_txs db (ct_id (tx_row_of env t))) (tx_row_of env t)) <->
    (fresh = true \/ name <> "wager_transactions_pkey") /\ tx_conflict s t name).
  { intros name. etransitivity; [apply in_named; [apply orb_negb_false|by apply tx_index_spec]|].
    cbn [ct_id tx_row_of]. rewrite (rep_tx_lookup env _ _ _ Hr), is_null_fmap.
    split; [intros [(-> & -> & H)|[? ?]]; [split; [by left|by left]|tauto]|].
    intros [H [(-> & Hin)|Hc]]; [left; destruct H as [->|]; done|right].
    split; [|by right]. intros ->. destruct Hc as [[? _]|[[? _]|[[? _]|[? _]]]]; done. }
  destruct (failing _) as [|n names] eqn:Ef.
  - pose proof (proj1 (failing_nil _) Ef) as Hnil.
    destruct (tx_reference_fk db (tx_row_of env t)) eqn:Hfk; cbn [negb].
    + pose proof (tx_wallet_fk_spec db s t Hr) as Hw. destruct (tx_wallet_fk _ _); cbn [negb].
      * split_and!; [|done|unfold seq_le; cbn; lia|by apply represents_put_tx].
        intros name Hn Hc. apply (Hnil name), Hspec. done.
      * split; [done|right]. split; [by eexists|by left].
    + apply (tx_reference_fk_false _ s) in Hfk as [? ?]; [|done].
      split; [done|right]. split; [by eexists|by right].
  - split; [done|left]. rewrite <- Ef. apply pick_conflict; [by rewrite Ef|].
    by intros name Hn%elem_of_failing%Hspec.
Qed.

Lemma InsertTransaction_pg t : tx_storable t ->
  writes (pg_InsertTransaction env (tx_querier env) t)
    (fun s s' => (forall name, ~ tx_conflict s t name) /\
       is_Some (s_wallets s !! id_value (t_walletID t)) /\ s' = put_tx (stored_tx t) s)
    (fun s e => is_conflict e (tx_conflict s t) \/
       (is_violation e /\ (s_wallets s !! id_value (t_walletID t) = None \/
          (t_resolvedReferenceID t <> zeroId /\
           s_txs s !! id_value (t_resolvedReferenceID t) = None)))).
Proof.
  intros Hs. unfold pg_InsertTransaction.
  replace (Tx_IsInitialised t) with true.
  2:{ unfold Tx_IsInitialised. by rewrite id_ok_not_zero by apply Hs. }
  cbn [negb]. apply writes_exec. intros db s Hr.
  pose proof (put_tx_row_spec true db s t Hr Hs) as H.
  destruct (put_tx_row _ _ _ _) as [[e|[]] db'].
  - destruct H as [-> H]. split; [apply seq_le_refl|]. destruct H as [(name & -> & [_ Hc])|H]; [|by right].
    left. by exists name.
  - destruct H as (Hc & Hw & Hle & Hr'). split; [done|]. eexists. split; [|done]. auto.
Qed.

Lemma same_request_steps old t : tc tx_step old t -> same_request old t /\ Tx_IsTerminal old = false.
Proof.
  induction 1 as [old t Hst|old t1 t Hst _ [IH _]].
  - split; [by apply tx_step_frame|by eapply tx_step_terminal].
  - split; [|by eapply tx_step_terminal].
    apply tx_step_frame in Hst as (? & ? & ? & ? & ? & ? & ? & ? & ->).
    destruct IH as (st & r & c & a & n & d & b & u & ->). by exists st, r, c, a, n, d, b, u.
Qed.

Lemma terminal_in t : is_in (t_status t) ["PROCESSED"; "REJECTED"; "FAILED"] = Tx_IsTerminal t.
Proof.
  apply eq_true_iff_eq. unfold is_in, Tx_IsTerminal. rewrite bool_decide_eq_true, Status_IsTerminal_iff.
  change "PROCESSED" with StatusProcessed. change "REJECTED" with StatusRejected.
  change "FAILED" with StatusFailed. rewrite !elem_of_cons, elem_of_nil. tauto.
Qed.

(** The columns an UPDATE leaves alone are those a step leaves alone. *)
Lemma update_tx_row db s t old : represents env db s -> same_request old t ->
  Tx_IsTerminal old = false -> s_txs s !! id_value (t_id t) = Some old ->
  update_tx env (tx_row_of env t) db =
    match put_tx_row env false (tx_row_of env t) db with
    | (inr _, db') => (inr 1, db')
    | (inl e, db') => (inl e, db')
    end.
Proof.
  intros Hr (st & r & c & a & n & d & b & u & ->) Ht Hold. unfold update_tx.
  cbn [ct_id tx_row_of] in *. rewrite (rep_tx_lookup env _ _ _ Hr).
  change (t_id (tx_with old st r c a n d b u)) with (t_id old) in *.
  rewrite Hold. cbn [fmap option_fmap option_map ct_status tx_row_of]. rewrite terminal_in, Ht. done.
Qed.

Lemma UpdateTransaction_pg t old : tx_storable t -> tc tx_step old t ->
  forall w s0 s, st_tx w s0 s -> s_txs s !! id_value (t_id t) = Some old ->
  wp (pg_UpdateTransaction env (tx_querier env) t) w
    (fun _ w' => (forall name, name <> "wager_transactions_pkey" -> ~ tx_conflict s t name) /\
       st_tx w' s0 (put_tx (stored_tx t) s))
    (fun e w' => (is_conflict e (fun name => name <> "wager_transactions_pkey" /\ tx_conflict s t name) \/
       (is_violation e /\ t_resolvedReferenceID t <> zeroId /\
        s_txs s !! id_value (t_resolvedReferenceID t) = None) \/ infra env e) /\ st_dead w' s0).
Proof.
  intros Hs Hsteps w s0 s Htx Hold. destruct (same_request_steps _ _ Hsteps) as [Hreq Ht].
  pose proof Htx as (_ & Hr & _). cbn in Hr. unfold pg_UpdateTransaction.
  replace (Tx_IsInitialised t) with true.
  2:{ unfold Tx_IsInitialised. by rewrite id_ok_not_zero by apply Hs. }
  cbn [negb]. apply wp_bind. eapply exec_tx; [exact Htx| |by auto].
  rewrite (update_tx_row _ s t old Hr Hreq Ht Hold).
  pose proof (put_tx_row_spec false _ s t Hr Hs) as H.
  destruct (put_tx_row _ _ _ _) as [[e|[]] db'].
  - destruct H as [-> [Hcf|[Hv [Hw|Hres]]]]; (split; [apply seq_le_refl|]); intros w' Hd; (split; [|done]).
    + left. destruct Hcf as (name & -> & [[?|?] ?]); [done|]. by exists name.
    + exfalso. destruct (same_request_frame _ _ Hreq) as (_ & _ & _ & Hwid & _). rewrite Hwid in Hw.
      destruct (rep_tx_ok _ _ _ Hr _ _ Hold) as (_ & _ & _ & [x Hx]). by rewrite Hw in Hx.
    + right; left. done.
  - destruct H as (Hc & Hw & Hle & Hr'). split; [done|]. eexists. split; [done|].
    intros w' Htx'. apply wp_ret. split; [|done]. intros name Hn. apply Hc. by right.
Qed.

(** ** Claiming due references *)

Lemma scan_all_Ok {R A} (scan : R -> result A) rows (P : A -> Prop) :
  Forall (fun r => exists a, scan r = Ok a /\ P a) rows ->
  exists l, scan_all scan rows = Ok l /\ Forall P l /\ length l = length rows.
Proof.
  induction 1 as [|r rows (a & E & Ha) _ (l & IH & Hl & Hn)]; [by exists []|].
  exists (a :: l). cbn. rewrite E. cbn. rewrite IH. cbn. split_and!; [done|by constructor|by rewrite Hn].
Qed.

Lemma scan_all_elem {R A} (scan : R -> result A) rows l r a :
  scan_all scan rows = Ok l -> r ∈ rows -> scan r = Ok a -> a ∈ l.
Proof.
  revert l. induction rows as [|x rows IH]; intros l E Hr Ha; [by apply not_elem_of_nil in Hr|].
  cbn in E. apply result_bind_Ok in E as (b & Hb & E). apply result_bind_Ok in E as (l' & Hl' & E).
  injection E as <-. apply elem_of_cons in Hr as [->|Hr]; [|right; by eapply IH].
  rewrite Ha in Hb. injection Hb as ->. left.
Qed.

Lemma merge_sort_elem {A} (R : relation A) `{!RelDecision R} (l : list A) (x : A) :
  x ∈ merge_sort R l -> x ∈ l.
Proof. intros H. by rewrite (merge_sort_Permutation R l) in H. Qed.

Lemma select_due_spec db s call at_ limit : represents env db s ->
  Forall (fun r => exists t, scanTransaction env r = Ok t /\ due_reference at_ s t)
    (select_due env call (en_encode env at_) limit db).
Proof.
  intros Hr. apply Forall_forall. intros r Hin. unfold select_due in Hin.
  apply (subseteq_take _ _ r), merge_sort_elem, list_elem_of_filter in Hin as [HP Hin].
  apply (elem_of_tx_rows env _ s) in Hin as (k & t & Hk & ->); [|done].
  exists t. split; [by eapply scan_stored_tx|].
  destruct (rep_tx_ok _ _ _ Hr _ _ Hk) as (-> & Hs & Hst & _). split; [done|].
  apply andb_true_iff in HP as [[HP1%bool_decide_eq_true HP2]%andb_true_iff _].
  split; [done|]. cbn in HP2. unfold nullableTime in HP2.
  destruct (Time_IsZero (t_referenceNextAttemptAt t)) eqn:Hz; [done|].
  apply Z.leb_le in HP2. rewrite stored_time_law, <- en_encode_law.
  assert (E : t_referenceNextAttemptAt t = norm (t_referenceNextAttemptAt t))
    by (symmetry; exact (f_equal t_referenceNextAttemptAt Hst)).
  rewrite E, norm_instant, Hz, <- en_encode_law. done.
Qed.

(** Nothing due is left behind, unless the batch is full. *)
Lemma select_due_complete db s call at_ limit t : represents env db s ->
  (forall call name, en_locked env call name = false) -> 0 < limit -> due_reference at_ s t ->
  tx_row_of env t ∈ select_due env call (en_encode env at_) limit db \/
  Z.of_nat (length (select_due env call (en_encode env at_) limit db)) = limit.
Proof.
  intros Hr Hfree Hlim (Hk & Hst & Hdue). unfold select_due.
  match goal with |- _ ∈ take _ ?l \/ _ => assert (Hin : tx_row_of env t ∈ l) end.
  { rewrite merge_sort_Permutation. apply list_elem_of_filter. split.
    2:{ apply (elem_of_tx_rows env _ s); [done|]. by exists (id_value (t_id t)), t. }
    destruct (rep_tx_ok _ _ _ Hr _ _ Hk) as (_ & Hs & Hsto & _).
    rewrite Hfree. cbn [ct_status ct_reference_next_attempt_at tx_row_of negb]. rewrite Hst.
    rewrite bool_decide_eq_true_2 by done. cbn [andb]. rewrite andb_true_r. unfold nullableTime.
    destruct (to_waiting t (ts_ok t Hs) Hst) as (_ & _ & Hz & _). rewrite Hz. apply Z.leb_le.
    assert (E : t_referenceNextAttemptAt t = norm (t_referenceNextAttemptAt t))
      by (symmetry; exact (f_equal t_referenceNextAttemptAt Hsto)).
    rewrite E, norm_instant, Hz, stored_time_law, <- !en_encode_law in Hdue. done. }
  destruct (elem_of_take_full (Z.to_nat limit) _ _ Hin) as [?|Hlen]; [by left|right]. rewrite Hlen. lia.
Qed.

Lemma ClaimDueReferences_pg at_ limit : 0 < limit ->
  forall w s0 s, st_tx w s0 s ->
  wp (pg_ClaimDueReferences env (tx_querier env) at_ limit) w
    (fun l w' => Forall (due_reference at_ s) l /\ Z.of_nat (length l) <= limit /\
       (st_unlocked -> forall t, due_reference at_ s t -> t ∈ l \/ Z.of_nat (length l) = limit) /\
       st_tx w' s0 s)
    (fun e w' => infra env e /\ st_dead w' s0).
Proof.
  intros Hlim w s0 s Htx. pose proof Htx as (_ & Hr & _). cbn in Hr. unfold pg_ClaimDueReferences.
  replace (limit <=? 0) with false by lia. apply wp_bind. unfold select.
  eapply exec_tx; [exact Htx| |by auto].
  split; [apply seq_le_refl|]. exists s. split; [done|]. intros w' Htx'.
  pose proof (select_due_spec _ s (wo_calls w) at_ limit Hr) as H.
  apply scan_all_Ok in H as (l & E & Hl & Hn). unfold wp, pure. rewrite E.
  split_and!; [done| | |done].
  - rewrite Hn. unfold select_due. rewrite length_take. lia.
  - intros Hfree t Ht. pose proof (select_due_complete _ s (wo_calls w) at_ limit t Hr Hfree Hlim Ht) as [Hin|Hlen].
    + left. eapply scan_all_elem; [exact E|exact Hin|]. eapply scan_stored_tx; [exact Hr|apply Ht].
    + right. by rewrite Hn.
Qed.

(** ** The ledger *)

Lemma ledger_uniques_spec db s q e name : represents env db s ->
  name ∈ ledger_uniques db (ledger_row_of env q e) <->
  (name = "wallet_ledger_entries_pkey" /\ exists q' e', (q', e') ∈ s_ledger s /\ le_id e' = le_id e) \/
  (name = "ledger_one_per_transaction_and_wallet" /\ exists q' e', (q', e') ∈ s_ledger s /\
     le_walletID e' = le_walletID e /\ le_transactionID e' = le_transactionID e).
Proof.
  intros Hr. unfold ledger_uniques. rewrite elem_of_failing.
  assert (Hin : forall P Q, (forall q' e', P (ledger_row_of env q' e') = true <-> Q e') ->
    no_other (db_ledger db) P = false <-> exists q' e', (q', e') ∈ s_ledger s /\ Q e').
  { intros P Q HPQ. rewrite no_other_false, (rep_ledger _ _ _ Hr). split.
    - intros (r & ([q' e'] & -> & Hin)%list_elem_of_fmap & HP). exists q', e'. split; [done|by eapply HPQ].
    - intros (q' & e' & Hin & HQ). exists (ledger_row_of env q' e'). split; [|by apply HPQ].
      apply list_elem_of_fmap. by exists (q', e'). }
  etransitivity.
  { apply in_named; [|apply in_named; [|apply elem_of_nil]].
    - apply (Hin _ (fun e' => le_id e' = le_id e)). intros q' e'. cbn. rewrite bool_decide_eq_true.
      split; [apply id_value_inj|by intros ->].
    - apply (Hin _ (fun e' => le_walletID e' = le_walletID e /\ le_transactionID e' = le_transactionID e)).
      intros q' e'. cbn. rewrite andb_true_iff, !bool_decide_eq_true.
      split; intros [H1 H2]; [split; by apply id_value_inj|by rewrite H1, H2]. }
  tauto.
Qed.

Lemma represents_add_entry db s e : represents env db s -> entry_storable e ->
  represents env (with_ledger (fun l => l ++ [ledger_row_of env (db_ledger_seq db) e])
    (db_ledger_seq db + 1) db) (add_entry (db_ledger_seq db) (stored_entry e) s).
Proof.
  intros Hr Hs. rewrite <- (ledger_row_stored env _ e Hs). destruct Hr. constructor; cbn; try done.
  - by rewrite rep_ledger, fmap_app.
  - intros q e' [Hin|Hin]%elem_of_app; [by eapply rep_entry_ok|].
    apply list_elem_of_singleton in Hin as [= -> ->]. split; [by apply stored_entry_ok|by apply stored_entry_idem].
  - rewrite fmap_app. by apply numbered_snoc.
Qed.

Lemma Append_pg entry : entry_storable entry ->
  writes (pg_Append env (tx_querier env) entry)
    (fun s s' => (forall q e, (q, e) ∈ s_ledger s ->
         le_transactionID e = le_transactionID entry -> le_walletID e <> le_walletID entry) /\
       exists q, s' = add_entry q (stored_entry entry) s)
    (fun s e => is_conflict e (fun name => name = "wallet_ledger_entries_pkey" \/
         (name = "ledger_one_per_transaction_and_wallet" /\ exists q e', (q, e') ∈ s_ledger s /\
            le_walletID e' = le_walletID entry /\ le_transactionID e' = le_transactionID entry)) \/
       (is_violation e /\ (s_wallets s !! id_value (le_walletID entry) = None \/
                           s_txs s !! id_value (le_transactionID entry) = None))).
Proof.
  intros Hs. apply writes_exec. intros db s Hr. unfold insert_ledger, insert_ledger_row.
  replace (char3 (cl_currency (ledger_row_of env (db_ledger_seq db) entry)))
    with (Some (cur_code (currency (le_amount entry)))) by (symmetry; apply currency_char3, Hs).
  rewrite (ledger_row_checks env _ entry Hs).
  assert (Hspec := fun name => ledger_uniques_spec db s (db_ledger_seq db) entry name Hr).
  assert (Hle : seq_le db (with_ledger id (db_ledger_seq db + 1) db)) by (unfold seq_le; cbn; lia).
  destruct (ledger_uniques db _) as [|n names] eqn:Eu.
  - unfold ledger_transaction_fk, ledger_wallet_fk. cbn [cl_wallet_id cl_transaction_id ledger_row_of].
    rewrite (rep_tx_lookup env _ _ _ Hr), (rep_wallet_lookup env _ _ _ Hr).
    destruct (s_txs s !! _) eqn:Et; cbn; [|split; [done|right; split; [by eexists|by right]]].
    destruct (s_wallets s !! _) eqn:Ew; cbn; [|split; [done|right; split; [by eexists|by left]]].
    split; [unfold seq_le; cbn; lia|]. eexists. split; [|by apply represents_add_entry].
    split; [|by eexists]. intros q e Hin Ht Hw.
    apply (not_elem_of_nil "ledger_one_per_transaction_and_wallet"), Hspec. right. eauto 10.
  - split; [done|left]. apply pick_conflict; [done|]. intros name Hn%Hspec.
    destruct Hn as [[-> _]|Hn]; [by left|by right].
Qed.

(** ** The outbox *)

Lemma outbox_uniques_spec db s q r name : represents env db s ->
  name ∈ outbox_uniques db (outbox_row_of env q r) <->
  name = "outbox_events_pkey" /\ exists q' r', (q', r') ∈ s_outbox s /\ or_EventID r' = or_EventID r.
Proof.
  intros Hr. unfold outbox_uniques. rewrite elem_of_failing. etransitivity.
  { apply in_named; [apply no_other_false|apply elem_of_nil]. }
  rewrite (rep_outbox _ _ _ Hr). split.
  - intros [(-> & row & Hin & HP)|[]]. split; [done|]. apply bool_decide_eq_true in HP.
    exists (co_seq row), (record_of_row env row). split; [|done]. apply list_elem_of_fmap. by exists row.
  - intros (-> & q' & r' & Hin & HP). left. split; [done|].
    apply list_elem_of_fmap in Hin as (row & [= -> ->] & Hin). exists row. split; [done|].
    by apply bool_decide_eq_true.
Qed.

Lemma record_of_row_stored q r : record_of_row env (outbox_row_of env q r) = stored_record r.
Proof.
  unfold record_of_row, outbox_row_of, stored_record. cbn.
  by rewrite !deref_nullable, (derefTime_stored env (or_PublishedAt r)).
Qed.

Lemma represents_append_outbox db s r : represents env db s ->
  (forall q r', (q, r') ∈ s_outbox s -> or_EventID r' <> or_EventID r) ->
  outbox_row_ok (outbox_row_of env (db_outbox_seq db) r) ->
  represents env (with_outbox (fun l => l ++ [outbox_row_of env (db_outbox_seq db) r])
    (db_outbox_seq db + 1) db) (set_outbox (s_outbox s ++ [(db_outbox_seq db, stored_record r)]) s).
Proof.
  intros Hr Hnew Hok. rewrite <- (record_of_row_stored (db_outbox_seq db) r). destruct Hr. constructor; cbn; try done.
  - by rewrite rep_outbox, fmap_app.
  - rewrite fmap_app. by apply numbered_snoc.
  - rewrite fmap_app. apply NoDup_app. split_and!; [done| |apply NoDup_singleton].
    intros id Hid ->%list_elem_of_singleton. apply list_elem_of_fmap in Hid as (row & E & Hin).
    apply (Hnew (co_seq row) (record_of_row env row)); [|done].
    rewrite rep_outbox. apply list_elem_of_fmap. by exists row.
  - intros row [Hin| ->%list_elem_of_singleton]%elem_of_app; [by apply rep_outbox_ok|done].
Qed.

Lemma OutboxAppend_pg r : 0 <= or_Attempts r <= int32_max -> 1 <= ev_Version (or_Event r) <= int32_max ->
  set_late (or_PublishedAt r) ->
  writes (pg_OutboxAppend env (tx_querier env) r)
    (fun s s' => (forall q r', (q, r') ∈ s_outbox s -> or_EventID r' <> or_EventID r) /\
       exists q, s' = set_outbox (s_outbox s ++ [(q, stored_record r)]) s)
    (fun s e => is_conflict e (fun name => name = "outbox_events_pkey" /\
       exists q r', (q, r') ∈ s_outbox s /\ or_EventID r' = or_EventID r)).
Proof.
  intros Ha Hv Hp. apply writes_exec. intros db s Hr. unfold insert_outbox, insert_outbox_row.
  assert (Hok : outbox_row_ok (outbox_row_of env (db_outbox_seq db) r)).
  { split_and!; try apply Ha; try apply Hv. cbn. unfold nullableTime.
    destruct Hp as [->|Hp]; [done|]. destruct (Time_IsZero _); [done|]. intros [= E].
    rewrite en_encode_law in E. pose proof (Z.mod_pos_bound (instant (or_PublishedAt r)) 1000). lia. }
  unfold int32_max in Ha, Hv.
  assert (Hc : int4_ok (ev_Version (or_Event r)) && int4_ok (or_Attempts r) = true) by (unfold int4_ok; lia).
  unfold outbox_checks. cbn [co_event_version co_attempts outbox_row_of]. rewrite Hc. cbn [negb violated].
  replace (0 <=? or_Attempts r) with true by lia.
  replace (1 <=? ev_Version (or_Event r)) with true by lia.
  assert (Hspec := fun name => outbox_uniques_spec db s (db_outbox_seq db) r name Hr).
  destruct (outbox_uniques db _) as [|n names].
  - split; [unfold seq_le; cbn; lia|]. assert (Hnew : forall q r', (q, r') ∈ s_outbox s -> or_EventID r' <> or_EventID r).
    { intros q r' Hin E. apply (not_elem_of_nil "outbox_events_pkey"), Hspec. eauto 10. }
    eexists. split; [|by apply represents_append_outbox]. split; [done|by eexists].
  - split; [unfold seq_le; cbn; lia|]. apply pick_conflict; [done|]. intros name Hn%Hspec. done.
Qed.

End writes.
