(* ===== verification/Guard.v ===== *)
(** * Guard: what the schema refuses, whoever writes

    [migrations/*.sql] as the last line of defence: any statement on the
    tables, written by the program or by hand, with the triggers that make the
    ledger append-only.  A statement changes one row, except on the outbox;
    the [seq] columns take their defaults.  Statements that change the schema
    itself are not considered.

    [schema_ok] is what holds of every database reached by such statements in
    any transactions, committed or rolled back, from an empty one; the
    statements of [Postgres] are among them, so it holds without any law of
    the environment and however wrong the domain were. *)

From S2P Require Import Prelude Errors Money Identifier Ledger Wallet Transaction Event Ports Schema Postgres PostgresWrites.

#[local] Open Scope string_scope.
#[local] Open Scope list_scope.
#[local] Open Scope Z_scope.

(** ** Definitions *)

Variant table := Wallets | WagerTransactions | WalletLedgerEntries | InboxMessages | OutboxEvents.

(** A row is named by its key. *)
Inductive dml :=
| InsertWallet (r : wallet_row)
| UpdateWallet (id : string) (r : wallet_row)
| DeleteWallet (id : string)
| InsertTransaction (r : tx_row)
| UpdateTransaction (id : string) (r : tx_row)
| DeleteTransaction (id : string)
| InsertEntry (r : ledger_row)
| UpdateEntry (id : string) (r : ledger_row)
| DeleteEntry (id : string)
| InsertMessage (key : string * string) (r : inbox_row)
| UpdateMessage (key : string * string) (r : inbox_row)
| DeleteMessage (key : string * string)
| InsertEvent (r : outbox_row)
| UpdateEvents (rows : list outbox_row)   (* what the outbox becomes *)
| Truncate (t : table).

(** [wallet_ledger_entries_reject_mutation] *)
Definition reject_mutation : pg_failure := PgError "23001" "" "" "wallet_ledger_entries is append-only".

(** A table that others refer to is not truncated alone; with CASCADE the
    ledger is truncated too, which its trigger refuses. *)
Definition truncate_refused : pg_failure := PgError "0A000" "" "" "cannot truncate a table referenced in a foreign key constraint".

Section execute.
Context (env : Environment).

Definition outcome : Type := (pg_failure + unit) * DB.

(** The columns of a wallet as they are stored. *)
Definition padded_wallet (cur : string) (r : wallet_row) : wallet_row :=
  mkWalletRow (cw_id r) (cw_player_id r) cur (cw_balance_minor r) (cw_version r) (cw_created_at r) (cw_updated_at r).

Definition wallet_referenced (db : DB) (id : string) : bool :=
  existsb (fun r => bool_decide (ct_wallet_id r = id)) (map snd (map_to_list (db_txs db))) ||
  existsb (fun r => bool_decide (cl_wallet_id r = id)) (db_ledger db).

Definition update_wallet (id : string) (r : wallet_row) (db : DB) : outcome :=
  match db_wallets db !! id, char3 (cw_currency r) with
  | None, _ => (inr (), db)
  | _, None => (inl too_long, db)
  | Some _, Some cur =>
    let r := padded_wallet cur r in
    let rest := with_wallets (delete id) db in
    match violated (wallet_checks r), wallet_uniques rest r with
    | Some name, _ => (inl (check_violation "wallets" name), db)
    | None, _ :: _ as names => (inl (unique_violation env "wallets" (wallet_uniques rest r)), db)
    | None, [] =>
      if negb (bool_decide (cw_id r = id)) && wallet_referenced db id
      then (inl (fk_violation "wager_transactions" "wager_transactions_wallet_id_fkey"), db)
      else (inr (), with_wallets (insert (cw_id r) r) rest)
    end
  end.

Definition delete_wallet (id : string) (db : DB) : outcome :=
  if wallet_referenced db id then (inl (fk_violation "wager_transactions" "wager_transactions_wallet_id_fkey"), db)
  else (inr (), with_wallets (delete id) db).

(** Another operation or an entry names the operation. *)
Definition tx_referenced (db : DB) (id : string) : bool :=
  existsb (fun r => same_value (ct_resolved_reference_id r) (Some id)) (other_txs db id) ||
  existsb (fun r => bool_decide (cl_transaction_id r = id)) (db_ledger db).

Definition update_transaction (id : string) (r : tx_row) (db : DB) : outcome :=
  match db_txs db !! id with
  | None => (inr (), db)
  | Some _ =>
    if negb (bool_decide (ct_id r = id)) && tx_referenced db id
    then (inl (fk_violation "wallet_ledger_entries" "wallet_ledger_entries_transaction_id_fkey"), db)
    else
      match put_tx_row env true r (with_txs (delete id) db) with
      | (inl e, _) => (inl e, db)
      | (inr _, db') => (inr (), db')
      end
  end.

Definition delete_transaction (id : string) (db : DB) : outcome :=
  if tx_referenced db id then (inl (fk_violation "wallet_ledger_entries" "wallet_ledger_entries_transaction_id_fkey"), db)
  else (inr (), with_txs (delete id) db).

(** The trigger of every row that is updated or deleted. *)
Definition touch_entry (id : string) (db : DB) : outcome :=
  if existsb (fun r => bool_decide (cl_id r = id)) (db_ledger db) then (inl reject_mutation, db) else (inr (), db).

Definition numbered_entry (seq : Z) (r : ledger_row) : ledger_row :=
  mkLedgerRow seq (cl_id r) (cl_wallet_id r) (cl_transaction_id r) (cl_direction r) (cl_amount_minor r)
    (cl_balance_before_minor r) (cl_balance_after_minor r) (cl_currency r) (cl_created_at r).

Definition written {A} (out : (pg_failure + A) * DB) : outcome :=
  (match out.1 with inl e => inl e | inr _ => inr () end, out.2).

Definition event_storable (r : outbox_row) : bool :=
  int4_ok (co_event_version r) && int4_ok (co_attempts r) && is_null (violated (outbox_checks r)).

Definition update_events (rows : list outbox_row) (db : DB) : outcome :=
  if negb (forallb event_storable rows) then (inl out_of_int4, db)
  else if negb (bool_decide (NoDup (co_event_id <$> rows)))
  then (inl (unique_violation env "outbox_events" ["outbox_events_pkey"]), db)
  else (inr (), with_outbox (fun _ => rows) (db_outbox_seq db) db).

Definition truncate (t : table) (db : DB) : outcome :=
  match t with
  | Wallets | WagerTransactions => (inl truncate_refused, db)
  | WalletLedgerEntries => (inl reject_mutation, db)
  | InboxMessages => (inr (), with_inbox (fun _ => empty) db)
  | OutboxEvents => (inr (), with_outbox (fun _ => []) (db_outbox_seq db) db)
  end.

Definition execute (stmt : dml) (db : DB) : outcome :=
  match stmt with
  | InsertWallet r => insert_wallet env r db
  | UpdateWallet id r => update_wallet id r db
  | DeleteWallet id => delete_wallet id db
  | InsertTransaction r => put_tx_row env true r db
  | UpdateTransaction id r => update_transaction id r db
  | DeleteTransaction id => delete_transaction id db
  | InsertEntry r => insert_ledger_row env (numbered_entry (db_ledger_seq db) r) db
  | UpdateEntry id _ | DeleteEntry id => touch_entry id db
  | InsertMessage key r => written (insert_inbox key r db)
  | UpdateMessage key r => (inr (), with_inbox (alter (fun _ => r) key) db)
  | DeleteMessage key => (inr (), with_inbox (delete key) db)
  | InsertEvent r => insert_outbox_row env r db
  | UpdateEvents rows => update_events rows db
  | Truncate t => truncate t db
  end.

(** A transaction of any session: statements, then a commit or a rollback. *)
Inductive session : DB -> DB -> Prop :=
| se_commit stmts db : session db (foldl (fun db stmt => (execute stmt db).2) db stmts)
| se_rollback stmts db : session db (rollback_to db (foldl (fun db stmt => (execute stmt db).2) db stmts)).
End execute.

(** ** What the schema guards *)

(** Two operations that no unique index admits together. *)
Definition clash (r1 r2 : tx_row) : bool :=
  (bool_decide (ct_origin r1 = "EXTERNAL" /\ ct_origin r2 = "EXTERNAL") &&
     same_value (ct_provider_id r1) (ct_provider_id r2) &&
     (same_value (ct_external_id r1) (ct_external_id r2) || same_value (ct_idempotency_key r1) (ct_idempotency_key r2))) ||
  bool_decide (ct_kind r1 = "OPENING" /\ ct_kind r2 = "OPENING" /\ ct_wallet_id r1 = ct_wallet_id r2) ||
  (bool_decide (ct_status r1 = "PROCESSED" /\ ct_status r2 = "PROCESSED") &&
     same_value (ct_resolved_reference_id r1) (ct_resolved_reference_id r2)).

Record schema_ok (db : DB) : Prop := {
  sk_wallet : forall id r, db_wallets db !! id = Some r -> id = cw_id r /\ violated (wallet_checks r) = None;
  sk_one_wallet : forall id1 id2 r1 r2, db_wallets db !! id1 = Some r1 -> db_wallets db !! id2 = Some r2 ->
    cw_player_id r1 = cw_player_id r2 -> cw_currency r1 = cw_currency r2 -> id1 = id2;
  sk_tx : forall id r, db_txs db !! id = Some r ->
    id = ct_id r /\ violated (tx_checks r) = None /\ int4_ok (ct_reference_attempts r) = true /\
    is_Some (db_wallets db !! ct_wallet_id r) /\
    forall ref, ct_resolved_reference_id r = Some ref -> is_Some (db_txs db !! ref);
  sk_indexes : forall id1 id2 r1 r2, id1 <> id2 -> db_txs db !! id1 = Some r1 -> db_txs db !! id2 = Some r2 ->
    clash r1 r2 = false;
  sk_entry : forall r, r ∈ db_ledger db -> violated (ledger_checks r) = None /\ cl_seq r < db_ledger_seq db /\
    is_Some (db_wallets db !! cl_wallet_id r) /\ is_Some (db_txs db !! cl_transaction_id r);
  sk_entry_ids : NoDup (cl_id <$> db_ledger db);
  sk_entry_pairs : NoDup ((fun r => (cl_wallet_id r, cl_transaction_id r)) <$> db_ledger db);
  sk_entry_seqs : NoDup (cl_seq <$> db_ledger db);
  sk_event : forall r, r ∈ db_outbox db -> event_storable r = true;
  sk_event_ids : NoDup (co_event_id <$> db_outbox db)
}.

(** ** Lemmas on constraints *)

Lemma failing_Forall checks : failing checks = [] <-> Forall (fun nb => nb.2 = true) checks.
Proof.
  rewrite failing_nil, Forall_forall. split.
  - intros H [name []] Hin; [done|]. by destruct (H name).
  - intros H name Hin. by specialize (H _ Hin).
Qed.

Lemma same_value_sym a b : same_value a b = same_value b a.
Proof. destruct a as [a|], b as [b|]; [|done..]. cbn. apply bool_decide_ext. naive_solver. Qed.

Lemma clash_sym r1 r2 : clash r1 r2 = clash r2 r1.
Proof.
  unfold clash. rewrite (same_value_sym (ct_provider_id r1)), (same_value_sym (ct_external_id r1)),
    (same_value_sym (ct_idempotency_key r1)), (same_value_sym (ct_resolved_reference_id r1)).
  repeat f_equal; apply bool_decide_ext; naive_solver.
Qed.

(** A partial index over the others: it is not violated when the row is not
    indexed, or when no other indexed row has its key. *)
Lemma partial_index others (P : Prop) `{!Decision P} (Q : tx_row -> bool) :
  negb (bool_decide P) || no_other others Q = true <-> forall r2, r2 ∈ others -> P -> Q r2 = false.
Proof.
  rewrite orb_true_iff, negb_true_iff, bool_decide_eq_false, no_other_true. split.
  - intros [H|H] r2 Hr Hp; [done|by apply H].
  - intros H. destruct (decide P) as [Hp|Hp]; [right; intros r2 Hr; by apply H|by left].
Qed.

(** Decides the leading condition of a conjunction that has to be false. *)
Ltac guarded_by E :=
  match goal with
  | |- bool_decide ?P && _ = false => destruct (decide P) as [E|E]; [|by rewrite (bool_decide_eq_false_2 _ E)]
  | |- bool_decide ?P && _ && _ = false => destruct (decide P) as [E|E]; [|by rewrite (bool_decide_eq_false_2 _ E)]
  end; rewrite (bool_decide_eq_true_2 _ E); cbn [andb].

Lemma indexes_clash others r : failing (tx_indexes others r) = [] <-> forall r2, r2 ∈ others -> clash r r2 = false.
Proof.
  rewrite failing_Forall. unfold tx_indexes. rewrite !Forall_cons. cbn [snd]. rewrite !partial_index. unfold clash.
  setoid_rewrite orb_false_iff. setoid_rewrite orb_false_iff. split.
  - intros (H1 & H2 & H3 & H4 & _) r2 Hr. specialize (H1 r2 Hr). specialize (H2 r2 Hr). specialize (H3 r2 Hr).
    specialize (H4 r2 Hr). rewrite (same_value_sym (ct_provider_id r)), (same_value_sym (ct_external_id r)),
      (same_value_sym (ct_idempotency_key r)), (same_value_sym (ct_resolved_reference_id r)). split_and!.
    + guarded_by Ho. destruct Ho as [Ho Ho2]. specialize (H1 Ho). specialize (H2 Ho).
      rewrite bool_decide_eq_true_2 in H1, H2 by done. cbn [andb] in *.
      revert H1 H2. destruct (same_value (ct_provider_id r2) _); cbn [andb]; [|done]. by intros -> ->.
    + apply bool_decide_eq_false. intros (Hk & Hk2 & Hw). specialize (H3 Hk). by rewrite !bool_decide_eq_true_2 in H3 by done.
    + guarded_by Hs. destruct Hs as [Hs Hs2]. specialize (H4 Hs). by rewrite bool_decide_eq_true_2 in H4 by done.
  - intros H. split_and!; [..|constructor]; intros r2 Hr Hp; destruct (H r2 Hr) as [[H1 H2] H3];
      rewrite (same_value_sym (ct_provider_id r)), (same_value_sym (ct_external_id r)),
        (same_value_sym (ct_idempotency_key r)) in H1; rewrite (same_value_sym (ct_resolved_reference_id r)) in H3.
    + guarded_by E. rewrite bool_decide_eq_true_2 in H1 by done. cbn [andb] in *.
      revert H1. destruct (same_value (ct_provider_id r2) _); cbn [andb]; [|done]. by intros [? _]%orb_false_iff.
    + guarded_by E. rewrite bool_decide_eq_true_2 in H1 by done. cbn [andb] in *.
      revert H1. destruct (same_value (ct_provider_id r2) _); cbn [andb]; [|done]. by intros [_ ?]%orb_false_iff.
    + guarded_by E. apply bool_decide_eq_false in H2. apply bool_decide_eq_false. naive_solver.
    + guarded_by E. by rewrite bool_decide_eq_true_2 in H3 by done.
Qed.

Lemma existsb_false {A} (P : A -> bool) l : existsb P l = false <-> forall a, a ∈ l -> P a = false.
Proof.
  rewrite <- not_true_iff_false, existsb_exists. split.
  - intros H a Ha. apply not_true_iff_false. intros Hp. apply H. exists a. by rewrite <- list_elem_of_In.
  - intros H (a & Ha & Hp). apply list_elem_of_In in Ha. by rewrite (H a Ha) in Hp.
Qed.

Lemma elem_of_rows {K A} `{Countable K} (m : gmap K A) a : a ∈ map snd (map_to_list m) <-> exists k, m !! k = Some a.
Proof.
  rewrite list_elem_of_fmap. split.
  - intros ([k a'] & -> & Hin). exists k. by apply elem_of_map_to_list.
  - intros [k Hk]. exists (k, a). split; [done|]. by apply elem_of_map_to_list.
Qed.

Lemma wallet_referenced_false db id : wallet_referenced db id = false <->
  (forall k t, db_txs db !! k = Some t -> ct_wallet_id t <> id) /\ (forall r, r ∈ db_ledger db -> cl_wallet_id r <> id).
Proof.
  unfold wallet_referenced. rewrite orb_false_iff, !existsb_false. setoid_rewrite elem_of_rows.
  setoid_rewrite bool_decide_eq_false. naive_solver.
Qed.

Lemma tx_referenced_false db id : tx_referenced db id = false <->
  (forall k t, db_txs db !! k = Some t -> k <> id -> ct_resolved_reference_id t <> Some id) /\
  (forall r, r ∈ db_ledger db -> cl_transaction_id r <> id).
Proof.
  unfold tx_referenced, other_txs. rewrite orb_false_iff, !existsb_false. setoid_rewrite elem_of_rows.
  setoid_rewrite bool_decide_eq_false. setoid_rewrite lookup_delete_Some.
  assert (Hv : forall o, same_value o (Some id) = false <-> o <> Some id).
  { intros [v|]; [|done]. cbn. rewrite bool_decide_eq_false. naive_solver. }
  setoid_rewrite Hv. naive_solver.
Qed.

Lemma wallet_uniques_nil db r : wallet_uniques db r = [] ->
  db_wallets db !! cw_id r = None /\
  forall id r', db_wallets db !! id = Some r' -> id <> cw_id r ->
    cw_player_id r' = cw_player_id r -> cw_currency r' = cw_currency r -> False.
Proof.
  unfold wallet_uniques. rewrite failing_Forall, !Forall_cons. cbn [snd]. intros (Hk & Hu & _). split.
  - by destruct (db_wallets db !! cw_id r).
  - intros id r' Hr Hne Hp Hc. rewrite no_other_true in Hu. specialize (Hu r').
    rewrite !bool_decide_eq_true_2 in Hu by done. discriminate Hu. apply elem_of_rows. exists id.
    by rewrite lookup_delete_ne by done.
Qed.

Section preserved.
Context (env : Environment).

(** *** Wallets *)

Definition replace_wallet (id : string) (r : wallet_row) (db : DB) : DB :=
  with_wallets (insert (cw_id r) r) (with_wallets (delete id) db).

Lemma replaced_is_Some {A} (m : gmap string A) id id' k a : is_Some (m !! k) -> id' = id \/ k <> id ->
  is_Some (<[id' := a]> (delete id m) !! k).
Proof.
  intros Hk Hor. destruct (decide (k = id')) as [->|Hne]; [by rewrite lookup_insert_eq|].
  rewrite lookup_insert_ne, lookup_delete_ne by naive_solver. done.
Qed.

Lemma replace_wallet_ok id r db : schema_ok db -> violated (wallet_checks r) = None ->
  wallet_uniques (with_wallets (delete id) db) r = [] -> cw_id r = id \/ wallet_referenced db id = false ->
  schema_ok (replace_wallet id r db).
Proof using.
  intros [H1 H2 H3 H4 H5 H6 H7 H8 H9 H10] Hc Hu Hid. apply wallet_uniques_nil in Hu as [Hnone Hu]. cbn in Hnone, Hu.
  assert (Hkeep : forall k, is_Some (db_wallets db !! k) -> (wallet_referenced db id = false -> k <> id) ->
    is_Some (<[cw_id r := r]> (delete id (db_wallets db)) !! k)).
  { intros k Hk Hne. apply replaced_is_Some; [done|]. destruct Hid as [Hid|Hid]; [by left|right; auto]. }
  constructor; cbn; try done.
  - intros k r'. rewrite lookup_insert_Some, lookup_delete_Some. intros [[<- <-]|(_ & _ & Hr)]; [done|by apply H1].
  - intros k1 k2 r1 r2. rewrite !lookup_insert_Some. intros [[<- <-]|[Hn1 L1]] [[<- <-]|[Hn2 L2]] Hp Hcur; [done|..].
    + exfalso. by eapply (Hu k2).
    + exfalso. by eapply (Hu k1).
    + apply lookup_delete_Some in L1 as [_ L1], L2 as [_ L2]. by eapply H2.
  - intros k t Ht. destruct (H3 k t Ht) as (? & ? & ? & Hw & ?). split_and!; [done..| |done].
    apply Hkeep; [done|]. intros Href. by eapply wallet_referenced_false.
  - intros e He. destruct (H5 e He) as (? & ? & Hw & ?). split_and!; [done..| |done].
    apply Hkeep; [done|]. intros Href. by eapply wallet_referenced_false.
Qed.

Lemma insert_wallet_ok r db : schema_ok db -> schema_ok (insert_wallet env r db).2.
Proof using.
  intros Hs. unfold insert_wallet. destruct (char3 (cw_currency r)) as [cur|]; [|done].
  fold (padded_wallet cur r). cbv zeta. set (r' := padded_wallet cur r).
  destruct (violated (wallet_checks r')) eqn:Hc; [done|]. destruct (wallet_uniques db r') eqn:Hu; [|done].
  destruct (wallet_uniques_nil _ _ Hu) as [Hnone _]. cbn [snd].
  assert (E : with_wallets (delete (cw_id r')) db = db) by (destruct db; unfold with_wallets; cbn in *; by rewrite delete_id).
  change (with_wallets (insert (cw_id r) r') db) with (with_wallets (insert (cw_id r') r') db). rewrite <- E.
  apply replace_wallet_ok; [done..|by rewrite E|by left].
Qed.

Lemma update_wallet_ok id r db : schema_ok db -> schema_ok (update_wallet env id r db).2.
Proof using.
  intros Hs. unfold update_wallet. destruct (db_wallets db !! id); [|done].
  destruct (char3 (cw_currency r)) as [cur|]; [|done]. cbv zeta. set (r' := padded_wallet cur r).
  destruct (violated (wallet_checks r')) eqn:Hc; [done|]. destruct (wallet_uniques _ r') eqn:Hu; [|done].
  destruct (negb _ && _) eqn:Hr; [done|]. apply replace_wallet_ok; [done..|].
  apply andb_false_iff in Hr as [Hr|Hr]; [left; by apply negb_false_iff, bool_decide_eq_true in Hr|by right].
Qed.

Lemma delete_wallet_ok id db : schema_ok db -> schema_ok (delete_wallet id db).2.
Proof using.
  intros Hs. unfold delete_wallet. destruct (wallet_referenced db id) eqn:Href; [done|].
  apply wallet_referenced_false in Href as [Ht Hl]. destruct Hs as [H1 H2 H3 H4 H5 H6 H7 H8 H9 H10].
  constructor; cbn; try done.
  - intros k r'. rewrite lookup_delete_Some. intros [_ Hr]. by apply H1.
  - intros k1 k2 r1 r2. rewrite !lookup_delete_Some. intros [_ L1] [_ L2]. by eapply H2.
  - intros k t Hk. destruct (H3 k t Hk) as (? & ? & ? & Hw & ?). split_and!; [done..| |done].
    rewrite lookup_delete_ne; [done|]. intros E. by apply (Ht k t Hk).
  - intros e He. destruct (H5 e He) as (? & ? & Hw & ?). split_and!; [done..| |done].
    rewrite lookup_delete_ne; [done|]. intros E. by apply (Hl e He).
Qed.

(** *** Operations *)

Definition replace_tx (id : string) (r : tx_row) (db : DB) : DB :=
  with_txs (insert (ct_id r) r) (with_txs (delete id) db).

(** What an accepted row of [wager_transactions] satisfies. *)
Lemma put_tx_row_out fresh r db :
  (exists e, put_tx_row env fresh r db = (inl e, db)) \/
  put_tx_row env fresh r db = (inr (), with_txs (insert (ct_id r) r) db) /\
  violated (tx_checks r) = None /\ int4_ok (ct_reference_attempts r) = true /\
  (fresh = true -> db_txs db !! ct_id r = None) /\
  (forall id r', db_txs db !! id = Some r' -> id <> ct_id r -> clash r r' = false) /\
  tx_reference_fk db r = true /\ is_Some (db_wallets db !! ct_wallet_id r).
Proof using.
  unfold put_tx_row. destruct (char3 _); [|by left; eexists]. destruct (int4_ok _); [|by left; eexists].
  destruct (violated _) eqn:Hc; [by left; eexists|]. cbn [negb].
  destruct (failing _) eqn:Hf; [|by left; eexists].
  destruct (tx_reference_fk db r) eqn:Href; [|by left; eexists]. cbn [negb].
  destruct (tx_wallet_fk db r) eqn:Hw; [|by left; eexists]. right.
  apply failing_Forall, Forall_cons in Hf as [Hk Hi]. cbn [snd] in Hk. apply failing_Forall in Hi.
  rewrite indexes_clash in Hi. split_and!; try done.
  - intros ->. by destruct (db_txs db !! ct_id r).
  - intros id r' Hr Hne. apply Hi. unfold other_txs. apply elem_of_rows. exists id. by rewrite lookup_delete_ne.
  - unfold tx_wallet_fk in Hw. by destruct (db_wallets db !! ct_wallet_id r).
Qed.

Lemma replace_tx_ok id r db : schema_ok db -> violated (tx_checks r) = None ->
  int4_ok (ct_reference_attempts r) = true -> delete id (db_txs db) !! ct_id r = None ->
  (forall k r', delete id (db_txs db) !! k = Some r' -> k <> ct_id r -> clash r r' = false) ->
  tx_reference_fk (with_txs (delete id) db) r = true -> is_Some (db_wallets db !! ct_wallet_id r) ->
  ct_id r = id \/ tx_referenced db id = false -> schema_ok (replace_tx id r db).
Proof using.
  intros [H1 H2 H3 H4 H5 H6 H7 H8 H9 H10] Hc Ha Hnone Hu Href Hw Hid.
  assert (Hkeep : forall k, is_Some (db_txs db !! k) -> (tx_referenced db id = false -> k <> id) ->
    is_Some (<[ct_id r := r]> (delete id (db_txs db)) !! k)).
  { intros k Hk Hne. apply replaced_is_Some; [done|]. destruct Hid as [Hid|Hid]; [by left|right; auto]. }
  constructor; cbn; try done.
  - intros k t. rewrite lookup_insert_Some, lookup_delete_Some. intros [[<- <-]|(Hne & Hnid & Ht)].
    + split_and!; [done..|]. intros ref Hr. unfold tx_reference_fk in Href. rewrite Hr in Href.
      apply orb_true_iff in Href as [->%bool_decide_eq_true|Href]; [by rewrite lookup_insert_eq|].
      cbn in Href. destruct (delete id (db_txs db) !! ref) eqn:E; [|done].
      destruct (decide (ref = ct_id r)) as [->|Hn]; [by rewrite lookup_insert_eq|]. by rewrite lookup_insert_ne, E.
    + destruct (H3 k t Ht) as (? & ? & ? & ? & Hr). split_and!; [done..|]. intros ref Hres.
      apply Hkeep; [by apply Hr|]. intros Hno ->. apply tx_referenced_false in Hno as [Hno _].
      by apply (Hno k t Ht).
  - intros k1 k2 r1 r2 Hne. rewrite !lookup_insert_Some. intros [[<- <-]|[Hn1 L1]] [[<- <-]|[Hn2 L2]]; [done|..].
    + by apply (Hu k2).
    + rewrite clash_sym. by apply (Hu k1).
    + apply lookup_delete_Some in L1 as [_ L1], L2 as [_ L2]. by eapply (H4 k1 k2).
  - intros e He. destruct (H5 e He) as (? & ? & ? & Ht). split_and!; [done..|].
    apply Hkeep; [done|]. intros Hno. apply tx_referenced_false in Hno as [_ Hno]. by apply Hno.
Qed.

Lemma insert_tx_ok r db : schema_ok db -> schema_ok (put_tx_row env true r db).2.
Proof using.
  intros Hs. destruct (put_tx_row_out true r db) as [[e ->]|(-> & Hc & Ha & Hf & Hu & Href & Hw)]; [done|].
  cbn [snd]. specialize (Hf eq_refl).
  assert (Ed : delete (ct_id r) (db_txs db) = db_txs db) by (by apply delete_id).
  assert (E : with_txs (delete (ct_id r)) db = db) by (destruct db; unfold with_txs; cbn in *; by rewrite Ed).
  pose proof (replace_tx_ok (ct_id r) r db Hs Hc Ha) as H. unfold replace_tx in H. rewrite E, Ed in H.
  apply H; [done..|by left].
Qed.

Lemma update_transaction_ok id r db : schema_ok db -> schema_ok (update_transaction env id r db).2.
Proof using.
  intros Hs. unfold update_transaction. destruct (db_txs db !! id); [|done].
  destruct (negb _ && _) eqn:Hr; [done|].
  destruct (put_tx_row_out true r (with_txs (delete id) db)) as [[e ->]|(-> & Hc & Ha & Hf & Hu & Href & Hw)]; [done|].
  cbn [snd]. apply replace_tx_ok; try done; [by apply Hf|].
  apply andb_false_iff in Hr as [Hr|Hr]; [left; by apply negb_false_iff, bool_decide_eq_true in Hr|by right].
Qed.

Lemma delete_transaction_ok id db : schema_ok db -> schema_ok (delete_transaction id db).2.
Proof using.
  intros Hs. unfold delete_transaction. destruct (tx_referenced db id) eqn:Href; [done|].
  apply tx_referenced_false in Href as [Ht Hl]. destruct Hs as [H1 H2 H3 H4 H5 H6 H7 H8 H9 H10].
  constructor; cbn; try done.
  - intros k t. rewrite lookup_delete_Some. intros [Hne Hk]. destruct (H3 k t Hk) as (? & ? & ? & ? & Hr).
    split_and!; [done..|]. intros ref Hres. rewrite lookup_delete_ne; [by apply Hr|].
    intros ->. by apply (Ht k t Hk).
  - intros k1 k2 r1 r2 Hne. rewrite !lookup_delete_Some. intros [_ L1] [_ L2]. by eapply (H4 k1 k2).
  - intros e He. destruct (H5 e He) as (? & ? & ? & Hk). split_and!; [done..|].
    rewrite lookup_delete_ne; [done|]. intros E. by apply (Hl e He).
Qed.

(** *** Entries *)

Lemma used_seq_ok db : schema_ok db -> schema_ok (with_ledger id (db_ledger_seq db + 1) db).
Proof using.
  intros [H1 H2 H3 H4 H5 H6 H7 H8 H9 H10]. constructor; cbn; try done.
  intros r Hr. destruct (H5 r Hr) as (? & ? & ? & ?). split_and!; [done|lia|done..].
Qed.

Lemma NoDup_fmap_app_one {A B} (f : A -> B) l a : NoDup (f <$> l) -> (forall b, b ∈ l -> f b <> f a) -> NoDup (f <$> (l ++ [a])).
Proof using.
  intros Hl Ha. rewrite fmap_app. apply NoDup_app. split_and!; [done| |apply NoDup_singleton].
  intros x Hx Hx'. apply list_elem_of_singleton in Hx'. apply list_elem_of_fmap in Hx as (b & -> & Hb). by apply (Ha b Hb).
Qed.

(** An entry that is accepted is appended. *)
Lemma insert_entry_out r db : schema_ok db -> cl_seq r = db_ledger_seq db ->
  schema_ok (insert_ledger_row env r db).2 /\
  (db_ledger (insert_ledger_row env r db).2 = db_ledger db \/ db_ledger (insert_ledger_row env r db).2 = db_ledger db ++ [r]).
Proof using.
  intros Hs Hseq. pose proof (used_seq_ok db Hs) as Hused. unfold insert_ledger_row.
  destruct (char3 _); [|by split; [|left]]. destruct (violated (ledger_checks r)) eqn:Hc; [by split; [|left]|].
  destruct (ledger_uniques db r) eqn:Hu; [|by split; [|left]].
  destruct (ledger_transaction_fk db r) eqn:Ht; [|by split; [|left]].
  destruct (ledger_wallet_fk db r) eqn:Hw; [|by split; [|left]]. cbn [negb snd]. split; [|by right].
  apply failing_Forall in Hu. rewrite !Forall_cons in Hu. cbn [snd] in Hu. rewrite !no_other_true in Hu.
  destruct Hu as (Hid & Hpair & _). destruct Hs as [H1 H2 H3 H4 H5 H6 H7 H8 H9 H10]. constructor; cbn; try done.
  - intros e He. apply elem_of_app in He as [He|He]; [|apply list_elem_of_singleton in He as ->].
    + destruct (H5 e He) as (? & ? & ? & ?). split_and!; [done|lia|done..].
    + unfold ledger_wallet_fk in Hw. unfold ledger_transaction_fk in Ht. split_and!; [done|lia| |].
      * by destruct (db_wallets db !! cl_wallet_id r).
      * by destruct (db_txs db !! cl_transaction_id r).
  - apply NoDup_fmap_app_one; [done|]. intros b Hb E. specialize (Hid b Hb). by apply bool_decide_eq_false in Hid.
  - apply NoDup_fmap_app_one; [done|]. intros b Hb [= E1 E2]. specialize (Hpair b Hb).
    by rewrite !bool_decide_eq_true_2 in Hpair by done.
  - apply NoDup_fmap_app_one; [done|]. intros b Hb E. destruct (H5 b Hb) as (_ & ? & _). lia.
Qed.

(** *** Messages and events *)

Lemma with_inbox_ok f db : schema_ok db -> schema_ok (with_inbox f db).
Proof using. by intros [H1 H2 H3 H4 H5 H6 H7 H8 H9 H10]. Qed.

Lemma with_outbox_ok rows seq db : schema_ok db -> Forall (fun r => event_storable r = true) rows ->
  NoDup (co_event_id <$> rows) -> schema_ok (with_outbox (fun _ => rows) seq db).
Proof using.
  intros [H1 H2 H3 H4 H5 H6 H7 H8 H9 H10] Hr Hn. constructor; cbn; try done. by apply Forall_forall.
Qed.

Lemma outbox_rows_ok db : schema_ok db -> Forall (fun r => event_storable r = true) (db_outbox db).
Proof using. intros [? ? ? ? ? ? ? ? H _]. by apply Forall_forall. Qed.

Lemma insert_event_ok r db : schema_ok db -> schema_ok (insert_outbox_row env r db).2.
Proof using.
  intros Hs. assert (Hused : forall seq, schema_ok (with_outbox id seq db)).
  { intros seq. apply (with_outbox_ok (db_outbox db)); [done|by apply outbox_rows_ok|apply Hs]. }
  unfold insert_outbox_row. destruct (int4_ok _ && int4_ok _) eqn:Hi; [|done].
  destruct (violated (outbox_checks r)) eqn:Hc; [apply Hused|].
  destruct (outbox_uniques db r) eqn:Hu; [|apply Hused]. cbn [negb snd].
  apply failing_Forall, Forall_cons in Hu as [Hu _]. cbn [snd] in Hu. rewrite no_other_true in Hu.
  apply (with_outbox_ok (db_outbox db ++ [r])); [done| |].
  - apply Forall_app. split; [by apply outbox_rows_ok|]. constructor; [|constructor]. unfold event_storable.
    by rewrite Hi, Hc.
  - apply NoDup_fmap_app_one; [apply Hs|]. intros b Hb E. specialize (Hu b Hb). by apply bool_decide_eq_false in Hu.
Qed.

Lemma update_events_ok rows db : schema_ok db -> schema_ok (update_events env rows db).2.
Proof using.
  intros Hs. unfold update_events. destruct (forallb event_storable rows) eqn:Hf; [|done]. cbn [negb].
  destruct (bool_decide _) eqn:Hn; [|done]. apply bool_decide_eq_true in Hn. apply with_outbox_ok; [done| |done].
  apply Forall_forall. intros r Hr. rewrite forallb_forall in Hf. apply Hf. by apply list_elem_of_In.
Qed.

(** *** Any statement, any transaction *)

Lemma execute_ok stmt db : schema_ok db ->
  schema_ok (execute env stmt db).2 /\ db_ledger db `prefix_of` db_ledger (execute env stmt db).2.
Proof using.
  intros Hs. destruct stmt as [r|id r|id|r|id r|id|r|id r|id|key r|key r|key|r|rows|t]; cbn [execute].
  - split; [by apply insert_wallet_ok|]. unfold insert_wallet. by repeat case_match.
  - split; [by apply update_wallet_ok|]. unfold update_wallet. by repeat case_match.
  - split; [by apply delete_wallet_ok|]. unfold delete_wallet. by repeat case_match.
  - split; [by apply insert_tx_ok|]. by destruct (put_tx_row_out true r db) as [[e ->]|[-> _]].
  - split; [by apply update_transaction_ok|]. unfold update_transaction.
    destruct (db_txs db !! id); [|done]. destruct (negb _ && _); [done|].
    by destruct (put_tx_row_out true r (with_txs (delete id) db)) as [[e ->]|[-> _]].
  - split; [by apply delete_transaction_ok|]. unfold delete_transaction. by repeat case_match.
  - destruct (insert_entry_out (numbered_entry (db_ledger_seq db) r) db Hs eq_refl) as [Hok [-> | ->]];
      (split; [done|]); [done|by apply prefix_app_r].
  - unfold touch_entry. by destruct (existsb _ _).
  - unfold touch_entry. by destruct (existsb _ _).
  - unfold written, insert_inbox. cbn [snd]. destruct (db_inbox db !! key); (split; [|done]); [done|by apply with_inbox_ok].
  - split; [by apply with_inbox_ok|done].
  - split; [by apply with_inbox_ok|done].
  - split; [by apply insert_event_ok|]. unfold insert_outbox_row. by repeat case_match.
  - split; [by apply update_events_ok|]. unfold update_events. by repeat case_match.
  - destruct t; cbn; (split; [|done]); try done; [by apply with_inbox_ok|].
    apply with_outbox_ok; [done|constructor..].
Qed.

(** *** The statements of the adapter *)

Inductive adapter_write : DB -> DB -> Prop :=
| aw_wallet r db : adapter_write db (insert_wallet env r db).2
| aw_balance balance version at_ id expected db : adapter_write db (update_balance balance version at_ id expected db).2
| aw_insert r db : adapter_write db (put_tx_row env true r db).2
| aw_update r db : adapter_write db (update_tx env r db).2
| aw_append entry db : adapter_write db (insert_ledger env entry db).2
| aw_claim key r db : adapter_write db (insert_inbox key r db).2
| aw_complete key at_ db : adapter_write db (complete_inbox key at_ db).2
| aw_event r db : adapter_write db (insert_outbox env r db).2
| aw_published id at_ db : adapter_write db (update_outbox (unpublished id) (mark_published at_) db).2
| aw_rescheduled id at_ cause db : adapter_write db (update_outbox (unpublished id) (reschedule_row at_ cause) db).2.

Definition executes (stmts : list dml) (db : DB) : DB := foldl (fun db stmt => (execute env stmt db).2) db stmts.

Lemma iso4217_char3 s : iso4217 s = true -> char3 s = Some s.
Proof using.
  unfold iso4217, char3. intros [Hl _]%andb_prop. apply Nat.eqb_eq in Hl. by rewrite Hl.
Qed.

Lemma violated_In name checks : violated checks = None -> (name, false) ∉ checks.
Proof using.
  induction checks as [|[n b] checks IH]; cbn; [by intros _ ?%not_elem_of_nil|]. destruct b; [|done].
  intros H [E|Hin]%elem_of_cons; [done|by apply IH].
Qed.

Lemma update_balance_executes balance version at_ id expected db : schema_ok db ->
  exists stmts, (update_balance balance version at_ id expected db).2 = executes stmts db.
Proof using.
  intros Hs. unfold update_balance. destruct (db_wallets db !! id) as [r|] eqn:Er; [|by exists []].
  destruct (negb _); [by exists []|].
  set (r' := mkWalletRow (cw_id r) (cw_player_id r) (cw_currency r) balance version (cw_created_at r) at_).
  destruct (violated (wallet_checks r')) eqn:Hc; [by exists []|].
  destruct (sk_wallet db Hs id r Er) as [Hid _]. exists [UpdateWallet id r'].
  assert (Hiso : iso4217 (cw_currency r) = true).
  { pose proof (violated_In "wallets_currency_iso4217" _ Hc) as Hn. unfold wallet_checks in Hn.
    destruct (iso4217 (cw_currency r)) eqn:E; [done|]. destruct Hn. cbn. rewrite E. right. left. }
  unfold executes. cbn [foldl execute snd]. unfold update_wallet. rewrite Er.
  change (char3 (cw_currency r')) with (char3 (cw_currency r)). rewrite iso4217_char3 by done.
  change (padded_wallet (cw_currency r) r') with r'. rewrite Hc.
  assert (Hu : wallet_uniques (with_wallets (delete id) db) r' = []).
  { unfold wallet_uniques. apply failing_Forall. rewrite !Forall_cons. cbn [snd with_wallets db_wallets].
    change (cw_id r') with (cw_id r). rewrite <- Hid, lookup_delete_eq. split_and!; [done| |constructor].
    apply no_other_true. intros r2 (k & Hk)%elem_of_rows. apply lookup_delete_Some in Hk as [Hne Hk].
    apply lookup_delete_Some in Hk as [_ Hk]. apply andb_false_iff.
    case_bool_decide as Hp; [right|by left]. apply bool_decide_eq_false. intros Hcur. apply Hne.
    symmetry. by eapply (sk_one_wallet db Hs k id). }
  rewrite Hu. change (cw_id r') with (cw_id r). rewrite Hid, bool_decide_eq_true_2 by done. cbn [negb andb snd].
  unfold with_wallets. cbn. f_equal. by rewrite insert_delete_eq.
Qed.

Lemma put_tx_row_over r db :
  (exists e, put_tx_row env false r db = (inl e, db)) \/
  exists db', put_tx_row env false r db = (inr (), db') /\
    put_tx_row env true r (with_txs (delete (ct_id r)) db) = (inr (), db').
Proof using.
  unfold put_tx_row. destruct (char3 _); [|left; by eexists]. destruct (int4_ok _); [|left; by eexists]. cbn [negb].
  destruct (violated _); [left; by eexists|].
  assert (Eo : other_txs (with_txs (delete (ct_id r)) db) (ct_id r) = other_txs db (ct_id r)).
  { unfold other_txs. cbn. do 2 f_equal. apply map_eq. intros k. destruct (decide (k = ct_id r)) as [->|Hne].
    - by rewrite !lookup_delete_eq.
    - by rewrite !lookup_delete_ne by done. }
  rewrite Eo. change (db_txs (with_txs (delete (ct_id r)) db)) with (delete (ct_id r) (db_txs db)).
  rewrite lookup_delete_eq. cbn [negb orb is_null]. destruct (failing _); [|left; by eexists].
  destruct (tx_reference_fk db r) eqn:Hf; [|left; by eexists].
  assert (Hf' : tx_reference_fk (with_txs (delete (ct_id r)) db) r = true).
  { revert Hf. unfold tx_reference_fk. destruct (ct_resolved_reference_id r) as [ref|]; [|done]. cbn.
    destruct (decide (ref = ct_id r)) as [->|Hne]; [by rewrite bool_decide_eq_true_2|].
    by rewrite lookup_delete_ne by done. }
  rewrite Hf'. cbn [negb]. change (tx_wallet_fk (with_txs (delete (ct_id r)) db) r) with (tx_wallet_fk db r).
  destruct (tx_wallet_fk db r); [|left; by eexists]. right. cbn [negb]. eexists. split; [done|].
  unfold with_txs. cbn. by rewrite insert_delete_eq.
Qed.

Lemma update_tx_executes r db : schema_ok db -> exists stmts, (update_tx env r db).2 = executes stmts db.
Proof using.
  intros Hs. unfold update_tx. destruct (db_txs db !! ct_id r) as [old|] eqn:Eo; [|by exists []].
  destruct (is_in _ _); [by exists []|]. destruct (sk_tx db Hs _ _ Eo) as [Hid _].
  set (r' := mkTxRow _ _ _ _ _ _ _ _ _ _ _ _ _ _ _ _ _ _ _ _ _ _ _).
  assert (Hid' : ct_id r' = ct_id r) by done. clearbody r'.
  destruct (put_tx_row_over r' db) as [[e ->]|(db' & -> & E)]; [by exists []|].
  exists [UpdateTransaction (ct_id r) r']. unfold executes. cbn [foldl execute]. unfold update_transaction.
  rewrite Hid' in E. by rewrite Eo, Hid', bool_decide_eq_true_2, E.
Qed.

Lemma update_rows_each {R} (P : R -> bool) (f : R -> pg_failure + R) rows n rows' :
  update_rows P f rows = inr (n, rows') -> Forall2 (fun r r' => r' = r \/ f r = inr r') rows rows'.
Proof using.
  revert n rows'. induction rows as [|r rows IH]; intros n rows'; cbn [update_rows]; [by intros [= <- <-]; constructor|].
  destruct (P r).
  - destruct (f r) as [e|r'] eqn:Ef; [done|]. destruct (update_rows P f rows) as [e|[m rest]]; [done|].
    intros [= <- <-]. constructor; [by right|]. by eapply IH.
  - destruct (update_rows P f rows) as [e|[m rest]]; [done|]. intros [= <- <-]. constructor; [by left|]. by eapply IH.
Qed.

(** An update that leaves the keys alone and the checks satisfied. *)
Lemma update_outbox_executes P f db : schema_ok db ->
  (forall r r', event_storable r = true -> f r = inr r' -> co_event_id r' = co_event_id r /\ event_storable r' = true) ->
  exists stmts, (update_outbox P f db).2 = executes stmts db.
Proof using.
  intros Hs Hf. unfold update_outbox. destruct (update_rows P f (db_outbox db)) as [e|[n rows]] eqn:E; [by exists []|].
  exists [UpdateEvents rows]. unfold executes. cbn [foldl execute snd]. unfold update_events.
  assert (Hrows : Forall (fun r => event_storable r = true) rows /\ co_event_id <$> rows = co_event_id <$> db_outbox db).
  { apply update_rows_each in E. pose proof (outbox_rows_ok db Hs) as Hall. revert Hall. generalize (db_outbox db) E.
    clear E. intros l. induction 1 as [|r r' l l' Hr _ IH]; [done|]. intros [Hok Hall]%Forall_cons.
    destruct (IH Hall) as [IH1 IH2]. destruct Hr as [->|Hr]; [by cbn; rewrite IH2; split; [constructor|]|].
    destruct (Hf r r' Hok Hr) as [Hid Hok']. cbn. rewrite Hid, IH2. by split; [constructor|]. }
  destruct Hrows as [Hok Hids]. assert (Hb : forallb event_storable rows = true).
  { apply forallb_forall. intros r Hr. rewrite Forall_forall in Hok. by apply Hok, list_elem_of_In. }
  rewrite Hb, Hids, bool_decide_eq_true_2 by apply Hs. done.
Qed.

(** Everything the adapter writes could be written by hand. *)
Lemma adapter_write_executes db db' : schema_ok db -> adapter_write db db' -> exists stmts, db' = executes stmts db.
Proof using.
  intros Hs. destruct 1 as [r db|b v at_ id exp db|r db|r db|entry db|key r db|key at_ db|r db|id at_ db|id at_ cause db].
  - by exists [InsertWallet r].
  - by apply update_balance_executes.
  - by exists [InsertTransaction r].
  - by apply update_tx_executes.
  - by exists [InsertEntry (ledger_row_of env (db_ledger_seq db) entry)].
  - by exists [InsertMessage key r].
  - unfold complete_inbox. destruct (db_inbox db !! key) as [r|] eqn:E; [|by exists []].
    exists [UpdateMessage key (mkInboxRow (ci_payload_hash r) (ci_received_at r) (Some at_))]. cbn.
    unfold with_inbox. cbn. f_equal. apply map_eq. intros k. destruct (decide (k = key)) as [->|Hne].
    + by rewrite lookup_insert_eq, lookup_alter_eq, E.
    + by rewrite lookup_insert_ne, lookup_alter_ne by done.
  - by exists [InsertEvent (outbox_row_of env (db_outbox_seq db) r)].
  - apply update_outbox_executes; [done|]. intros r r' Hr [= <-]. by split.
  - apply update_outbox_executes; [done|]. intros r r' Hr. unfold reschedule_row.
    destruct (int4_ok (co_attempts r + 1)) eqn:Ha; [|done]. cbn [negb]. destruct (violated _) eqn:Hc; [done|].
    intros [= <-]. split; [done|]. unfold event_storable in *. apply andb_prop in Hr as [[Hv _]%andb_prop _].
    cbn [co_event_version co_attempts]. by rewrite Hv, Ha, Hc.
Qed.

Lemma executes_ok stmts db : schema_ok db ->
  schema_ok (executes stmts db) /\ db_ledger db `prefix_of` db_ledger (executes stmts db) /\
  db_ledger_seq db <= db_ledger_seq (executes stmts db).
Proof using.
  revert db. induction stmts as [|stmt stmts IH]; intros db Hs; [by split_and!|].
  destruct (execute_ok stmt db Hs) as [Hok Hp]. destruct (IH _ Hok) as (Hok' & Hp' & Hq).
  split_and!; [done|by etrans|]. etrans; [|exact Hq]. clear -Hs. destruct stmt; cbn [execute].
  all: unfold insert_wallet, update_wallet, delete_wallet, update_transaction, delete_transaction, insert_ledger_row,
    touch_entry, insert_inbox, insert_outbox_row, update_events, truncate; cbv zeta.
  all: try (repeat case_match; cbn; lia).
  - destruct (put_tx_row_out true r db) as [[e ->]|[-> _]]; cbn; lia.
  - destruct (db_txs db !! id); [|cbn; lia]. destruct (negb _ && _); [cbn; lia|].
    destruct (put_tx_row_out true r (with_txs (delete id) db)) as [[e ->]|[-> _]]; cbn; lia.
Qed.

Lemma session_ok db db' : schema_ok db -> session env db db' -> schema_ok db' /\ db_ledger db `prefix_of` db_ledger db'.
Proof using.
  intros Hs. destruct 1 as [stmts db|stmts db]; destruct (executes_ok stmts db Hs) as (Hok & Hp & Hq); [done|].
  fold (executes stmts db). split; [|done]. destruct Hs as [H1 H2 H3 H4 H5 H6 H7 H8 H9 H10]. constructor; cbn; try done.
  intros r Hr. destruct (H5 r Hr) as (? & ? & ? & ?). split_and!; [done|lia|done..].
Qed.
End preserved.

Lemma empty_ok : schema_ok emptyDB.
Proof.
  constructor; cbn; try (by intros ? ? ?%lookup_empty_Some); try apply NoDup_nil_2; try (by intros ? ?%not_elem_of_nil).
  - by intros ? ? ? ? ?%lookup_empty_Some.
  - by intros ? ? ? ? ? ?%lookup_empty_Some.
Qed.

Lemma sessions_ok env db db' : schema_ok db -> rtc (session env) db db' ->
  schema_ok db' /\ db_ledger db `prefix_of` db_ledger db'.
Proof.
  intros Hs Hrun. induction Hrun as [db|db d db' Hse _ IH]; [by split|].
  destruct (session_ok env db d Hs Hse) as [Hd Hp]. destruct (IH Hd) as [Hok Hp']. split; [done|by etrans].
Qed.

Lemma violated_all checks name b : violated checks = None -> (name, b) ∈ checks -> b = true.
Proof. intros Hv Hin. destruct b; [done|]. by destruct (violated_In _ _ Hv Hin). Qed.

Lemma entry_arithmetic r : violated (ledger_checks r) = None ->
  0 < cl_amount_minor r /\ 0 <= cl_balance_before_minor r /\ 0 <= cl_balance_after_minor r /\
  cl_balance_after_minor r = cl_balance_before_minor r + row_signed r.
Proof.
  intros Hv. pose proof (fun name b => violated_all _ name b Hv) as H. unfold ledger_checks in H.
  pose proof (H "ledger_amount_positive" _ ltac:(left)) as H1.
  pose proof (H "ledger_arithmetic" _ ltac:(right; left)) as H2.
  pose proof (H "ledger_balances_non_negative" _ ltac:(right; right; left)) as H3.
  pose proof (H "ledger_direction" _ ltac:(do 4 right; left)) as H4.
  apply andb_prop in H3 as [H3 H3']. split_and!; [lia..|]. unfold row_signed.
  apply orb_prop in H2 as [[Hd Ha]%andb_prop|[Hd Ha]%andb_prop]; apply bool_decide_eq_true in Hd.
  - rewrite bool_decide_eq_false_2 by (rewrite Hd; discriminate). lia.
  - rewrite bool_decide_eq_true_2 by done. lia.
Qed.

Lemma NoDup_fmap_elem {A B} (f : A -> B) l a b : NoDup (f <$> l) -> a ∈ l -> b ∈ l -> f a = f b -> a = b.
Proof.
  induction l as [|x l IH]; [by intros _ ?%not_elem_of_nil|]. rewrite fmap_cons, NoDup_cons. intros [Hx Hl].
  intros [->|Ha]%elem_of_cons [->|Hb]%elem_of_cons E; [done|..|by apply IH]; exfalso; apply Hx.
  - rewrite E. by apply list_elem_of_fmap_2.
  - rewrite <- E. by apply list_elem_of_fmap_2.
Qed.

(** ** Properties *)

(** C15: the schema guards the books whoever writes, the program or anyone by
    hand, however wrong: in a database that any transactions of any statements
    have made of an empty one, no balance is negative, every entry adds up and
    belongs to a wallet and an operation, an operation has one entry in a
    wallet, is reversed once, has one row under its provider's name and one
    under its key, and a wallet is opened once; no later transaction changes
    or removes an entry; a statement that would is refused by the trigger; and
    the statements of the adapter are such statements. *)
Theorem the_schema_guards_the_books env db : rtc (session env) emptyDB db ->
  (forall id w, db_wallets db !! id = Some w -> 0 <= cw_balance_minor w) /\
  (forall e, e ∈ db_ledger db -> 0 < cl_amount_minor e /\ 0 <= cl_balance_after_minor e /\
     cl_balance_after_minor e = cl_balance_before_minor e + row_signed e /\
     is_Some (db_wallets db !! cl_wallet_id e) /\ is_Some (db_txs db !! cl_transaction_id e)) /\
  (forall e1 e2, e1 ∈ db_ledger db -> e2 ∈ db_ledger db -> cl_wallet_id e1 = cl_wallet_id e2 ->
     cl_transaction_id e1 = cl_transaction_id e2 -> e1 = e2) /\
  (forall id1 id2 t1 t2, db_txs db !! id1 = Some t1 -> db_txs db !! id2 = Some t2 -> id1 <> id2 ->
     (ct_status t1 = "PROCESSED" -> ct_status t2 = "PROCESSED" ->
      same_value (ct_resolved_reference_id t1) (ct_resolved_reference_id t2) = false) /\
     (ct_kind t1 = "OPENING" -> ct_kind t2 = "OPENING" -> ct_wallet_id t1 <> ct_wallet_id t2) /\
     (ct_origin t1 = "EXTERNAL" -> ct_origin t2 = "EXTERNAL" ->
      same_value (ct_provider_id t1) (ct_provider_id t2) = true ->
      same_value (ct_external_id t1) (ct_external_id t2) = false /\
      same_value (ct_idempotency_key t1) (ct_idempotency_key t2) = false)) /\
  (forall db', rtc (session env) db db' -> db_ledger db `prefix_of` db_ledger db') /\
  (forall e r, e ∈ db_ledger db ->
     execute env (UpdateEntry (cl_id e) r) db = (inl reject_mutation, db) /\
     execute env (DeleteEntry (cl_id e)) db = (inl reject_mutation, db) /\
     execute env (Truncate WalletLedgerEntries) db = (inl reject_mutation, db)) /\
  (forall db', adapter_write env db db' -> exists stmts, db' = executes env stmts db).
Proof.
  intros Hrun. destruct (sessions_ok env _ _ empty_ok Hrun) as [Hs _]. split_and!.
  - intros id w Hw. destruct (sk_wallet db Hs id w Hw) as [_ Hc].
    pose proof (violated_all _ "wallets_balance_non_negative" (0 <=? cw_balance_minor w) Hc ltac:(left)). lia.
  - intros e He. destruct (sk_entry db Hs e He) as (Hc & _ & Hw & Ht).
    destruct (entry_arithmetic e Hc) as (? & _ & ? & ?). done.
  - intros e1 e2 H1 H2 Hw Ht. apply (NoDup_fmap_elem _ _ _ _ (sk_entry_pairs db Hs) H1 H2). by rewrite Hw, Ht.
  - intros id1 id2 t1 t2 H1 H2 Hne. pose proof (sk_indexes db Hs id1 id2 t1 t2 Hne H1 H2) as Hc. unfold clash in Hc.
    apply orb_false_iff in Hc as [[Ho Hk]%orb_false_iff Hp]. split_and!.
    + intros P1 P2. by rewrite bool_decide_eq_true_2 in Hp.
    + intros K1 K2 E. apply bool_decide_eq_false in Hk. by apply Hk.
    + intros O1 O2 E. rewrite bool_decide_eq_true_2, E in Ho by done. cbn [andb] in Ho. by apply orb_false_iff in Ho.
  - intros db' Hrun'. by destruct (sessions_ok env db db' Hs Hrun').
  - intros e r He. cbn [execute]. unfold touch_entry.
    replace (existsb _ _) with true; [done|]. symmetry. apply existsb_exists. exists e.
    split; [by apply list_elem_of_In|by apply bool_decide_eq_true].
  - intros db' Hw. by apply adapter_write_executes.
Qed.
