(* ===== verification/PostgresQueues.v ===== *)
(** * PostgresQueues: the inbox, the outbox, and all repositories together

    The statements of [inbox.go] and [outbox.go] keep the promises of [Store];
    with those of [PostgresWrites] they make the laws of the repositories and
    of the queries. *)

From stdpp Require Import sorting.
From S2P Require Import Prelude Errors GoTime Money Identifier Ledger Wallet Transaction Event.
From S2P Require Import Identity Ports Store StoreInv Submit Storable Schema Postgres.
From S2P Require Import Rows PostgresLaws PostgresWrites.

#[local] Open Scope string_scope.
#[local] Open Scope list_scope.
#[local] Open Scope Z_scope.

(** ** Rows already in the order of their sequence *)

Lemma merge_sort_keys {A} (key : A -> Z) (R : relation A) `{!RelDecision R} (l : list A) :
  (forall a b, R a b <-> key a <= key b) -> StronglySorted Z.lt (key <$> l) -> merge_sort R l = l.
Proof.
  intros HR Hl. assert (Total R) by (intros a b; rewrite !HR; lia).
  assert (Transitive R) by (intros a b c; rewrite !HR; lia).
  assert (Hs : StronglySorted R l).
  { induction l as [|x l IH]; [constructor|]. cbn in Hl. apply StronglySorted_cons in Hl as [Hx Hl].
    constructor; [by apply IH|]. rewrite Forall_fmap in Hx. eapply Forall_impl; [exact Hx|].
    intros y Hy. apply HR. cbn in Hy. lia. }
  apply (StronglySorted_unique_strong R); [|apply StronglySorted_merge_sort; done|done|apply merge_sort_Permutation].
  intros x y Hx Hy Hxy Hyx. rewrite (merge_sort_Permutation R l) in Hx.
  assert (Hk : key x = key y) by (apply HR in Hxy, Hyx; lia). clear Hs Hxy Hyx.
  induction l as [|z l IH]; [by apply not_elem_of_nil in Hx|]. cbn in Hl.
  apply StronglySorted_cons in Hl as [Hz Hl]. rewrite Forall_fmap, Forall_forall in Hz. cbn in Hz.
  apply elem_of_cons in Hx as [->|Hx], Hy as [->|Hy]; [done| | |by apply IH].
  - specialize (Hz y Hy). lia.
  - specialize (Hz x Hx). lia.
Qed.

Section queues.
Context (env : Environment) `{!EnvironmentLaws env}.
#[local] Existing Instance Storage_pg.

(** ** The inbox *)

Lemma inbox_lookup db s k : represents env db s ->
  s_inbox s !! k = message_of_row env k <$> db_inbox db !! k.
Proof. intros Hr. rewrite (rep_inbox _ _ _ Hr), map_lookup_imap. by destruct (db_inbox db !! k). Qed.

Lemma represents_put_inbox db s k r : represents env db s -> id_ok (k:=KPayloadHash) (mkId (ci_payload_hash r)) ->
  represents env (with_inbox (insert k r) db) (put_inbox (message_of_row env k r) s).
Proof.
  intros Hr Hid. destruct Hr. constructor; cbn; try done.
  - apply map_eq. intros j. rewrite map_lookup_imap, rep_inbox. destruct k as [c m]. cbn.
    destruct (decide (j = (c, m))) as [->|Hne]; [by rewrite !lookup_insert_eq|].
    by rewrite !lookup_insert_ne, map_lookup_imap by done.
  - intros j r0. rewrite lookup_insert. case_decide; [|by apply rep_hash_ok]. by intros [= <-].
Qed.

Lemma claimed_row m :
  message_of_row env (im_ConsumerName m, im_MessageID m)
    (mkInboxRow (id_value (im_PayloadHash m)) (en_encode env (im_ReceivedAt m)) None) = stored_message m.
Proof. unfold message_of_row, stored_message. cbn. by destruct (im_PayloadHash m). Qed.

Lemma Claim_pg m : id_ok (im_PayloadHash m) -> forall w s0 s, st_tx w s0 s ->
  wp (pg_Claim env (tx_querier env) m) w
    (fun _ w' => s_inbox s !! (im_ConsumerName m, im_MessageID m) = None /\
       st_tx w' s0 (put_inbox (stored_message m) s))
    (fun e w' =>
       (is_Some (s_inbox s !! (im_ConsumerName m, im_MessageID m)) /\
        (exists name, e = NewConflict name) /\ st_tx w' s0 s) \/
       (infra env e /\ st_dead w' s0)).
Proof.
  intros Hid w s0 s Htx. unfold pg_Claim. apply wp_bind. eapply exec_tx; [exact Htx| |by right].
  destruct Htx as (_ & Hr & _). rewrite (inbox_lookup _ _ _ Hr). unfold insert_inbox.
  destruct (db_inbox (wo_db w) !! _) as [r|] eqn:E; (split; [unfold seq_le; cbn; lia|]).
  - exists s. split; [done|]. intros w' Htx'. left. rewrite fmap_is_Some. eauto.
  - exists (put_inbox (stored_message m) s). split; [|by intros w' Htx'].
    rewrite <- claimed_row. apply represents_put_inbox; [done|]. cbn. by destruct (im_PayloadHash m).
Qed.

Lemma Complete_pg consumer message at_ : forall w s0 s, st_tx w s0 s ->
  wp (pg_Complete env (tx_querier env) consumer message at_) w
    (fun _ w' => exists m, s_inbox s !! (consumer, message) = Some m /\
       st_tx w' s0 (put_inbox (completed_message at_ m) s))
    (fun e w' =>
       (e = SentinelError ErrNotFound /\ s_inbox s !! (consumer, message) = None /\ st_tx w' s0 s) \/
       (infra env e /\ st_dead w' s0)).
Proof.
  intros w s0 s Htx. unfold pg_Complete. apply wp_bind. eapply exec_tx; [exact Htx| |by right].
  destruct Htx as (_ & Hr & _). rewrite (inbox_lookup _ _ _ Hr). unfold complete_inbox.
  destruct (db_inbox (wo_db w) !! _) as [r|] eqn:E; (split; [unfold seq_le; cbn; lia|]).
  - set (r' := mkInboxRow (ci_payload_hash r) (ci_received_at r) (Some (en_encode env at_))).
    exists (put_inbox (message_of_row env (consumer, message) r') s). split.
    + apply represents_put_inbox; [done|]. exact (rep_hash_ok _ _ _ Hr _ _ E).
    + intros w' Htx'. eexists. split; [reflexivity|]. exact Htx'.
  - exists s. split; [done|]. intros w' Htx'. by left.
Qed.

Lemma FindInbox_pg consumer message :
  finds (pg_FindInbox env (tx_querier env) consumer message)
    (fun s m => s_inbox s !! (consumer, message) = Some m).
Proof.
  unfold pg_FindInbox. apply (finds_query env).
  intros db s Hr. rewrite (inbox_lookup _ _ _ Hr).
  destruct (db_inbox db !! (consumer, message)) as [r|] eqn:E; cbn; [|done].
  exists (message_of_row env (consumer, message) r). split; [|done].
  unfold ParsePayloadHash. pose proof (rep_hash_ok _ _ _ Hr _ _ E) as Hid.
  pose proof (parseIdentifier_value KPayloadHash (mkId (ci_payload_hash r)) Hid) as Hp. cbn in Hp.
  by rewrite Hp.
Qed.

(** ** The outbox *)

Lemma outbox_elem db s q r : represents env db s -> (q, r) ∈ s_outbox s <->
  exists row, row ∈ db_outbox db /\ q = co_seq row /\ r = record_of_row env row.
Proof.
  intros Hr. rewrite (rep_outbox _ _ _ Hr), list_elem_of_fmap. split.
  - intros (row & [= -> ->] & Hin). eauto.
  - intros (row & Hin & -> & ->). eauto.
Qed.

Lemma row_unpublished row : outbox_row_ok row ->
  Outbox_Published (record_of_row env row) = negb (is_null (co_published_at row)).
Proof.
  intros (_ & _ & Hp). unfold Outbox_Published. cbn.
  destruct (co_published_at row) as [z|]; cbn; [|done].
  unfold Time_IsZero. rewrite en_decode_law. by destruct (Z.eqb_spec z 0) as [->|].
Qed.

(** An UPDATE none of whose rows is refused. *)
Lemma update_rows_inr {R} (P : R -> bool) (f : R -> pg_failure + R) (g : R -> R) rows :
  (forall r, r ∈ rows -> P r = true -> f r = inr (g r)) ->
  update_rows P f rows =
    inr (Z.of_nat (length (filter (fun r => P r = true) rows)), (fun r => if P r then g r else r) <$> rows).
Proof.
  intros Hf. induction rows as [|r rows IH]; [done|]. cbn [update_rows].
  rewrite IH by (intros; apply Hf; [by right|done]). cbn [fmap list_fmap]. rewrite filter_cons.
  destruct (P r) eqn:E.
  - rewrite (Hf r) by (done || by left). rewrite decide_True by done. cbn. f_equal. f_equal. lia.
  - by rewrite decide_False.
Qed.

(** The outbox with the records of some rows replaced. *)
Lemma represents_update_outbox db s id (g : outbox_row -> outbox_row) (f : OutboxRecord -> OutboxRecord) :
  represents env db s ->
  (forall row, row ∈ db_outbox db -> unpublished id row = true ->
     co_seq (g row) = co_seq row /\ co_event_id (g row) = co_event_id row /\ outbox_row_ok (g row) /\
     record_of_row env (g row) = f (record_of_row env row)) ->
  represents env
    (with_outbox (fun _ => (fun r => if unpublished id r then g r else r) <$> db_outbox db) (db_outbox_seq db) db)
    (set_outbox (update_record id f (s_outbox s)) s).
Proof.
  intros Hr Hg. pose proof Hr as Hr0. destruct Hr. constructor; cbn; try done.
  - unfold update_record. rewrite rep_outbox, <- !list_fmap_compose.
    apply list_fmap_ext. intros i row Hi. cbn. apply list_elem_of_lookup_2 in Hi.
    rewrite (row_unpublished _ (rep_outbox_ok _ Hi)), negb_involutive.
    unfold unpublished. cbn. destruct (bool_decide (co_event_id row = id) && is_null (co_published_at row)) eqn:E; [|done].
    destruct (Hg row Hi) as (-> & _ & _ & ->); [done|done].
  - unfold update_record. rewrite <- list_fmap_compose.
    replace (fst ∘ _ <$> s_outbox s) with ((s_outbox s).*1); [done|].
    apply list_fmap_ext. intros i [q r] _. cbn. by case_match.
  - rewrite <- list_fmap_compose. replace (co_event_id ∘ _ <$> db_outbox db) with (co_event_id <$> db_outbox db); [done|].
    apply list_fmap_ext. intros i row Hi. cbn. apply list_elem_of_lookup_2 in Hi.
    destruct (unpublished id row) eqn:E; [|done]. by destruct (Hg row Hi E) as (_ & -> & _).
  - intros r (row & -> & Hi)%list_elem_of_fmap. destruct (unpublished id row) eqn:E; [|by apply rep_outbox_ok].
    by apply (Hg row Hi E).
Qed.

Lemma update_rows_inl {R} (P : R -> bool) (f : R -> pg_failure + R) rows e :
  update_rows P f rows = inl e -> exists r, r ∈ rows /\ P r = true /\ f r = inl e.
Proof.
  revert e. induction rows as [|r rows IH]; intros e; cbn; [done|].
  destruct (P r) eqn:E.
  - destruct (f r) as [e'|r'] eqn:Ef; [intros [= ->]; exists r; split_and!; [left|done|done]|].
    destruct (update_rows P f rows) as [e'|[n rest]]; [|done]. intros [= ->].
    destruct (IH e eq_refl) as (r0 & ? & ? & ?). exists r0. split_and!; [by right|done|done].
  - destruct (update_rows P f rows) as [e'|[n rest]]; [|done]. intros [= ->].
    destruct (IH e eq_refl) as (r0 & ? & ? & ?). exists r0. split_and!; [by right|done|done].
Qed.
(** At most one row has a given event. *)
Lemma count_unpublished db s id : represents env db s ->
  (length (filter (fun r => unpublished id r = true) (db_outbox db)) <= 1)%nat.
Proof.
  intros Hr. pose proof (rep_outbox_ids _ _ _ Hr) as Hnd.
  induction (db_outbox db) as [|row rows IH]; [cbn; lia|]. cbn in Hnd. apply NoDup_cons in Hnd as [Hni Hnd].
  rewrite filter_cons. destruct (decide (unpublished id row = true)) as [E|E]; [|by apply IH].
  cbn. replace (filter _ rows) with (@nil outbox_row); [cbn; lia|]. symmetry.
  apply filter_none. intros r Hin Hu. apply Hni.
  unfold unpublished in E, Hu. apply andb_true_iff in E as [E%bool_decide_eq_true _].
  apply andb_true_iff in Hu as [Hu%bool_decide_eq_true _].
  apply list_elem_of_fmap. exists r. split; [congruence|done].
Qed.

Lemma MarkPublished_pg id at_ : clock_time at_ -> forall w s0 s, st_tx w s0 s ->
  wp (pg_MarkPublished env (tx_querier env) id at_) w
    (fun _ w' => (exists q r, (q, r) ∈ s_outbox s /\ or_EventID r = id /\ Outbox_Published r = false) /\
       st_tx w' s0 (set_outbox (update_record id (published_record at_) (s_outbox s)) s))
    (fun e w' =>
       (e = SentinelError ErrNotFound /\ st_tx w' s0 s /\
        forall q r, (q, r) ∈ s_outbox s -> or_EventID r = id -> Outbox_Published r = true) \/
       (infra env e /\ st_dead w' s0)).
Proof.
  intros Hat w s0 s Htx. unfold pg_MarkPublished. apply wp_bind. eapply exec_tx; [exact Htx| |by right].
  destruct Htx as (_ & Hr & _). unfold update_outbox, mark_published.
  set (g := fun r => mkOutboxRow (co_seq r) (co_event_id r) (co_event_type r) (co_event_version r)
    (co_aggregate_id r) (co_payload r) (co_correlation_id r) (co_causation_id r)
    (co_occurred_at r) (co_attempts r) (co_next_attempt_at r) (Some (en_encode env at_)) None).
  rewrite (update_rows_inr _ _ g) by done.
  assert (Hr' := represents_update_outbox _ s id g (published_record at_) Hr).
  pose proof (count_unpublished _ s id Hr) as Hcount.
  split; [unfold seq_le; cbn; lia|].
  eexists. split.
  { apply Hr'. intros row Hin Hu. split_and!; [done|done| |done].
    destruct (rep_outbox_ok _ _ _ Hr _ Hin) as (Ha & Hv & _). split; [exact Ha|]. split; [exact Hv|].
    cbn. intros [= E].
    rewrite en_encode_law in E. destruct Hat as [_ Hat].
    pose proof (Z.mod_pos_bound (instant at_) 1000). lia. }
  intros w' Htx'.
  destruct (filter (fun r => unpublished id r = true) (db_outbox (wo_db w))) as [|row rows] eqn:Ef.
  - left. split; [done|].
    assert (Hno : forall q r, (q, r) ∈ s_outbox s -> or_EventID r = id -> Outbox_Published r = true).
    { intros q r (row & Hin & -> & ->)%(outbox_elem _ _ _ _ Hr) Hid.
      rewrite (row_unpublished _ (rep_outbox_ok _ _ _ Hr _ Hin)).
      destruct (is_null (co_published_at row)) eqn:En; [|done].
      exfalso. apply (filter_nil_not_elem_of _ _ row Ef); [|done].
      unfold unpublished. rewrite En, andb_true_r. by apply bool_decide_eq_true. }
    split; [|done]. replace (update_record id _ (s_outbox s)) with (s_outbox s) in Htx'; [by destruct s|].
    unfold update_record. rewrite <- (list_fmap_id (s_outbox s)) at 1. apply list_fmap_ext.
    intros i [q r] Hi%list_elem_of_lookup_2. cbn. case_bool_decide as E; [|done].
    by rewrite (Hno q r Hi E).
  - assert (Hin : row ∈ filter (fun r => unpublished id r = true) (db_outbox (wo_db w))) by (rewrite Ef; left).
    apply list_elem_of_filter in Hin as [Hu Hin]. cbn in Hcount. assert (rows = []) as -> by (destruct rows; [done|cbn in Hcount; lia]).
    cbn. split; [|done]. exists (co_seq row), (record_of_row env row).
    split; [apply (outbox_elem _ _ _ _ Hr); eauto|]. rewrite (row_unpublished _ (rep_outbox_ok _ _ _ Hr _ Hin)).
    unfold unpublished in Hu. apply andb_true_iff in Hu as [Hu%bool_decide_eq_true ->]. done.
Qed.

Lemma update_rows_done {R} (P : R -> bool) (f : R -> pg_failure + R) rows n rows' r :
  update_rows P f rows = inr (n, rows') -> r ∈ rows -> P r = true -> exists r', f r = inr r'.
Proof.
  revert n rows'. induction rows as [|r0 rows IH]; intros n rows' E Hin HP; [by apply not_elem_of_nil in Hin|].
  cbn in E. destruct (if P r0 then f r0 else inr r0) as [|r1] eqn:E0; [done|].
  destruct (update_rows P f rows) as [|[m rest]] eqn:E1; [done|].
  apply elem_of_cons in Hin as [->|Hin]; [rewrite HP in E0; by exists r1|]. by eapply IH.
Qed.

Lemma reschedule_row_spec at_ cause row : outbox_row_ok row ->
  reschedule_row at_ cause row =
    if decide (co_attempts row = int32_max) then inl (PgError "22003" "" "" "integer out of range")
    else inr (mkOutboxRow (co_seq row) (co_event_id row) (co_event_type row) (co_event_version row)
      (co_aggregate_id row) (co_payload row) (co_correlation_id row) (co_causation_id row)
      (co_occurred_at row) (co_attempts row + 1) at_ (co_published_at row) cause).
Proof.
  intros (Ha & Hv & _). unfold reschedule_row, int4_ok, int32_max in *.
  destruct (decide (co_attempts row = _)) as [E|E].
  - rewrite E. done.
  - replace ((-2147483648 <=? co_attempts row + 1) && (co_attempts row + 1 <=? 2147483647)) with true by lia.
    cbn [negb]. unfold outbox_checks. cbn [co_attempts co_event_version violated].
    replace (0 <=? co_attempts row + 1) with true by lia. by replace (1 <=? co_event_version row) with true by lia.
Qed.

Lemma Reschedule_pg id next cause :
  writes (pg_Reschedule env (tx_querier env) id next cause)
    (fun s s' => s' = set_outbox (update_record id (rescheduled_record next cause) (s_outbox s)) s)
    (fun s e => (exists what, e = Opaque what) /\
       exists q r, (q, r) ∈ s_outbox s /\ or_EventID r = id /\ or_Attempts r = int32_max).
Proof.
  intros w s0 s Htx. unfold pg_Reschedule. apply wp_bind. eapply exec_tx; [exact Htx| |by auto].
  destruct Htx as (_ & Hr & _). unfold update_outbox.
  set (f := reschedule_row (en_encode env next) (nullable cause)).
  destruct (update_rows (unpublished id) f (db_outbox (wo_db w))) as [e|[n rows]] eqn:E.
  - split; [unfold seq_le; cbn; lia|]. intros w' Hd. split; [left|done].
    apply update_rows_inl in E as (row & Hin & Hu & Hf). unfold f in Hf.
    rewrite reschedule_row_spec in Hf by by apply (rep_outbox_ok _ _ _ Hr).
    case_decide as Ha; [|done]. injection Hf as <-. split; [by eexists|].
    exists (co_seq row), (record_of_row env row). split; [apply (outbox_elem _ _ _ _ Hr); eauto|].
    unfold unpublished in Hu. apply andb_true_iff in Hu as [Hu%bool_decide_eq_true _]. done.
  - set (g := fun r => mkOutboxRow (co_seq r) (co_event_id r) (co_event_type r) (co_event_version r)
      (co_aggregate_id r) (co_payload r) (co_correlation_id r) (co_causation_id r)
      (co_occurred_at r) (co_attempts r + 1) (en_encode env next) (co_published_at r) (nullable cause)).
    assert (Hf : forall r, r ∈ db_outbox (wo_db w) -> unpublished id r = true ->
      co_attempts r <> int32_max /\ f r = inr (g r)).
    { intros r Hin Hu. destruct (update_rows_done _ _ _ _ _ r E Hin Hu) as [r' Hr'].
      unfold f in Hr' |- *. rewrite reschedule_row_spec in Hr' |- * by by apply (rep_outbox_ok _ _ _ Hr).
      by case_decide. }
    rewrite (update_rows_inr _ _ g) in E by (intros; by apply Hf). injection E as <- <-.
    split; [unfold seq_le; cbn; lia|].
    exists (set_outbox (update_record id (rescheduled_record next cause) (s_outbox s)) s). split.
    + apply represents_update_outbox; [done|]. intros row Hin Hu. destruct (Hf row Hin Hu) as [Hmax _].
      destruct (rep_outbox_ok _ _ _ Hr _ Hin) as (Ha & Hv & Hp).
      split_and!; [done|done| |].
      * split_and!; cbn; try lia. exact Hp.
      * unfold record_of_row, rescheduled_record, g. cbn. by rewrite deref_nullable.
    + intros w' Htx'. eexists. split; [reflexivity|exact Htx'].
Qed.

Lemma scan_all_outbox rows : scan_all (scanOutbox env) rows = Ok (record_of_row env <$> rows).
Proof. induction rows as [|r rows IH]; [done|]. cbn [scan_all]. rewrite IH. done. Qed.

Lemma ClaimDue_pg at_ limit : 0 < limit -> forall w s0 s, st_tx w s0 s ->
  wp (pg_ClaimDue env (tx_querier env) at_ limit) w
    (fun l w' => (exists qrs, l = qrs.*2 /\ Forall (due_event at_ s) qrs /\
         StronglySorted Z.lt qrs.*1 /\ NoDup (or_EventID <$> l) /\ Z.of_nat (length l) <= limit /\
         (st_unlocked -> forall qr, due_event at_ s qr -> qr ∈ qrs \/ Z.of_nat (length l) = limit)) /\
       st_tx w' s0 s)
    (fun e w' => infra env e /\ st_dead w' s0).
Proof.
  intros Hlim w s0 s Htx. pose proof Htx as (_ & Hr & _). cbn in Hr. unfold pg_ClaimDue.
  replace (limit <=? 0) with false by lia. apply wp_bind. unfold select.
  eapply exec_tx; [exact Htx| |by auto].
  split; [apply seq_le_refl|]. exists s. split; [done|]. intros w' Htx'.
  unfold wp, pure. rewrite scan_all_outbox. split; [|done]. unfold select_publishable.
  set (P := fun r : outbox_row => (_ && _ && _) = true).
  pose proof (rep_outbox_seq _ _ _ Hr) as [Hseq _]. rewrite (rep_outbox _ _ _ Hr), <- list_fmap_compose in Hseq.
  assert (Hsorted : StronglySorted Z.lt (co_seq <$> filter P (db_outbox (wo_db w))))
    by by apply (sorted_filter co_seq).
  rewrite (merge_sort_keys co_seq) by done.
  set (rows := take (Z.to_nat limit) (filter P (db_outbox (wo_db w)))).
  assert (Hin : forall r, r ∈ rows -> P r /\ r ∈ db_outbox (wo_db w)).
  { intros r Hin%(subseteq_take _ _ r). by apply list_elem_of_filter in Hin. }
  exists ((fun r => (co_seq r, record_of_row env r)) <$> rows). split_and!.
  - by rewrite <- list_fmap_compose.
  - apply Forall_fmap, Forall_forall. intros r Hr'. destruct (Hin r Hr') as [HP Hdb].
    destruct (rep_outbox_ok _ _ _ Hr _ Hdb) as (Ha & Hv & Hp). unfold P in HP.
    apply andb_true_iff in HP as [[HP1 HP2]%andb_true_iff _].
    split_and!; cbn; [apply (outbox_elem _ _ _ _ Hr); eauto| | |lia|lia].
    + rewrite row_unpublished by by apply (rep_outbox_ok _ _ _ Hr). by rewrite HP1.
    + unfold stored_time. cbn. rewrite !en_decode_law. by apply Z.leb_le.
  - rewrite <- list_fmap_compose. by apply (sorted_take co_seq).
  - rewrite <- list_fmap_compose. change (or_EventID ∘ record_of_row env) with co_event_id.
    unfold rows. pose proof (rep_outbox_ids _ _ _ Hr) as Hnd.
    eapply sublist_NoDup; [exact Hnd|]. apply fmap_sublist. etransitivity; [apply sublist_take|apply sublist_filter].
  - rewrite length_fmap. unfold rows. rewrite length_take. lia.
  - intros Hfree [q r] (Hq & Hunp & Hdue & _). cbn [fst snd] in *.
    apply (outbox_elem _ _ _ _ Hr) in Hq as (row & Hdb & -> & ->).
    rewrite length_fmap. unfold rows.
    assert (Hin' : row ∈ filter P (db_outbox (wo_db w))).
    { apply list_elem_of_filter. split; [|done]. unfold P. rewrite Hfree. cbn [negb]. rewrite andb_true_r.
      rewrite row_unpublished in Hunp by by apply (rep_outbox_ok _ _ _ Hr).
      apply andb_true_iff. split; [by destruct (is_null _)|]. apply Z.leb_le.
      unfold stored_time in Hdue. cbn in Hdue. by rewrite !en_decode_law in Hdue. }
    destruct (elem_of_take_full (Z.to_nat limit) _ _ Hin') as [Ht|Hlen]; [left|right; lia].
    apply list_elem_of_fmap. by exists row.
Qed.
End queues.
