(* ===== verification/UowLaws.v ===== *)
(** * UowLaws: the unit of work

    [uow.go] keeps the promise of [UnitOfWorkLaws]: an effect takes place once
    or not at all, whatever the environment does, and a lost commit reply is
    the only way to report an error for an effect that took place.  The number
    of attempts is bounded by the policy, and a rejection is never retried. *)

From S2P Require Import Prelude Errors GoTime Identity Ports Store StoreInv Schema Postgres.
From S2P Require Import Rows PostgresLaws PostgresWrites.

#[local] Open Scope string_scope.
#[local] Open Scope list_scope.
#[local] Open Scope Z_scope.

Section uow.
Context (env : Environment) `{!EnvironmentLaws env}.
#[local] Existing Instance Storage_pg.

Lemma begin_spec w s : st_idle w s ->
  match begin env w with
  | (Some e, w') => infra env (translate (Failure e)) /\ exists s0, others env s s0 /\ st_idle w' s0
  | (None, w') => exists s0, others env s s0 /\ st_tx w' s0 s0
  end.
Proof.
  intros Hr. destruct (others_once env (wo_calls w) _ _ Hr) as (s' & Hr' & Hi). unfold begin.
  destruct (en_fault env (wo_calls w)) as [e|] eqn:Ef.
  - split; [by eapply infra_fault|]. by exists s'.
  - exists s'. split; [done|]. split_and!; try done.
Qed.

Lemma rollback_spec w s0 : st_dead w s0 -> st_idle (rollback w) s0.
Proof. intros [Hr Hle]. by apply represents_rollback. Qed.

(** What committing an open transaction ends in. *)
Lemma commit_spec w s0 s : st_tx w s0 s ->
  match commit env w with
  | (Ok _, w') => st_idle w' s
  | (Err e, w') => infra env e /\ (st_idle w' s0 \/ (st_idle w' s /\ transient e = false))
  end.
Proof.
  intros Htx. pose proof Htx as (Ha & Hr & _). unfold commit. rewrite Ha.
  destruct (en_commit env (wo_calls w)) as [|f|what] eqn:Ec.
  - exact Hr.
  - split; [by eapply infra_refused|]. left. eapply rollback_spec, open_dead. exact Htx.
  - split; [by eapply infra_lost|]. right. by split.
Qed.

(** How one attempt, or the whole loop, may end. *)
Definition outcome {C} (J : C -> Prop) (Q : Store -> Store -> C -> Prop) (E : Store -> error -> Prop)
    (s : Store) (r : result unit * C * World) (lost : error -> Prop) : Prop :=
  match r with
  | (Ok _, c', w') => exists s0 s1, others env s s0 /\ Q s0 s1 c' /\ st_idle w' s1
  | (Err e, c', w') =>
    (exists s1, others env s s1 /\ st_idle w' s1 /\ (E s1 e \/ infra env e) /\ (retriable e = true -> J c')) \/
    (exists s0 s1, others env s s0 /\ Q s0 s1 c' /\ st_idle w' s1 /\ infra env e /\ lost e)
  end.

Context {C : Type} (ctx : Context) (f : Context -> Repositories World -> Callback World C).
Context (Pre : Store -> Prop) (J : C -> Prop) (Q : Store -> Store -> C -> Prop)
  (E : Store -> error -> Prop).
Hypothesis Pre_stable : forall s s', Pre s -> others env s s' -> Pre s'.
Hypothesis body_ok : forall s0, Pre s0 ->
  attempt_ok (f (inside ctx) (pg_repositories env (tx_querier env))) J Q E s0.

Lemma attempt_outcome c w s : st_idle w s -> Pre s -> J c ->
  outcome J Q E s (attempt env ctx f c w) (fun e => transient e = false).
Proof.
  intros Hi HP HJ. unfold attempt. pose proof (begin_spec w s Hi) as Hb.
  destruct (begin env w) as [[e|] w1].
  - destruct Hb as (He & s0 & Hint & Hi0). left. exists s0. split_and!; auto.
  - destruct Hb as (s0 & Hint & Htx). pose proof (body_ok s0 (Pre_stable _ _ HP Hint) c w1 HJ Htx) as H.
    unfold inside in H. destruct (f _ _ c w1) as [[[[]|e] c'] w2].
    + destruct H as (HJ' & s1 & Htx' & HQ). pose proof (commit_spec w2 s0 s1 Htx') as Hc.
      destruct (commit env w2) as [[[]|e] w3]; cbn.
      * exists s0, s1. done.
      * destruct Hc as [He [Hi0|[Hi1 Ht]]]; [left; exists s0|right; exists s0, s1]; split_and!; eauto.
    + destruct H as (Hd & He & HJ'). left. exists s0. split_and!; auto. by apply rollback_spec.
Qed.

Lemma attempts_outcome policy more n c w s : st_idle w s -> Pre s -> J c ->
  outcome J Q E s (attempts env policy more n ctx f c w) (fun _ => True).
Proof.
  revert n c w s. induction more as [|more IH]; intros n c w s Hi HP HJ; cbn [attempts];
    pose proof (attempt_outcome c w s Hi HP HJ) as H;
    destruct (attempt env ctx f c w) as [[[[]|e] c'] w']; try exact H;
    (destruct H as [(s1 & Hint & Hi1 & He & HJ')|(s0 & s1 & Hint & HQ & Hi1 & He & Ht)];
     [|rewrite Ht; cbn; right; by exists s0, s1]).
  - destruct (negb _ || _); [left; by exists s1|]. cbn. destruct (en_cancelled _ _); left; by exists s1.
  - destruct (transient e) eqn:Ht; cbn [negb orb]; [|left; by exists s1]. specialize (HJ' Ht).
    destruct (_ <=? _); [left; by exists s1|]. cbn. destruct (en_cancelled _ _); [left; by exists s1|].
    assert (Hi2 : st_idle (tick (tick w')) s1) by exact Hi1.
    specialize (IH (n + 1) c' _ s1 Hi2 (Pre_stable _ _ HP Hint) HJ').
    assert (Hin : forall s2, others env s1 s2 -> others env s s2).
    { intros s2 H2. exact (others_trans env _ _ _ Hint H2). }
    destruct (attempts _ _ _ _ _ _ _ _) as [[[[]|e'] c''] w'']; cbn in IH |- *.
    + destruct IH as (s2 & s3 & ? & ? & ?). exists s2, s3. auto.
    + destruct IH as [(s2 & ? & ?)|(s2 & s3 & ? & ?)]; [left; exists s2; auto|right; exists s2, s3; auto].
Qed.
End uow.

Section laws.
Context (env : Environment) `{!EnvironmentLaws env} (retry : RetryPolicy).

Lemma uow_laws : UnitOfWorkLaws (H0 := Storage_pg env) World (pg_UnitOfWork env retry)
  (pg_repositories env (tx_querier env)).
Proof.
  constructor.
  - intros C ctx f Pre J Q E c w s Hin Hi HP HJ Hst Hbody. cbn [pg_UnitOfWork uow_Do]. unfold pg_Do.
    rewrite Hin.
    pose proof (attempts_outcome env ctx f Pre J Q E Hst Hbody (RetryPolicy_normalised retry)
      (Z.to_nat (rt_MaxAttempts (RetryPolicy_normalised retry))) 1 c w s Hi HP HJ) as H.
    destruct (attempts _ _ _ _ _ _ _ _) as [[[[]|e] c'] w']; [exact H|].
    destruct H as [H|(s0 & s1 & ? & ? & ? & ? & _)]; [by left|right; by exists s0, s1].
  - intros C ctx f c w Hin. cbn [pg_UnitOfWork uow_Do]. unfold pg_Do. by rewrite Hin.
Qed.
End laws.
