(* ===== verification/Readings.v ===== *)
(** * Readings: the instants a call goes by

    What the worker and the publisher decide depends on the instant they have
    read.  It is one the clock showed during the very call: a run of the call
    over a clock that answers, outside the window of consultations in which the
    call takes place, what it shows at its edge, is the run over the real clock
    ([follows]), because a call consults the environment forward only.  So
    whatever the laws of the ports say of the one clock's readings holds of
    readings in the window. *)

From S2P Require Import Prelude Errors GoTime Money Identifier Ledger Wallet Transaction Event.
From S2P Require Import Identity Ports Store StoreInv Policy Recorder Reversal Submit.
From S2P Require Import Worker Publisher Schema Postgres Rows PostgresLaws UowLaws.

#[local] Open Scope string_scope.
#[local] Open Scope list_scope.
#[local] Open Scope Z_scope.

(** An instant the system clock showed at one of the consultations of the
    environment numbered from [a] up to [b], that one not included. *)
Definition reading (env : Environment) (a b : nat) (t : Time) : Prop :=
  exists n, (a <= n < b)%nat /\ t = Time_UTC (en_now env n).

Lemma reading_weaken env a b a' b' t : (a' <= a)%nat -> (b <= b')%nat -> reading env a b t -> reading env a' b' t.
Proof. intros Ha Hb (n & Hn & ->). exists n. split; [lia|done]. Qed.

(** ** A clock with a window *)

Section readings.
Context (env : Environment) (a b : nat).

Definition Clock_within : Clock World := {|
  Clock_Now := fun w => (Time_UTC (en_now env (Nat.max a (Nat.min (pred b) (wo_calls w)))), tick w)
|}.

Lemma within_laws `{!EnvironmentLaws env} : ClockLaws (H := Storage_pg env) (H0 := Clock_within) World.
Proof.
  constructor. unfold aside, now, wp; cbn. split; intros; (split; [|done]);
    (split; [done|]); cbn; apply el_now.
Qed.

Lemma within_reads `{!EnvironmentLaws env} : (a < b)%nat ->
  ClockReads (H := Storage_pg env) (H0 := Clock_within) World (reading env a b).
Proof.
  intros Hab. constructor. unfold aside, now, wp; cbn.
  split; intros w; intros; (split; [|done]); eexists; (split; [|reflexivity]); lia.
Qed.

(** ** Computations that consult the environment forward *)

(** [m1] never goes back in the numbering of the consultations, and [m2] does
    the same as [m1] whenever that takes place in the window. *)
Definition follows {X} (m1 m2 : World -> X * World) : Prop := forall w,
  (wo_calls w <= wo_calls (m1 w).2)%nat /\
  ((a <= wo_calls w)%nat -> (wo_calls (m1 w).2 <= b)%nat -> m1 w = m2 w).

Lemma follows_step {X Y} (m1 m2 : World -> X * World) (k1 k2 : X -> World -> Y * World) :
  follows m1 m2 -> (forall x, follows (k1 x) (k2 x)) ->
  follows (fun w => let '(x, w) := m1 w in k1 x w) (fun w => let '(x, w) := m2 w in k2 x w).
Proof.
  intros Hm Hk w. destruct (Hm w) as [Hle Heq]. destruct (m1 w) as [x w1]. cbn [snd] in *.
  destruct (Hk x w1) as [Hle1 Heq1]. split; [lia|]. intros Ha Hb. rewrite <- Heq by lia. apply Heq1; lia.
Qed.

Lemma follows_ext {X} (m1 m2 n1 n2 : World -> X * World) :
  follows n1 n2 -> (forall w, m1 w = n1 w) -> (forall w, m2 w = n2 w) -> follows m1 m2.
Proof. intros Hn E1 E2 w. rewrite E1, E2. apply Hn. Qed.

(** Going on with a value, or with an error. *)
Lemma follows_catch {A B} (m1 m2 : M World A) (k1 k2 : A -> M World B) (h1 h2 : error -> M World B) :
  follows m1 m2 -> (forall x, follows (k1 x) (k2 x)) -> (forall e, follows (h1 e) (h2 e)) ->
  follows (catch m1 k1 h1) (catch m2 k2 h2).
Proof.
  intros Hm Hk Hh.
  eapply (follows_ext _ _ (fun w => let '(r, w) := m1 w in match r with Ok x => k1 x | Err e => h1 e end w)
    (fun w => let '(r, w) := m2 w in match r with Ok x => k2 x | Err e => h2 e end w)).
  - apply (follows_step m1 m2 (fun r => match r with Ok x => k1 x | Err e => h1 e end)
      (fun r => match r with Ok x => k2 x | Err e => h2 e end) Hm).
    intros [x|e]; [apply Hk|apply Hh].
  - intros w. unfold catch. by destruct (m1 w) as [[x|e] w1].
  - intros w. unfold catch. by destruct (m2 w) as [[x|e] w1].
Qed.

Lemma follows_bind {A B} (m1 m2 : M World A) (f1 f2 : A -> M World B) :
  follows m1 m2 -> (forall x, follows (f1 x) (f2 x)) -> follows (m1 ≫= f1) (m2 ≫= f2).
Proof.
  intros Hm Hf. eapply (follows_ext _ _ (catch m1 f1 throw) (catch m2 f2 throw)).
  - apply follows_catch; [exact Hm|exact Hf|]. by intros e w.
  - intros w. unfold mbind, M_bind, catch, throw. by destruct (m1 w) as [[x|e] w1].
  - intros w. unfold mbind, M_bind, catch, throw. by destruct (m2 w) as [[x|e] w1].
Qed.

Lemma follows_stay {X} (f : World -> X * World) : (forall w, wo_calls (f w).2 = wo_calls w) -> follows f f.
Proof. intros Hf w. rewrite Hf. split; [lia|done]. Qed.

Lemma follows_tick {X} (f : World -> X) : follows (fun w => (f w, tick w)) (fun w => (f w, tick w)).
Proof. intros w. cbn. split; [lia|done]. Qed.

Lemma follows_pure {A} (r : result A) : follows (pure r) (pure r).
Proof. by apply follows_stay. Qed.

Lemma follows_ret {A} (x : A) : follows (mret (M := M World) x) (mret (M := M World) x).
Proof. by apply follows_stay. Qed.

Lemma follows_throw {A} e : follows (throw (W := World) (A := A) e) (throw e).
Proof. by apply follows_stay. Qed.

(** The clock is what the window is about. *)
Lemma follows_now : follows (now (H := Clock_system env)) (now (H := Clock_within)).
Proof.
  intros w. unfold now. cbn. split; [lia|]. intros Ha Hb.
  by replace (Nat.max a (Nat.min (pred b) (wo_calls w))) with (wo_calls w) by lia.
Qed.

Lemma follows_exec {A} (f : World -> DB -> (pg_failure + A) * DB) :
  follows (fun w => exec (tx_querier env) (f w) w) (fun w => exec (tx_querier env) (f w) w).
Proof.
  intros w. split; [|done]. unfold exec, tx_querier, statement.
  destruct (wo_aborted w); [done|]. destruct (en_fault env _); [cbn; lia|]. destruct (f w (wo_db w)) as [[e|x] db]; cbn; lia.
Qed.

Lemma follows_query_row {R} (f : DB -> list R) :
  follows (query_row (tx_querier env) f) (query_row (tx_querier env) f).
Proof.
  intros w. split; [|done]. unfold query_row, tx_querier, statement, select.
  destruct (wo_aborted w); [done|]. destruct (en_fault env _); [cbn; lia|]. destruct (f (wo_db w)); cbn; lia.
Qed.

Lemma follows_id : follows (IDGenerator_next env) (IDGenerator_next env).
Proof. intros w. split; [|done]. unfold IDGenerator_next. destruct (en_uuid env _); cbn; lia. Qed.

Lemma follows_rand n : follows (rand_Int64N (H := Rand_system env) n) (rand_Int64N (H := Rand_system env) n).
Proof. exact (follows_tick (fun w => Ok (en_rand env (wo_calls w) n))). Qed.

(** The shape of the code decides what follows what; [steps] are the parts
    that have been dealt with. *)
Ltac follow_with steps :=
  repeat first
    [ done | steps
    | apply follows_now | apply follows_id | apply follows_rand | apply follows_exec | apply follows_query_row
    | apply (follows_exec (fun _ => _))
    | apply follows_pure | apply follows_ret | apply follows_throw
    | apply follows_bind; [|intros ?] | apply follows_catch; [|intros ?|intros ?]
    | case_match ].
Ltac follow := follow_with fail.

#[local] Abbreviation repos := (pg_repositories env (tx_querier env)).
#[local] Abbreviation C1 := (Clock_system env).
#[local] Abbreviation C2 := Clock_within.
#[local] Abbreviation ids := (IDGenerator_system env).
#[local] Abbreviation rnd := (Rand_system env).

(** ** The worker *)

Lemma follows_record_each ctx id at_ events :
  follows (record_each (H0 := ids) ctx repos id at_ events) (record_each (H0 := ids) ctx repos id at_ events).
Proof.
  induction events as [|event events IH]; cbn [record_each]; [apply follows_ret|].
  cbn. unfold pg_OutboxAppend. follow.
Qed.

Lemma follows_emit ctx tx wallet entry moved :
  follows (emit (H := C1) (H0 := ids) ctx repos tx wallet entry moved)
    (emit (H := C2) (H0 := ids) ctx repos tx wallet entry moved).
Proof. unfold emit, record. follow_with ltac:(apply follows_record_each). Qed.

Lemma follows_update tx : follows (t_Update (r_Transactions repos) tx) (t_Update (r_Transactions repos) tx).
Proof. cbn. unfold pg_UpdateTransaction. follow. Qed.

Lemma follows_reject ctx tx code at_ :
  follows (Worker_reject (H := C1) (H0 := ids) ctx repos tx code at_)
    (Worker_reject (H := C2) (H0 := ids) ctx repos tx code at_).
Proof. unfold Worker_reject. follow_with ltac:(first [apply follows_update|apply follows_emit]). Qed.

Lemma follows_wait policy ctx tx at_ :
  follows (Worker_wait (H := C1) (H0 := ids) (H1 := rnd) policy ctx repos tx at_)
    (Worker_wait (H := C2) (H0 := ids) (H1 := rnd) policy ctx repos tx at_).
Proof.
  unfold Worker_wait, ReferencePolicy_nextAttemptAt, nextAttemptAt.
  follow_with ltac:(first [apply follows_reject|apply follows_update]).
Qed.

Lemma follows_applyReversal ctx tx decision wallet at_ :
  follows (applyReversal (H0 := ids) ctx repos tx decision wallet at_)
    (applyReversal (H0 := ids) ctx repos tx decision wallet at_).
Proof.
  unfold applyReversal, writeReversal. cbn. unfold pg_UpdateTransaction, pg_InsertTransaction, pg_UpdateBalance, pg_Append.
  follow.
Qed.

Lemma follows_lock id :
  follows (w_FindByIDForUpdate (r_Wallets repos) id) (w_FindByIDForUpdate (r_Wallets repos) id).
Proof. cbn. unfold pg_FindByIDForUpdate, pg_FindWallet. follow. Qed.

Lemma follows_resolveReference tx : follows (resolveReference repos tx) (resolveReference repos tx).
Proof. unfold resolveReference. cbn. unfold pg_FindByBusinessID, pg_FindProcessedReversalOf. follow. Qed.

Lemma follows_resolve policy ctx tx at_ :
  follows (Worker_resolve (H := C1) (H0 := ids) (H1 := rnd) policy ctx repos tx at_)
    (Worker_resolve (H := C2) (H0 := ids) (H1 := rnd) policy ctx repos tx at_).
Proof.
  unfold Worker_resolve.
  follow_with ltac:(first [apply follows_lock|apply follows_resolveReference|apply follows_wait
    |apply follows_reject|apply follows_applyReversal|apply follows_emit]).
Qed.

Lemma follows_claim :
  follows (Worker_claim (H := C1) repos) (Worker_claim (H := C2) repos).
Proof.
  unfold Worker_claim. cbn. unfold pg_ClaimDueReferences. follow.
Qed.

Lemma follows_handleOne policy ctx worked :
  follows (handleOne_callback (H := C1) (H0 := ids) (H1 := rnd) policy ctx repos worked)
    (handleOne_callback (H := C2) (H0 := ids) (H1 := rnd) policy ctx repos worked).
Proof.
  set (rest (c : Clock World) (r : result (Time * list WagerTransaction)) (w : World) :=
    match r with
    | Err e => (Err e, worked, w)
    | Ok (_, []) => (Ok (), worked, w)
    | Ok (now_, pending :: _) =>
      let '(r, w) := Worker_resolve (H := c) (H0 := ids) (H1 := rnd) policy ctx repos pending now_ w in (r, true, w)
    end).
  apply (follows_ext _ _ (fun w => let '(r, w) := Worker_claim (H := C1) repos w in rest C1 r w)
    (fun w => let '(r, w) := Worker_claim (H := C2) repos w in rest C2 r w)).
  - apply follows_step; [apply follows_claim|]. intros [[now_ [|pending due]]|e]; [by apply follows_stay| |by apply follows_stay].
    apply (follows_step _ _ (fun r w => (r, true, w)) (fun r w => (r, true, w))); [apply follows_resolve|].
    intros r. by apply follows_stay.
  - intros w. unfold handleOne_callback. by destruct (Worker_claim repos w) as [[[now_ [|]]|e] w1].
  - intros w. unfold handleOne_callback. by destruct (Worker_claim repos w) as [[[now_ [|]]|e] w1].
Qed.

(** ** The unit of work *)

Section unit_of_work.
Context {C : Type} (f1 f2 : Context -> Repositories World -> Callback World C).
Context (Hf : forall ctx c, follows (f1 ctx repos c) (f2 ctx repos c)).

(** What follows the callback of an attempt, and what follows its beginning. *)
Definition attempt_end (rc : result unit * C) (w : World) : result unit * C * World :=
  match rc with
  | (Err e, c) => (Err e, c, rollback w)
  | (Ok _, c) => let '(r, w) := commit env w in (r, c, w)
  end.

Definition attempt_rest (f : Context -> Repositories World -> Callback World C) (ctx : Context) (c : C)
    (e : option pg_failure) (w : World) : result unit * C * World :=
  match e with
  | Some e => (Err (translate (Failure e)), c, w)
  | None =>
    let '(rc, w) := f (mkContext (cx_identity ctx) (cx_correlationID ctx) true) repos c w in attempt_end rc w
  end.

Lemma attempt_begins f ctx c w :
  attempt env ctx f c w = let '(e, w) := begin env w in attempt_rest f ctx c e w.
Proof.
  unfold attempt, attempt_rest. destruct (begin env w) as [[e|] w1]; [done|].
  by destruct (f (mkContext _ _ true) repos c w1) as [[[[]|e] c'] w2].
Qed.

Lemma follows_commit : follows (commit env) (commit env).
Proof.
  intros w. split; [|done]. unfold commit. destruct (wo_aborted w); [cbn; lia|]. destruct (en_commit env _); cbn; lia.
Qed.

Lemma follows_attempt_rest ctx c e : follows (attempt_rest f1 ctx c e) (attempt_rest f2 ctx c e).
Proof using Hf.
  destruct e as [e|]; cbn [attempt_rest]; [by apply follows_stay|].
  apply (follows_step _ _ attempt_end attempt_end); [apply Hf|]. intros [[u|e] c']; [|intros w; cbn; split; [lia|done]].
  apply (follows_step _ _ (fun r w => (r, c', w)) (fun r w => (r, c', w))); [apply follows_commit|].
  intros r. by apply follows_stay.
Qed.

Lemma follows_attempt ctx c : follows (attempt env ctx f1 c) (attempt env ctx f2 c).
Proof using Hf.
  eapply follows_ext; [|intros w; apply attempt_begins|intros w; apply attempt_begins].
  apply follows_step; [|apply follows_attempt_rest]. intros w. cbn. split; [lia|done].
Qed.

(** An attempt consults the environment. *)
Lemma attempt_consults ctx c w : (wo_calls w < wo_calls (attempt env ctx f1 c w).2)%nat.
Proof using Hf.
  rewrite attempt_begins. cbn.
  destruct (follows_attempt_rest ctx c (en_fault env (wo_calls w))
    (mkWorld (en_others env (wo_calls w) (wo_db w)) (en_others env (wo_calls w) (wo_db w)) false (S (wo_calls w)))) as [H _].
  cbn in H. lia.
Qed.

(** What follows an attempt. *)
Definition attempts_rest (policy : RetryPolicy) (n : Z) (again : C -> World -> result unit * C * World)
    (rc : result unit * C) (w : World) : result unit * C * World :=
  match rc with
  | (Ok u, c) => (Ok u, c, w)
  | (Err e, c) =>
    if negb (transient e) || (rt_MaxAttempts policy <=? n) then (Err e, c, w)
    else let '((_, gone), w) := backoff env policy n w in if gone : bool then (Err e, c, w) else again c w
  end.

Lemma attempts_begin policy more n ctx f c w :
  attempts env policy more n ctx f c w =
  let '(rc, w) := attempt env ctx f c w in
  attempts_rest policy n
    (fun c w => match more with O => (rc.1, c, w) | S more => attempts env policy more (n + 1) ctx f c w end) rc w.
Proof.
  destruct more; cbn [attempts]; unfold attempts_rest; destruct (attempt env ctx f c w) as [[[[]|e] c'] w1]; try done.
Qed.

Lemma follows_attempts policy more n ctx c :
  follows (attempts env policy more n ctx f1 c) (attempts env policy more n ctx f2 c).
Proof using Hf.
  revert n c. induction more as [|more IH]; intros n c;
    (eapply follows_ext; [|intros w; apply attempts_begin|intros w; apply attempts_begin]);
    (apply follows_step; [apply follows_attempt|]); intros [[u|e] c']; cbn [attempts_rest fst];
    try (by apply follows_stay); (destruct (negb _ || _); [by apply follows_stay|]);
    intros w; cbn -[attempts]; (destruct (en_cancelled env _); [cbn; split; [lia|done]|]).
  - cbn. split; [lia|done].
  - destruct (IH (n + 1) c' (tick (tick w))) as [Hle Heq]. cbn [tick wo_calls] in Hle. split; [lia|].
    intros Ha Hb. apply Heq; [cbn; lia|done].
Qed.

Lemma follows_Do retry ctx c :
  follows (uow_Do (pg_UnitOfWork env retry) ctx f1 c) (uow_Do (pg_UnitOfWork env retry) ctx f2 c).
Proof using Hf.
  cbn. unfold pg_Do. destruct (cx_insideUnitOfWork ctx); [by apply follows_stay|]. apply follows_attempts.
Qed.

Lemma Do_consults retry ctx c w : cx_insideUnitOfWork ctx = false ->
  (wo_calls w < wo_calls (uow_Do (pg_UnitOfWork env retry) ctx f1 c w).2)%nat.
Proof using Hf.
  intros Hin. cbn. unfold pg_Do. rewrite Hin. cbn zeta.
  generalize (Z.to_nat (rt_MaxAttempts (RetryPolicy_normalised retry))). intros more. rewrite attempts_begin.
  pose proof (attempt_consults ctx c w) as Hlt.
  destruct (attempt env ctx f1 c w) as [[[u|e] c'] w1]; cbn [snd fst attempts_rest] in *; [done|].
  destruct (negb _ || _); [done|]. cbn -[attempts]. destruct (en_cancelled env _); [cbn; lia|].
  destruct more as [|more]; [cbn; lia|].
  destruct (follows_attempts (RetryPolicy_normalised retry) more (1 + 1) ctx c' (tick (tick w1))) as [Hle _].
  cbn [tick wo_calls] in Hle. lia.
Qed.
End unit_of_work.

(** ** Calls of the worker *)

Lemma follows_handleOne_call retry policy ctx :
  follows (handleOne (H := C1) (H0 := ids) (H1 := rnd) (pg_UnitOfWork env retry) policy ctx)
    (handleOne (H := C2) (H0 := ids) (H1 := rnd) (pg_UnitOfWork env retry) policy ctx).
Proof.
  set (answer (rc : result unit * bool) (w : World) :=
    match rc with (Ok _, worked) => (Ok worked, w) | (Err e, _) => (Err e, w) end).
  eapply (follows_ext _ _ (fun w => let '(rc, w) := _ w in answer rc w) (fun w => let '(rc, w) := _ w in answer rc w)).
  - apply follows_step.
    + apply (follows_Do (handleOne_callback (H := C1) (H0 := ids) (H1 := rnd) policy)
        (handleOne_callback (H := C2) (H0 := ids) (H1 := rnd) policy) (follows_handleOne policy) retry ctx false).
    + by intros [[u|e] worked]; apply follows_stay.
  - intros w. unfold handleOne. by destruct (uow_Do _ _ _ _ w) as [[[u|e] worked] w1].
  - intros w. unfold handleOne. by destruct (uow_Do _ _ _ _ w) as [[[u|e] worked] w1].
Qed.

Lemma handleOne_consults retry policy ctx w : cx_insideUnitOfWork ctx = false ->
  (wo_calls w < wo_calls (handleOne (H := C1) (H0 := ids) (H1 := rnd) (pg_UnitOfWork env retry) policy ctx w).2)%nat.
Proof.
  intros Hin. pose proof (Do_consults (handleOne_callback (H := C1) (H0 := ids) (H1 := rnd) policy) _
    (follows_handleOne policy) retry ctx false w Hin) as Hlt.
  unfold handleOne. by destruct (uow_Do _ _ _ _ w) as [[[u|e] worked] w1].
Qed.

Lemma follows_run_batch retry policy ctx more handled :
  follows (run_batch (H := C1) (H0 := ids) (H1 := rnd) (H2 := Cancellation_system env) (pg_UnitOfWork env retry) policy ctx more handled)
    (run_batch (H := C2) (H0 := ids) (H1 := rnd) (H2 := Cancellation_system env) (pg_UnitOfWork env retry) policy ctx more handled).
Proof.
  revert handled. induction more as [|more IH]; intros handled; [by apply follows_stay|].
  set (look (c : Clock World) := handleOne (H := c) (H0 := ids) (H1 := rnd) (pg_UnitOfWork env retry) policy ctx).
  set (batch (c : Clock World) := run_batch (H := c) (H0 := ids) (H1 := rnd) (H2 := Cancellation_system env)
    (pg_UnitOfWork env retry) policy ctx).
  set (next (c : Clock World) (r : result bool) (w : World) :=
    match r with
    | Err e => (handled, Err e, w)
    | Ok false => (handled, Ok (), w)
    | Ok true => batch c more (handled + 1) w
    end).
  set (go (c : Clock World) (gone : result unit) (w : World) :=
    match gone with
    | Err e => (handled, Err e, w)
    | Ok _ => let '(r, w) := look c w in next c r w
    end).
  apply (follows_ext _ _ (fun w => let '(gone, w) := ctx_Err (Cancellation := Cancellation_system env) ctx w in go C1 gone w)
    (fun w => let '(gone, w) := ctx_Err (Cancellation := Cancellation_system env) ctx w in go C2 gone w)).
  - apply follows_step.
    + exact (follows_tick (fun w => if en_cancelled env (wo_calls w) then Err (Opaque "context canceled") else Ok ())).
    + intros [u|e]; cbn [go]; [|by apply follows_stay]. apply follows_step; [apply follows_handleOne_call|].
      intros [[]|e]; cbn [next]; [apply IH|by apply follows_stay..].
  - intros w. cbn [run_batch]. destruct (ctx_Err _ w) as [[u|e] w1]; [|done]. unfold go, look, next.
    by destruct (handleOne _ _ _ w1) as [[[]|e] w2].
  - intros w. cbn [run_batch]. destruct (ctx_Err _ w) as [[u|e] w1]; [|done]. unfold go, look, next.
    by destruct (handleOne _ _ _ w1) as [[[]|e] w2].
Qed.

Lemma run_batch_consults retry policy ctx more handled w : (0 < more)%nat ->
  (wo_calls w < wo_calls (run_batch (H := C1) (H0 := ids) (H1 := rnd) (H2 := Cancellation_system env)
    (pg_UnitOfWork env retry) policy ctx more handled w).2)%nat.
Proof.
  destruct more as [|more]; [lia|]. intros _. cbn -[handleOne run_batch].
  cbn [run_batch ctx_Err Cancellation_system]. destruct (en_cancelled env _); [cbn; lia|].
  destruct (follows_handleOne_call retry policy ctx (tick w)) as [Hle _]. cbn [wo_calls tick] in Hle.
  destruct (handleOne _ _ _ (tick w)) as [[[]|e] w1]; cbn [snd] in *; [|lia..].
  destruct (follows_run_batch retry policy ctx more (handled + 1) w1) as [Hle1 _]. lia.
Qed.

(** ** The publisher *)

Section publisher.
Context `{EventPublisher World} (Hpub : forall ctx r, follows (Publish ctx r) (Publish ctx r)).
Context (Error : error -> string) (policy : PublisherPolicy).

Lemma follows_publishOne ctx r at_ :
  follows (publishOne (H0 := rnd) Error policy ctx repos r at_) (publishOne (H0 := rnd) Error policy ctx repos r at_).
Proof using Hpub.
  unfold publishOne, Publisher_nextAttemptAt, nextAttemptAt. apply follows_catch; [apply Hpub|..]; intros x; cbn;
    unfold pg_MarkPublished, pg_Reschedule; follow.
Qed.

Lemma follows_publish_each ctx due at_ n :
  follows (publish_each (H0 := rnd) Error policy ctx repos due at_ n)
    (publish_each (H0 := rnd) Error policy ctx repos due at_ n).
Proof using Hpub.
  revert n. induction due as [|r due IH]; intros n; cbn [publish_each]; [by apply follows_stay|].
  set (next (x : result unit) (w : World) :=
    match x with
    | Err e => (Err e, n, w)
    | Ok _ => publish_each (H0 := rnd) Error policy ctx repos due at_ (n + 1) w
    end).
  apply (follows_ext _ _ (fun w => let '(x, w) := publishOne (H0 := rnd) Error policy ctx repos r at_ w in next x w)
    (fun w => let '(x, w) := publishOne (H0 := rnd) Error policy ctx repos r at_ w in next x w)).
  - apply follows_step; [apply follows_publishOne|]. intros [u|e]; cbn [next]; [apply IH|by apply follows_stay].
  - intros w. by destruct (publishOne _ _ _ _ _ _ w) as [[u|e] w1].
  - intros w. by destruct (publishOne _ _ _ _ _ _ w) as [[u|e] w1].
Qed.

Lemma follows_RunOnce_callback ctx n :
  follows (RunOnce_callback (H := C1) (H0 := rnd) Error policy ctx repos n)
    (RunOnce_callback (H := C2) (H0 := rnd) Error policy ctx repos n).
Proof using Hpub.
  set (next (x : result (Time * list OutboxRecord)) (w : World) :=
    match x with
    | Err e => (Err e, n, w)
    | Ok (at_, due) => publish_each (H0 := rnd) Error policy ctx repos due at_ n w
    end).
  apply (follows_ext _ _ (fun w => let '(x, w) := Publisher_claim (H := C1) policy repos w in next x w)
    (fun w => let '(x, w) := Publisher_claim (H := C2) policy repos w in next x w)).
  - apply follows_step.
    + unfold Publisher_claim. cbn. unfold pg_ClaimDue. follow.
    + intros [[at_ due]|e]; cbn [next]; [apply follows_publish_each|by apply follows_stay].
  - intros w. unfold RunOnce_callback. by destruct (Publisher_claim _ _ w) as [[[at_ due]|e] w1].
  - intros w. unfold RunOnce_callback. by destruct (Publisher_claim _ _ w) as [[[at_ due]|e] w1].
Qed.

Lemma follows_RunOnce retry ctx :
  follows (Publisher_RunOnce (H := C1) (H0 := rnd) Error policy (pg_UnitOfWork env retry) ctx)
    (Publisher_RunOnce (H := C2) (H0 := rnd) Error policy (pg_UnitOfWork env retry) ctx).
Proof using Hpub.
  unfold Publisher_RunOnce.
  eapply (follows_ext _ _ (fun w => let '(rc, w) := _ w in (rc.2, rc.1, w)) (fun w => let '(rc, w) := _ w in (rc.2, rc.1, w))).
  - apply (follows_step _ _ (fun rc w => (rc.2, rc.1, w)) (fun rc w => (rc.2, rc.1, w))).
    + apply (follows_Do (RunOnce_callback (H := C1) (H0 := rnd) Error policy)
        (RunOnce_callback (H := C2) (H0 := rnd) Error policy) follows_RunOnce_callback retry ctx 0).
    + intros rc. by apply follows_stay.
  - intros w. by destruct (uow_Do _ _ _ _ w) as [[r n] w1].
  - intros w. by destruct (uow_Do _ _ _ _ w) as [[r n] w1].
Qed.

Lemma RunOnce_consults retry ctx w : cx_insideUnitOfWork ctx = false ->
  (wo_calls w < wo_calls (Publisher_RunOnce (H := C1) (H0 := rnd) Error policy (pg_UnitOfWork env retry) ctx w).2)%nat.
Proof using Hpub.
  intros Hin. pose proof (Do_consults (RunOnce_callback (H := C1) (H0 := rnd) Error policy) _
    follows_RunOnce_callback retry ctx 0 w Hin) as Hlt.
  unfold Publisher_RunOnce. by destruct (uow_Do _ _ _ _ w) as [[r n] w1].
Qed.
End publisher.
End readings.
