(* ===== verification/PostgresReads.v ===== *)
(** * PostgresReads: ledger pages, sums and snapshots

    Paging through a ledger and summing it, as [ledger.go] does, read what the
    store holds; a read-only snapshot leaves it as it is.  The laws of the
    repositories, the queries and the snapshot are put together here. *)

From stdpp Require Import sorting.
From S2P Require Import Prelude Errors GoTime Money Identifier Ledger Wallet Transaction Event.
From S2P Require Import Identity Ports Store StoreInv Submit Storable Schema Postgres.
From S2P Require Import Rows PostgresLaws PostgresWrites PostgresQueues UowLaws.

#[local] Open Scope string_scope.
#[local] Open Scope list_scope.
#[local] Open Scope Z_scope.

Section reads.
Context (env : Environment) `{!EnvironmentLaws env}.
#[local] Existing Instance Storage_pg.

Lemma wallet_id_row q e (id : WalletID) :
  cl_wallet_id (ledger_row_of env q e) = id_value id <-> le_walletID e = id.
Proof. cbn. split; [apply id_value_inj|by intros ->]. Qed.

(** ** Pages *)

Lemma page_loop_spec limit qes : forall entries after,
  (forall q e, (q, e) ∈ qes -> entry_storable e /\ stored_entry e = e) ->
  Z.of_nat (length entries) <= limit ->
  page_loop env ((fun qe => ledger_row_of env qe.1 qe.2) <$> qes) limit entries after =
    let page := take (Z.to_nat (limit - Z.of_nat (length entries))) qes in
    Ok (mkLedgerPage (entries ++ page.*2) (NewLedgerCursor (default after (last page.*1)))
          (bool_decide (limit < Z.of_nat (length entries + length qes)))).
Proof.
  induction qes as [|[q e] qes IH]; intros entries after Hqes Hlen.
  - cbn [fmap list_fmap page_loop]. rewrite take_nil. cbn. rewrite app_nil_r.
    rewrite bool_decide_eq_false_2 by lia. done.
  - cbn [fmap list_fmap page_loop]. destruct (Z.eqb_spec (Z.of_nat (length entries)) limit) as [E|E].
    + replace (Z.to_nat (limit - Z.of_nat (length entries))) with 0%nat by lia. cbn.
      rewrite app_nil_r, bool_decide_eq_true_2 by lia. done.
    + destruct (Hqes q e) as [Hs Hst]; [left|]. cbn [fst snd].
      rewrite (scanLedgerEntry_row env) by done. cbn [mbind result_bind]. rewrite Hst.
      rewrite IH; [|by intros; apply (Hqes q0); right|rewrite length_app; cbn; lia].
      rewrite length_app. cbn [length].
      replace (Z.to_nat (limit - Z.of_nat (length entries)))
        with (S (Z.to_nat (limit - Z.of_nat (length entries + 1)))) by lia.
      cbn [take fmap list_fmap fst snd]. rewrite <- app_assoc. cbn [app].
      rewrite last_cons. replace (length entries + 1 + length qes)%nat with (length entries + S (length qes))%nat by lia.
      f_equal. f_equal. f_equal. by destruct (last _).
Qed.

Lemma select_page_spec db s id cursor limit : represents env db s ->
  select_page (id_value id) (cursor_after cursor) limit db =
    (fun qe => ledger_row_of env qe.1 qe.2) <$> take (Z.to_nat limit) (entries_after id cursor s).
Proof.
  intros Hr. unfold select_page. pose proof (rep_ledger_seq _ _ _ Hr) as [Hseq _].
  assert (Hs : StronglySorted Z.lt (cl_seq <$> db_ledger db)).
  { rewrite (rep_ledger _ _ _ Hr), <- list_fmap_compose. exact Hseq. }
  rewrite (merge_sort_keys cl_seq) by (done || by apply (sorted_filter cl_seq)).
  rewrite fmap_take. f_equal. rewrite (rep_ledger _ _ _ Hr). unfold entries_after.
  apply filter_map. intros [q e]. cbn [fst snd]. by rewrite wallet_id_row.
Qed.

Lemma ListByWallet_pg id cursor limit : 0 < limit < MaxInt64 -> forall w s, st_idle w s ->
  wp (pg_ListByWallet env (pool_querier env) id cursor limit) w
    (fun page w' => exists s', others env s s' /\ page = ledger_page id cursor limit s' /\ st_idle w' s')
    (fun e w' => exists s', others env s s' /\ st_idle w' s' /\ infra env e).
Proof.
  intros Hlim w s Hr. destruct (others_once env (wo_calls w) _ _ Hr) as (s' & Hr' & Hi).
  unfold pg_ListByWallet. replace (limit <=? 0) with false by lia.
  unfold wp, mbind, M_bind, exec, pool_querier, pool_statement, select, pure.
  destruct (en_fault env (wo_calls w)) as [e|] eqn:Ef.
  { exists s'. split_and!; try done. by eapply infra_fault. }
  rewrite (i64_id (limit + 1)) by (width; lia).
  rewrite (select_page_spec _ s' id cursor _ Hr').
  rewrite page_loop_spec; [| |cbn; lia].
  - exists s'. split_and!; try done. unfold ledger_page. cbn zeta. cbn [length app].
    replace (Z.to_nat (limit - Z.of_nat 0)) with (Z.to_nat limit) by lia.
    rewrite take_take, Nat.min_l by lia. f_equal.
    rewrite length_take. apply bool_decide_ext. lia.
  - intros q e Hin. apply (subseteq_take _ _ (q, e)) in Hin.
    unfold entries_after in Hin. apply list_elem_of_filter in Hin as [_ Hin].
    exact (rep_entry_ok _ _ _ Hr' q e Hin).
Qed.

(** ** Sums *)

Lemma row_signed_entry q e : entry_storable e ->
  row_signed (ledger_row_of env q e) = signed (le_direction e) (minor (le_amount e)).
Proof.
  intros Hs. unfold row_signed, signed. cbn.
  destruct (eo_direction e (es_ok e Hs)) as [E|E]; rewrite E; done.
Qed.

Lemma sum_rows qes : (forall q e, (q, e) ∈ qes -> entry_storable e) ->
  foldr (fun r acc => row_signed r + acc) 0 ((fun qe => ledger_row_of env qe.1 qe.2) <$> qes) =
    entries_sum qes.*2.
Proof.
  induction qes as [|[q e] qes IH]; intros Hs; [done|]. cbn [fmap list_fmap foldr fst snd].
  rewrite IH by (intros q' e' Hin; apply (Hs q'); by right).
  rewrite row_signed_entry by (apply (Hs q); left). done.
Qed.

Lemma entries_of_pairs id s :
  (filter (fun qe : Z * LedgerEntry => le_walletID qe.2 = id) (s_ledger s)).*2 = entries_of id s.
Proof. unfold entries_of. symmetry. by apply filter_map. Qed.

Lemma sum_wallet_spec db s id : represents env db s ->
  sum_wallet (id_value id) db =
    if bool_decide (is_i64 (entries_sum (entries_of id s)))
    then (inr (entries_sum (entries_of id s), Z.of_nat (length (entries_of id s))), db)
    else (inl (PgError "22003" "" "" "bigint out of range"), db).
Proof.
  intros Hr. unfold sum_wallet. rewrite (rep_ledger _ _ _ Hr).
  rewrite (filter_map _ _ (fun qe => le_walletID qe.2 = id)) by (intros [q e]; apply wallet_id_row).
  rewrite length_fmap, sum_rows, entries_of_pairs, <- (length_fmap snd), entries_of_pairs; [done|].
  intros q e [_ Hin]%list_elem_of_filter. by apply (rep_entry_ok _ _ _ Hr q).
Qed.

Lemma SumByWallet_pg id cur : currency_ok cur -> forall w s0 s, st_tx w s0 s ->
  wp (pg_SumByWallet (tx_querier env) id cur) w
    (fun mn w' => mn = (mkMoney (entries_sum (entries_of id s)) cur,
                        Z.of_nat (length (entries_of id s))) /\
       is_i64 (entries_sum (entries_of id s)) /\ st_tx w' s0 s)
    (fun e w' => (~ is_i64 (entries_sum (entries_of id s)) \/ infra env e) /\ st_dead w' s0).
Proof.
  intros Hc w s0 s Htx. unfold pg_SumByWallet. apply wp_bind. eapply exec_tx; [exact Htx| |by auto].
  destruct Htx as (_ & Hr & _). rewrite (sum_wallet_spec _ s id Hr). case_bool_decide as Hi.
  - split; [apply seq_le_refl|]. exists s. split; [done|]. intros w' Htx'.
    unfold wp, mbind, M_bind, pure. rewrite NewMoneyFromMinor_ok by done. by split_and!.
  - split; [apply seq_le_refl|]. intros w' Hd. split; [by left|done].
Qed.

(** ** Snapshots *)

Lemma snapshot_laws :
  SnapshotLaws (H := Storage_pg env) World (pg_Snapshot env) (pg_queries env (tx_querier env)).
Proof.
  constructor.
  - intros w s0 s k wal (_ & Hr & _) Hk. destruct (rep_wallet_ok _ _ _ Hr k wal Hk) as (? & ? & _). done.
  - intros A ctx f Q E w s Hi Hf. cbn [pg_Snapshot snap_Do]. unfold wp, pg_SnapshotDo.
    pose proof (begin_spec env w s Hi) as Hb. destruct (begin env w) as [[e|] w1].
    + destruct Hb as (He & s0 & Ho & Hi0). exists s0. split_and!; auto.
    + destruct Hb as (s0 & Ho & Htx). specialize (Hf s0 w1 Ho Htx). unfold wp in Hf.
      destruct (f ctx _ w1) as [[a|e] w2]; destruct Hf as [HQ Hd];
        exists s0; split_and!; auto; by apply rollback_spec.
  - intros id _. apply (finds_query env). apply select_wallet_spec.
  - apply SumByWallet_pg.
Qed.

(** ** All the laws *)

Lemma repositories_laws :
  RepositoriesLaws (H0 := Storage_pg env) World (pg_repositories env (tx_querier env)).
Proof.
  constructor; cbn [pg_repositories r_Wallets r_Ledger r_Transactions r_Inbox r_Outbox w_reader
    w_FindByIDForUpdate w_Insert w_UpdateBalance wr_FindByID l_Append t_reader tr_FindByID
    tr_FindByBusinessID tr_FindProcessedReversalOf t_Insert t_Update t_ClaimDueReferences ob_Append
    in_Claim in_Complete in_Find ob_ClaimDue ob_MarkPublished ob_Reschedule
    pg_wallet_reader pg_transaction_reader].
  - intros id _. apply finds_query. apply select_wallet_spec.
  - intros id _. apply finds_query. apply select_wallet_spec.
  - apply (InsertWallet_pg env).
  - apply (UpdateBalance_pg env).
  - apply (Append_pg env).
  - intros id _. apply finds_query. apply select_tx_spec.
  - intros p e Hp He. apply finds_query. by apply select_business_spec.
  - intros r Hrf. apply finds_query. by apply select_reversal_spec.
  - apply (InsertTransaction_pg env).
  - intros t old Hs Hst _. by apply UpdateTransaction_pg.
  - apply (ClaimDueReferences_pg env).
  - apply (OutboxAppend_pg env).
  - apply Claim_pg.
  - intros c m at_ _. apply Complete_pg.
  - apply FindInbox_pg.
  - apply ClaimDue_pg.
  - apply MarkPublished_pg.
  - apply Reschedule_pg.
Qed.

Lemma queries_laws : QueriesLaws (H := Storage_pg env) World (pg_queries env (pool_querier env)).
Proof.
  constructor; cbn [pg_queries q_Transactions q_Wallets q_Ledger pg_wallet_reader pg_transaction_reader
    pg_ledger_reader tr_FindByBusinessID tr_FindByID wr_FindByID lr_ListByWallet].
  - intros w s Hr. apply (rep_ledger_seq _ _ _ Hr).
  - intros p e Hp He. apply reads_query. by apply select_business_spec.
  - intros id _. apply reads_query. apply select_tx_spec.
  - intros id _. apply reads_query. apply select_wallet_spec.
  - apply ListByWallet_pg.
Qed.
End reads.
