(* ===== verification/Quiet.v ===== *)
(** * Quiet: an environment that behaves, and one that loses a reply

    Concrete environments in which the documented behaviour of PostgreSQL, its
    driver and the clock holds, and a database with one wallet: the inputs on
    which the theorems about the wired program are exercised. *)

From S2P Require Import Prelude Errors GoTime Money Identifier Ledger Wallet Transaction Event.
From S2P Require Import Idempotency Identity Ports Store StoreInv Policy Submit Storable Schema.
From S2P Require Import Postgres Rows PostgresLaws PostgresWrites.

#[local] Open Scope string_scope.
#[local] Open Scope list_scope.
#[local] Open Scope Z_scope.

(** The last [k] decimal digits of [n]. *)
Fixpoint last_digits (k : nat) (n : Z) : string :=
  match k with
  | O => ""
  | S k => last_digits k (n / 10) +:+ String (digit_char (n mod 10)) ""
  end.

Lemma last_digits_length k n : String.length (last_digits k n) = k.
Proof. revert n. induction k as [|k IH]; intros n; cbn; [done|]. rewrite string_length_app, IH. cbn. lia. Qed.

(** The clock advances by [step] with every call; [commits] says how each
    commit ends. *)
Definition environment_stepping (step : Z) (commits : nat -> commit_outcome) : Environment := {|
  en_uuid := fun n => Some ("01890000-0000-7000-8000-" +:+ last_digits 12 (Z.of_nat n));
  en_now := fun n => mkTime (63000000000000000000 + step * Z.of_nat n) UTC;
  en_rand := fun _ _ => 0;
  en_fault := fun _ => None;
  en_commit := commits;
  en_others := fun _ db => db;
  en_pick := fun names => hd "" names;
  en_locked := fun _ _ => false;
  en_cancelled := fun _ => false;
  en_encode := fun t => instant t - instant t mod 1000;
  en_decode := fun z => mkTime z UTC;
  en_jsonb := fun j => j
|}.

Definition environment : (nat -> commit_outcome) -> Environment := environment_stepping 1500.

(** Every commit succeeds. *)
Definition quiet : Environment := environment (fun _ => Committed).

(** Every commit is applied, and no reply arrives. *)
Definition forgetful : Environment := environment (fun _ => CommitReplyLost "connection reset").

Lemma environment_stepping_laws step commits : 0 <= step ->
  (forall n f, commits n = CommitRefused f -> not_a_refusal f) ->
  EnvironmentLaws (environment_stepping step commits).
Proof.
  intros Hstep Hc. assert (Hd : DriverLaws (environment_stepping step commits)) by by constructor.
  apply (Build_EnvironmentLaws _ Hd).
  - intros n s Hn.
    assert (s = "01890000-0000-7000-8000-" +:+ last_digits 12 (Z.of_nat n)) as ->
      by (unfold environment_stepping in Hn; cbn [en_uuid] in Hn; congruence).
    by rewrite string_length_app, last_digits_length.
  - intros n. cbn -[Z.of_nat]. lia.
  - intros n m Hm. cbn. lia.
  - done.
  - exact Hc.
  - intros n db s Hr. exists s. split; [exact Hr|]. intros Hs. split; [exact Hs|apply evolves_refl].
  - intros names Hn. destruct names; [done|]. left.
Qed.

Lemma environment_laws commits :
  (forall n f, commits n = CommitRefused f -> not_a_refusal f) -> EnvironmentLaws (environment commits).
Proof. by apply environment_stepping_laws. Qed.

#[export] Instance quiet_laws : EnvironmentLaws quiet.
Proof. by apply environment_laws. Qed.

Lemma forgetful_laws : EnvironmentLaws forgetful.
Proof. by apply environment_laws. Qed.

(** ** A database with one empty wallet *)

Definition wallet0 : Wallet :=
  mkWallet (mkId "w1") (mkId "p1") (mkCurrency "BRL") (mkMoney 0 (mkCurrency "BRL")) 1
    (mkTime 63000000000000000000 UTC) (mkTime 63000000000000000000 UTC).

Definition store0 : Store := put_wallet wallet0 emptyStore.

Definition db0 (env : Environment) : DB :=
  with_wallets (insert "w1" (wallet_row_of env wallet0)) emptyDB.

Definition world0 (env : Environment) : World := mkWorld (db0 env) (db0 env) false 0.

Lemma wallet0_storable : wallet_storable wallet0.
Proof.
  constructor; try done; try by right.
Qed.

Lemma represents_empty env `{!DriverLaws env} : represents env emptyDB emptyStore.
Proof.
  constructor; cbn; rewrite ?fmap_empty; try done; try apply NoDup_nil_2.
  - intros q e Hin. by apply not_elem_of_nil in Hin.
  - split; constructor.
  - split; constructor.
  - intros r Hin. by apply not_elem_of_nil in Hin.
Qed.

Section start.
Context (step : Z) (commits : nat -> commit_outcome) `{!EnvironmentLaws (environment_stepping step commits)}.

Lemma wallet0_stored : stored_wallet wallet0 = wallet0.
Proof. reflexivity. Qed.

Lemma store0_ok_stepping : store_ok store0.
Proof.
  apply put_wallet_fresh_ok.
  - apply emptyStore_ok.
  - done.
  - intros k w0 Hk. discriminate Hk.
  - apply wallet0_storable.
  - apply wallet0_stored.
  - done.
Qed.

Lemma represents_world0_stepping :
  represents (environment_stepping step commits) (wo_db (world0 (environment_stepping step commits))) store0.
Proof.
  apply (represents_put_wallet (environment_stepping step commits) emptyDB emptyStore wallet0).
  - apply represents_empty.
  - apply wallet0_storable.
  - apply wallet0_stored.
Qed.
End start.

Section start_quietly.
Context (commits : nat -> commit_outcome) `{!EnvironmentLaws (environment commits)}.

Lemma store0_ok : store_ok store0.
Proof. exact (store0_ok_stepping 1500 commits). Qed.

Lemma represents_world0 : represents (environment commits) (wo_db (world0 (environment commits))) store0.
Proof. exact (represents_world0_stepping 1500 commits). Qed.
End start_quietly.

(** ** A caller and its commands *)

Definition acme : Context :=
  mkContext (Some (mkIdentity "acme-service" (mkId "acme") [ScopeSubmit])) "corr-1" false.

Definition operation (kind external key amount reference : string) : SubmitCommand :=
  mkSubmitCommand key "acme" external "p1" "w1" "r1" "g1" kind amount "BRL" reference.
