(* ===== verification/System.v ===== *)
(** * System: the wired program

    [SubmitTransaction] over the PostgreSQL adapter, the system clock and the
    identifier generator, in any environment that behaves as documented.  The
    theorems speak of the rows of the database before and after a whole
    submission, retries, faults and other sessions included. *)

From S2P Require Import Prelude Errors GoTime Money Identifier Ledger Wallet Transaction Event.
From S2P Require Import Idempotency Identity Ports Store StoreInv Policy Recorder Reversal.
From S2P Require Import Submit Storable SubmitSpec SubmitProof SubmitExecute SubmitFacts Schema.
From S2P Require Import Postgres Rows PostgresLaws PostgresWrites PostgresQueues UowLaws PostgresReads Quiet.

#[local] Open Scope string_scope.
#[local] Open Scope list_scope.
#[local] Open Scope Z_scope.

(** ** Wiring *)

(** Durations are [int64]s. *)
Definition durations_fit (p : ReferencePolicy) : Prop :=
  rp_BaseBackoff p <= MaxInt64 /\ rp_MaxBackoff p <= MaxInt64.

(** [NewSubmitTransaction(uow, queries, ..., waiting).Execute] *)
Definition submit (env : Environment) (retry : RetryPolicy) (waiting : ReferencePolicy)
    (ctx : Context) (cmd : SubmitCommand) : M World SubmitResult :=
  Submit_execute (H := Clock_system env) (H0 := IDGenerator_system env) (H1 := Rand_system env)
    (pg_UnitOfWork env retry) (pg_queries env (pool_querier env))
    (ReferencePolicy_normalised waiting) ctx cmd.

(** A database that holds a sound store. *)
Definition sound (env : Environment) `{!DriverLaws env} (w : World) (s : Store) : Prop :=
  represents env (wo_db w) s /\ store_ok s.

Section system.
Context (env : Environment) `{!EnvironmentLaws env} (retry : RetryPolicy) (waiting : ReferencePolicy).
Context (Hfit : durations_fit waiting).
#[local] Existing Instance Storage_pg.

Lemma waiting_sane : policy_sane (ReferencePolicy_normalised waiting).
Proof using Hfit.
  destruct Hfit. destruct (ReferencePolicy_normalised_ok waiting) as (? & _ & ? & _); [done|done|].
  split; [done|lia].
Qed.

Lemma submit_submitted ctx cmd w s : cx_insideUnitOfWork ctx = false -> sound env w s ->
  let '(r, w') := submit env retry waiting ctx cmd w in
  submitted (ReferencePolicy_normalised waiting) ctx cmd s r w'.
Proof using Hfit EnvironmentLaws0.
  intros Hin [Hr Hs].
  exact (Submit_execute_submitted (H := Storage_pg env) (StorageLaws0 := StorageLaws_pg env)
    (ClockLaws0 := clock_laws env) (IDLaws0 := id_laws env) (RandLaws0 := rand_laws env)
    (pg_repositories env (tx_querier env)) (RepositoriesLaws0 := repositories_laws env)
    (pg_UnitOfWork env retry) (UnitOfWorkLaws0 := uow_laws env retry)
    (pg_queries env (pool_querier env)) (QueriesLaws0 := queries_laws env)
    (ReferencePolicy_normalised waiting) ctx cmd s w waiting_sane Hin Hr Hs).
Qed.

Lemma waiting_ttl : 0 <= rp_TTL (ReferencePolicy_normalised waiting).
Proof using Hfit. apply waiting_sane. Qed.

Lemma accepted_parsed ctx cmd s0 res s1 :
  accepts (ReferencePolicy_normalised waiting) ctx cmd s0 res s1 -> store_ok s0 ->
  store_ok s1 /\ evolves s0 s1.
Proof using Hfit EnvironmentLaws0.
  intros Ha Hs. by eapply accepts_ok; [apply waiting_ttl|done|].
Qed.

(** The store after a step of this program on top of what others did. *)
Lemma then_ok s s0 s1 : store_ok s -> others env s s0 ->
  (store_ok s0 -> store_ok s1 /\ evolves s0 s1) -> store_ok s1 /\ evolves s s1.
Proof using EnvironmentLaws0.
  intros Hs Ho H1. destruct (others_ok env _ _ Ho Hs) as [Hs0 He0]. destruct (H1 Hs0) as [? ?].
  split; [done|by eapply evolves_trans].
Qed.

(** Whatever a submission ends in, the database it leaves is sound. *)
Lemma submit_sound ctx cmd w s : cx_insideUnitOfWork ctx = false -> sound env w s ->
  exists s', sound env (submit env retry waiting ctx cmd w).2 s' /\ evolves s s'.
Proof using Hfit EnvironmentLaws0.
  intros Hin Hw. pose proof (submit_submitted ctx cmd w s Hin Hw) as H.
  destruct (submit env retry waiting ctx cmd w) as [[res|e] w'], Hw as [_ Hs]; cbn.
  - destruct H as (s0 & s1 & Ho & Ha & Hi).
    destruct (then_ok s s0 s1 Hs Ho (accepted_parsed _ _ _ _ _ Ha)) as [? ?]. by exists s1.
  - destruct H as [(s1 & s2 & Ho & Ho2 & Hi & _)|(res & s0 & s1 & Ho & Ha & Hi & _)].
    + destruct (then_ok s s1 s2 Hs Ho (others_ok env _ _ Ho2)) as [? ?]. by exists s2.
    + destruct (then_ok s s0 s1 Hs Ho (accepted_parsed _ _ _ _ _ Ha)) as [? ?]. by exists s1.
Qed.

(** A known operation stays known, and answers its own command. *)
Lemma known_answers i p ctx cmd s s1 t :
  caller ctx ScopeSubmit = Ok i -> Submit_parse cmd = Ok p -> mayActAs i (ps_providerID p) = Ok () ->
  store_ok s -> others env s s1 -> known_operation s p t ->
  exists t1, known_operation s1 p t1 /\ t_payloadHash t1 = t_payloadHash t /\
    t_idempotencyKey t1 = t_idempotencyKey t /\ t_id t1 = t_id t /\
    (Tx_IsTerminal t = true -> t1 = t) /\ store_ok s1 /\
    (forall e, reported ctx cmd s1 e -> exists e0, Submit_replay t1 p = Err e0 /\
       (e = e0 \/ (e = Wrapped (SentinelError ErrConflict) /\ As_constraint e0 <> None))) /\
    (forall W res s2, accepts W ctx cmd s1 res s2 -> Submit_replay t1 p = Ok res /\ s2 = s1).
Proof using EnvironmentLaws0.
  intros Hcal Hp Hmay Hs Ho Hk. destruct (others_ok env _ _ Ho Hs) as [Hs1 He1].
  destruct (known_evolves _ _ _ _ Hs Hs1 He1 Hk) as (t1 & Hk1 & Hh & Hi & _ & _ & Hid & Hterm).
  assert (Hpr : id_ok (ps_providerID p)) by by eapply Submit_parse_ok.
  exists t1. split_and!; try done.
  - assert (Hex : forall e, execute_error ctx cmd s1 e -> Submit_replay t1 p = Err e).
    { intros e He. destruct He as [He|i' ? He|i' p' ? Hp' He|i' p' t' ? Hp' _ Hk' He|i' p' ? Hp' _ Hno _];
        try congruence.
      - assert (p' = p) as -> by congruence. rewrite (known_unique s1 p t1 t' Hs1 Hpr Hk1 Hk'). done.
      - assert (p' = p) as -> by congruence. by destruct (Hno t1). }
    intros e [He%Hex|(-> & e0 & He%Hex & _ & Hc)]; [eauto|]. exists e0. split; [done|right].
    split; [done|]. by rewrite Hc.
  - intros W res s2 (i' & p' & _ & Hp' & _ & Hout). assert (p' = p) as -> by congruence.
    destruct Hout as [(t' & Hk' & Hr & ->)|(tid & at_ & wal & t0 & t' & omv & Hap)].
    + by rewrite (known_unique s1 p t1 t' Hs1 Hpr Hk1 Hk').
    + by destruct (ap_unknown _ _ _ _ _ _ _ _ _ _ _ Hap t1).
Qed.

(** A fresh answer, taken apart. *)
Lemma fresh_answer ctx cmd w s p res w' :
  cx_insideUnitOfWork ctx = false -> sound env w s -> Submit_parse cmd = Ok p ->
  submit env retry waiting ctx cmd w = (Ok res, w') -> sr_Replay res = false ->
  exists s0 s1 tid at_ wal t0 t omv, others env s s0 /\ store_ok s0 /\
    represents env (wo_db w') s1 /\ parsed_ok p /\
    applies (ReferencePolicy_normalised waiting) s0 p res s1 tid at_ wal t0 t omv.
Proof using Hfit EnvironmentLaws0.
  intros Hin Hw Hp Hsub Hfresh. pose proof (submit_submitted ctx cmd w s Hin Hw) as H.
  rewrite Hsub in H. destruct H as (s0 & s1 & Ho & (i & p' & _ & Hp' & _ & Hout) & Hi).
  assert (p' = p) as -> by congruence. destruct (others_ok env _ _ Ho (proj2 Hw)) as [Hs0 _].
  destruct Hout as [(t & _ & Hr & _)|(tid & at_ & wal & t0 & t & omv & Hap)].
  - unfold Submit_replay in Hr. case_bool_decide; [|done]. cbn in Hr. case_bool_decide; [|done].
    injection Hr as <-. done.
  - exists s0, s1, tid, at_, wal, t0, t, omv. split_and!; try done. by eapply Submit_parse_ok.
Qed.

(** Submitting a list of commands, one after the other. *)
Fixpoint submit_all (cmds : list (Context * SubmitCommand)) (w : World) : World :=
  match cmds with
  | [] => w
  | (ctx, cmd) :: cmds => submit_all cmds (submit env retry waiting ctx cmd w).2
  end.
End system.

(** * Properties of the wired program *)

Section properties.
Context (env : Environment) `{!EnvironmentLaws env} (retry : RetryPolicy) (waiting : ReferencePolicy).

(** Whatever commands any callers submit, in whatever order, and however
    the environment fails or others env, the books are kept: every balance is
    the sum of its wallet's entries and not negative, every processed
    operation has exactly one entry with its amount, no provider's name or key
    is used twice, nothing is reversed twice, entries are never removed and
    finished operations never change. *)
Theorem submissions_keep_the_books cmds w s :
  durations_fit waiting -> Forall (fun cc => cx_insideUnitOfWork cc.1 = false) cmds -> sound env w s ->
  exists s', represents env (wo_db (submit_all env retry waiting cmds w)) s' /\ books s' /\ evolves s s'.
Proof.
  intros Hfit Hin. revert w s. induction Hin as [|[ctx cmd] cmds Hc _ IH]; intros w s Hw.
  - exists s. split_and!; [apply Hw|apply store_ok_books, Hw|apply evolves_refl].
  - destruct (submit_sound env retry waiting Hfit ctx cmd w s Hc Hw) as (s1 & Hw1 & He1).
    destruct (IH _ _ Hw1) as (s2 & Hr2 & Hb2 & He2).
    exists s2. split_and!; [done|done|by eapply evolves_trans].
Qed.

(** C2: a submission is atomic: an answer means that its effect took place
    exactly once, on the store as it was at that moment, or that it had taken
    place before; an error means that it did not take place, unless it reports a failure
    of the infrastructure, in which case the effect may have been committed
    once without the reply arriving. *)
Theorem submission_is_atomic ctx cmd w s :
  durations_fit waiting -> cx_insideUnitOfWork ctx = false -> sound env w s ->
  let '(r, w') := submit env retry waiting ctx cmd w in
  let W := ReferencePolicy_normalised waiting in
  match r with
  | Ok res => exists s0 s1, others env s s0 /\ accepts W ctx cmd s0 res s1 /\ represents env (wo_db w') s1
  | Err e =>
    (exists s1 s2, others env s s1 /\ others env s1 s2 /\ represents env (wo_db w') s2 /\
       (reported ctx cmd s1 e \/ infra env e)) \/
    (exists res s0 s1, others env s s0 /\ accepts W ctx cmd s0 res s1 /\
       represents env (wo_db w') s1 /\ infra env e)
  end.
Proof. intros Hfit Hin Hw. exact (submit_submitted env retry waiting Hfit ctx cmd w s Hin Hw). Qed.

(** What a second answer is. *)
Lemma resubmission_ends ctx cmd w s res1 w1 :
  durations_fit waiting -> cx_insideUnitOfWork ctx = false -> sound env w s ->
  submit env retry waiting ctx cmd w = (Ok res1, w1) ->
  let '(r2, w2) := submit env retry waiting ctx cmd w1 in
  (exists s1 s2, represents env (wo_db w1) s1 /\ others env s1 s2 /\ represents env (wo_db w2) s2) /\
  match r2 with
  | Ok res2 => sr_Replay res2 = true /\
      t_id (sr_Transaction res2) = t_id (sr_Transaction res1) /\
      (Tx_IsTerminal (sr_Transaction res1) = true ->
         t_status (sr_Transaction res2) = t_status (sr_Transaction res1))
  | Err e => infra env e
  end.
Proof.
  intros Hfit Hin Hw Hsub. pose proof (submit_submitted env retry waiting Hfit ctx cmd w s Hin Hw) as H1.
  rewrite Hsub in H1. destruct H1 as (s0 & s1 & Ho & Ha & Hi1). destruct Hw as [Hr Hs].
  destruct (others_ok env _ _ Ho Hs) as [Hs0 _]. destruct (accepted_parsed env waiting Hfit _ _ _ _ _ Ha Hs0) as [Hs1 _].
  destruct Ha as (i & p & Hcal & Hp & Hmay & Hout). pose proof (Submit_parse_ok _ _ Hp) as Hpok.
  destruct (accepted_known _ _ _ _ _ Hs0 Hpok (waiting_ttl waiting Hfit) Hout) as (t & Hk & Hh & Hkey & Hid & Hst).
  pose proof (submit_submitted env retry waiting Hfit ctx cmd w1 s1 Hin (conj Hi1 Hs1)) as H2.
  assert (Hok : forall s2, others env s1 s2 -> exists t1, t_id t1 = t_id t /\
    (Tx_IsTerminal t = true -> t1 = t) /\ Submit_replay t1 p = Ok (mkSubmitResult t1 (t_balanceAfter t1) true) /\
    (forall e, ~ reported ctx cmd s2 e) /\
    (forall W res s3, accepts W ctx cmd s2 res s3 -> Submit_replay t1 p = Ok res /\ s3 = s2)).
  { intros s2 Ho2. destruct (known_answers env i p ctx cmd s1 s2 t Hcal Hp Hmay Hs1 Ho2 Hk) as
      (t1 & _ & Hh1 & Hk1 & Hid1 & Hterm & _ & Herr & Hacc).
    assert (Hr1 : Submit_replay t1 p = Ok (mkSubmitResult t1 (t_balanceAfter t1) true)).
    { unfold Submit_replay. by rewrite !bool_decide_eq_true_2 by congruence. }
    exists t1. split_and!; try done. intros e (e0 & He0 & _)%Herr. congruence. }
  destruct (submit env retry waiting ctx cmd w1) as [[res2|e] w2].
  - destruct H2 as (s2 & s3 & Ho2 & Ha2 & Hi2). destruct (Hok s2 Ho2) as (t1 & Hid1 & Hterm & Hr1 & _ & Hacc).
    destruct (Hacc _ _ _ Ha2) as [Hr2 ->]. split; [by exists s1, s2|].
    rewrite Hr1 in Hr2. injection Hr2 as <-. cbn. split_and!; [done|congruence|].
    intros Ht. rewrite <- Hst. f_equal. apply Hterm. unfold Tx_IsTerminal in *. by rewrite Hst.
  - destruct H2 as [(s2 & s3 & Ho2 & Ho3 & Hi2 & He)|(res & s2 & s3 & Ho2 & Ha2 & Hi2 & He)].
    + split; [exists s1, s3; split_and!; [done|exact (others_trans env _ _ _ Ho2 Ho3)|done]|].
      destruct (Hok s2 Ho2) as (t1 & _ & _ & _ & Hno & _). destruct He as [He|He]; [by destruct (Hno e)|done].
    + destruct (Hok s2 Ho2) as (t1 & _ & _ & _ & _ & Hacc). destruct (Hacc _ _ _ Ha2) as [_ E].
      rewrite E in Hi2. split; [by exists s1, s2|done].
Qed.

(** C3: resubmitting an accepted command never applies it again: the answer is
    a replay of the same operation, with its status when that was final, and
    no balance, entry or operation changes on its account; the only errors
    left are those of the infrastructure. *)
Theorem resubmission_replays ctx cmd w s res1 w1 :
  durations_fit waiting -> cx_insideUnitOfWork ctx = false -> sound env w s ->
  submit env retry waiting ctx cmd w = (Ok res1, w1) ->
  let '(r2, w2) := submit env retry waiting ctx cmd w1 in
  (exists s1 s2, represents env (wo_db w1) s1 /\ others env s1 s2 /\ represents env (wo_db w2) s2) /\
  match r2 with
  | Ok res2 => sr_Replay res2 = true /\
      t_id (sr_Transaction res2) = t_id (sr_Transaction res1) /\
      (Tx_IsTerminal (sr_Transaction res1) = true ->
         t_status (sr_Transaction res2) = t_status (sr_Transaction res1))
  | Err e => infra env e
  end.
Proof. exact (resubmission_ends ctx cmd w s res1 w1). Qed.


(** C5: a BET is decided by the balance of its wallet at the moment it is
    applied: in another currency, or above the balance, it is recorded as
    rejected and nothing moves; otherwise it is processed and exactly its
    amount is debited by one entry. *)
Theorem bet_is_decided_by_the_balance ctx cmd w s p res w' :
  durations_fit waiting -> cx_insideUnitOfWork ctx = false -> sound env w s ->
  Submit_parse cmd = Ok p -> ps_kind p = KindBet ->
  submit env retry waiting ctx cmd w = (Ok res, w') -> sr_Replay res = false ->
  exists s0 s1 wal, others env s s0 /\ represents env (wo_db w') s1 /\
    s_wallets s0 !! id_value (ps_walletID p) = Some wal /\
    let t := sr_Transaction res in
    if decide (currency (ps_money p) <> w_currency wal)
    then t_status t = StatusRejected /\ t_failureCode t = CodeCurrencyMismatch /\ unmoved s0 s1
    else if decide (minor (w_balance wal) < minor (ps_money p))
    then t_status t = StatusRejected /\ t_failureCode t = CodeInsufficientFunds /\ unmoved s0 s1
    else t_status t = StatusProcessed /\ t_money t = ps_money p /\ moved s0 wal t Debit s1.
Proof.
  intros Hfit Hin Hw Hp Hk Hsub Hfresh.
  destruct (fresh_answer env retry waiting Hfit _ _ _ _ _ _ _ Hin Hw Hp Hsub Hfresh) as
    (s0 & s1 & tid & at_ & wal & t0 & t & omv & Ho & Hs0 & Hr1 & Hpok & Hap).
  exists s0, s1, wal. split_and!; [done|done|apply Hap|]. pose proof (waiting_ttl waiting Hfit) as Httl.
  destruct (applies_facts _ _ _ _ _ _ _ _ _ _ _ Hs0 Hpok Httl Hap) as
    (Hf & Hwal & _ & _ & _ & _ & _ & _ & _ & Hkd & Hmy & _).
  destruct (fresh_effect _ _ _ _ _ _ _ _ _ _ _ Hs0 Hpok Httl Hap) as (-> & _ & _ & _ & Heff).
  destruct (NewExternalTransaction_storable _ _ _ _ Hpok (ap_id _ _ _ _ _ _ _ _ _ _ _ Hap)
    (ap_clock _ _ _ _ _ _ _ _ _ _ _ Hap) (ap_new _ _ _ _ _ _ _ _ _ _ _ Hap)) as [Ht0 _].
  destruct (same_request_frame _ _ (sf_request _ _ _ _ _ Hf)) as (_ & Hk0 & _ & _ & _ & Hm0 & _).
  assert (Hkt0 : t_kind t0 = KindBet) by congruence.
  pose proof (bet_decided _ s0 wal t0 at_ t omv Hs0 Hwal Ht0 (sf_storable _ _ _ _ _ Hf)
    (ap_clock _ _ _ _ _ _ _ _ _ _ _ Hap) Hkt0 (ap_settles _ _ _ _ _ _ _ _ _ _ _ Hap)) as Hdec.
  rewrite <- Hm0, Hmy in Hdec. cbn zeta.
  destruct (decide (currency (ps_money p) <> w_currency wal)).
  { destruct Hdec as [Hst Hc]. by rewrite decide_False in Heff by (rewrite Hst; intros [? _]; done). }
  destruct (decide (minor (w_balance wal) < minor (ps_money p))).
  { destruct Hdec as [Hst Hc]. by rewrite decide_False in Heff by (rewrite Hst; intros [? _]; done). }
  destruct Hdec as [Hst _].
  rewrite decide_True in Heff by (split; [done|by rewrite Hk0, Hkt0]).
  destruct Heff as (d & _ & Has & Hmv). split_and!; [done|done|].
  unfold moved_as in Has. rewrite Hk0, Hkt0 in Has. cbn in Has. by injection Has as <-.
Qed.

(** C6: a processed reversal appends the exact opposite of the entry of the
    operation it names, which is a processed operation of the same provider,
    wallet, player, round and money that had not been reversed before; a
    reversal that is parked or rejected moves nothing, and it is parked only
    while its reference is missing or unfinished. *)
Theorem reversal_undoes_its_reference ctx cmd w s p res w' :
  durations_fit waiting -> cx_insideUnitOfWork ctx = false -> sound env w s ->
  Submit_parse cmd = Ok p -> Kind_IsReversal (ps_kind p) = true ->
  submit env retry waiting ctx cmd w = (Ok res, w') -> sr_Replay res = false ->
  exists s0 s1 wal, others env s s0 /\ represents env (wo_db w') s1 /\
    s_wallets s0 !! id_value (ps_walletID p) = Some wal /\
    let t := sr_Transaction res in
    (t_status t = StatusProcessed /\ exists r d q e, reversible s0 t r d /\
       t_resolvedReferenceID t = t_id r /\ moved s0 wal t d s1 /\
       (q, e) ∈ s_ledger s0 /\ le_transactionID e = t_id r /\ le_walletID e = w_id wal /\
       le_amount e = t_money t /\ forall v, signed (le_direction e) v + signed d v = 0) \/
    (t_status t = StatusPendingReference /\ decides s0 t waitResolution /\ unmoved s0 s1) \/
    (t_status t = StatusRejected /\ unmoved s0 s1).
Proof.
  intros Hfit Hin Hw Hp Hk Hsub Hfresh.
  destruct (fresh_answer env retry waiting Hfit _ _ _ _ _ _ _ Hin Hw Hp Hsub Hfresh) as
    (s0 & s1 & tid & at_ & wal & t0 & t & omv & Ho & Hs0 & Hr1 & Hpok & Hap).
  exists s0, s1, wal. split_and!; [done|done|apply Hap|]. pose proof (waiting_ttl waiting Hfit) as Httl.
  destruct (applies_facts _ _ _ _ _ _ _ _ _ _ _ Hs0 Hpok Httl Hap) as
    (Hf & Hwal & Htw & _ & _ & _ & _ & _ & _ & Hkd & _).
  destruct (fresh_effect _ _ _ _ _ _ _ _ _ _ _ Hs0 Hpok Httl Hap) as (-> & _ & _ & _ & Heff).
  pose proof (sf_request _ _ _ _ _ Hf) as Hreq.
  destruct (same_request_frame _ _ Hreq) as (_ & Hk0 & _).
  assert (Hkt0 : Kind_IsReversal (t_kind t0) = true) by congruence.
  assert (Hsame : forall d, decides s0 t0 d -> decides s0 t d).
  { destruct Hreq as (? & ? & ? & ? & ? & ? & ? & ? & ->). done. }
  assert (Hrvsame : forall r d, reversible s0 t0 r d -> reversible s0 t r d).
  { destruct Hreq as (? & ? & ? & ? & ? & ? & ? & ? & ->). intros r d []. by constructor. }
  cbn zeta. destruct (reversal_settled _ _ _ _ _ _ _ Hs0 Hkt0 (ap_settles _ _ _ _ _ _ _ _ _ _ _ Hap)) as
    [[Hst Hdec]|[[Hst _]|(Hst & r & d & Hrv & Hres)]].
  - right; left. rewrite decide_False in Heff by (rewrite Hst; intros [? _]; done). auto.
  - right; right. by rewrite decide_False in Heff by (rewrite Hst; intros [? _]; done).
  - left. split; [done|]. apply Hrvsame in Hrv.
    rewrite decide_True in Heff by (split; [done|by rewrite Hkd; apply Kind_reversal_moves]).
    destruct Heff as (d' & _ & Has & Hmv). unfold moved_as in Has. rewrite Hkd, Hk in Has.
    destruct Has as (r' & Hr' & Hd'). rewrite Hres in Hr'.
    rewrite (proj1 (rv_found _ _ _ _ Hrv)) in Hr'. injection Hr' as <-.
    assert (d' = d) as -> by (pose proof (rv_direction _ _ _ _ Hrv); congruence).
    assert (Hlook : s_txs s0 !! id_value (t_resolvedReferenceID t) = Some r) by (rewrite Hres; apply Hrv).
    destruct (reversal_opposite s0 t r d Hs0 Hlook (rv_processed _ _ _ _ Hrv) (rv_can _ _ _ _ Hrv) Hd')
      as (q & e & Hin' & Het & Hew & Hea & Hsum).
    destruct (rv_same _ _ _ _ Hrv) as (_ & Hrw & _ & Hrm).
    exists r, d, q, e. split_and!; try done; congruence.
Qed.

(** C7: a provider cannot act for another: a command that names a different
    provider is refused as forbidden, and nothing happens. *)
Theorem providers_are_isolated ctx cmd w s i p :
  durations_fit waiting -> cx_insideUnitOfWork ctx = false -> sound env w s ->
  cx_identity ctx = Some i -> Submit_parse cmd = Ok p -> i_providerID i <> ps_providerID p ->
  let '(r, w') := submit env retry waiting ctx cmd w in
  exists s' e, r = Err e /\ others env s s' /\ represents env (wo_db w') s' /\
    (is_sentinel e ErrForbidden = true \/ infra env e).
Proof.
  intros Hfit Hin Hw Hi Hp Hne. pose proof (submit_submitted env retry waiting Hfit ctx cmd w s Hin Hw) as H.
  assert (Hmay : mayActAs i (ps_providerID p) <> Ok ()) by (intros [_ E]%mayActAs_Ok; done).
  assert (Hcal : forall j, caller ctx ScopeSubmit = Ok j -> j = i).
  { intros j [E _]%caller_Ok. congruence. }
  assert (Hno : forall W s1 res s2, ~ accepts W ctx cmd s1 res s2).
  { intros W s1 res s2 (j & p' & Hj%Hcal & Hp' & Hm & _). subst j.
    assert (p' = p) as -> by congruence. done. }
  assert (Hex : forall s1 e, execute_error ctx cmd s1 e -> is_sentinel e ErrForbidden = true).
  { intros s1 e He. destruct He as [He|j _ He|j p' Hj He Hm|j p' t Hj He Hm _ _|j p' Hj He Hm _ _].
    - unfold caller, authorise in He. rewrite Hi in He.
      destruct (negb _); [by injection He as <-|done].
    - congruence.
    - by apply mayActAs_Err in Hm as [_ ?].
    - apply Hcal in Hj. subst j. assert (p' = p) as -> by congruence. done.
    - apply Hcal in Hj. subst j. assert (p' = p) as -> by congruence. done. }
  destruct (submit env retry waiting ctx cmd w) as [[res|e] w'].
  - destruct H as (s0 & s1 & _ & Ha & _). by destruct (Hno _ _ _ _ Ha).
  - destruct H as [(s1 & s2 & Ho & Ho2 & Hidle & He)|(res & s0 & s1 & _ & Ha & _)];
      [|by destruct (Hno _ _ _ _ Ha)].
    exists s2, e. split_and!; [done|exact (others_trans env _ _ _ Ho Ho2)|done|].
    destruct He as [[He|(_ & e0 & He%Hex & Hc & _)]|He]; [left; by eapply Hex|exfalso|by right].
    by pose proof (is_sentinel_unique _ _ _ He Hc).
Qed.
End properties.

(** ** The properties at work *)

Lemma default_fits : durations_fit DefaultReferencePolicy.
Proof. by split. Qed.

Lemma sound0 commits `{!EnvironmentLaws (environment commits)} :
  sound (environment commits) (world0 (environment commits)) store0.
Proof. split; [by apply represents_world0|by apply store0_ok]. Qed.

Definition win : SubmitCommand := operation "WIN" "x1" "k1" "100.00" "".
Definition bet : SubmitCommand := operation "BET" "x2" "k2" "30.00" "".
Definition rollback_win : SubmitCommand := operation "ROLLBACK" "x3" "k3" "100.00" "x1".

#[local] Notation run env := (submit env DefaultRetryPolicy DefaultReferencePolicy acme).

Definition after_win : World := (run quiet win (world0 quiet)).2.

(** Evaluation of a fresh answer with a status, and of a parsed command. *)
Definition answers (x : result SubmitResult * World) (status : Status) : bool :=
  match x.1 with
  | Ok res => negb (sr_Replay res) && String.eqb (t_status (sr_Transaction res)) status
  | Err _ => false
  end.

Lemma answers_Ok x status : answers x status = true ->
  exists res w', x = (Ok res, w') /\ sr_Replay res = false /\ t_status (sr_Transaction res) = status.
Proof.
  destruct x as [[res|e] w']; [|done]. unfold answers; cbn. intros H.
  apply andb_true_iff in H as [H1%negb_true_iff H2%String.eqb_eq]. by exists res, w'.
Qed.

Lemma parses_Ok cmd (P : parsedSubmit -> bool) :
  match Submit_parse cmd with Ok p => P p | Err _ => false end = true ->
  exists p, Submit_parse cmd = Ok p /\ P p = true.
Proof. destruct (Submit_parse cmd) as [p|]; [by exists p|done]. Qed.

Lemma after_win_sound : exists s, sound quiet after_win s.
Proof.
  destruct (submit_sound quiet DefaultRetryPolicy DefaultReferencePolicy default_fits acme win
    (world0 quiet) store0 eq_refl (sound0 (fun _ => Committed))) as (s & Hs & _). by exists s.
Qed.

Lemma submissions_keep_the_books_witness :
  exists s', represents quiet
    (wo_db (submit_all quiet DefaultRetryPolicy DefaultReferencePolicy
       [(acme, win); (acme, bet); (acme, win)] (world0 quiet))) s' /\ books s' /\ evolves store0 s'.
Proof.
  apply (submissions_keep_the_books quiet DefaultRetryPolicy DefaultReferencePolicy).
  - apply default_fits.
  - repeat constructor.
  - apply (sound0 (fun _ => Committed)).
Defined.

Section lost_reply.
#[local] Existing Instance forgetful_laws.

(** The reply to the commit is lost: an error, and a credited wallet. *)
Lemma submission_is_atomic_witness :
cw_balance_minor <$> db_wallets (wo_db (run forgetful win (world0 forgetful)).2) !! "w1" = Some 10000 /\
exists e w', run forgetful win (world0 forgetful) = (Err e, w') /\
  ((exists s1 s2, others forgetful store0 s1 /\ others forgetful s1 s2 /\ represents forgetful (wo_db w') s2 /\
       (reported acme win s1 e \/ infra forgetful e)) \/
   (exists res s0 s1, others forgetful store0 s0 /\
      accepts (ReferencePolicy_normalised DefaultReferencePolicy) acme win s0 res s1 /\
      represents forgetful (wo_db w') s1 /\ infra forgetful e)).
Proof.
split; [vm_compute; reflexivity|].
pose proof (submission_is_atomic forgetful DefaultRetryPolicy DefaultReferencePolicy acme win
  (world0 forgetful) store0 default_fits eq_refl
  (sound0 (fun _ => CommitReplyLost "connection reset"))) as H.
assert (Herr : is_Ok (run forgetful win (world0 forgetful)).1 = false) by (vm_compute; reflexivity).
destruct (submit _ _ _ _ _ _) as [[res|e] w']; [discriminate Herr|].
exists e, w'. split; [reflexivity|exact H].
Defined.
End lost_reply.

Lemma resubmission_replays_witness : exists res1 w1,
  run quiet win (world0 quiet) = (Ok res1, w1) /\
  let '(r2, w2) := run quiet win w1 in
  (exists s1 s2, represents quiet (wo_db w1) s1 /\ others quiet s1 s2 /\ represents quiet (wo_db w2) s2) /\
  match r2 with
  | Ok res2 => sr_Replay res2 = true /\
      t_id (sr_Transaction res2) = t_id (sr_Transaction res1) /\
      (Tx_IsTerminal (sr_Transaction res1) = true ->
         t_status (sr_Transaction res2) = t_status (sr_Transaction res1))
  | Err e => infra quiet e
  end.
Proof.
  destruct (answers_Ok (run quiet win (world0 quiet)) StatusProcessed) as (res1 & w1 & E & _);
    [vm_compute; reflexivity|]. exists res1, w1. split; [exact E|].
  pose proof (resubmission_replays quiet DefaultRetryPolicy DefaultReferencePolicy acme win (world0 quiet)
    store0 res1 w1 default_fits eq_refl (sound0 (fun _ => Committed)) E) as Hx.
  revert Hx. generalize (run quiet win w1). intros [r2 w2] Hx. exact Hx.
Defined.



Lemma bet_is_decided_by_the_balance_witness : exists s p res w',
  sound quiet after_win s /\ run quiet bet after_win = (Ok res, w') /\
  exists s0 s1 wal, others quiet s s0 /\ represents quiet (wo_db w') s1 /\
    s_wallets s0 !! id_value (ps_walletID p) = Some wal /\
    let t := sr_Transaction res in
    if decide (currency (ps_money p) <> w_currency wal)
    then t_status t = StatusRejected /\ t_failureCode t = CodeCurrencyMismatch /\ unmoved s0 s1
    else if decide (minor (w_balance wal) < minor (ps_money p))
    then t_status t = StatusRejected /\ t_failureCode t = CodeInsufficientFunds /\ unmoved s0 s1
    else t_status t = StatusProcessed /\ t_money t = ps_money p /\ moved s0 wal t Debit s1.
Proof.
  destruct after_win_sound as [s Hs].
  destruct (parses_Ok bet (fun p => String.eqb (ps_kind p) KindBet)) as (p & Hp & Hk); [vm_compute; reflexivity|].
  destruct (answers_Ok (run quiet bet after_win) StatusProcessed) as (res & w' & E & Hf & _); [vm_compute; reflexivity|].
  exists s, p, res, w'. split; [exact Hs|]. split; [exact E|].
  apply String.eqb_eq in Hk.
  exact (bet_is_decided_by_the_balance quiet DefaultRetryPolicy DefaultReferencePolicy acme bet after_win s p
    res w' default_fits eq_refl Hs Hp Hk E Hf).
Defined.

Lemma reversal_undoes_its_reference_witness : exists s p res w',
  sound quiet after_win s /\ run quiet rollback_win after_win = (Ok res, w') /\
  t_status (sr_Transaction res) = StatusProcessed /\
  exists s0 s1 wal, others quiet s s0 /\ represents quiet (wo_db w') s1 /\
    s_wallets s0 !! id_value (ps_walletID p) = Some wal /\
    let t := sr_Transaction res in
    (t_status t = StatusProcessed /\ exists r d q e, reversible s0 t r d /\
       t_resolvedReferenceID t = t_id r /\ moved s0 wal t d s1 /\
       (q, e) ∈ s_ledger s0 /\ le_transactionID e = t_id r /\ le_walletID e = w_id wal /\
       le_amount e = t_money t /\ forall v, signed (le_direction e) v + signed d v = 0) \/
    (t_status t = StatusPendingReference /\ decides s0 t waitResolution /\ unmoved s0 s1) \/
    (t_status t = StatusRejected /\ unmoved s0 s1).
Proof.
  destruct after_win_sound as [s Hs].
  destruct (parses_Ok rollback_win (fun p => Kind_IsReversal (ps_kind p))) as (p & Hp & Hk); [vm_compute; reflexivity|].
  destruct (answers_Ok (run quiet rollback_win after_win) StatusProcessed) as (res & w' & E & Hf & Hst);
    [vm_compute; reflexivity|].
  exists s, p, res, w'. split; [exact Hs|]. split; [exact E|]. split; [exact Hst|].
  exact (reversal_undoes_its_reference quiet DefaultRetryPolicy DefaultReferencePolicy acme rollback_win
    after_win s p res w' default_fits eq_refl Hs Hp Hk E Hf).
Defined.

Definition rival : Identity := mkIdentity "rival-service" (mkId "rival") [ScopeSubmit].

Lemma providers_are_isolated_witness :
  let '(r, w') := submit quiet DefaultRetryPolicy DefaultReferencePolicy (WithIdentity acme rival) win (world0 quiet) in
  exists s' e, r = Err e /\ others quiet store0 s' /\ represents quiet (wo_db w') s' /\
    (is_sentinel e ErrForbidden = true \/ infra quiet e).
Proof.
  destruct (parses_Ok win (fun p => negb (bool_decide (i_providerID rival = ps_providerID p))))
    as (p & Hp & Hne); [vm_compute; reflexivity|].
  apply negb_true_iff, bool_decide_eq_false in Hne.
  pose proof (providers_are_isolated quiet DefaultRetryPolicy DefaultReferencePolicy (WithIdentity acme rival) win
    (world0 quiet) store0 rival p default_fits eq_refl (sound0 (fun _ => Committed)) eq_refl Hp Hne) as Hx.
  revert Hx. generalize (submit quiet DefaultRetryPolicy DefaultReferencePolicy (WithIdentity acme rival) win (world0 quiet)).
  intros [r w'] Hx. exact Hx.
Defined.
