(* ===== verification/Adapter.v ===== *)
(** * Adapter: what the PostgreSQL adapter guarantees

    Properties of [internal/adapter/postgres] on its own, whatever callback or
    object it is handed: rows read back as what was written, the schema
    refuses exactly the conflicting operations, and the retry loop follows its
    policy. *)

From S2P Require Import Prelude Errors GoTime Money Identifier Ledger Wallet Transaction Event.
From S2P Require Import Idempotency Identity Ports Store StoreInv Policy Submit Storable Schema Postgres Rows.
From S2P Require Import PostgresLaws PostgresWrites UowLaws Quiet.

#[local] Open Scope string_scope.
#[local] Open Scope list_scope.
#[local] Open Scope Z_scope.

(** ** The retry loop without fuel

    The loop of [unitOfWork.Do] as a big-step relation: attempt [n] is followed
    by another one exactly when it failed transiently, the policy allows
    another one and the caller is still there. *)
Section loop.
Context (env : Environment) {C : Type} (policy : RetryPolicy) (ctx : Context)
  (fn : Context -> Repositories World -> Callback World C).

Inductive Do_runs : Z -> C -> World -> list (result unit) -> result unit * C * World -> Prop :=
| runs_applied n c w c' w' :
  attempt env ctx fn c w = (Ok (), c', w') -> Do_runs n c w [Ok ()] (Ok (), c', w')
| runs_refused n c w e c' w' :
  attempt env ctx fn c w = (Err e, c', w') -> transient e = false \/ rt_MaxAttempts policy <= n ->
  Do_runs n c w [Err e] (Err e, c', w')
| runs_cancelled n c w e c' w' d w2 :
  attempt env ctx fn c w = (Err e, c', w') -> transient e = true -> n < rt_MaxAttempts policy ->
  backoff env policy n w' = ((d, true), w2) ->
  Do_runs n c w [Err e] (Err e, c', w2)
| runs_again n c w e c' w' d w2 rs out :
  attempt env ctx fn c w = (Err e, c', w') -> transient e = true -> n < rt_MaxAttempts policy ->
  backoff env policy n w' = ((d, false), w2) ->
  Do_runs (n + 1) c' w2 rs out ->
  Do_runs n c w (Err e :: rs) out.

Lemma attempts_run more n c w : rt_MaxAttempts policy - n <= Z.of_nat more ->
  exists rs, Do_runs n c w rs (attempts env policy more n ctx fn c w).
Proof.
  revert n c w. induction more as [|more IH]; intros n c w Hm; cbn [attempts];
    destruct (attempt env ctx fn c w) as [[[[]|e] c'] w'] eqn:E; try (by eexists; apply runs_applied).
  - rewrite (proj2 (Z.leb_le _ n)), orb_true_r by lia. eexists. apply runs_refused; [done|right; lia].
  - destruct (transient e) eqn:Ht; cbn [negb orb];
      [|by eexists; apply runs_refused; [done|by left]].
    destruct (Z.leb_spec (rt_MaxAttempts policy) n);
      [by eexists; apply runs_refused; [done|by right]|].
    destruct (backoff env policy n w') as [[d []] w2] eqn:Eb.
    + eexists. by eapply runs_cancelled.
    + destruct (IH (n + 1) c' w2) as [rs Hrs]; [lia|]. eexists. by eapply runs_again.
Qed.

(** A run attempts at least once and no oftener than allowed, every attempt
    but the last failed transiently, and the last one is the answer. *)
Lemma runs_bounded n c w rs out : Do_runs n c w rs out -> 1 <= rt_MaxAttempts policy ->
  exists failed, rs = failed ++ [out.1.1] /\
    Forall (fun r => exists e, r = Err e /\ transient e = true) failed /\
    Z.of_nat (length failed) <= Z.max 0 (rt_MaxAttempts policy - n).
Proof.
  induction 1 as [| | |n c w e c' w' d w2 rs out Ha Ht Hn _ _ IH]; intros Hmax;
    try (exists []; cbn; split_and!; [done|constructor|lia]).
  destruct (IH Hmax) as (failed & -> & Hall & Hlen). exists (Err e :: failed).
  split_and!; [done|by constructor; [exists e|]|cbn; lia].
Qed.
End loop.

Section properties.
Context (env : Environment) `{!EnvironmentLaws env}.

(** C38: a unit of work terminates after at least one and at most
    MaxAttempts attempts: it is a run of the loop without fuel, in which only
    transient failures are followed by another attempt, and the last attempt
    is the answer. *)
Theorem retries_follow_the_policy C retry ctx
    (fn : Context -> Repositories World -> Callback World C) c w :
  cx_insideUnitOfWork ctx = false ->
  let policy := RetryPolicy_normalised retry in
  let out := uow_Do (pg_UnitOfWork env retry) ctx fn c w in
  exists failed,
    Do_runs env policy ctx fn 1 c w (failed ++ [out.1.1]) out /\
    Forall (fun r => exists e, r = Err e /\ transient e = true) failed /\
    1 <= Z.of_nat (length (failed ++ [out.1.1])) <= rt_MaxAttempts policy.
Proof.
  intros Hin policy out.
  assert (Hmax : 1 <= rt_MaxAttempts policy).
  { unfold policy, RetryPolicy_normalised. cbn. case_match; lia. }
  assert (E : out = attempts env policy (Z.to_nat (rt_MaxAttempts policy)) 1 ctx fn c w).
  { unfold out. cbn [pg_UnitOfWork uow_Do]. unfold pg_Do. by rewrite Hin. }
  destruct (attempts_run env policy ctx fn (Z.to_nat (rt_MaxAttempts policy)) 1 c w) as [rs Hrs]; [lia|].
  rewrite <- E in Hrs. destruct (runs_bounded _ _ _ _ _ _ _ _ _ Hrs Hmax) as (failed & -> & Hall & Hlen).
  exists failed. clearbody policy out. rewrite length_app. cbn [length].
  split_and!; [done|done|lia|lia].
Qed.

(** C40: an operation that was written reads back as itself, to the
    microsecond, its row satisfies every CHECK constraint of its table, and
    writing what was read changes nothing. *)
Theorem operation_row_roundtrip t : tx_storable t ->
  scanTransaction env (tx_row_of env t) = Ok (stored_tx t) /\
  violated (tx_checks (tx_row_of env t)) = None /\
  tx_row_of env (stored_tx t) = tx_row_of env t.
Proof.
  intros Ht. split; [exact (scanTransaction_row env t Ht)|].
  split; [exact (tx_row_checks env t Ht)|exact (tx_row_stored env t Ht)].
Qed.

(** Wallets and ledger entries read back as what was written, to the
    microsecond, and their rows satisfy every CHECK constraint. *)
Theorem money_rows_roundtrip w q e : wallet_storable w -> entry_storable e ->
  (scanWallet env (wallet_row_of env w) = Ok (stored_wallet w) /\
   violated (wallet_checks (wallet_row_of env w)) = None /\
   wallet_row_of env (stored_wallet w) = wallet_row_of env w) /\
  (scanLedgerEntry env (ledger_row_of env q e) = Ok (q, stored_entry e) /\
   violated (ledger_checks (ledger_row_of env q e)) = None /\
   ledger_row_of env q (stored_entry e) = ledger_row_of env q e).
Proof.
  intros Hw He. split_and!; auto using scanWallet_row, wallet_row_checks, wallet_row_stored,
    scanLedgerEntry_row, ledger_row_checks, ledger_row_stored.
Qed.

(** C39: an operation is inserted exactly when no other one has its
    identifier, its provider's name for it or its key, reverses the same
    operation or opens the same wallet, and its wallet and reference exist; a
    refusal names the index that was violated, or a foreign key, and leaves the
    tables as they were. *)
Theorem insert_refuses_exactly_conflicts db s t : represents env db s -> tx_storable t ->
  match put_tx_row env true (tx_row_of env t) db with
  | (inr _, db') =>
    (forall name, ~ tx_conflict s t name) /\ is_Some (s_wallets s !! id_value (t_walletID t)) /\
    represents env db' (put_tx (stored_tx t) s)
  | (inl f, db') => db' = db /\
    ((exists name, translate (Failure f) = NewConflict name /\ tx_conflict s t name) \/
     (is_violation (translate (Failure f)) /\
      (s_wallets s !! id_value (t_walletID t) = None \/
       (t_resolvedReferenceID t <> zeroId /\ s_txs s !! id_value (t_resolvedReferenceID t) = None))))
  end.
Proof.
  intros Hr Ht. pose proof (put_tx_row_spec env true db s t Hr Ht) as H.
  destruct (put_tx_row env true (tx_row_of env t) db) as [[f|[]] db'].
  { destruct H as [-> [(name & -> & [_ Hc])|H]]; (split; [done|]); [left; by exists name|by right]. }
  destruct H as (Hc & Hw & _ & Hr'). split_and!; [|done|done]. intros name. apply Hc. by left.
Qed.
End properties.

(** ** Witnesses *)

(** Every commit of this environment meets a serialization failure. *)
Definition contended : Environment :=
  environment (fun _ => CommitRefused (PgError codeSerializationFailed "" "" "could not serialize access")).

#[local] Instance contended_laws : EnvironmentLaws contended.
Proof. apply environment_laws. intros _ f [= <-]. cbn. set_solver. Qed.

Definition nothing : Context -> Repositories World -> Callback World unit :=
  fun _ _ _ w => (Ok (), (), w).

Lemma retries_follow_the_policy_witness :
  let out := uow_Do (pg_UnitOfWork contended DefaultRetryPolicy) acme nothing () (world0 contended) in
  out.1.1 = Err (SentinelError ErrSerializationFailure) /\
  exists failed,
    Do_runs contended DefaultRetryPolicy acme nothing 1 () (world0 contended) (failed ++ [out.1.1]) out /\
    Forall (fun r => exists e, r = Err e /\ transient e = true) failed /\
    1 <= Z.of_nat (length (failed ++ [out.1.1])) <= 3.
Proof.
  split; [vm_compute; reflexivity|].
  exact (retries_follow_the_policy contended unit DefaultRetryPolicy acme nothing () (world0 contended) eq_refl).
Defined.

(** A BET as it is first written. *)
Definition bet_command : SubmitCommand := operation "BET" "e-1" "k-1" "5.00" "".

Definition at0 : Time := mkTime 63000000000000001500 UTC.

Lemma t1_ok : id_ok (k:=KTransaction) (mkId "t1").
Proof. done. Qed.

Lemma at0_clock : clock_time at0.
Proof. done. Qed.

Lemma bet0 : exists p t, Submit_parse bet_command = Ok p /\
  NewExternalTransaction (external_params p (mkId "t1") at0) = Ok t /\ t_id t = mkId "t1" /\
  t_walletID t = mkId "w1" /\ t_resolvedReferenceID t = zeroId /\ tx_storable t.
Proof.
  assert (Hp : is_Ok (Submit_parse bet_command) = true) by (vm_compute; reflexivity).
  destruct (Submit_parse bet_command) as [p|] eqn:Ep; [|discriminate Hp].
  assert (Ht : is_Ok (p ← Submit_parse bet_command; NewExternalTransaction (external_params p (mkId "t1") at0)) = true)
    by (vm_compute; reflexivity).
  rewrite Ep in Ht. cbn [mbind result_bind] in Ht.
  destruct (NewExternalTransaction (external_params p (mkId "t1") at0)) as [t|] eqn:Et; [|discriminate Ht].
  pose proof (Submit_parse_ok _ _ Ep) as Hpok.
  destruct (NewExternalTransaction_storable p (mkId "t1") at0 t Hpok t1_ok at0_clock Et) as
    (Hs & Hid & _ & _ & _ & Hw & _ & _ & _ & _ & _ & _ & _ & _ & Hres & _).
  assert (Hwp : ps_walletID p = mkId "w1").
  { clear -Ep. revert Ep. vm_compute. intros [= <-]. reflexivity. }
  exists p, t. split; [reflexivity|]. split; [exact Et|]. split; [exact Hid|].
  split; [rewrite Hw; exact Hwp|]. split; [exact Hres|exact Hs].
Qed.

Lemma operation_row_roundtrip_witness : exists t, tx_storable t /\
  scanTransaction quiet (tx_row_of quiet t) = Ok (stored_tx t) /\
  violated (tx_checks (tx_row_of quiet t)) = None /\
  tx_row_of quiet (stored_tx t) = tx_row_of quiet t.
Proof.
  destruct bet0 as (p & t & _ & _ & _ & _ & _ & Ht). exists t. split; [exact Ht|].
  exact (operation_row_roundtrip quiet t Ht).
Defined.

Definition entry0 : LedgerEntry :=
  mkLedgerEntry (mkId "l1") (mkId "w1") (mkId "t1") Credit (mkMoney 500 (mkCurrency "BRL"))
    (mkMoney 0 (mkCurrency "BRL")) (mkMoney 500 (mkCurrency "BRL")) at0.

Lemma entry0_storable : entry_storable entry0.
Proof.
  constructor; try done; [|by right]. constructor; cbn; try done; repeat split; try done; try (width; lia). by right.
Qed.

Lemma money_rows_roundtrip_witness :
  (scanWallet quiet (wallet_row_of quiet wallet0) = Ok (stored_wallet wallet0) /\
   violated (wallet_checks (wallet_row_of quiet wallet0)) = None /\
   wallet_row_of quiet (stored_wallet wallet0) = wallet_row_of quiet wallet0) /\
  (scanLedgerEntry quiet (ledger_row_of quiet 1 entry0) = Ok (1, stored_entry entry0) /\
   violated (ledger_checks (ledger_row_of quiet 1 entry0)) = None /\
   ledger_row_of quiet 1 (stored_entry entry0) = ledger_row_of quiet 1 entry0).
Proof. exact (money_rows_roundtrip quiet wallet0 1 entry0 wallet0_storable entry0_storable). Defined.

Lemma insert_refuses_exactly_conflicts_witness : exists t,
  match put_tx_row quiet true (tx_row_of quiet t) (db0 quiet) with
  | (inr _, db') =>
    (forall name, ~ tx_conflict store0 t name) /\ is_Some (s_wallets store0 !! id_value (t_walletID t)) /\
    represents quiet db' (put_tx (stored_tx t) store0)
  | (inl f, db') => db' = db0 quiet /\
    ((exists name, translate (Failure f) = NewConflict name /\ tx_conflict store0 t name) \/
     (is_violation (translate (Failure f)) /\
      (s_wallets store0 !! id_value (t_walletID t) = None \/
       (t_resolvedReferenceID t <> zeroId /\ s_txs store0 !! id_value (t_resolvedReferenceID t) = None))))
  end.
Proof.
  destruct bet0 as (p & t & _ & _ & _ & _ & _ & Ht). exists t.
  exact (insert_refuses_exactly_conflicts quiet (db0 quiet) store0 t
    (represents_world0 (fun _ => Committed)) Ht).
Defined.
