(* ===== verification/Http.v ===== *)
(** * Http: [internal/adapter/http]

    The inbound edge: requests decoded from JSON, use cases called, responses
    rendered, rejections mapped onto status codes, routes protected by a bearer
    credential.  A use case is a function of the handler, as the handlers
    declare interfaces for them.  What [net/http] does with bytes on a
    connection, and the matching of a path against the patterns of the routes,
    are not modelled: a request names the pattern it matched, and gives its
    headers, path values and query values by name. *)

From stdpp Require Import sorting.
From S2P Require Import Encoding Rfc3339 Json.
From S2P Require Import Prelude Errors GoTime GoStrings Money Identifier Ledger Wallet Transaction.
From S2P Require Import Idempotency Identity Ports Submit Opening Reconcile.

#[local] Open Scope string_scope.
#[local] Open Scope list_scope.
#[local] Open Scope Z_scope.

(** ** Requests and responses *)

Record Request := mkRequest {
  rq_header : string -> string;    (* [r.Header.Get] *)
  rq_path : string -> string;      (* [r.PathValue] *)
  rq_query : string -> string;     (* [r.URL.Query().Get] *)
  rq_body : string;
  rq_ctx : Context
}.

Definition WithContext (r : Request) (ctx : Context) : Request :=
  mkRequest (rq_header r) (rq_path r) (rq_query r) (rq_body r) ctx.

Record Response := mkResponse {
  rs_status : Z;
  rs_headers : list (string * string);
  rs_body : string
}.

Definition StatusOK : Z := 200.
Definition StatusCreated : Z := 201.
Definition StatusAccepted : Z := 202.
Definition StatusBadRequest : Z := 400.
Definition StatusUnauthorized : Z := 401.
Definition StatusForbidden : Z := 403.
Definition StatusNotFound : Z := 404.
Definition StatusConflict : Z := 409.
Definition StatusUnprocessableEntity : Z := 422.
Definition StatusInternalServerError : Z := 500.
Definition StatusNotImplemented : Z := 501.
Definition StatusServiceUnavailable : Z := 503.

(** [writeJSON] *)
Definition writeJSON (status : Z) (body : value) : Response :=
  mkResponse status [("Content-Type", "application/json; charset=utf-8")] (Encode body).

(** ** Errors *)

Record ErrorBody := mkErrorBody {
  eb_Code : string;
  eb_Message : string;
  eb_CorrelationID : string
}.

Definition json_error (b : ErrorBody) : value :=
  of_struct ([("code", of_string (eb_Code b)); ("message", of_string (eb_Message b))] ++
    of_omitempty "correlationId" (eb_CorrelationID b)).

Definition domainStatus : gmap string Z := list_to_map [
  (CodeInvalidCurrency, StatusBadRequest);
  (CodeInvalidAmount, StatusBadRequest);
  (CodeNegativeAmount, StatusBadRequest);
  (CodeAmountOverflow, StatusBadRequest);
  (CodeCurrencyMismatch, StatusBadRequest);
  (CodeInvalidIdentifier, StatusBadRequest);
  (CodeInvalidTimestamp, StatusBadRequest);
  (CodeInvalidDirection, StatusBadRequest);
  (CodeNonPositiveAmount, StatusBadRequest);
  (CodeInvalidKind, StatusBadRequest);
  (CodeInvalidAmountForKind, StatusBadRequest);
  (CodeMissingReference, StatusBadRequest);
  (CodeUnexpectedReference, StatusBadRequest);
  (CodeInsufficientFunds, StatusUnprocessableEntity);
  (CodeReferenceNotFound, StatusUnprocessableEntity);
  (CodeReferenceMismatch, StatusUnprocessableEntity);
  (CodeReferenceAmountMismatch, StatusUnprocessableEntity);
  (CodeReferenceNotReversible, StatusUnprocessableEntity);
  (CodeAlreadyReversed, StatusUnprocessableEntity);
  (CodeReversalExceedsBalance, StatusUnprocessableEntity);
  (CodeInvalidTransition, StatusConflict);
  (CodeInvalidStatus, StatusConflict);
  (CodeInconsistentEntry, StatusInternalServerError);
  (CodeInvalidVersion, StatusInternalServerError)].

Definition conflictCodes : gmap string string := list_to_map [
  ("wallets_one_per_player_and_currency", "WALLET_ALREADY_EXISTS");
  ("ledger_one_per_transaction_and_wallet", "TRANSACTION_ALREADY_APPLIED");
  ("wager_transactions_business_identity", "TRANSACTION_ALREADY_SUBMITTED");
  ("wager_transactions_idempotency_key", "IDEMPOTENCY_KEY_REUSED");
  ("wager_transactions_one_opening_per_wallet", "WALLET_ALREADY_OPENED");
  ("wager_transactions_pkey", "TRANSACTION_ALREADY_SUBMITTED");
  ("wallets_pkey", "WALLET_ALREADY_EXISTS")].

Definition conflictCode (err : error) : string :=
  match As_constraint err with
  | Some name => default "CONFLICT" (conflictCodes !! name)
  | None => "CONFLICT"
  end.

Definition statusFor (err : error) : Z * string :=
  match As_domain err with
  | Some code => (default StatusBadRequest (domainStatus !! code), code)
  | None =>
    if is_sentinel err ErrUnauthenticated then (StatusUnauthorized, "UNAUTHENTICATED")
    else if is_sentinel err ErrForbidden then (StatusForbidden, "FORBIDDEN")
    else if is_sentinel err ErrNotFound then (StatusNotFound, "NOT_FOUND")
    else if is_sentinel err ErrConflict then (StatusConflict, conflictCode err)
    else if is_sentinel err ErrVersionMismatch then (StatusConflict, "VERSION_MISMATCH")
    else if is_sentinel err ErrInvalidInput then (StatusBadRequest, "INVALID_INPUT")
    else if is_sentinel err ErrNotImplemented then (StatusNotImplemented, "NOT_IMPLEMENTED")
    else if is_sentinel err ErrSerializationFailure then (StatusServiceUnavailable, "TRY_AGAIN")
    else if is_sentinel err ErrInvariantViolated then (StatusInternalServerError, "INTERNAL")
    else (StatusInternalServerError, "INTERNAL")
  end.

(** The text of an error, [err.Error()], is a parameter. *)
Definition writeError (Error : error -> string) (r : Request) (err : error) : Response :=
  let '(status, code) := statusFor err in
  let message := Error err in
  let message := if status =? StatusConflict then "the request conflicts with the current state" else message in
  let message := if StatusInternalServerError <=? status then "internal error" else message in
  writeJSON status (json_error (mkErrorBody code message (CorrelationIDFrom (rq_ctx r)))).

(** ** Bodies *)

Definition maxRequestBody : Z := 1048576.

(** Decoding the next value into a struct without fields succeeds. *)
Definition another_value (cut : bool) (rest : string) : bool :=
  match readValue cut rest with
  | Some (v, _) => match into_struct true [] () v with Some _ => true | None => false end
  | None => false
  end.

Definition decodeJSON {A} (fields : list (string * (A -> value -> option A))) (zero : A) (r : Request) : result A :=
  let cut := maxRequestBody <? Z.of_nat (String.length (rq_body r)) in
  match readValue cut (string_take maxRequestBody (rq_body r)) with
  | None => Err (Wrapped (SentinelError ErrInvalidInput))
  | Some (v, rest) =>
    match into_struct true fields zero v with
    | None => Err (Wrapped (SentinelError ErrInvalidInput))
    | Some a => if another_value cut rest then Err (Wrapped (SentinelError ErrInvalidInput)) else Ok a
    end
  end.

Record moneyDTO := mkMoneyDTO { dto_Amount : string; dto_Currency : string }.

Definition moneyDTO_fields : list (string * (moneyDTO -> value -> option moneyDTO)) :=
  [("amount", into_field dto_Amount (fun x '(mkMoneyDTO _ c) => mkMoneyDTO x c) into_string);
   ("currency", into_field dto_Currency (fun x '(mkMoneyDTO a _) => mkMoneyDTO a x) into_string)].

Definition json_moneyDTO (m : moneyDTO) : value :=
  of_struct [("amount", of_string (dto_Amount m)); ("currency", of_string (dto_Currency m))].

Definition toMoneyDTO (m : Money) : moneyDTO := mkMoneyDTO (Money_String m) (cur_code (currency m)).

(** A [*moneyDTO] *)
Definition into_moneyDTO : option moneyDTO -> value -> option (option moneyDTO) :=
  into_pointer (mkMoneyDTO "" "") (into_struct true moneyDTO_fields).

(** ** Transactions *)

Record submitRequest := mkSubmitRequest {
  sq_ProviderID : string;
  sq_ExternalID : string;
  sq_PlayerID : string;
  sq_WalletID : string;
  sq_RoundID : string;
  sq_GameID : string;
  sq_Kind : string;
  sq_Money : option moneyDTO;
  sq_ReferenceExternalID : string
}.

Definition noSubmitRequest : submitRequest := mkSubmitRequest "" "" "" "" "" "" "" None "".

Definition submitRequest_fields : list (string * (submitRequest -> value -> option submitRequest)) :=
  [("providerId", into_field sq_ProviderID
      (fun x '(mkSubmitRequest _ b c d e f g m r) => mkSubmitRequest x b c d e f g m r) into_string);
   ("externalTransactionId", into_field sq_ExternalID
      (fun x '(mkSubmitRequest a _ c d e f g m r) => mkSubmitRequest a x c d e f g m r) into_string);
   ("playerId", into_field sq_PlayerID
      (fun x '(mkSubmitRequest a b _ d e f g m r) => mkSubmitRequest a b x d e f g m r) into_string);
   ("walletId", into_field sq_WalletID
      (fun x '(mkSubmitRequest a b c _ e f g m r) => mkSubmitRequest a b c x e f g m r) into_string);
   ("roundId", into_field sq_RoundID
      (fun x '(mkSubmitRequest a b c d _ f g m r) => mkSubmitRequest a b c d x f g m r) into_string);
   ("gameId", into_field sq_GameID
      (fun x '(mkSubmitRequest a b c d e _ g m r) => mkSubmitRequest a b c d e x g m r) into_string);
   ("kind", into_field sq_Kind
      (fun x '(mkSubmitRequest a b c d e f _ m r) => mkSubmitRequest a b c d e f x m r) into_string);
   ("money", into_field sq_Money
      (fun x '(mkSubmitRequest a b c d e f g _ r) => mkSubmitRequest a b c d e f g x r) into_moneyDTO);
   ("referenceExternalTransactionId", into_field sq_ReferenceExternalID
      (fun x '(mkSubmitRequest a b c d e f g m _) => mkSubmitRequest a b c d e f g m x) into_string)].

Definition IdempotencyKeyHeader : string := "Idempotency-Key".

(** The command [Submit] builds. *)
Definition submit_command (key : string) (req : submitRequest) (money : moneyDTO) : SubmitCommand := {|
  sc_IdempotencyKey := key;
  sc_ProviderID := sq_ProviderID req;
  sc_ExternalID := sq_ExternalID req;
  sc_PlayerID := sq_PlayerID req;
  sc_WalletID := sq_WalletID req;
  sc_RoundID := sq_RoundID req;
  sc_GameID := sq_GameID req;
  sc_Kind := sq_Kind req;
  sc_Amount := dto_Amount money;
  sc_Currency := dto_Currency money;
  sc_ReferenceExternalID := sq_ReferenceExternalID req
|}.

Record submitResponse := mkSubmitResponse {
  sp_TransactionID : string;
  sp_Status : string;
  sp_Balance : moneyDTO;
  sp_IdempotentReplay : bool;
  sp_FailureCode : string
}.

Definition json_submitResponse (s : submitResponse) : value :=
  of_struct ([("transactionId", of_string (sp_TransactionID s)); ("status", of_string (sp_Status s));
    ("balance", json_moneyDTO (sp_Balance s)); ("idempotentReplay", VBool (sp_IdempotentReplay s))] ++
    of_omitempty "failureCode" (sp_FailureCode s)).

Definition toSubmitResponse (r : SubmitResult) : submitResponse := {|
  sp_TransactionID := id_value (t_id (sr_Transaction r));
  sp_Status := t_status (sr_Transaction r);
  sp_Balance := toMoneyDTO (sr_Balance r);
  sp_IdempotentReplay := sr_Replay r;
  sp_FailureCode := t_failureCode (sr_Transaction r)
|}.

Definition submitStatus (r : SubmitResult) : Z :=
  let status := t_status (sr_Transaction r) in
  if bool_decide (status = StatusRejected) || bool_decide (status = StatusFailed) then StatusUnprocessableEntity
  else if bool_decide (status = StatusPending) || bool_decide (status = StatusPendingReference) then StatusAccepted
  else StatusOK.

Record transactionResponse := mkTransactionResponse {
  tr_TransactionID : string;
  tr_ExternalID : string;
  tr_ProviderID : string;
  tr_WalletID : string;
  tr_PlayerID : string;
  tr_RoundID : string;
  tr_GameID : string;
  tr_Kind : string;
  tr_Status : string;
  tr_Money : moneyDTO;
  tr_ReferenceExternalID : string;
  tr_FailureCode : string;
  tr_Balance : string;
  tr_CreatedAt : string;
  tr_UpdatedAt : string
}.

Definition json_transactionResponse (t : transactionResponse) : value :=
  of_struct ([("transactionId", of_string (tr_TransactionID t))] ++
    of_omitempty "externalTransactionId" (tr_ExternalID t) ++
    of_omitempty "providerId" (tr_ProviderID t) ++
    [("walletId", of_string (tr_WalletID t)); ("playerId", of_string (tr_PlayerID t))] ++
    of_omitempty "roundId" (tr_RoundID t) ++
    of_omitempty "gameId" (tr_GameID t) ++
    [("kind", of_string (tr_Kind t)); ("status", of_string (tr_Status t)); ("money", json_moneyDTO (tr_Money t))] ++
    of_omitempty "referenceExternalTransactionId" (tr_ReferenceExternalID t) ++
    of_omitempty "failureCode" (tr_FailureCode t) ++
    of_omitempty "balanceAfter" (tr_Balance t) ++
    [("createdAt", of_string (tr_CreatedAt t)); ("updatedAt", of_string (tr_UpdatedAt t))]).

Definition toTransactionResponse (t : WagerTransaction) : transactionResponse := {|
  tr_TransactionID := id_value (t_id t);
  tr_ExternalID := id_value (t_externalID t);
  tr_ProviderID := id_value (t_providerID t);
  tr_WalletID := id_value (t_walletID t);
  tr_PlayerID := id_value (t_playerID t);
  tr_RoundID := id_value (t_roundID t);
  tr_GameID := id_value (t_gameID t);
  tr_Kind := t_kind t;
  tr_Status := t_status t;
  tr_Money := toMoneyDTO (t_money t);
  tr_ReferenceExternalID := id_value (t_referenceExternalID t);
  tr_FailureCode := t_failureCode t;
  tr_Balance := if Money_IsInitialised (t_balanceAfter t) then Money_String (t_balanceAfter t) else "";
  tr_CreatedAt := format_millis (t_createdAt t);
  tr_UpdatedAt := format_millis (t_updatedAt t)
|}.

(** ** Wallets *)

Record openWalletRequest := mkOpenWalletRequest {
  oq_PlayerID : string;
  oq_InitialBalance : option moneyDTO
}.

Definition openWalletRequest_fields : list (string * (openWalletRequest -> value -> option openWalletRequest)) :=
  [("playerId", into_field oq_PlayerID (fun x '(mkOpenWalletRequest _ b) => mkOpenWalletRequest x b) into_string);
   ("initialBalance", into_field oq_InitialBalance
      (fun x '(mkOpenWalletRequest a _) => mkOpenWalletRequest a x) into_moneyDTO)].

Record walletResponse := mkWalletResponse {
  wr_ID : string;
  wr_PlayerID : string;
  wr_Balance : moneyDTO;
  wr_Version : Z
}.

Definition json_walletResponse (w : walletResponse) : value :=
  of_struct [("id", of_string (wr_ID w)); ("playerId", of_string (wr_PlayerID w));
    ("balance", json_moneyDTO (wr_Balance w)); ("version", of_int (wr_Version w))].

Definition toWalletResponse (w : Wallet) : walletResponse := {|
  wr_ID := id_value (w_id w);
  wr_PlayerID := id_value (w_playerID w);
  wr_Balance := toMoneyDTO (w_balance w);
  wr_Version := w_version w
|}.

Record ledgerEntryResponse := mkLedgerEntryResponse {
  lr_ID : string;
  lr_TransactionID : string;
  lr_Direction : string;
  lr_Money : moneyDTO;
  lr_BalanceBefore : moneyDTO;
  lr_BalanceAfter : moneyDTO;
  lr_CreatedAt : string
}.

Definition json_ledgerEntryResponse (e : ledgerEntryResponse) : value :=
  of_struct [("id", of_string (lr_ID e)); ("transactionId", of_string (lr_TransactionID e));
    ("direction", of_string (lr_Direction e)); ("money", json_moneyDTO (lr_Money e));
    ("balanceBefore", json_moneyDTO (lr_BalanceBefore e)); ("balanceAfter", json_moneyDTO (lr_BalanceAfter e));
    ("createdAt", of_string (lr_CreatedAt e))].

Definition toLedgerEntryResponse (e : LedgerEntry) : ledgerEntryResponse := {|
  lr_ID := id_value (le_id e);
  lr_TransactionID := id_value (le_transactionID e);
  lr_Direction := le_direction e;
  lr_Money := toMoneyDTO (le_amount e);
  lr_BalanceBefore := toMoneyDTO (le_balanceBefore e);
  lr_BalanceAfter := toMoneyDTO (le_balanceAfter e);
  lr_CreatedAt := format_millis (le_createdAt e)
|}.

Record ledgerResponse := mkLedgerResponse {
  ls_Entries : list ledgerEntryResponse;
  ls_NextCursor : string;
  ls_HasMore : bool
}.

Definition json_ledgerResponse (l : ledgerResponse) : value :=
  of_struct ([("entries", VArray (map json_ledgerEntryResponse (ls_Entries l)))] ++
    of_omitempty "nextCursor" (ls_NextCursor l) ++
    [("hasMore", VBool (ls_HasMore l))]).

(** ** Cursors *)

Definition cursorPrefix : string := "v1:".

Definition encodeCursor (c : LedgerCursor) : string :=
  RawURLEncoding_EncodeToString (cursorPrefix +:+ FormatInt (cursor_after c)).

Definition decodeCursor (raw : string) : result LedgerCursor :=
  let invalid := Err (Wrapped (SentinelError ErrInvalidInput)) in
  if bool_decide (raw = "") then Ok (NewLedgerCursor 0)
  else
    match RawURLEncoding_DecodeString raw with
    | None => invalid
    | Some decoded =>
      match CutPrefix decoded cursorPrefix with
      | None => invalid
      | Some text =>
        match ParseInt text with
        | None => invalid
        | Some after => if after <? 0 then invalid else Ok (NewLedgerCursor after)
        end
      end
    end.

Definition toLedgerResponse (page : LedgerPage) : ledgerResponse := {|
  ls_Entries := map toLedgerEntryResponse (lg_Entries page);
  ls_NextCursor := if lg_HasMore page then encodeCursor (lg_Next page) else "";
  ls_HasMore := lg_HasMore page
|}.

(** The [limit] of a query, [strconv.Atoi]; none given is zero. *)
Definition ledger_limit (raw : string) : result Z :=
  if bool_decide (raw = "") then Ok 0
  else match ParseInt raw with
       | Some limit => Ok limit
       | None => Err (Wrapped (SentinelError ErrInvalidInput))
       end.

(** ** Reconciliations *)

Record reconciliationResponse := mkReconciliationResponse {
  rr_WalletID : string;
  rr_Stored : moneyDTO;
  rr_Rebuilt : moneyDTO;
  rr_Difference : moneyDTO;
  rr_Entries : Z;
  rr_Version : Z;
  rr_Consistent : bool;
  rr_CheckedAt : string
}.

Definition json_reconciliationResponse (r : reconciliationResponse) : value :=
  of_struct [("walletId", of_string (rr_WalletID r)); ("storedBalance", json_moneyDTO (rr_Stored r));
    ("rebuiltBalance", json_moneyDTO (rr_Rebuilt r)); ("difference", json_moneyDTO (rr_Difference r));
    ("entries", of_int (rr_Entries r)); ("walletVersion", of_int (rr_Version r));
    ("consistent", VBool (rr_Consistent r)); ("checkedAt", of_string (rr_CheckedAt r))].

Definition toReconciliationResponse (r : Reconciliation) : reconciliationResponse := {|
  rr_WalletID := id_value (rn_WalletID r);
  rr_Stored := toMoneyDTO (rn_Stored r);
  rr_Rebuilt := toMoneyDTO (rn_Rebuilt r);
  rr_Difference := toMoneyDTO (rn_Difference r);
  rr_Entries := rn_Entries r;
  rr_Version := rn_Version r;
  rr_Consistent := negb (Drifted r);
  rr_CheckedAt := format_millis (rn_CheckedAt r)
|}.

(** ** Handlers *)

Section handlers.
Context {W : Type} (Error : error -> string).

Abbreviation handler := (Request -> W -> Response * W).

(** The end all handlers share: an error is rendered, or the answer. *)
Definition respond {A} (r : Request) (answer : A -> Response) (m : M W A) : W -> Response * W := fun w =>
  match m w with
  | (Ok a, w) => (answer a, w)
  | (Err err, w) => (writeError Error r err, w)
  end.

(** [POST /wagering/transactions] *)
Definition TransactionHandler_Submit (Execute : Context -> SubmitCommand -> M W SubmitResult) : handler := fun r =>
  respond r (fun result => writeJSON (submitStatus result) (json_submitResponse (toSubmitResponse result)))
    (let key := rq_header r IdempotencyKeyHeader in
     if bool_decide (key = "") then throw (Wrapped (SentinelError ErrInvalidInput))
     else
       req ← pure (decodeJSON submitRequest_fields noSubmitRequest r);
       match sq_Money req with
       | None => throw (Wrapped (SentinelError ErrInvalidInput))
       | Some money => Execute (rq_ctx r) (submit_command key req money)
       end).

(** [GET /wagering/transactions/{transactionId}] *)
Definition TransactionHandler_Get (Get : Context -> string -> M W WagerTransaction) : handler := fun r =>
  respond r (fun t => writeJSON StatusOK (json_transactionResponse (toTransactionResponse t)))
    (Get (rq_ctx r) (rq_path r "transactionId")).

(** [GET /providers/{providerId}/wagering/transactions/{externalTransactionId}] *)
Definition TransactionHandler_GetByProvider (GetByBusinessID : Context -> string -> string -> M W WagerTransaction)
    : handler := fun r =>
  respond r (fun t => writeJSON StatusOK (json_transactionResponse (toTransactionResponse t)))
    (GetByBusinessID (rq_ctx r) (rq_path r "providerId") (rq_path r "externalTransactionId")).

(** [POST /wallets] *)
Definition WalletHandler_Open (Execute : Context -> OpenWalletCommand -> M W Wallet) : handler := fun r =>
  respond r (fun wallet => writeJSON StatusCreated (json_walletResponse (toWalletResponse wallet)))
    (req ← pure (decodeJSON openWalletRequest_fields (mkOpenWalletRequest "" None) r);
     match oq_InitialBalance req with
     | None => throw (Wrapped (SentinelError ErrInvalidInput))
     | Some balance =>
       Execute (rq_ctx r) (mkOpenWalletCommand (oq_PlayerID req) (dto_Amount balance) (dto_Currency balance))
     end).

(** [GET /wallets/{walletId}] *)
Definition WalletHandler_Get (Get : Context -> string -> M W Wallet) : handler := fun r =>
  respond r (fun wallet => writeJSON StatusOK (json_walletResponse (toWalletResponse wallet)))
    (Get (rq_ctx r) (rq_path r "walletId")).

(** [GET /wallets/{walletId}/ledger] *)
Definition WalletHandler_Ledger (Ledger : Context -> string -> LedgerCursor -> Z -> M W LedgerPage) : handler := fun r =>
  respond r (fun page => writeJSON StatusOK (json_ledgerResponse (toLedgerResponse page)))
    (cursor ← pure (decodeCursor (rq_query r "cursor"));
     limit ← pure (ledger_limit (rq_query r "limit"));
     Ledger (rq_ctx r) (rq_path r "walletId") cursor limit).

(** [POST /wallets/{walletId}/reconciliation] *)
Definition ReconciliationHandler_Check (Execute : Context -> string -> M W Reconciliation) : handler := fun r =>
  respond r (fun result => writeJSON StatusOK (json_reconciliationResponse (toReconciliationResponse result)))
    (Execute (rq_ctx r) (rq_path r "walletId")).

(** ** Health *)

Record Prober := mkProber {
  pr_Name : string;
  pr_Ping : Context -> M W unit
}.

Record healthResponse := mkHealthResponse {
  hr_Status : string;
  hr_Dependents : gmap string string
}.

(** A map is written with its keys in order. *)
Definition json_map (m : gmap string string) : value :=
  of_struct (map (fun k => (quote k, of_string (default "" (m !! k)))) (merge_sort String.le (map_to_list m).*1)).

Definition json_health (h : healthResponse) : value :=
  of_struct ([("status", of_string (hr_Status h))] ++
    if bool_decide (hr_Dependents h = ∅) then [] else [("dependencies", json_map (hr_Dependents h))]).

(** [GET /health/live] *)
Definition HealthHandler_Live : handler := fun _ w =>
  (writeJSON StatusOK (json_health (mkHealthResponse "ok" ∅)), w).

(** The loop over the probes. *)
Fixpoint probe_all (ctx : Context) (probes : list Prober) (body : healthResponse) (status : Z) (w : W)
    : healthResponse * Z * W :=
  match probes with
  | [] => (body, status, w)
  | probe :: probes =>
    match pr_Ping probe ctx w with
    | (Err _, w) =>
      probe_all ctx probes
        (mkHealthResponse "unavailable" (<[pr_Name probe := "unavailable"]> (hr_Dependents body)))
        StatusServiceUnavailable w
    | (Ok _, w) =>
      probe_all ctx probes
        (mkHealthResponse (hr_Status body) (<[pr_Name probe := "ok"]> (hr_Dependents body))) status w
    end
  end.

(** [GET /health/ready] *)
Definition HealthHandler_Ready (probes : list Prober) : handler := fun r w =>
  let '(body, status, w) := probe_all (rq_ctx r) probes (mkHealthResponse "ok" ∅) StatusOK w in
  (writeJSON status (json_health body), w).

(** ** Authentication *)

Definition realm : string := "wagering-core".

(** [strings.EqualFold] against a word of ASCII letters without k and s. *)
Fixpoint EqualFold (s word : string) : bool :=
  match s, word with
  | EmptyString, EmptyString => true
  | String b s, String c word => (upper b =? upper c)%char && EqualFold s word
  | _, _ => false
  end.

Definition bearerToken (r : Request) : option string :=
  let header := rq_header r "Authorization" in
  if bool_decide (header = "") then None
  else
    match Cut header " " with
    | None => None
    | Some (scheme, token) =>
      if negb (EqualFold scheme "Bearer") then None
      else let token := TrimSpace token in if bool_decide (token = "") then None else Some token
    end.

(** The answer of [refuse]: the same whatever the reason was. *)
Definition refuse (r : Request) : Response :=
  let answer := writeJSON StatusUnauthorized
    (json_error (mkErrorBody "UNAUTHENTICATED" "a valid bearer token is required" (CorrelationIDFrom (rq_ctx r)))) in
  mkResponse (rs_status answer)
    (("WWW-Authenticate", "Bearer realm=" +:+ String dquote realm +:+ String dquote (", error=" +:+
       String dquote ("invalid_token" +:+ String dquote ""))) :: rs_headers answer)
    (rs_body answer).

(** [TokenVerifier] *)
Class TokenVerifier := Verify : Context -> string -> M W Identity.

(** [Authenticator.require] *)
Definition require `{TokenVerifier} (next : handler) : handler := fun r w =>
  match bearerToken r with
  | None => (refuse r, w)
  | Some token =>
    match Verify (rq_ctx r) token w with
    | (Err _, w) => (refuse r, w)
    | (Ok identity, w) => next (WithContext r (WithIdentity (rq_ctx r) identity)) w
    end
  end.

(** ** Routes *)

Record route := mkRoute {
  ro_pattern : string;
  ro_handler : handler;
  ro_public : bool
}.

(** The use cases and the probes the handlers are built from. *)
Record Handlers := mkHandlers {
  h_open : Context -> OpenWalletCommand -> M W Wallet;
  h_wallet : Context -> string -> M W Wallet;
  h_ledger : Context -> string -> LedgerCursor -> Z -> M W LedgerPage;
  h_reconcile : Context -> string -> M W Reconciliation;
  h_submit : Context -> SubmitCommand -> M W SubmitResult;
  h_transaction : Context -> string -> M W WagerTransaction;
  h_by_provider : Context -> string -> string -> M W WagerTransaction;
  h_probes : list Prober
}.

Definition routeTable (h : Handlers) : list route := [
  mkRoute "POST /wallets" (WalletHandler_Open (h_open h)) false;
  mkRoute "GET /wallets/{walletId}" (WalletHandler_Get (h_wallet h)) false;
  mkRoute "GET /wallets/{walletId}/ledger" (WalletHandler_Ledger (h_ledger h)) false;
  mkRoute "POST /wallets/{walletId}/reconciliation" (ReconciliationHandler_Check (h_reconcile h)) false;
  mkRoute "POST /wagering/transactions" (TransactionHandler_Submit (h_submit h)) false;
  mkRoute "GET /wagering/transactions/{transactionId}" (TransactionHandler_Get (h_transaction h)) false;
  mkRoute "GET /providers/{providerId}/wagering/transactions/{externalTransactionId}"
    (TransactionHandler_GetByProvider (h_by_provider h)) false;
  mkRoute "GET /health/live" HealthHandler_Live true;
  mkRoute "GET /health/ready" (HealthHandler_Ready (h_probes h)) true].

(** [Routes]: what the mux has under a pattern.  The observer only measures. *)
Definition Routes `{TokenVerifier} (h : Handlers) : list (string * handler) :=
  map (fun rt => (ro_pattern rt, if ro_public rt then ro_handler rt else require (ro_handler rt))) (routeTable h).

Fixpoint find_route (pattern : string) (mux : list (string * handler)) : option handler :=
  match mux with
  | [] => None
  | (p, next) :: mux => if bool_decide (p = pattern) then Some next else find_route pattern mux
  end.

(** ** Middleware *)

Definition CorrelationIDHeader : string := "X-Correlation-Id".
Definition maxCorrelationIDLength : Z := 128.

(** [fresh] is what [uuid.NewString] would return.  The two context keys, of
    this package and of the application layer, are set to the same id. *)
Definition correlation_id (fresh : string) (r : Request) : string :=
  let id := rq_header r CorrelationIDHeader in
  if bool_decide (id = "") || (maxCorrelationIDLength <? Z.of_nat (String.length id)) then fresh else id.

(** What a handler comes to: an answer, or a panic, which may be
    [http.ErrAbortHandler], with the headers it had set and what it had
    already sent. *)
Inductive served :=
| Answered (response : Response)
| Panicked (abort : bool) (headers : list (string * string)) (sent : option Response).

Abbreviation Served := (Request -> W -> served * W).

(** A handler of this package does not panic. *)
Definition unfailing (next : handler) : Served := fun r w =>
  let '(response, w) := next r w in (Answered response, w).

Definition with_header (name value : string) (r : Response) : Response :=
  mkResponse (rs_status r) ((name, value) :: rs_headers r) (rs_body r).

Definition withCorrelationID (fresh : string) (next : Served) : Served := fun r w =>
  let id := correlation_id fresh r in
  let '(s, w) := next (WithContext r (WithCorrelationID (rq_ctx r) id)) w in
  (match s with
   | Answered response => Answered (with_header CorrelationIDHeader id response)
   | Panicked abort headers sent =>
     Panicked abort ((CorrelationIDHeader, id) :: headers) (with_header CorrelationIDHeader id <$> sent)
   end, w).

(** [None] is a connection that is cut.  The correlation id of the request
    it sees is the one of the connection. *)
Definition withRecovery (next : Served) : Request -> W -> option Response * W := fun r w =>
  match next r w with
  | (Answered response, w) => (Some response, w)
  | (Panicked true _ _, w) => (None, w)
  | (Panicked false headers sent, w) =>
    let answer := writeJSON StatusInternalServerError
      (json_error (mkErrorBody "INTERNAL" "internal error" (CorrelationIDFrom (rq_ctx r)))) in
    (Some match sent with
          | None => mkResponse (rs_status answer) (headers ++ rs_headers answer) (rs_body answer)
          | Some response => mkResponse (rs_status response) (rs_headers response) (rs_body response +:+ rs_body answer)
          end, w)
  end.

(** [Handler]: the middleware around the route a request matched; the request
    log changes nothing.  [None] is a path or a method of no route, which the
    mux answers by itself. *)
Definition Handler `{TokenVerifier} (h : Handlers) (fresh pattern : string)
    : option (Request -> W -> option Response * W) :=
  next ← find_route pattern (Routes h); Some (withRecovery (withCorrelationID fresh (unfailing next))).
End handlers.

(** ** Server *)

Record ServerConfig := mkServerConfig {
  sv_Addr : string;
  sv_ShutdownTimeout : Duration;
  sv_ReadHeaderTimeout : Duration;
  sv_ReadTimeout : Duration;
  sv_WriteTimeout : Duration;
  sv_IdleTimeout : Duration
}.

Definition orDefault (value fallback : Duration) : Duration := if value <=? 0 then fallback else value.

(** The limits [NewServer] sets. *)
Definition NewServer (cfg : ServerConfig) : ServerConfig := {|
  sv_Addr := sv_Addr cfg;
  sv_ShutdownTimeout := sv_ShutdownTimeout cfg;
  sv_ReadHeaderTimeout := orDefault (sv_ReadHeaderTimeout cfg) (5 * Second);
  sv_ReadTimeout := orDefault (sv_ReadTimeout cfg) (15 * Second);
  sv_WriteTimeout := orDefault (sv_WriteTimeout cfg) (15 * Second);
  sv_IdleTimeout := orDefault (sv_IdleTimeout cfg) (60 * Second)
|}.
