(* ===== verification/HttpFacts.v ===== *)
(** * HttpFacts: the properties of the edge

    Which answers an error can have and what they give away, who gets past the
    authentication, the cursors, and the two ports an operation may come
    through. *)

From S2P Require Import Encoding Rfc3339 Json JsonFacts.
From S2P Require Import Prelude Errors GoTime GoStrings Money Identifier Ledger Wallet Transaction.
From S2P Require Import Idempotency Identity Ports Submit Opening Reconcile Consumer Http.

#[local] Open Scope string_scope.
#[local] Open Scope list_scope.
#[local] Open Scope Z_scope.

(** ** What a client writes *)

Definition texts (c : SubmitCommand) : list string :=
  [sc_ProviderID c; sc_ExternalID c; sc_PlayerID c; sc_WalletID c; sc_RoundID c; sc_GameID c; sc_Kind c;
   sc_Amount c; sc_Currency c; sc_ReferenceExternalID c].

Definition money_members (c : SubmitCommand) : list (string * value) :=
  [("amount", of_string (sc_Amount c)); ("currency", of_string (sc_Currency c))].

(** The body of [POST /wagering/transactions] for a command. *)
Definition submit_json (c : SubmitCommand) : value :=
  of_struct [
    ("providerId", of_string (sc_ProviderID c)); ("externalTransactionId", of_string (sc_ExternalID c));
    ("playerId", of_string (sc_PlayerID c)); ("walletId", of_string (sc_WalletID c));
    ("roundId", of_string (sc_RoundID c)); ("gameId", of_string (sc_GameID c)); ("kind", of_string (sc_Kind c));
    ("money", of_struct (money_members c));
    ("referenceExternalTransactionId", of_string (sc_ReferenceExternalID c))].

(** The message a producer sends for it. *)
Definition message_json (id : string) (at_ : Time) (c : SubmitCommand) : value :=
  of_struct [
    ("messageId", of_string id); ("type", of_string TypeWagerTransactionRequested);
    ("occurredAt", VString (format_nanos at_));
    ("data", of_struct [
      ("providerId", of_string (sc_ProviderID c)); ("externalTransactionId", of_string (sc_ExternalID c));
      ("idempotencyKey", of_string (sc_IdempotencyKey c));
      ("playerId", of_string (sc_PlayerID c)); ("walletId", of_string (sc_WalletID c));
      ("roundId", of_string (sc_RoundID c)); ("gameId", of_string (sc_GameID c)); ("kind", of_string (sc_Kind c));
      ("money", of_struct (money_members c));
      ("referenceExternalTransactionId", of_string (sc_ReferenceExternalID c))])].

Definition message_of (id : string) (at_ : Time) (c : SubmitCommand) : Envelope :=
  mkEnvelope id TypeWagerTransactionRequested at_
    (mkEnvelopeData (sc_ProviderID c) (sc_ExternalID c) (sc_IdempotencyKey c) (sc_PlayerID c) (sc_WalletID c)
       (sc_RoundID c) (sc_GameID c) (sc_Kind c) (mkMoneyData (sc_Amount c) (sc_Currency c)) (sc_ReferenceExternalID c)).

(** The next member is stored into the [i]-th field. *)
Ltac member i :=
  erewrite (store_member _ _ i);
  [|reflexivity|reflexivity|apply (bool_decide_eq_true_1 _); vm_compute; reflexivity
   |apply into_field_Some; first [apply into_string_valid; assumption | eassumption]];
  cbv beta iota.

Ltac names_ok :=
  repeat first [ apply Forall_cons_2; [split; [apply content_ok_name; vm_compute; reflexivity|]|]
               | apply Forall_nil_2 ]; cbn [snd].

Section two_ports.
Context (c : SubmitCommand) (Hc : Forall valid_utf8 (texts c)).

Lemma money_stored {A} (zero : A) (fields : list (string * (A -> value -> option A))) (get1 get2 : A -> string) set1 set2 :
  fields = [("amount", into_field get1 set1 into_string); ("currency", into_field get2 set2 into_string)] ->
  into_struct true fields zero (of_struct (money_members c)) =
  Some (set2 (sc_Currency c) (set1 (sc_Amount c) zero)).
Proof using Hc.
  intros ->. unfold texts in Hc. rewrite !Forall_cons in Hc. destruct_and!. unfold money_members. cbn [into_struct of_struct].
  member 0%nat. member 1%nat. done.
Qed.

Lemma wf_money : wf (of_struct (money_members c)).
Proof. apply wf_object. names_ok; apply wf_of_string. Qed.

Lemma submit_json_stored :
  into_struct true submitRequest_fields noSubmitRequest (submit_json c) =
  Some (mkSubmitRequest (sc_ProviderID c) (sc_ExternalID c) (sc_PlayerID c) (sc_WalletID c) (sc_RoundID c)
    (sc_GameID c) (sc_Kind c) (Some (mkMoneyDTO (sc_Amount c) (sc_Currency c))) (sc_ReferenceExternalID c)).
Proof using Hc.
  pose proof Hc as Hall. unfold texts in Hall. rewrite !Forall_cons in Hall. destruct_and!.
  assert (Hm : into_moneyDTO None (of_struct (money_members c)) = Some (Some (mkMoneyDTO (sc_Amount c) (sc_Currency c)))).
  { transitivity (Some <$> into_struct true moneyDTO_fields (mkMoneyDTO "" "") (of_struct (money_members c))); [done|].
    by rewrite (money_stored (mkMoneyDTO "" "") moneyDTO_fields _ _ _ _ eq_refl). }
  unfold submit_json, noSubmitRequest. cbn [into_struct of_struct].
  member 0%nat. member 1%nat. member 2%nat. member 3%nat. member 4%nat. member 5%nat. member 6%nat. member 7%nat. member 8%nat.
  done.
Qed.

Lemma submit_json_wf : wf (submit_json c) /\ height (submit_json c) <= maxNestingDepth.
Proof. split; [|done]. apply wf_object. names_ok; first [apply wf_of_string|apply wf_money]. Qed.

Lemma message_json_stored id at_ : valid_utf8 id -> valid_utf8 (sc_IdempotencyKey c) ->
  is_utc at_ -> 0 <= (clock_face at_).1.1.1.1 <= 9999 ->
  into_struct true Envelope_fields noEnvelope (message_json id at_ c) = Some (message_of id at_ c).
Proof using Hc.
  intros Hid Hkey Hutc Hyear.
  pose proof Hc as Hall. unfold texts in Hall. rewrite !Forall_cons in Hall. destruct_and!.
  pose proof (money_stored (mkMoneyData "" "") MoneyData_fields _ _ _ _ eq_refl) as Hm.
  assert (Ht : into_time zeroTime (VString (format_nanos at_)) = Some at_) by (by apply parse_time_format).
  assert (Htype : valid_utf8 TypeWagerTransactionRequested)
    by (apply ascii_text_valid; unfold ascii_text; apply (bool_decide_eq_true_1 _); vm_compute; reflexivity).
  match goal with |- context [message_json] => unfold message_json end.
  match goal with |- context [("data", ?d)] => set (data := d) end.
  assert (Hd : into_struct true EnvelopeData_fields (en_Data noEnvelope) data = Some (en_Data (message_of id at_ c))).
  { unfold data, noEnvelope. cbn [into_struct of_struct en_Data].
    member 0%nat. member 1%nat. member 2%nat. member 3%nat. member 4%nat. member 5%nat. member 6%nat. member 7%nat.
    member 8%nat. member 9%nat. done. }
  unfold noEnvelope in *. cbn [into_struct of_struct en_Data] in *.
  member 0%nat. member 1%nat. member 2%nat. member 3%nat. done.
Qed.

Lemma message_json_wf id at_ : is_utc at_ -> 0 <= (clock_face at_).1.1.1.1 <= 9999 ->
  wf (message_json id at_ c) /\ height (message_json id at_ c) <= maxNestingDepth.
Proof.
  intros Hu Hy. split; [|done]. apply wf_object. names_ok; [apply wf_of_string..|by apply content_ok_format_nanos|].
  apply wf_object. names_ok; first [apply wf_of_string|apply wf_money].
Qed.

Lemma message_decoded id at_ : id <> "" -> sc_IdempotencyKey c <> "" -> valid_utf8 id -> valid_utf8 (sc_IdempotencyKey c) ->
  is_utc at_ -> 0 <= (clock_face at_).1.1.1.1 <= 9999 ->
  decodeEnvelope (write (message_json id at_ c)) = Ok (message_of id at_ c, c).
Proof using Hc.
  intros Hne Hkne Hid Hkey Hu Hy. destruct (message_json_wf id at_ Hu Hy) as [Hwf Hh].
  unfold decodeEnvelope, Envelope_Decode. rewrite readValue_write by assumption. cbn [mbind option_bind].
  rewrite message_json_stored by assumption. cbn [message_of en_MessageID en_Type en_Data ed_IdempotencyKey].
  rewrite (bool_decide_eq_false_2 _ Hne), (bool_decide_eq_true_2 (_ = _)) by done. cbn [negb].
  rewrite (bool_decide_eq_false_2 _ Hkne). by destruct c.
Qed.

Lemma string_take_all n s : Z.of_nat (String.length s) <= n -> string_take n s = s.
Proof.
  revert n. induction s as [|b s IH]; intros n Hn; [done|]. cbn [string_take String.length] in *.
  replace (0 <? n) with true by lia. rewrite IH by lia. done.
Qed.

Lemma submit_decoded r : rq_body r = write (submit_json c) -> Z.of_nat (String.length (rq_body r)) <= maxRequestBody ->
  decodeJSON submitRequest_fields noSubmitRequest r =
  Ok (mkSubmitRequest (sc_ProviderID c) (sc_ExternalID c) (sc_PlayerID c) (sc_WalletID c) (sc_RoundID c)
    (sc_GameID c) (sc_Kind c) (Some (mkMoneyDTO (sc_Amount c) (sc_Currency c))) (sc_ReferenceExternalID c)).
Proof using Hc.
  intros Hb Hl. destruct submit_json_wf as [Hwf Hh]. unfold decodeJSON. rewrite string_take_all by exact Hl.
  replace (maxRequestBody <? Z.of_nat (String.length (rq_body r))) with false by lia.
  rewrite Hb, readValue_write by assumption. by rewrite submit_json_stored by assumption.
Qed.
End two_ports.

(** ** Errors *)

(** The codes of the answers to errors that are not a domain rejection. *)
Definition edge_codes : list string :=
  ["UNAUTHENTICATED"; "FORBIDDEN"; "NOT_FOUND"; "VERSION_MISMATCH"; "INVALID_INPUT"; "NOT_IMPLEMENTED"; "TRY_AGAIN";
   "INTERNAL"; "CONFLICT"; "WALLET_ALREADY_EXISTS"; "TRANSACTION_ALREADY_APPLIED"; "TRANSACTION_ALREADY_SUBMITTED";
   "IDEMPOTENCY_KEY_REUSED"; "WALLET_ALREADY_OPENED"].

Definition edge_statuses : list Z := [400; 401; 403; 404; 409; 422; 500; 501; 503].

Lemma forallb_elem {A} (f : A -> bool) l x : forallb f l = true -> x ∈ l -> f x = true.
Proof. rewrite forallb_forall. intros H Hx. apply H. by apply list_elem_of_In. Qed.

Lemma domainStatus_values code status : domainStatus !! code = Some status -> status ∈ [400; 409; 422; 500].
Proof.
  intros H%elem_of_map_to_list. apply (bool_decide_eq_true_1 _).
  refine (forallb_elem (fun p : string * Z => bool_decide (p.2 ∈ [400; 409; 422; 500])) (map_to_list domainStatus) (code, status) _ _);
    [vm_compute; reflexivity|exact H].
Qed.

Lemma conflictCodes_values name code : conflictCodes !! name = Some code -> code ∈ edge_codes.
Proof.
  intros H%elem_of_map_to_list. apply (bool_decide_eq_true_1 _).
  refine (forallb_elem (fun p : string * string => bool_decide (p.2 ∈ edge_codes)) (map_to_list conflictCodes) (name, code) _ _);
    [vm_compute; reflexivity|exact H].
Qed.

Lemma declared_status code : code ∈ all_codes -> is_Some (domainStatus !! code).
Proof.
  intros H. apply (bool_decide_eq_true_1 _).
  refine (forallb_elem (fun c => bool_decide (is_Some (domainStatus !! c))) all_codes code _ _);
    [vm_compute; reflexivity|exact H].
Qed.

#[local] Opaque domainStatus conflictCodes.

Lemma conflictCode_edge e : conflictCode e ∈ edge_codes.
Proof.
  assert (Hc : "CONFLICT" ∈ edge_codes) by (apply (bool_decide_eq_true_1 _); vm_compute; reflexivity).
  unfold conflictCode. destruct (As_constraint e) as [name|]; [|exact Hc].
  destruct (conflictCodes !! name) as [code|] eqn:E; [|exact Hc]. by apply conflictCodes_values in E.
Qed.

Lemma statusFor_edge e : As_domain e = None -> (statusFor e).1 ∈ edge_statuses /\ (statusFor e).2 ∈ edge_codes.
Proof.
  intros Hd. unfold statusFor. rewrite Hd.
  repeat match goal with |- context [if ?b then _ else _] => destruct b end; cbn [fst snd];
    (split; [apply (bool_decide_eq_true_1 _); vm_compute; reflexivity|]);
    first [apply conflictCode_edge | apply (bool_decide_eq_true_1 _); vm_compute; reflexivity].
Qed.

(** C25: every error has an answer the edge has settled: one of nine statuses,
    every code the domain declares with a status of its own, every other code
    from a fixed list.  An answer of status 409 or from 500 up gives nothing
    away: it is the same for any two errors of one code, whatever constraint or
    text they carry. *)
Theorem error_answers_are_settled Error1 Error2 r e1 e2 :
  let '(status, code) := statusFor e1 in
  status ∈ edge_statuses /\
  match As_domain e1 with
  | Some declared => code = declared /\ (declared ∈ all_codes -> domainStatus !! declared = Some status)
  | None => code ∈ edge_codes
  end /\
  (status = StatusConflict \/ StatusInternalServerError <= status -> statusFor e2 = (status, code) ->
   writeError Error1 r e1 = writeError Error2 r e2).
Proof.
  assert (Hsame : forall status code, statusFor e1 = (status, code) ->
    status = StatusConflict \/ StatusInternalServerError <= status -> statusFor e2 = (status, code) ->
    writeError Error1 r e1 = writeError Error2 r e2).
  { intros status code H1 Hst H2. unfold writeError. rewrite H1, H2. destruct Hst as [->|Hst]; [done|].
    by rewrite (proj2 (Z.leb_le _ _) Hst). }
  pose proof (statusFor_edge e1) as Hedge. destruct (statusFor e1) as [status code] eqn:E.
  specialize (Hsame status code eq_refl). destruct (As_domain e1) as [declared|] eqn:Hd.
  - unfold statusFor in E. rewrite Hd in E. injection E as <- <-.
    assert (Hin : default StatusBadRequest (domainStatus !! declared) ∈ edge_statuses).
    { destruct (domainStatus !! declared) as [st|] eqn:Est; [|by apply (bool_decide_eq_true_1 _)].
      apply domainStatus_values in Est. unfold edge_statuses. cbn. set_solver. }
    split_and!; [exact Hin|done| |exact Hsame].
    intros Hdec. destruct (declared_status _ Hdec) as [st ->]. done.
  - destruct (Hedge eq_refl) as [H1 H2]. split_and!; [exact H1|exact H2|exact Hsame].
Qed.

(** ** Cursors *)

(** The cursor a page ends with leads to the next page: it is read back as
    the position it stands for; and whatever a client sends as a cursor is
    refused as invalid input or is a position that fits the column. *)
Theorem cursors_lead_on c raw :
  (0 <= cursor_after c <= MaxInt64 -> decodeCursor (encodeCursor c) = Ok c) /\
  match decodeCursor raw with
  | Ok c' => 0 <= cursor_after c' <= MaxInt64
  | Err e => e = Wrapped (SentinelError ErrInvalidInput)
  end.
Proof.
  split.
  - intros Hc. unfold decodeCursor, encodeCursor.
    assert (Hne : RawURLEncoding_EncodeToString (cursorPrefix +:+ FormatInt (cursor_after c)) <> "").
    { intros E. pose proof (base64_roundtrip (cursorPrefix +:+ FormatInt (cursor_after c))) as Hb.
      rewrite E in Hb. change (RawURLEncoding_DecodeString "") with (Some "") in Hb.
      unfold cursorPrefix in Hb. rewrite string_app_cons in Hb. discriminate Hb. }
    rewrite (bool_decide_eq_false_2 _ Hne), base64_roundtrip, CutPrefix_app, ParseInt_FormatInt by exact Hc.
    replace (cursor_after c <? 0) with false by lia. by destruct c.
  - unfold decodeCursor. case_bool_decide; [cbn; width; lia|].
    destruct (RawURLEncoding_DecodeString raw) as [decoded|]; [|done].
    destruct (CutPrefix decoded cursorPrefix) as [text|]; [|done].
    destruct (ParseInt text) as [after|] eqn:E; [|done]. apply ParseInt_bounds in E.
    destruct (Z.ltb_spec after 0); [done|]. cbn. width; lia.
Qed.

(** ** Authentication *)

Definition public_patterns : list string := ["GET /health/live"; "GET /health/ready"].

Definition protected_patterns : list string :=
  ["POST /wallets"; "GET /wallets/{walletId}"; "GET /wallets/{walletId}/ledger";
   "POST /wallets/{walletId}/reconciliation"; "POST /wagering/transactions";
   "GET /wagering/transactions/{transactionId}";
   "GET /providers/{providerId}/wagering/transactions/{externalTransactionId}"].

Section authentication.
Context {W : Type} (Error : error -> string) `{TokenVerifier W}.

Lemma find_route_handler (h : Handlers) pattern next :
  find_route pattern (Routes Error h) = Some next ->
  exists rt : @route W, rt ∈ routeTable Error h /\ ro_pattern rt = pattern /\
    next = (if ro_public rt then ro_handler rt else require (ro_handler rt)).
Proof.
  unfold Routes. induction (routeTable Error h) as [|rt rts IH]; cbn [map find_route]; [done|].
  case_bool_decide as E; [intros [= <-]; exists rt; split_and!; [left|done|done]|].
  intros (rt' & Hin & ? & ?)%IH. exists rt'. split_and!; [by right|done|done].
Qed.

Lemma route_public (h : Handlers) (rt : @route W) : rt ∈ routeTable Error h ->
  ro_pattern rt ∈ public_patterns ++ protected_patterns /\
  (ro_public rt = true <-> ro_pattern rt ∈ public_patterns).
Proof.
  intros Hrt. unfold routeTable in Hrt. rewrite !elem_of_cons, elem_of_nil in Hrt.
  repeat (destruct Hrt as [->|Hrt]; [split; [|split; [|]]; cbn [ro_pattern ro_public];
    first [ discriminate | intros _; done | intros Hx; exfalso; revert Hx; apply (bool_decide_eq_false_1 _); vm_compute; reflexivity
          | intros _; apply (bool_decide_eq_true_1 _); vm_compute; reflexivity
          | apply (bool_decide_eq_true_1 _); vm_compute; reflexivity ]|]).
  done.
Qed.

(** Behind every route but the two health probes a handler runs for a verified
    caller only, and as that caller; the answer to anybody else is the same
    whatever the reason, and no handler sees the request. *)
Lemma only_verified_callers_are_served h fresh pattern serve r w :
  Handler Error h fresh pattern = Some serve ->
  pattern ∈ public_patterns ++ protected_patterns /\
  (pattern ∉ public_patterns ->
   let id := correlation_id fresh r in
   let request := WithContext r (WithCorrelationID (rq_ctx r) id) in
   let unserved := with_header CorrelationIDHeader id (refuse request) in
   rs_status unserved = StatusUnauthorized /\
   match bearerToken r with
   | None => serve r w = (Some unserved, w)
   | Some token =>
     match Verify (rq_ctx request) token w with
     | (Err _, w') => serve r w = (Some unserved, w')
     | (Ok identity, w') => exists rt, rt ∈ routeTable Error h /\ ro_pattern rt = pattern /\
       let '(response, w'') := ro_handler rt (WithContext request (WithIdentity (rq_ctx request) identity)) w' in
       serve r w = (Some (with_header CorrelationIDHeader id response), w'')
     end
   end).
Proof.
  unfold Handler. destruct (find_route pattern (Routes Error h)) as [next|] eqn:E; [|done].
  cbn [mbind option_bind]. intros [= <-]. apply find_route_handler in E as (rt & Hrt & <- & ->).
  destruct (route_public h rt Hrt) as [Hin Hpub]. split; [exact Hin|]. intros Hnot. cbn zeta.
  destruct (ro_public rt); [by destruct Hnot; apply Hpub|]. split; [done|].
  unfold withRecovery, withCorrelationID, unfailing, require.
  change (bearerToken (WithContext r (WithCorrelationID (rq_ctx r) (correlation_id fresh r)))) with (bearerToken r).
  destruct (bearerToken r) as [token|]; [|done].
  destruct (Verify _ token w) as [[identity|e] w']; [|done].
  exists rt. split_and!; [exact Hrt|done|]. by destruct (ro_handler rt _ w') as [response w''].
Qed.

(** A panic is answered 500 with the code of an internal error; the answer has
    the correlation id of the request in its header but not in its body, where
    errors have it. *)
Lemma a_panic_is_answered (next : Request -> W -> served * W) fresh r w headers w' :
  cx_correlationID (rq_ctx r) = "" ->
  next (WithContext r (WithCorrelationID (rq_ctx r) (correlation_id fresh r))) w = (Panicked false headers None, w') ->
  exists answer, withRecovery (withCorrelationID fresh next) r w = (Some answer, w') /\
    rs_status answer = StatusInternalServerError /\
    (CorrelationIDHeader, correlation_id fresh r) ∈ rs_headers answer /\
    rs_body answer = Encode (json_error (mkErrorBody "INTERNAL" "internal error" "")).
Proof.
  intros Hctx Hp. unfold withRecovery, withCorrelationID. rewrite Hp. eexists. split; [reflexivity|].
  split; [done|]. split; [apply elem_of_app; left; left|]. cbn [rs_body writeJSON]. unfold CorrelationIDFrom. by rewrite Hctx.
Qed.
End authentication.

(** ** Two ports *)

(** C13: an operation is the same whichever port it comes through: a command
    written as the body of a request, with its key in the header, and the same
    command written as a message are decoded to that very command, whatever
    characters its texts hold; the request is answered with the outcome of
    executing it. *)
Theorem one_operation_two_ports {W} Error (Execute : Context -> SubmitCommand -> M W SubmitResult) c r w id at_ :
  Forall valid_utf8 (texts c) -> valid_utf8 (sc_IdempotencyKey c) -> sc_IdempotencyKey c <> "" ->
  rq_header r IdempotencyKeyHeader = sc_IdempotencyKey c -> rq_body r = write (submit_json c) ->
  Z.of_nat (String.length (rq_body r)) <= maxRequestBody ->
  id <> "" -> valid_utf8 id -> is_utc at_ -> 0 <= (clock_face at_).1.1.1.1 <= 9999 ->
  decodeEnvelope (write (message_json id at_ c)) = Ok (message_of id at_ c, c) /\
  TransactionHandler_Submit Error Execute r w =
  match Execute (rq_ctx r) c w with
  | (Ok result, w') => (writeJSON (submitStatus result) (json_submitResponse (toSubmitResponse result)), w')
  | (Err e, w') => (writeError Error r e, w')
  end.
Proof.
  intros Hc Hkey Hkne Hh Hb Hl Hne Hid Hu Hy. split; [by apply message_decoded|].
  unfold TransactionHandler_Submit, respond. rewrite Hh, (bool_decide_eq_false_2 _ Hkne), (submit_decoded c Hc r Hb Hl).
  rewrite bind_pure_Ok. cbn [sq_Money]. by destruct c.
Qed.
