(* ===== verification/MoneyJson.v ===== *)
(** * MoneyJson: amounts as JSON, [MarshalJSON] and [UnmarshalJSON] of
    [internal/domain/money.go]

    An amount is written as its canonical decimal, in a string, with its
    currency. *)

From S2P Require Import Encoding Rfc3339 Json JsonFacts.
From S2P Require Import Prelude Errors GoTime GoStrings Money HttpFacts.

#[local] Open Scope string_scope.
#[local] Open Scope list_scope.
#[local] Open Scope Z_scope.

(** ** Definitions *)

Record moneyJSON := mkMoneyJSON { mj_Amount : string; mj_Currency : string }.

Definition moneyJSON_fields : list (string * (moneyJSON -> value -> option moneyJSON)) :=
  [("amount", into_field mj_Amount (fun x '(mkMoneyJSON _ c) => mkMoneyJSON x c) into_string);
   ("currency", into_field mj_Currency (fun x '(mkMoneyJSON a _) => mkMoneyJSON a x) into_string)].

Definition value_of_money (m : moneyJSON) : value :=
  of_struct [("amount", of_string (mj_Amount m)); ("currency", of_string (mj_Currency m))].

Definition Money_MarshalJSON (m : Money) : result string :=
  if negb (Money_IsInitialised m) then fail CodeInvalidCurrency
  else Ok (write (value_of_money (mkMoneyJSON (Money_String m) (cur_code (currency m))))).

(** [json.Unmarshal]: one value, and nothing after it. *)
Definition Unmarshal {A} (fields : list (string * (A -> value -> option A))) (zero : A) (data : string) : option A :=
  '(v, rest) ← parse data;
  if bool_decide (skip_space rest = "") then into_struct false fields zero v else None.

(** What the receiver is set to; it is left alone by an error. *)
Definition Money_UnmarshalJSON (data : string) : result Money :=
  match Unmarshal moneyJSON_fields (mkMoneyJSON "" "") data with
  | None => fail CodeInvalidAmount
  | Some raw => currency ← ParseCurrency (mj_Currency raw); ParseMoney (mj_Amount raw) currency
  end.

(** ** Lemmas *)

Lemma ascii_text_app s1 s2 : ascii_text s1 -> ascii_text s2 -> ascii_text (s1 +:+ s2).
Proof.
  unfold ascii_text. induction s1 as [|b s1 IH]; [done|]. cbn. rewrite !Forall_cons. naive_solver.
Qed.

Lemma render_ascii ds : Forall is_digit ds -> ascii_text (render ds).
Proof.
  induction 1 as [|d ds Hd _ IH]; [by constructor|]. cbn. unfold ascii_text in *. constructor; [|exact IH].
  unfold is_digit in Hd. assert (Hall : forallb (fun d => byte_val (digit_char d) <? 128) [0;1;2;3;4;5;6;7;8;9] = true)
    by (vm_compute; reflexivity).
  rewrite forallb_forall in Hall. apply Z.ltb_lt, Hall. cbn. lia.
Qed.

Lemma decimal_ascii s v : decimal s v -> ascii_text s.
Proof.
  intros [neg ds fs _ Hds Hfs _]. apply ascii_text_app; [by destruct neg; repeat constructor|].
  apply ascii_text_app; [by apply render_ascii|]. case_decide; [by constructor|].
  apply (ascii_text_app "."); [by repeat constructor|by apply render_ascii].
Qed.

Lemma all_uppercase_ascii s : all_uppercase s = true -> ascii_text s.
Proof.
  unfold ascii_text. induction s as [|b s IH]; cbn; [constructor|].
  destruct (Z.ltb_spec (byte_val b) 65), (Z.ltb_spec 90 (byte_val b)); cbn; try done. intros Hs.
  constructor; [lia|auto].
Qed.

Lemma ParseCurrency_Ok s c : ParseCurrency s = Ok c -> c = mkCurrency s /\ ascii_text s /\ s <> "".
Proof.
  unfold ParseCurrency. destruct (Nat.eqb_spec (String.length s) 3) as [Hl|]; cbn; [|done].
  destruct (all_uppercase s) eqn:E; cbn; [|done]. intros [= <-]. split_and!; [done|by apply all_uppercase_ascii|].
  by intros ->.
Qed.

Lemma money_read_back a c : valid_utf8 a -> valid_utf8 c ->
  Unmarshal moneyJSON_fields (mkMoneyJSON "" "") (write (value_of_money (mkMoneyJSON a c))) = Some (mkMoneyJSON a c).
Proof.
  intros Ha Hc. unfold Unmarshal.
  assert (Hwf : wf (value_of_money (mkMoneyJSON a c))) by (apply wf_object; names_ok; apply wf_of_string).
  assert (Hh : height (value_of_money (mkMoneyJSON a c)) <= maxNestingDepth) by (vm_compute; done).
  pose proof (parse_write _ "" Hwf Hh I) as Hp. rewrite string_app_nil_r in Hp. rewrite Hp. cbn [mbind option_bind].
  rewrite bool_decide_eq_true_2 by done. cbn [into_struct value_of_money of_struct mj_Amount mj_Currency].
  member 0%nat. member 1%nat. done.
Qed.

(** The currencies the program reads. *)
Definition read_currency (c : Currency) : Prop := ParseCurrency (cur_code c) = Ok c.

Lemma read_currency_initialised m : read_currency (currency m) -> Money_IsInitialised m = true.
Proof.
  intros (_ & _ & Hne)%ParseCurrency_Ok. unfold Money_IsInitialised, Currency_IsZero.
  by rewrite bool_decide_eq_false_2.
Qed.

Lemma marshalled_read m : money_ok m -> read_currency (currency m) ->
  exists data, Money_MarshalJSON m = Ok data /\ Money_UnmarshalJSON data = Ok m.
Proof.
  intros Hm Hc. pose proof (read_currency_initialised m Hc) as Hi. unfold Money_MarshalJSON. rewrite Hi. cbn [negb].
  eexists. split; [reflexivity|]. unfold Money_UnmarshalJSON. rewrite money_read_back.
  - cbn [mj_Currency mj_Amount]. rewrite Hc. cbn. by apply Money_String_parse.
  - apply ascii_text_valid. eapply decimal_ascii, Money_String_decimal, Hm.
  - apply ascii_text_valid. by apply ParseCurrency_Ok in Hc as (_ & ? & _).
Qed.

(** ** Properties *)

(** C33: amounts survive JSON: what is written for an amount in a currency the
    program knows is read back as that amount, the least of [int64] included;
    and whatever is read, from any document, is such an amount, so that it can
    be written and read again unchanged. *)
Theorem amounts_survive_json :
  (forall m, money_ok m -> read_currency (currency m) ->
     exists data, Money_MarshalJSON m = Ok data /\ Money_UnmarshalJSON data = Ok m) /\
  (forall data m, Money_UnmarshalJSON data = Ok m ->
     money_ok m /\ read_currency (currency m) /\
     exists data', Money_MarshalJSON m = Ok data' /\ Money_UnmarshalJSON data' = Ok m).
Proof.
  split; [exact marshalled_read|]. intros data m H. unfold Money_UnmarshalJSON in H.
  destruct (Unmarshal _ _ _) as [raw|]; [|done]. apply result_bind_Ok in H as (c & Hc & H).
  assert (Hm : money_ok m) by (by eapply ParseMoney_ok).
  assert (Hcur : read_currency (currency m)).
  { apply ParseMoney_minor in H as (_ & -> & _). unfold read_currency.
    destruct (ParseCurrency_Ok _ _ Hc) as (-> & _). exact Hc. }
  split_and!; [done..|]. by apply marshalled_read.
Qed.

(** As the comment of the type shows it. *)
Example money_on_the_wire :
  Money_MarshalJSON (mkMoney 2500 (mkCurrency "BRL")) =
  Ok (write (VObject [("amount", of_string "25.00"); ("currency", of_string "BRL")])).
Proof. reflexivity. Qed.

(** An amount that was never set cannot be written. *)
Lemma nothing_is_written_of_no_money : Money_MarshalJSON noMoney = fail CodeInvalidCurrency.
Proof. reflexivity. Qed.
