(* ===== verification/Oidc.v ===== *)
(** * Oidc: [internal/adapter/oidc]

    Bearer tokens verified against one issuer: its discovery document, its
    signing keys with their cache, and the identity a verified token proves.
    The issuer answers requests ([Issuer]); the JWT library reads a token's
    header, checks its signature and its registered claims ([Jwt]).  The mutex
    of the key set makes its calls follow one another, as here. *)

From S2P Require Import Encoding Rfc3339 Json.
From S2P Require Import Prelude Errors GoTime GoStrings Identifier Identity Ports.

#[local] Open Scope string_scope.
#[local] Open Scope list_scope.
#[local] Open Scope Z_scope.

(** ** Keys *)

Record PublicKey := mkPublicKey { pk_N : Z; pk_E : Z }.

#[global] Instance PublicKey_eq_dec : EqDecision PublicKey.
Proof. solve_decision. Defined.

Record jsonWebKey := mkJsonWebKey {
  jk_Kty : string;
  jk_Kid : string;
  jk_Use : string;
  jk_Alg : string;
  jk_N : string;
  jk_E : string
}.

Definition jsonWebKey_fields : list (string * (jsonWebKey -> value -> option jsonWebKey)) :=
  [("kty", into_field jk_Kty (fun x '(mkJsonWebKey _ b c d e f) => mkJsonWebKey x b c d e f) into_string);
   ("kid", into_field jk_Kid (fun x '(mkJsonWebKey a _ c d e f) => mkJsonWebKey a x c d e f) into_string);
   ("use", into_field jk_Use (fun x '(mkJsonWebKey a b _ d e f) => mkJsonWebKey a b x d e f) into_string);
   ("alg", into_field jk_Alg (fun x '(mkJsonWebKey a b c _ e f) => mkJsonWebKey a b c x e f) into_string);
   ("n", into_field jk_N (fun x '(mkJsonWebKey a b c d _ f) => mkJsonWebKey a b c d x f) into_string);
   ("e", into_field jk_E (fun x '(mkJsonWebKey a b c d e _) => mkJsonWebKey a b c d e x) into_string)].

(** [big.Int.SetBytes] *)
Definition SetBytes (s : string) : Z :=
  foldl (fun n b => n * 256 + byte_val b) 0 (String.list_ascii_of_string s).

(** [jsonWebKey.public] *)
Definition public (k : jsonWebKey) : option PublicKey :=
  if bool_decide (jk_Kid k = "") || (negb (bool_decide (jk_Use k = "")) && negb (bool_decide (jk_Use k = "sig")))
  then None
  else if negb (bool_decide (jk_Kty k = "RSA")) then None
  else
    modulus ← RawURLEncoding_DecodeString (jk_N k);
    if bool_decide (modulus = "") then None
    else
      exponent ← RawURLEncoding_DecodeString (jk_E k);
      if bool_decide (exponent = "") || (8 <? Z.of_nat (String.length exponent)) then None
      else
        let e := i64 (SetBytes exponent) in
        if (e <=? 0) || (2147483648 <? e) then None else Some (mkPublicKey (SetBytes modulus) e).

(** The map [fetch] builds: a later key of the same id wins. *)
Fixpoint usable_keys (keys : gmap string PublicKey) (document : list jsonWebKey) : gmap string PublicKey :=
  match document with
  | [] => keys
  | key :: document =>
    match public key with
    | None => usable_keys keys document
    | Some pk => usable_keys (<[jk_Kid key := pk]> keys) document
    end
  end.

Definition maxJWKSBytes : Z := 1048576.
Definition maxDiscoveryBytes : Z := 1048576.

Definition decode_jwks (body : string) : option (list jsonWebKey) :=
  '(v, _) ← readValue false (string_take maxJWKSBytes body);
  into_struct false
    [("keys", into_slice (mkJsonWebKey "" "" "" "" "" "") (into_struct false jsonWebKey_fields))] [] v.

(** What the answer to a request for the key set holds. *)
Definition jwks_keys (answer : option (Z * string)) : result (gmap string PublicKey) :=
  match answer with
  | None => Err (Opaque "fetching the jwks")
  | Some (status, body) =>
    if negb (status =? 200) then Err (Opaque "fetching the jwks")
    else
      match decode_jwks body with
      | None => Err (Opaque "decoding the jwks")
      | Some document =>
        let keys := usable_keys ∅ document in
        if bool_decide (keys = ∅) then Err (Opaque "no usable signing key") else Ok keys
      end
  end.

(** ** The key set *)

Record keySet := mkKeySet {
  ks_uri : string;
  ks_ttl : Duration;
  ks_keys : option (gmap string PublicKey);
  ks_fetchedAt : Time
}.

Definition newKeySet (uri : string) (ttl : Duration) : keySet := mkKeySet uri ttl None zeroTime.

Definition minRefreshInterval : Duration := 5 * Second.

(** A GET of a URL: the status and the body, or no answer. *)
Class Issuer (W : Type) := { Issuer_Get : string -> W -> option (Z * string) * W }.

Section keys.
Context {W : Type} `{Clock W} `{Issuer W}.

Definition keySet_fetch (k : keySet) : M W keySet := fun w =>
  let '(answer, w) := Issuer_Get (ks_uri k) w in
  match jwks_keys answer with
  | Err e => (Err e, w)
  | Ok keys =>
    let '(at_, w) := Clock_Now w in (Ok (mkKeySet (ks_uri k) (ks_ttl k) (Some keys) at_), w)
  end.

Definition known_key (k : keySet) (kid : string) : option PublicKey :=
  keys ← ks_keys k; keys !! kid.

(** The end of [key]: what is cached, or one more request when the last one is
    old enough. *)
Definition keySet_find (kid : string) (k : keySet) (w : W) : result PublicKey * keySet * W :=
  match known_key k kid with
  | Some pk => (Ok pk, k, w)
  | None =>
    let '(t, w) := Clock_Now w in
    if minRefreshInterval <=? Time_Sub t (ks_fetchedAt k) then
      match keySet_fetch k w with
      | (Err e, w) => (Err e, k, w)
      | (Ok k', w) =>
        match known_key k' kid with
        | Some pk => (Ok pk, k', w)
        | None => (Err (Opaque "no signing key"), k', w)
        end
      end
    else (Err (Opaque "no signing key"), k, w)
  end.

(** [keySet.key] *)
Definition keySet_key (kid : string) (k : keySet) (w : W) : result PublicKey * keySet * W :=
  let '(stale, w) :=
    match ks_keys k with
    | None => (true, w)
    | Some _ => let '(t, w) := Clock_Now w in (ks_ttl k <=? Time_Sub t (ks_fetchedAt k), w)
    end in
  if stale : bool then
    match keySet_fetch k w with
    | (Err e, w) =>
      match known_key k kid with
      | Some pk => (Ok pk, k, w)
      | None => (Err e, k, w)
      end
    | (Ok k', w) => keySet_find kid k' w
    end
  else keySet_find kid k w.
End keys.

(** ** The verifier *)

Record Config := mkConfig {
  cg_IssuerURL : string;
  cg_Audience : string;
  cg_ProviderClaim : string;
  cg_CacheTTL : Duration;
  cg_Leeway : Duration
}.

Definition DefaultProviderClaim : string := "provider_id".
Definition DefaultLeeway : Duration := 30 * Second.
Definition DefaultCacheTTL : Duration := 5 * Minute.

Definition signingMethods : list string := ["RS256"; "RS384"; "RS512"; "PS256"; "PS384"; "PS512"].

(** The options of [jwt.NewParser]. *)
Record ParserOptions := mkParserOptions {
  po_ValidMethods : list string;
  po_Issuer : string;
  po_Audience : string;
  po_ExpirationRequired : bool;
  po_Leeway : Duration
}.

Record Verifier := mkVerifier {
  vf_issuer : string;
  vf_providerClaim : string;
  vf_keys : keySet;
  vf_parser : ParserOptions
}.

Record discovery := mkDiscovery { dc_Issuer : string; dc_JWKSURI : string }.

Definition discovery_fields : list (string * (discovery -> value -> option discovery)) :=
  [("issuer", into_field dc_Issuer (fun x '(mkDiscovery _ b) => mkDiscovery x b) into_string);
   ("jwks_uri", into_field dc_JWKSURI (fun x '(mkDiscovery a _) => mkDiscovery a x) into_string)].

Definition decode_discovery (body : string) : option discovery :=
  '(v, _) ← readValue false (string_take maxDiscoveryBytes body);
  into_struct false discovery_fields (mkDiscovery "" "") v.

Section verifier.
Context {W : Type} `{Clock W} `{Issuer W}.

Definition discover (issuer : string) : M W string := fun w =>
  let '(answer, w) := Issuer_Get (issuer +:+ "/.well-known/openid-configuration") w in
  (match answer with
   | None => Err (Opaque "reaching the identity provider")
   | Some (status, body) =>
     if negb (status =? 200) then Err (Opaque "the identity provider answered")
     else
       match decode_discovery body with
       | None => Err (Opaque "decoding the discovery document")
       | Some document =>
         if negb (bool_decide (TrimSuffix (dc_Issuer document) "/" = issuer))
         then Err (Opaque "the discovery document claims another issuer")
         else if bool_decide (dc_JWKSURI document = "") then Err (Opaque "no jwks_uri")
         else Ok (dc_JWKSURI document)
       end
   end, w).

(** [New] *)
Definition NewVerifier (cfg : Config) : M W Verifier :=
  if bool_decide (cg_IssuerURL cfg = "") then throw (Opaque "the oidc issuer url is required")
  else if bool_decide (cg_Audience cfg = "") then throw (Opaque "the oidc audience is required")
  else
    let issuer := TrimSuffix (cg_IssuerURL cfg) "/" in
    jwksURI ← discover issuer;
    let providerClaim := if bool_decide (cg_ProviderClaim cfg = "") then DefaultProviderClaim else cg_ProviderClaim cfg in
    let ttl := if cg_CacheTTL cfg <=? 0 then DefaultCacheTTL else cg_CacheTTL cfg in
    let leeway := if cg_Leeway cfg <=? 0 then DefaultLeeway else cg_Leeway cfg in
    mret (mkVerifier issuer providerClaim (newKeySet jwksURI ttl)
      (mkParserOptions signingMethods issuer (cg_Audience cfg) true leeway)).
End verifier.

(** ** Claims *)

(** A JSON value as [jwt.MapClaims] holds it. *)
Inductive claim :=
| ClaimString (s : string)
| ClaimList (l : list claim)
| ClaimNull
| ClaimOther.

Abbreviation Claims := (gmap string claim) (only parsing).

(** The JWT library.  [jwt_header] reads a token's header: [None] for a token
    that is malformed or signed with a method that is not valid, and otherwise
    its key id, empty when there is none.  [jwt_claims] checks the signature
    with a key, and the issuer, the audience and the times against the
    options. *)
Class Jwt (W : Type) := {
  jwt_header : ParserOptions -> string -> option string;
  jwt_claims : ParserOptions -> PublicKey -> string -> W -> option Claims * W;
  jwt_subject : Claims -> result string
}.

Definition stringClaim (claims : Claims) (name : string) : result string :=
  match claims !! name with
  | None | Some ClaimNull => Ok ""
  | Some (ClaimString text) => Ok text
  | Some _ => Err (Opaque "the claim is not a string")
  end.

Fixpoint claim_texts (l : list claim) : list string :=
  match l with
  | [] => []
  | ClaimString text :: l => text :: claim_texts l
  | _ :: l => claim_texts l
  end.

Definition scopesOf (claims : Claims) : list string :=
  (match claims !! "scope" with Some (ClaimString text) => Fields text | _ => [] end) ++
  (match claims !! "scp" with Some (ClaimList l) => claim_texts l | _ => [] end).

Definition unauthenticated {A} : result A := Err (Wrapped (SentinelError ErrUnauthenticated)).

(** The end of [Verify]: the identity the claims prove. *)
Definition identity_of `{Jwt W} (v : Verifier) (claims : Claims) : result Identity :=
  match jwt_subject claims with
  | Err _ => unauthenticated
  | Ok subject =>
    match stringClaim claims (vf_providerClaim v) with
    | Err _ => unauthenticated
    | Ok providerID => NewIdentity (mkIdentityParams subject providerID (scopesOf claims))
    end
  end.

Section verify.
Context {W : Type} `{Clock W} `{Issuer W} `{Jwt W}.

(** [key]: the parser calls it with the key id of the header, which is empty
    when the header has none or one that is not a string; the verifier's key
    set goes in and comes out. *)
Definition Verifier_key (v : Verifier) (kid : string) (w : W) : result PublicKey * Verifier * W :=
  if bool_decide (kid = "") then (Err (Opaque "the token header has no key id"), v, w)
  else
    let '(r, keys, w) := keySet_key kid (vf_keys v) w in
    (r, mkVerifier (vf_issuer v) (vf_providerClaim v) keys (vf_parser v), w).

(** [Verify] *)
Definition Verifier_Verify (v : Verifier) (raw : string) (w : W) : result Identity * Verifier * W :=
  match jwt_header (vf_parser v) raw with
  | None => (unauthenticated, v, w)
  | Some kid =>
    let '(r, v, w) := Verifier_key v kid w in
    match r with
    | Err _ => (unauthenticated, v, w)
    | Ok pk =>
      let '(claims, w) := jwt_claims (vf_parser v) pk raw w in
      match claims with
      | None => (unauthenticated, v, w)
      | Some claims => (identity_of v claims, v, w)
      end
    end
  end.
End verify.

(** ** Lemmas *)

(** A key this service may verify with. *)
Definition usable (pk : PublicKey) : Prop := 0 < pk_E pk <= 2147483648.

Definition keySet_ok (k : keySet) : Prop :=
  forall keys, ks_keys k = Some keys -> keys <> ∅ /\ map_Forall (fun kid pk => kid <> "" /\ usable pk) keys.

(** *** What a key set document says

    Said without the functions above, apart from the decoding of JSON into the
    struct and of base64: which entries are signing keys of which value, and
    which keys a document publishes. *)

(** The integer that bytes spell, the most significant first. *)
Fixpoint bytes_value (s : string) : Z :=
  match s with
  | EmptyString => 0
  | String b rest => byte_val b * 256 ^ Z.of_nat (String.length rest) + bytes_value rest
  end.

(** An entry is the signing key [pk]: it has an id, it is an RSA key meant for
    signatures or for no use in particular, and its two numbers are those of
    [pk], the exponent positive and at most 2^31, in eight bytes at most. *)
Inductive is_signing_key (k : jsonWebKey) : PublicKey -> Prop :=
| is_signing_key_intro modulus exponent :
    jk_Kid k <> "" -> jk_Kty k = "RSA" -> jk_Use k = "" \/ jk_Use k = "sig" ->
    RawURLEncoding_DecodeString (jk_N k) = Some modulus -> modulus <> "" ->
    RawURLEncoding_DecodeString (jk_E k) = Some exponent ->
    (0 < String.length exponent <= 8)%nat -> 0 < bytes_value exponent <= 2147483648 ->
    is_signing_key k (mkPublicKey (bytes_value modulus) (bytes_value exponent)).

(** No entry of the list is a signing key of this id. *)
Definition silent_on (kid : string) (document : list jsonWebKey) : Prop :=
  Forall (fun k => jk_Kid k = kid -> forall pk, ~ is_signing_key k pk) document.

(** The last signing key of that id in the document is [pk]. *)
Definition published_as (document : list jsonWebKey) (kid : string) (pk : PublicKey) : Prop :=
  exists before k after, document = before ++ k :: after /\
    jk_Kid k = kid /\ is_signing_key k pk /\ silent_on kid after.

(** An answer publishes a set of keys: it is a document, and the keys of the
    set, of which there is one at least, are its signing keys. *)
Definition published (answer : option (Z * string)) (keys : gmap string PublicKey) : Prop :=
  exists body document, answer = Some (200, body) /\ decode_jwks body = Some document /\
    keys <> ∅ /\ forall kid pk, keys !! kid = Some pk <-> published_as document kid pk.

(** The text of the last member of a name (in whatever case) that is not null. *)
Fixpoint member_text (name old : string) (ms : list (string * value)) : string :=
  match ms with
  | [] => old
  | (content, v) :: ms =>
    member_text name
      (if bool_decide (fold_name <$> unquote content = Some (fold_name name))
       then match v with VString text => default old (unquote text) | _ => old end else old) ms
  end.

(** An element of the list [keys] of a document, and the entry it is read as. *)
Definition read_as (v : value) (k : jsonWebKey) : Prop :=
  (v = VNull /\ k = mkJsonWebKey "" "" "" "" "" "") \/
  exists ms, v = VObject ms /\
    jk_Kty k = member_text "kty" "" ms /\ jk_Kid k = member_text "kid" "" ms /\
    jk_Use k = member_text "use" "" ms /\ jk_N k = member_text "n" "" ms /\ jk_E k = member_text "e" "" ms.

Lemma SetBytes_bytes_value s : SetBytes s = bytes_value s.
Proof.
  unfold SetBytes. transitivity (0 * 256 ^ Z.of_nat (String.length s) + bytes_value s); [|lia].
  generalize 0. induction s as [|b s IH]; intros n; cbn [String.list_ascii_of_string foldl bytes_value String.length]; [lia|].
  rewrite IH, Nat2Z.inj_succ, Z.pow_succ_r by lia. lia.
Qed.

Lemma bytes_value_range s : 0 <= bytes_value s < 256 ^ Z.of_nat (String.length s).
Proof.
  induction s as [|b s IH]; cbn [bytes_value String.length]; [lia|].
  rewrite Nat2Z.inj_succ, Z.pow_succ_r by lia. pose proof (byte_val_range b). nia.
Qed.

(** The eight bytes of the exponent are read as a signed number; what does not
    fit is negative, and refused. *)
Lemma exponent_checked s : (String.length s <= 8)%nat ->
  0 < i64 (SetBytes s) <= 2147483648 <-> 0 < bytes_value s <= 2147483648.
Proof.
  intros Hl. rewrite SetBytes_bytes_value. pose proof (bytes_value_range s) as [H0 H1].
  assert (256 ^ Z.of_nat (String.length s) <= 256 ^ 8) by (apply Z.pow_le_mono_r; lia).
  destruct (Z.leb_spec (bytes_value s) MaxInt64).
  - rewrite i64_id; [done|]. width; lia.
  - assert (i64 (bytes_value s) < 0); [|unfold MaxInt64 in *; lia].
    assert (256 ^ 8 = 18446744073709551616) by reflexivity.
    width. Z.to_euclidean_division_equations; lia.
Qed.

Lemma public_spec k pk : public k = Some pk <-> is_signing_key k pk.
Proof.
  unfold public. split.
  - intros H. repeat (case_bool_decide; cbn [orb andb negb] in H; try done);
      (destruct (RawURLEncoding_DecodeString (jk_N k)) as [m|] eqn:Em; cbn [mbind option_bind] in H; [|done]);
      (case_bool_decide; [done|]);
      (destruct (RawURLEncoding_DecodeString (jk_E k)) as [x|] eqn:Ex; cbn [mbind option_bind] in H; [|done]);
      case_bool_decide as Hx; cbn [orb] in H; try done;
      (destruct (Z.ltb_spec 8 (Z.of_nat (String.length x))); [done|]).
    all: destruct ((i64 (SetBytes x) <=? 0) || (2147483648 <? i64 (SetBytes x))) eqn:Eb; [done|]; injection H as <-.
    all: assert (Hb : 0 < i64 (SetBytes x) <= 2147483648) by lia.
    all: apply (exponent_checked x ltac:(lia)) in Hb as Hb'.
    all: rewrite i64_id by (rewrite SetBytes_bytes_value; width; lia); rewrite !SetBytes_bytes_value.
    all: apply is_signing_key_intro; auto; destruct x; [done|]; cbn in *; lia.
  - intros [m x Hkid Hkty Huse Em Hm Ex Hl Hb].
    rewrite (bool_decide_eq_false_2 _ Hkid). cbn [orb].
    replace (negb (bool_decide (jk_Use k = "")) && negb (bool_decide (jk_Use k = "sig"))) with false
      by (destruct Huse as [-> | ->]; reflexivity).
    rewrite (bool_decide_eq_true_2 _ Hkty), Em. cbn [negb mbind option_bind]. rewrite (bool_decide_eq_false_2 _ Hm), Ex.
    cbn [mbind option_bind]. rewrite bool_decide_eq_false_2 by (intros ->; cbn in Hl; lia). cbn [orb].
    replace (8 <? Z.of_nat (String.length x)) with false by lia.
    apply (exponent_checked x ltac:(lia)) in Hb as Hb'.
    replace ((i64 (SetBytes x) <=? 0) || (2147483648 <? i64 (SetBytes x))) with false by lia.
    rewrite i64_id by (rewrite SetBytes_bytes_value; width; lia). by rewrite !SetBytes_bytes_value.
Qed.

Lemma is_signing_key_unique k pk pk' : is_signing_key k pk -> is_signing_key k pk' -> pk = pk'.
Proof. intros H%public_spec H'%public_spec. congruence. Qed.

Lemma is_signing_key_usable k pk : is_signing_key k pk -> jk_Kid k <> "" /\ usable pk.
Proof. by intros []. Qed.

Lemma published_as_cons key document kid pk :
  published_as (key :: document) kid pk <->
  published_as document kid pk \/ (jk_Kid key = kid /\ is_signing_key key pk /\ silent_on kid document).
Proof.
  split.
  - intros ([|key' before] & k & after & E & Hk); simplify_eq/=; [by right|left].
    by exists before, k, after.
  - intros [(before & k & after & -> & Hk)|Hk]; [by exists (key :: before), k, after|by exists [], key, document].
Qed.

(** A later key of the same id wins. *)
Lemma usable_keys_lookup document kid pk : forall keys,
  usable_keys keys document !! kid = Some pk <->
  published_as document kid pk \/ (keys !! kid = Some pk /\ silent_on kid document).
Proof.
  induction document as [|key document IH]; intros keys; cbn [usable_keys].
  { unfold silent_on. split; [auto|]. intros [(before & k & after & E & _)|[? _]]; [by destruct before|done]. }
  rewrite published_as_cons. unfold silent_on. rewrite Forall_cons. fold (silent_on kid document).
  destruct (public key) as [pk'|] eqn:E.
  - apply public_spec in E. rewrite IH. destruct (decide (jk_Kid key = kid)) as [<-|Hne].
    + rewrite lookup_insert_eq. split; [|intros [[?|(_ & H & ?)]|(_ & H & _)]].
      * intros [?|[[= <-] ?]]; auto.
      * by left.
      * right. by rewrite (is_signing_key_unique _ _ _ E H).
      * by destruct (H eq_refl pk').
    + rewrite lookup_insert_ne by done. intuition.
  - rewrite IH. assert (Hn : forall pk', ~ is_signing_key key pk') by (intros ? H%public_spec; congruence).
    split; [naive_solver|]. intros [[?|(_ & H & _)]|(? & _ & ?)]; [by left|by destruct (Hn pk)|by right].
Qed.

Lemma jwks_keys_published answer keys : jwks_keys answer = Ok keys -> published answer keys.
Proof.
  unfold jwks_keys. destruct answer as [[status body]|]; [|done]. destruct (Z.eqb_spec status 200) as [->|]; [|done].
  cbn [negb]. destruct (decode_jwks body) as [document|] eqn:E; [|done]. case_bool_decide; [done|]. intros [= <-].
  exists body, document. split_and!; [done..|]. intros kid pk. rewrite usable_keys_lookup, lookup_empty. naive_solver.
Qed.

Lemma published_ok answer keys : published answer keys ->
  keys <> ∅ /\ map_Forall (fun kid pk => kid <> "" /\ usable pk) keys.
Proof.
  intros (body & document & _ & _ & Hne & Hk). split; [done|].
  intros kid pk (before & k & after & _ & <- & Hs & _)%Hk. by apply is_signing_key_usable.
Qed.

(** Which of two names of the struct a member has, and what storing it does:
    a text is stored, null changes nothing, anything else is refused. *)
Ltac decide_names :=
  repeat match goal with |- context [bool_decide (fold_name ?m = fold_name ?n)] =>
    let b := eval vm_compute in (bool_decide (fold_name m = fold_name n)) in
    replace (bool_decide (fold_name m = fold_name n)) with b by (vm_compute; reflexivity)
  end.

Ltac store_text IH :=
  unfold into_field;
  match goal with |- context [into_string _ ?v] =>
    destruct v; cbn [into_string mbind option_bind]; try discriminate
  end;
  [|match goal with |- context [unquote ?c] => destruct (unquote c) end;
    cbn [mbind option_bind]; [|discriminate]];
  let Hs := fresh in
  match goal with a : jsonWebKey |- _ => destruct a; intros Hs; exact (IH _ _ Hs) end.

(** The members of an element go where the tags of the struct say. *)
Lemma jsonWebKey_member key :
  lookup_field jsonWebKey_fields key = find_field (fun name => bool_decide (fold_name name = fold_name key)) jsonWebKey_fields.
Proof.
  unfold lookup_field, jsonWebKey_fields. cbn [find_field].
  repeat (case_bool_decide; [subst key; reflexivity|]). reflexivity.
Qed.

Lemma store_jsonWebKey ms : forall a k, store_members false jsonWebKey_fields a ms = Some k ->
  jk_Kty k = member_text "kty" (jk_Kty a) ms /\ jk_Kid k = member_text "kid" (jk_Kid a) ms /\
  jk_Use k = member_text "use" (jk_Use a) ms /\ jk_N k = member_text "n" (jk_N a) ms /\ jk_E k = member_text "e" (jk_E a) ms.
Proof.
  induction ms as [|[content v] ms IH]; intros a k; cbn [store_members member_text]; [by intros [= <-]|].
  destruct (unquote content) as [key|]; [|done]. cbn [mbind option_bind fmap option_fmap option_map].
  rewrite jsonWebKey_member. unfold jsonWebKey_fields. cbn [find_field]. fold jsonWebKey_fields.
  assert (Hsym : forall name, bool_decide (Some (fold_name key) = Some (fold_name name)) = bool_decide (fold_name name = fold_name key))
    by (intros name; apply bool_decide_ext; split; congruence).
  rewrite !Hsym. clear Hsym. generalize (fold_name key). clear key. intros x.
  repeat match goal with
  | |- context [bool_decide (fold_name ?n = x)] =>
    destruct (bool_decide_reflect (fold_name n = x)) as [<-|?]; [decide_names; store_text IH|]
  end.
  by apply IH.
Qed.

Lemma document_read body vs rest document :
  readValue false (string_take maxJWKSBytes body) = Some (VObject [("keys", VArray vs)], rest) ->
  decode_jwks body = Some document -> Forall2 read_as vs document.
Proof.
  unfold decode_jwks. intros ->. cbn [mbind option_bind into_struct store_members].
  change (unquote "keys") with (Some "keys"). cbn [mbind option_bind].
  change (lookup_field _ "keys") with (Some (into_slice (mkJsonWebKey "" "" "" "" "" "") (into_struct false jsonWebKey_fields))).
  cbn [into_slice]. destruct (into_elements _ _ _ _) as [l|] eqn:E; [|done]. intros [= <-].
  revert l E. induction vs as [|v vs IH]; intros l; cbn [into_elements]; [by intros [= <-]|].
  destruct (into_struct _ _ _ v) as [k|] eqn:Ek; [|done]. cbn [mbind option_bind].
  destruct (into_elements _ _ _ vs) as [l'|]; [|done]. intros [= <-]. constructor; [|by apply IH].
  destruct v as [| | | | |ms]; try discriminate Ek; [left; by injection Ek as <-|right].
  exists ms. split; [done|]. by apply (store_jsonWebKey ms (mkJsonWebKey "" "" "" "" "" "")).
Qed.

Section facts.
Context {W : Type} `{Clock W} `{Issuer W}.

(** A call reads the clock and asks the issuer, at its own address, no more. *)
Inductive consulted (uri : string) (w : W) : W -> Prop :=
| consulted_none : consulted uri w w
| consulted_clock w1 : consulted uri w w1 -> consulted uri w (Clock_Now w1).2
| consulted_issuer w1 : consulted uri w w1 -> consulted uri w (Issuer_Get uri w1).2.

(** A call at [w] either keeps the set or replaces it with what the issuer
    published when it was asked during the call, dated by the clock then. *)
Definition refreshed (w : W) (k k' : keySet) : Prop :=
  k' = k \/ exists w0 keys, consulted (ks_uri k) w w0 /\ published (Issuer_Get (ks_uri k) w0).1 keys /\
    k' = mkKeySet (ks_uri k) (ks_ttl k) (Some keys) (Clock_Now (Issuer_Get (ks_uri k) w0).2).1.

Lemma keySet_fetch_Ok k w w1 k' w' : consulted (ks_uri k) w w1 -> keySet_fetch k w1 = (Ok k', w') ->
  refreshed w k k' /\ ks_uri k' = ks_uri k /\ ks_ttl k' = ks_ttl k /\ consulted (ks_uri k) w w'.
Proof.
  intros Hc. pose proof (consulted_issuer _ _ _ Hc) as Hi. pose proof (consulted_clock _ _ _ Hi) as Hk. revert Hi Hk.
  unfold keySet_fetch. destruct (Issuer_Get (ks_uri k) w1) as [answer w2] eqn:E. cbn [snd]. intros _.
  destruct (jwks_keys answer) as [keys|e] eqn:Ek; [|done]. destruct (Clock_Now w2) as [at_ w3] eqn:Et. intros Hk [= <- <-].
  split_and!; [|done..]. right. exists w1, keys. rewrite E. cbn [fst snd]. rewrite Et. split_and!; [done|by apply jwks_keys_published|done].
Qed.

(** What any call of [key] comes to. *)
Definition key_answer (w : W) (kid : string) (k : keySet) (r : result PublicKey) (k' : keySet) : Prop :=
  refreshed w k k' /\ match r with Ok pk => known_key k' kid = Some pk | Err _ => known_key k' kid = None end.

Lemma refreshed_trans w k1 k2 k3 : ks_uri k2 = ks_uri k1 -> ks_ttl k2 = ks_ttl k1 ->
  refreshed w k1 k2 -> refreshed w k2 k3 -> refreshed w k1 k3.
Proof. intros E1 E2 H12 [->|H23]; [done|]. right. by rewrite E1, E2 in H23. Qed.

Lemma keySet_find_answer kid k w w1 : consulted (ks_uri k) w w1 ->
  let '(r, k', _) := keySet_find kid k w1 in key_answer w kid k r k'.
Proof.
  intros Hc. unfold keySet_find. destruct (known_key k kid) as [pk|] eqn:E; [by split; [left|]|].
  apply consulted_clock in Hc. destruct (Clock_Now w1) as [t w2]. destruct (minRefreshInterval <=? _); [|by split; [left|]].
  destruct (keySet_fetch k w2) as [[k'|e] w3] eqn:Ef; [|by split; [left|]].
  eapply keySet_fetch_Ok in Ef as [Ef _]; [|exact Hc]. by destruct (known_key k' kid) as [pk|] eqn:E'.
Qed.

Lemma keySet_key_answer kid k w : let '(r, k', _) := keySet_key kid k w in key_answer w kid k r k'.
Proof.
  unfold keySet_key.
  assert (Hc : consulted (ks_uri k) w (match ks_keys k with
    | None => (true, w)
    | Some _ => let '(t, w) := Clock_Now w in (ks_ttl k <=? Time_Sub t (ks_fetchedAt k), w)
    end).2).
  { destruct (ks_keys k); [|constructor]. pose proof (consulted_clock _ _ _ (consulted_none (ks_uri k) w)) as Hc.
    by destruct (Clock_Now w). }
  destruct (match ks_keys k with None => _ | _ => _ end) as [stale w1]. cbn [snd] in Hc.
  destruct stale; [|by apply keySet_find_answer].
  destruct (keySet_fetch k w1) as [[k'|e] w2] eqn:Ef.
  - eapply keySet_fetch_Ok in Ef as (Hr1 & Hu & Ht & Hc'); [|exact Hc]. rewrite <- Hu in Hc'.
    pose proof (keySet_find_answer kid k' w w2 Hc') as Ha. destruct (keySet_find kid k' w2) as [[r k''] w3].
    destruct Ha as [Hr Ha]. split; [|exact Ha]. by eapply refreshed_trans; [..|exact Hr].
  - destruct (known_key k kid) as [pk|] eqn:E; (split; [by left|done]).
Qed.

Lemma refreshed_ok w k k' : refreshed w k k' -> keySet_ok k -> keySet_ok k'.
Proof.
  intros [->|(w0 & keys & _ & Hp & ->)] Hk; [done|]. intros keys' [= <-]. by apply published_ok in Hp.
Qed.
End facts.

(** Verifying a token touches no more of the world than the clock, the issuer
    and the library do. *)
Section untouched.
Context {W : Type} `{Clock W} `{Issuer W} `{Jwt W} (Q : W -> Prop).
Context (Q_clock : forall w, Q w -> Q (Clock_Now w).2) (Q_issuer : forall uri w, Q w -> Q (Issuer_Get uri w).2).
Context (Q_jwt : forall options pk raw w, Q w -> Q (jwt_claims options pk raw w).2).

Lemma keySet_fetch_untouched k w : Q w -> Q (keySet_fetch k w).2.
Proof using Q_clock Q_issuer.
  intros Hw. unfold keySet_fetch. pose proof (Q_issuer (ks_uri k) w Hw) as Hi.
  destruct (Issuer_Get (ks_uri k) w) as [answer w1]. destruct (jwks_keys answer); [|exact Hi].
  pose proof (Q_clock w1 Hi) as Hc. by destruct (Clock_Now w1).
Qed.

Lemma keySet_find_untouched kid k w : Q w -> Q (keySet_find kid k w).2.
Proof using Q_clock Q_issuer.
  intros Hw. unfold keySet_find. destruct (known_key k kid); [exact Hw|].
  pose proof (Q_clock w Hw) as Hc. destruct (Clock_Now w) as [t w1].
  destruct (minRefreshInterval <=? _); [|exact Hc]. pose proof (keySet_fetch_untouched k w1 Hc) as Hf.
  destruct (keySet_fetch k w1) as [[k'|e] w2]; [|exact Hf]. by destruct (known_key k' kid).
Qed.

Lemma keySet_key_untouched kid k w : Q w -> Q (keySet_key kid k w).2.
Proof using Q_clock Q_issuer.
  intros Hw. unfold keySet_key.
  assert (Hs : Q (match ks_keys k with
    | None => (true, w)
    | Some _ => let '(t, w) := Clock_Now w in (ks_ttl k <=? Time_Sub t (ks_fetchedAt k), w)
    end).2).
  { destruct (ks_keys k); [|exact Hw]. pose proof (Q_clock w Hw) as Hc. by destruct (Clock_Now w). }
  destruct (match ks_keys k with None => _ | Some _ => _ end) as [stale w1].
  destruct stale; [|by apply keySet_find_untouched].
  pose proof (keySet_fetch_untouched k w1 Hs) as Hf. destruct (keySet_fetch k w1) as [[k'|e] w2].
  - by apply keySet_find_untouched.
  - by destruct (known_key k kid).
Qed.

Lemma Verify_untouched v raw w : Q w -> Q (Verifier_Verify v raw w).2.
Proof using All.
  intros Hw. unfold Verifier_Verify, Verifier_key. destruct (jwt_header (vf_parser v) raw) as [kid|]; [|exact Hw].
  destruct (bool_decide (kid = "")); [exact Hw|]. pose proof (keySet_key_untouched kid (vf_keys v) w Hw) as Hk.
  destruct (keySet_key kid (vf_keys v) w) as [[[pk|e] keys] w1]; [|exact Hk]. cbn [vf_parser].
  pose proof (Q_jwt (vf_parser v) pk raw w1 Hk) as Hj. by destruct (jwt_claims (vf_parser v) pk raw w1) as [[claims|] w2].
Qed.
End untouched.

(** A token proves a caller only through the issuer: an identity comes from a
    token whose header names a key of the issuer's, whose claims that key and
    the parser's options vouch for; every refusal is the same sentinel. *)
Definition proven {W} `{Jwt W} (v v' : Verifier) (raw : string) (identity : Identity) : Prop :=
  exists kid pk claims subject provider w1,
    jwt_header (vf_parser v) raw = Some kid /\ kid <> "" /\ known_key (vf_keys v') kid = Some pk /\
    (jwt_claims (vf_parser v) pk raw w1).1 = Some claims /\
    jwt_subject claims = Ok subject /\ stringClaim claims (vf_providerClaim v) = Ok provider /\
    NewIdentity (mkIdentityParams subject provider (scopesOf claims)) = Ok identity.

Section proof.
Context {W : Type} `{Clock W} `{Issuer W} `{Jwt W}.

Lemma Verify_proven v raw w : keySet_ok (vf_keys v) ->
  let '(r, v', w') := Verifier_Verify v raw w in
  keySet_ok (vf_keys v') /\ refreshed w (vf_keys v) (vf_keys v') /\ vf_parser v' = vf_parser v /\
  match r with
  | Ok identity => proven v v' raw identity
  | Err e => e = Wrapped (SentinelError ErrUnauthenticated)
  end.
Proof.
  intros Hk. unfold Verifier_Verify, Verifier_key. destruct (jwt_header (vf_parser v) raw) as [kid|] eqn:Eh; [|split_and!; first [done|by left]].
  case_bool_decide as Hkid; [split_and!; first [done|by left]|].
  pose proof (keySet_key_answer kid (vf_keys v) w) as Ha.
  destruct (keySet_key kid (vf_keys v) w) as [[r keys] w1]. destruct Ha as [Hr Ha].
  pose proof (refreshed_ok _ _ _ Hr Hk) as Hk'.
  destruct r as [pk|e]; [|exact (conj Hk' (conj Hr (conj eq_refl eq_refl)))].
  cbn [vf_parser]. destruct (jwt_claims (vf_parser v) pk raw w1) as [claims w2] eqn:Ec.
  destruct claims as [claims|]; [|exact (conj Hk' (conj Hr (conj eq_refl eq_refl)))]. cbn [vf_keys vf_parser].
  split; [exact Hk'|split; [exact Hr|split; [done|]]].
  unfold identity_of. destruct (jwt_subject claims) as [subject|] eqn:Es; [|done]. cbn [vf_providerClaim].
  destruct (stringClaim claims (vf_providerClaim v)) as [provider|] eqn:Ep; [|done].
  destruct (NewIdentity _) as [identity|e] eqn:En.
  - exists kid, pk, claims, subject, provider, w1. split_and!; try done. by rewrite Ec.
  - unfold NewIdentity in En. cbn [ip_Subject ip_ProviderID] in En.
    destruct (bool_decide (subject = "")); [by injection En as <-|].
    destruct (bool_decide (provider = "")); [done|].
    destruct (ParseProviderID provider); [done|by injection En as <-].
Qed.
End proof.

(** ** Properties *)

Section properties.
Context {W : Type} `{Clock W} `{Issuer W}.

(** C26: signatures are checked with the issuer's keys only, and its outages
    do not take them away. A key that is handed out is in the set the call
    leaves; that set is the previous one or the one that the issuer published
    when the call asked it, which has exactly the signing keys of the document
    it answered (RSA keys with an id, meant for signatures, with a positive
    exponent of at most 2^31; the last one of an id), their numbers those the
    document spells, and the entries of a document are read member by member.
    A key is refused only when that set does not have it, so that a key held
    before is refused only when the issuer has published a set without it. A
    known key of a set that is not too old is found without asking the issuer,
    and an unknown one is refused without asking within five seconds of the
    last successful answer. *)
Theorem keys_are_the_issuers kid k w : keySet_ok k ->
  let '(r, k', w') := keySet_key kid k w in
  keySet_ok k' /\ refreshed w k k' /\
  match r with Ok pk => known_key k' kid = Some pk | Err _ => known_key k' kid = None end /\
  (k' = k -> is_Some (known_key k kid) -> exists pk, r = Ok pk) /\
  (forall body vs rest document,
   readValue false (string_take maxJWKSBytes body) = Some (VObject [("keys", VArray vs)], rest) ->
   decode_jwks body = Some document -> Forall2 read_as vs document) /\
  (forall keys, ks_keys k = Some keys ->
   let '(t1, w1) := Clock_Now w in let '(t2, w2) := Clock_Now w1 in
   Time_Sub t1 (ks_fetchedAt k) < ks_ttl k ->
   match keys !! kid with
   | Some pk => (r, k', w') = (Ok pk, k, w1)
   | None => Time_Sub t2 (ks_fetchedAt k) < minRefreshInterval -> k' = k /\ w' = w2 /\ exists e, r = Err e
   end).
Proof.
  intros Hk. pose proof (keySet_key_answer kid k w) as Ha.
  destruct (keySet_key kid k w) as [[r k'] w'] eqn:E. destruct Ha as [Hr Ha].
  split_and!; [by eapply refreshed_ok|exact Hr|exact Ha| |by apply document_read|].
  - intros -> [pk Hpk]. destruct r as [pk'|e]; [by exists pk'|]. congruence.
  - intros keys Hkeys. unfold keySet_key in E. rewrite Hkeys in E. destruct (Clock_Now w) as [t1 w1].
    destruct (Clock_Now w1) as [t2 w2] eqn:E2. intros Hage. replace (ks_ttl k <=? Time_Sub t1 (ks_fetchedAt k)) with false in E by lia.
    unfold keySet_find in E. assert (Hkn : known_key k kid = keys !! kid) by (unfold known_key; by rewrite Hkeys).
    rewrite Hkn in E. destruct (keys !! kid) as [pk|]; [by rewrite <- E|]. intros Hfl. rewrite E2 in E.
    replace (minRefreshInterval <=? Time_Sub t2 (ks_fetchedAt k)) with false in E by lia.
    injection E as <- <- <-. split_and!; [done..|by eexists].
Qed.
End properties.
