(* ===== verification/Oidctest.v ===== *)
(** * Oidctest: [internal/adapter/oidc/oidctest]

    The issuer the tests of the repository start: its keys and their rotation,
    the two documents it serves, the tokens it mints.  A key pair is known by
    the half it publishes; generating one and signing are the libraries'.  As
    an instance of [Oidc.Issuer] it is what the verifier is run against: what
    the verifier reads is what this issuer publishes. *)

From stdpp Require Import sorting.
From S2P Require Import Encoding Rfc3339 Json JsonFacts.
From S2P Require Import Prelude Errors GoTime GoStrings Sha256 Identity Ports Http HttpFacts MoneyJson Oidc.

#[local] Open Scope string_scope.
#[local] Open Scope list_scope.
#[local] Open Scope Z_scope.

(** ** Definitions *)

Definition Audience : string := "wagering-core".

(** [Issuer] *)
Record testIssuer := mkTestIssuer {
  ti_URL : string;
  ti_keys : gmap string PublicKey;
  ti_signing : string;
  ti_jwksRequests : Z
}.

(** [rsa.GenerateKey] and the signing of a token. *)
Class Signing (W : Type) := {
  GenerateKey : Z -> M W PublicKey;
  SignedString : string -> PublicKey -> option string -> gmap string claim -> result string
}.

(** [big.Int.Bytes]: the big-endian bytes, the first of which is not zero. *)
Definition big_Bytes (n : Z) : string :=
  String.string_of_list_ascii (map byte_of (big_endian (if n =? 0 then 0 else S (Z.to_nat (Z.log2 n / 8))) n)).

Section issuer.
Context {W : Type} `{Signing W}.

Definition addKey (kid : string) (i : testIssuer) : M W testIssuer :=
  key ← wrap_errM (GenerateKey 2048);
  mret (mkTestIssuer (ti_URL i) (<[kid := key]> (ti_keys i)) (ti_signing i) (ti_jwksRequests i)).

(** [New]; the address is the server's. *)
Definition New (url : string) : M W testIssuer :=
  i ← addKey "key-1" (mkTestIssuer url ∅ "" 0);
  mret (mkTestIssuer (ti_URL i) (ti_keys i) "key-1" (ti_jwksRequests i)).

Definition Rotate (kid : string) (i : testIssuer) : M W testIssuer :=
  i ← addKey kid i;
  mret (mkTestIssuer (ti_URL i) (filter (fun e => e.1 = kid) (ti_keys i)) kid (ti_jwksRequests i)).

(** [PublicModulus]; without a signing key it panics. *)
Definition PublicModulus (i : testIssuer) : option string := big_Bytes ∘ pk_N <$> ti_keys i !! ti_signing i.

(** A valid token body; the times are of no interest but to the library. *)
Definition Issuer_Claims (i : testIssuer) (providerID : string) (scopes : list string) : gmap string claim :=
  let claims : gmap string claim := {[
    "iss" := ClaimString (ti_URL i); "aud" := ClaimString Audience;
    "sub" := ClaimString ("service-account-" +:+ providerID); "exp" := ClaimOther; "iat" := ClaimOther]} in
  let claims := if bool_decide (providerID = "") then claims else <["provider_id" := ClaimString providerID]> claims in
  if bool_decide (scopes = []) then claims else <["scope" := ClaimString (String.concat " " scopes)]> claims.

Definition SignWith (method : string) (key : PublicKey) (kid : string) (claims : gmap string claim) : result string :=
  wrap_err (SignedString method key (if bool_decide (kid = "") then None else Some kid) claims).

(** [Token]; without a signing key the library is handed none. *)
Definition Token (i : testIssuer) (claims : gmap string claim) : option (result string) :=
  (fun key => SignWith "RS256" key (ti_signing i) claims) <$> ti_keys i !! ti_signing i.
End issuer.

(** *** The documents *)

Definition jwk_members (kid : string) (key : PublicKey) : gmap string string := {[
  "kty" := "RSA"; "use" := "sig"; "alg" := "RS256"; "kid" := kid;
  "n" := RawURLEncoding_EncodeToString (big_Bytes (pk_N key));
  "e" := RawURLEncoding_EncodeToString (big_Bytes (pk_E key))]}.

Definition encryption_key : gmap string string := {[
  "kty" := "RSA"; "use" := "enc"; "alg" := "RSA-OAEP"; "kid" := "encryption-key"; "n" := "not-a-modulus"; "e" := "AQAB"]}.

Section serve.
(** Ranging over a map goes in an order of its own each time. *)
Context (order : Z -> gmap string PublicKey -> list (string * PublicKey)).

Definition jwks (i : testIssuer) : list (gmap string string) :=
  map (fun e => jwk_members e.1 e.2) (order (ti_jwksRequests i) (ti_keys i)) ++ [encryption_key].

Definition openid_configuration (i : testIssuer) : value :=
  json_map {["issuer" := ti_URL i; "jwks_uri" := ti_URL i +:+ "/jwks"]}.

(** The routes of [New], and what the mux answers for any other one. *)
Definition testIssuer_Get (uri : string) (i : testIssuer) : option (Z * string) * testIssuer :=
  if bool_decide (uri = ti_URL i +:+ "/.well-known/openid-configuration")
  then (Some (200, Encode (openid_configuration i)), i)
  else if bool_decide (uri = ti_URL i +:+ "/jwks") then
    let i := mkTestIssuer (ti_URL i) (ti_keys i) (ti_signing i) (ti_jwksRequests i + 1) in
    (Some (200, Encode (of_struct [("keys", VArray (map json_map (jwks i)))])), i)
  else (Some (404, "404 page not found" +:+ String (byte_of 10) ""), i).

#[local] Instance testIssuer_issuer : Issuer testIssuer := {| Issuer_Get := testIssuer_Get |}.
End serve.

(** ** Lemmas *)

Lemma big_endian_value k z a : 0 <= z -> foldl (fun n b => n * 256 + b) a (big_endian k z) = a * 256 ^ Z.of_nat k + z mod 256 ^ Z.of_nat k.
Proof.
  intros Hz. revert z a Hz. induction k as [|k IH]; intros z a Hz; cbn [big_endian].
  { cbn [foldl]. change (256 ^ Z.of_nat 0) with 1. rewrite Z.mod_1_r. lia. }
  rewrite foldl_app, IH by (apply Z.div_pos; lia). cbn [foldl].
  rewrite Nat2Z.inj_succ, Z.pow_succ_r by lia. set (p := 256 ^ Z.of_nat k). assert (0 < p) by (subst p; lia).
  rewrite (Z.rem_mul_r z 256 p) by lia. lia.
Qed.

Lemma big_endian_bytes k z : Forall is_byte (big_endian k z).
Proof.
  revert z. induction k as [|k IH]; intros z; cbn [big_endian]; [constructor|].
  apply Forall_app. split; [apply IH|]. constructor; [|constructor]. unfold is_byte. pose proof (Z.mod_pos_bound z 256). lia.
Qed.

Lemma byte_vals l : Forall is_byte l -> map byte_val (map byte_of l) = l.
Proof.
  induction 1 as [|b l Hb _ IH]; [done|]. cbn [map]. rewrite IH, byte_val_of by (unfold is_byte in Hb; lia). done.
Qed.

Lemma SetBytes_Bytes n : 0 <= n -> SetBytes (big_Bytes n) = n.
Proof.
  intros Hn. unfold SetBytes, big_Bytes. rewrite String.list_ascii_of_string_of_list_ascii.
  set (l := big_endian _ n). assert (Hl : foldl (fun n b => n * 256 + b) 0 l = n).
  { subst l. rewrite big_endian_value by done. destruct (Z.eqb_spec n 0) as [->|Hne]; [done|].
    rewrite Z.mul_0_l, Z.add_0_l. apply Z.mod_small. split; [done|].
    rewrite Nat2Z.inj_succ, Z2Nat.id by (apply Z.div_pos; [apply Z.log2_nonneg|lia]).
    destruct (Z.log2_spec n ltac:(lia)) as [_ Hup]. eapply Z.lt_le_trans; [exact Hup|].
    change 256 with (2 ^ 8). rewrite <- Z.pow_mul_r by (pose proof (Z.div_pos (Z.log2 n) 8 (Z.log2_nonneg n)); lia).
    apply Z.pow_le_mono_r; [lia|]. pose proof (Z.div_mod (Z.log2 n) 8 ltac:(lia)).
    pose proof (Z.mod_pos_bound (Z.log2 n) 8 ltac:(lia)). lia. }
  transitivity (foldl (fun n b => n * 256 + b) 0 l); [|exact Hl].
  rewrite <- (byte_vals l (big_endian_bytes _ _)) at 2.
  generalize 0. generalize (map byte_of l). intros bs. induction bs as [|b bs IH]; intros a; [done|apply IH].
Qed.

Lemma string_of_list_ascii_length l : String.length (String.string_of_list_ascii l) = length l.
Proof. induction l as [|b l IH]; [done|]. cbn. by rewrite IH. Qed.

Lemma big_Bytes_length n : 0 < n -> String.length (big_Bytes n) = S (Z.to_nat (Z.log2 n / 8)).
Proof.
  intros Hn. unfold big_Bytes. rewrite string_of_list_ascii_length, length_map, big_endian_length.
  by destruct (Z.eqb_spec n 0); [lia|].
Qed.

Lemma big_Bytes_nonempty n : 0 < n -> big_Bytes n <> "".
Proof. intros Hn E. pose proof (big_Bytes_length n Hn) as Hl. by rewrite E in Hl. Qed.

Lemma base64_ascii s : ascii_text (RawURLEncoding_EncodeToString s).
Proof.
  unfold ascii_text, RawURLEncoding_EncodeToString. rewrite String.list_ascii_of_string_of_list_ascii.
  assert (Hb : Forall is_byte (map byte_val (String.list_ascii_of_string s))).
  { apply Forall_map, Forall_true. intros b. apply byte_val_range. }
  destruct (to_sextets_ok _ Hb) as [Hs _]. apply Forall_map. eapply Forall_impl; [exact Hs|]. intros n Hn. cbn.
  unfold is_sextet in Hn. unfold sextet_char.
  repeat (case_match; [first [rewrite byte_val_of by lia; lia | done]|]). done.
Qed.

(** The keys that can be published. *)
Definition publishable (e : string * PublicKey) : Prop := e.1 <> "" /\ valid_utf8 e.1 /\ 0 < pk_N e.2 /\ usable e.2.

Definition signing_jwk (e : string * PublicKey) : jsonWebKey :=
  mkJsonWebKey "RSA" e.1 "sig" "RS256" (RawURLEncoding_EncodeToString (big_Bytes (pk_N e.2)))
    (RawURLEncoding_EncodeToString (big_Bytes (pk_E e.2))).

Lemma public_signing e : publishable e -> public (signing_jwk e) = Some e.2.
Proof.
  destruct e as [kid [n x]]. intros (Hk & _ & Hn & Hx). unfold usable in Hx. cbn [fst snd pk_N pk_E] in *.
  unfold public, signing_jwk. cbn [jk_Kid jk_Use jk_Kty jk_N jk_E fst snd pk_N pk_E].
  rewrite (bool_decide_eq_false_2 (kid = "")) by done. cbn [orb bool_decide decide].
  change (negb (bool_decide ("sig" = "")) && negb (bool_decide ("sig" = "sig"))) with false. cbv iota.
  change (negb (bool_decide ("RSA" = "RSA"))) with false. cbv iota.
  rewrite !base64_roundtrip. cbn [mbind option_bind].
  rewrite !bool_decide_eq_false_2 by (apply big_Bytes_nonempty; lia). cbn [orb].
  rewrite big_Bytes_length by lia. assert (Hlog : Z.log2 x <= 31).
  { change 31 with (Z.log2 2147483648). apply Z.log2_le_mono. lia. }
  assert (Hd : 0 <= Z.log2 x / 8 <= 3).
  { pose proof (Z.log2_nonneg x). split; [apply Z.div_pos; lia|]. apply Z.lt_succ_r, Z.div_lt_upper_bound; lia. }
  rewrite Nat2Z.inj_succ, Z2Nat.id by apply Hd. rewrite (proj2 (Z.ltb_ge 8 _)) by (unfold Z.succ; revert Hd; generalize (Z.log2 x / 8); lia).
  rewrite (SetBytes_Bytes x), (SetBytes_Bytes n) by lia. rewrite i64_id by (width; lia).
  replace (x <=? 0) with false by lia. by replace (2147483648 <? x) with false by lia.
Qed.

Lemma jwk_value kid key : json_map (jwk_members kid key) =
  of_struct [("alg", of_string "RS256"); ("e", of_string (RawURLEncoding_EncodeToString (big_Bytes (pk_E key))));
    ("kid", of_string kid); ("kty", of_string "RSA");
    ("n", of_string (RawURLEncoding_EncodeToString (big_Bytes (pk_N key)))); ("use", of_string "sig")].
Proof.
  unfold jwk_members. generalize (RawURLEncoding_EncodeToString (big_Bytes (pk_E key))).
  generalize (RawURLEncoding_EncodeToString (big_Bytes (pk_N key))). intros n x. unfold json_map.
  set (keys := (map_to_list _).*1). assert (E : merge_sort String.le keys = ["alg"; "e"; "kid"; "kty"; "n"; "use"]).
  { subst keys. vm_compute. reflexivity. }
  rewrite E. cbn [map]. reflexivity.
Qed.

Lemma jwk_stored e : valid_utf8 e.1 ->
  into_struct false jsonWebKey_fields (mkJsonWebKey "" "" "" "" "" "") (json_map (jwk_members e.1 e.2)) = Some (signing_jwk e).
Proof.
  intros Hv. pose proof (ascii_text_valid _ (base64_ascii (big_Bytes (pk_N e.2)))) as Hn.
  pose proof (ascii_text_valid _ (base64_ascii (big_Bytes (pk_E e.2)))) as Hx.
  assert (H1 : valid_utf8 "RS256" /\ valid_utf8 "RSA" /\ valid_utf8 "sig").
  { split_and!; apply ascii_text_valid; unfold ascii_text; apply (bool_decide_eq_true_1 _); vm_compute; reflexivity. }
  destruct H1 as (? & ? & ?). rewrite jwk_value. cbn [into_struct of_struct].
  member 3%nat. member 5%nat. member 1%nat. member 0%nat. member 4%nat. member 2%nat. done.
Qed.

Definition encryption_jwk : jsonWebKey := mkJsonWebKey "RSA" "encryption-key" "enc" "RSA-OAEP" "not-a-modulus" "AQAB".

Lemma encryption_stored :
  into_struct false jsonWebKey_fields (mkJsonWebKey "" "" "" "" "" "") (json_map encryption_key) = Some encryption_jwk /\
  wf (json_map encryption_key) /\ height (json_map encryption_key) = 1 /\ public encryption_jwk = None.
Proof.
  assert (E : json_map encryption_key = of_struct [("alg", of_string "RSA-OAEP"); ("e", of_string "AQAB");
    ("kid", of_string "encryption-key"); ("kty", of_string "RSA"); ("n", of_string "not-a-modulus"); ("use", of_string "enc")]).
  { vm_compute. reflexivity. }
  rewrite E. split_and!; [vm_compute; reflexivity| |vm_compute; reflexivity..].
  apply wf_object. names_ok; apply wf_of_string.
Qed.

Lemma jwk_wf e : wf (json_map (jwk_members e.1 e.2)) /\ height (json_map (jwk_members e.1 e.2)) = 1.
Proof. rewrite jwk_value. split; [|done]. apply wf_object. names_ok; apply wf_of_string. Qed.

Lemma into_elements_each {A} (zero : A) (into : A -> value -> option A) vs l :
  Forall2 (fun v a => into zero v = Some a) vs l -> into_elements zero into [] vs = Some l.
Proof. induction 1 as [|v a vs l Ha _ IH]; [done|]. cbn. by rewrite Ha, IH. Qed.

Lemma wf_array vs : Forall (fun v => wf v /\ height v = 1) vs -> wf (VArray vs) /\ height (VArray vs) <= 2.
Proof.
  induction 1 as [|v vs [Hv Hh] _ IH]; [cbn; split; [done|lia]|]. cbn [wf height foldr] in *. split; [tauto|]. lia.
Qed.

Lemma usable_keys_published l m : Forall publishable l -> NoDup l.*1 ->
  usable_keys m (map signing_jwk l ++ [encryption_jwk]) = list_to_map l ∪ m.
Proof.
  intros Hl. revert m. induction Hl as [|[kid pk] l He _ IH]; intros m Hnd; cbn [map app usable_keys].
  { rewrite (proj2 (proj2 (proj2 encryption_stored))). cbn. by rewrite (left_id_L ∅ (∪)). }
  rewrite (public_signing _ He). cbn [fmap list_fmap] in Hnd. apply NoDup_cons in Hnd as [Hn Hnd].
  rewrite IH by done. cbn [jk_Kid signing_jwk fst snd list_to_map foldr].
  rewrite <- insert_union_r by (by apply not_elem_of_list_to_map_1). by rewrite insert_union_l.
Qed.

Section published.
Context (order : Z -> gmap string PublicKey -> list (string * PublicKey)).
Context (order_perm : forall n keys, order n keys ≡ₚ map_to_list keys).

Definition jwks_body (i : testIssuer) : string := Encode (of_struct [("keys", VArray (map json_map (jwks order i)))]).

(** What the verifier is able to read. *)
Record issuer_ok (i : testIssuer) : Prop := {
  io_keys : map_Forall (fun kid key => publishable (kid, key)) (ti_keys i);
  io_some : ti_keys i <> ∅;
  io_size : forall n, Z.of_nat (String.length
    (jwks_body (mkTestIssuer (ti_URL i) (ti_keys i) (ti_signing i) n))) <= maxJWKSBytes
}.

Lemma order_publishable n keys : map_Forall (fun kid key => publishable (kid, key)) keys ->
  Forall publishable (order n keys) /\ NoDup (order n keys).*1 /\ list_to_map (order n keys) = keys.
Proof using order_perm.
  intros Hk. assert (Hnd : NoDup (order n keys).*1) by (rewrite order_perm; apply NoDup_fst_map_to_list).
  split_and!; [|done|].
  - rewrite order_perm. apply Forall_forall. intros [kid key] Hin. by apply Hk, elem_of_map_to_list.
  - rewrite (list_to_map_proper _ (map_to_list keys)) by done. apply list_to_map_to_list.
Qed.

Lemma jwks_read i : map_Forall (fun kid key => publishable (kid, key)) (ti_keys i) -> ti_keys i <> ∅ ->
  Z.of_nat (String.length (jwks_body i)) <= maxJWKSBytes -> jwks_keys (Some (200, jwks_body i)) = Ok (ti_keys i).
Proof using order_perm.
  intros Hk Hne Hlen. destruct (order_publishable (ti_jwksRequests i) _ Hk) as (Hp & Hnd & Hm).
  unfold jwks_keys. change (negb (200 =? 200)) with false. cbv iota.
  assert (Hdec : decode_jwks (jwks_body i) = Some (map signing_jwk (order (ti_jwksRequests i) (ti_keys i)) ++ [encryption_jwk])).
  { unfold decode_jwks. rewrite string_take_all by done. unfold jwks_body, Encode.
    set (vs := map json_map (jwks order i)). assert (Hvs : Forall (fun v => wf v /\ height v = 1) vs).
    { subst vs. unfold jwks. rewrite map_app, map_map. apply Forall_app. split.
      - apply Forall_map, Forall_true. intros e. apply jwk_wf.
      - constructor; [|constructor]. destruct encryption_stored as (_ & Hw & Hh & _). exact (conj Hw Hh). }
    destruct (wf_array vs Hvs) as [Hw Hh].
    assert (Hdoc : wf (of_struct [("keys", VArray vs)])) by (apply wf_object; names_ok; exact Hw).
    assert (Hheight : height (of_struct [("keys", VArray vs)]) <= maxNestingDepth).
    { change (1 + Z.max (height (VArray vs)) 0 <= 10000). lia. }
    assert (Hend : ends (String (byte_of 10) "")) by (apply ends_char; reflexivity).
    unfold readValue. rewrite (parse_write _ (String (byte_of 10) "") Hdoc Hheight Hend). cbn [mbind option_bind andb].
    cbn [into_struct of_struct].
    assert (Hs : into_slice (mkJsonWebKey "" "" "" "" "" "") (into_struct false jsonWebKey_fields) [] (VArray vs) =
      Some (map signing_jwk (order (ti_jwksRequests i) (ti_keys i)) ++ [encryption_jwk])).
    { cbn [into_slice]. apply into_elements_each. subst vs. unfold jwks. rewrite map_app, map_map. apply Forall2_app.
      - clear -Hp. induction Hp as [|e l He _ IH]; [constructor|]. constructor; [|exact IH]. apply jwk_stored, He.
      - apply Forall2_cons_2; [exact (proj1 encryption_stored)|constructor]. }
    cbn [store_members]. change (unquote "keys") with (Some "keys"). cbn [mbind option_bind].
    change (lookup_field _ "keys") with (Some (into_slice (mkJsonWebKey "" "" "" "" "" "") (into_struct false jsonWebKey_fields))).
    cbv iota. rewrite Hs. done. }
  rewrite Hdec, usable_keys_published by done. rewrite Hm, (right_id_L ∅ (∪)). by rewrite bool_decide_eq_false_2.
Qed.

(** ** The verifier and this issuer *)

#[local] Instance served_issuer : Issuer testIssuer := testIssuer_issuer order.

Definition requested (i : testIssuer) : testIssuer :=
  mkTestIssuer (ti_URL i) (ti_keys i) (ti_signing i) (ti_jwksRequests i + 1).

Lemma Get_jwks i : Issuer_Get (ti_URL i +:+ "/jwks") i = (Some (200, jwks_body (requested i)), requested i).
Proof using.
  cbn [Issuer_Get served_issuer testIssuer_issuer]. unfold testIssuer_Get. rewrite bool_decide_eq_false_2.
  - by rewrite bool_decide_eq_true_2.
  - intros E. by apply (inj (String.app (ti_URL i))) in E.
Qed.

Lemma fetch_reads `{Clock testIssuer} i k : issuer_ok i -> ks_uri k = ti_URL i +:+ "/jwks" ->
  exists at_ i', Clock_Now (requested i) = (at_, i') /\
    keySet_fetch k i = (Ok (mkKeySet (ks_uri k) (ks_ttl k) (Some (ti_keys i)) at_), i').
Proof using order_perm.
  intros [Hk Hne Hsize] Huri. unfold keySet_fetch. rewrite Huri, Get_jwks.
  rewrite (jwks_read (requested i) Hk Hne (Hsize _)). destruct (Clock_Now (requested i)) as [at_ i'].
  exists at_, i'. by split.
Qed.

(** The verifier finds this issuer's keys by its discovery document. *)
Lemma discovery_reads i : ascii_text (ti_URL i) -> TrimSuffix (ti_URL i) "/" = ti_URL i ->
  Z.of_nat (String.length (Encode (openid_configuration i))) <= maxDiscoveryBytes ->
  discover (ti_URL i) i = (Ok (ti_URL i +:+ "/jwks"), i).
Proof using.
  intros Hu Htrim Hlen. unfold discover. cbn [Issuer_Get served_issuer testIssuer_issuer]. unfold testIssuer_Get.
  rewrite bool_decide_eq_true_2 by done. change (negb (200 =? 200)) with false. cbv iota.
  assert (Hv : valid_utf8 (ti_URL i) /\ valid_utf8 (ti_URL i +:+ "/jwks")).
  { split; apply ascii_text_valid; [done|]. apply ascii_text_app; [done|by repeat constructor]. }
  destruct Hv as [Hv1 Hv2].
  assert (E : openid_configuration i =
    of_struct [("issuer", of_string (ti_URL i)); ("jwks_uri", of_string (ti_URL i +:+ "/jwks"))]).
  { unfold openid_configuration. generalize (ti_URL i +:+ "/jwks"). generalize (ti_URL i). intros u j. unfold json_map.
    set (keys := (map_to_list _).*1). assert (E : merge_sort String.le keys = ["issuer"; "jwks_uri"]).
    { subst keys. vm_compute. reflexivity. }
    rewrite E. reflexivity. }
  unfold decode_discovery. rewrite string_take_all by done. rewrite E. unfold Encode, readValue.
  rewrite parse_write; [|apply wf_object; names_ok; apply wf_of_string|vm_compute; discriminate|by apply ends_char].
  cbn [mbind option_bind andb into_struct of_struct].
  assert (Hd : store_members false discovery_fields (mkDiscovery "" "")
    [("issuer", of_string (ti_URL i)); ("jwks_uri", of_string (ti_URL i +:+ "/jwks"))] =
    Some (mkDiscovery (ti_URL i) (ti_URL i +:+ "/jwks"))) by (member 0%nat; member 1%nat; done).
  rewrite Hd. cbn [dc_Issuer dc_JWKSURI]. rewrite Htrim, bool_decide_eq_true_2 by done. cbn [negb].
  rewrite bool_decide_eq_false_2; [done|]. by destruct (ti_URL i).
Qed.

(** The clock of a run leaves the issuer alone. *)
Context `{Clock testIssuer} (clock_alone : forall i, (Clock_Now i).2 = i).

Lemma requested_ok i : issuer_ok i -> issuer_ok (requested i).
Proof using. by intros [Hk Hne Hsize]. Qed.

(** Once a set is too old, what is found is what the issuer has now. *)
Lemma stale_key_reads kid k i : issuer_ok i -> ks_uri k = ti_URL i +:+ "/jwks" ->
  ks_ttl k <= Time_Sub (Clock_Now i).1 (ks_fetchedAt k) ->
  match (keySet_key kid k i).1.1 with Ok pk => ti_keys i !! kid = Some pk | Err _ => ti_keys i !! kid = None end.
Proof using order_perm clock_alone.
  intros Hi Huri Hold. unfold keySet_key. pose proof (clock_alone i) as Ha.
  assert (Hs : (match ks_keys k with
    | None => (true, i)
    | Some _ => let '(t, w) := Clock_Now i in (ks_ttl k <=? Time_Sub t (ks_fetchedAt k), w)
    end) = (true, i)).
  { destruct (ks_keys k); [|done]. destruct (Clock_Now i) as [t i0]. cbn [fst snd] in *. subst i0. f_equal. by apply Z.leb_le. }
  rewrite Hs. destruct (fetch_reads i k Hi Huri) as (at_ & i' & Ht & ->).
  pose proof (clock_alone (requested i)) as Ha'. rewrite Ht in Ha'. cbn [snd] in Ha'. subst i'.
  unfold keySet_find. cbn [ks_fetchedAt]. change (known_key (mkKeySet _ _ (Some (ti_keys i)) at_) kid) with (ti_keys i !! kid).
  destruct (ti_keys i !! kid) as [pk|] eqn:E; [reflexivity|].
  pose proof (clock_alone (requested i)) as Ha'. destruct (Clock_Now (requested i)) as [t i1]. cbn [snd] in Ha'. subst i1.
  destruct (minRefreshInterval <=? _); [|reflexivity].
  destruct (fetch_reads (requested i) (mkKeySet (ks_uri k) (ks_ttl k) (Some (ti_keys i)) at_) (requested_ok i Hi) Huri)
    as (at2 & i2 & _ & ->).
  change (known_key (mkKeySet _ _ (Some (ti_keys (requested i))) at2) kid) with (ti_keys i !! kid). by rewrite E.
Qed.

(** A rolled key is the only one: the verifier takes tokens of the new key, and
    of no other, as soon as its set is too old. *)
Theorem a_rolled_key_is_the_only_one {W} `{Signing W} kid i (w : W) i' w' k :
  Rotate kid i w = (Ok i', w') -> issuer_ok i' -> ks_uri k = ti_URL i' +:+ "/jwks" ->
  ks_ttl k <= Time_Sub (Clock_Now i').1 (ks_fetchedAt k) ->
  exists pk, ti_keys i' = {[kid := pk]} /\ ti_signing i' = kid /\ (keySet_key kid k i').1.1 = Ok pk /\
    forall old, old <> kid -> exists e, (keySet_key old k i').1.1 = Err e.
Proof using order_perm clock_alone.
  intros Hrot Hi Huri Hold. unfold Rotate, addKey, mbind, M_bind, mret, M_ret, wrap_errM in Hrot.
  destruct (GenerateKey 2048 w) as [[pk|e] w1]; [|done]. cbn in Hrot. injection Hrot as <- _.
  cbn [ti_keys ti_signing ti_URL] in *. exists pk.
  set (keys := filter _ _) in *. assert (Hkeys : keys = {[kid := pk]}).
  { subst keys. apply map_eq. intros k'. rewrite map_lookup_filter. destruct (decide (k' = kid)) as [->|Hne].
    - rewrite lookup_insert_eq, lookup_singleton_eq. cbn. by rewrite option_guard_True.
    - rewrite lookup_insert_ne, lookup_singleton_ne by done. destruct (ti_keys i !! k'); [|done]. cbn.
      by rewrite option_guard_False. }
  clearbody keys. subst keys. assert (Hread := fun kid' => stale_key_reads kid' k _ Hi Huri Hold). cbn [ti_keys] in Hread. split_and!; [done|done| |].
  - specialize (Hread kid). rewrite lookup_singleton_eq in Hread.
    destruct (keySet_key kid k _).1.1; [|done]. by simplify_eq.
  - intros old Hne. specialize (Hread old). rewrite lookup_singleton_ne in Hread by done.
    destruct (keySet_key old k _).1.1 as [|e]; [done|]. by exists e.
Qed.
End published.

(** ** A rotation *)

(** A source that generates the moduli it is made of. *)
#[local] Instance moduli : Signing (list Z) := {|
  GenerateKey := fun _ w => match w with
                            | [] => (Err (Opaque "no entropy"), [])
                            | n :: w => (Ok (mkPublicKey n 65537), w)
                            end;
  SignedString := fun method key kid claims => Ok (method +:+ "." +:+ default "" kid)
|}.

#[local] Instance stopped_clock : Clock testIssuer := {| Clock_Now := fun i => (mkTime (10 * Minute) UTC, i) |}.

Definition started : testIssuer := mkTestIssuer "http://127.0.0.1:8081" {["key-1" := mkPublicKey 3233 65537]} "key-1" 0.
Definition rolled : testIssuer := mkTestIssuer "http://127.0.0.1:8081" {["key-2" := mkPublicKey 3127 65537]} "key-2" 0.

Lemma a_rotation : (New "http://127.0.0.1:8081" [3233; 3127]) = (Ok started, [3127]) /\ Rotate "key-2" started [3127] = (Ok rolled, []).
Proof. split; vm_compute; reflexivity. Qed.

Lemma a_rolled_key_is_the_only_one_witness :
  exists pk, ti_keys rolled = {["key-2" := pk]} /\
    exists e, (keySet_key (H0 := testIssuer_issuer (fun _ => map_to_list)) "key-1"
      (newKeySet "http://127.0.0.1:8081/jwks" (5 * Minute)) rolled).1.1 = Err e.
Proof.
  destruct (a_rolled_key_is_the_only_one (H := stopped_clock) (fun _ => map_to_list) (fun _ _ => reflexivity _) (fun _ => eq_refl) "key-2"
    started [3127] rolled [] (newKeySet "http://127.0.0.1:8081/jwks" (5 * Minute))) as (pk & Hk & _ & _ & Hno).
  - exact (proj2 a_rotation).
  - split.
    + apply map_Forall_singleton. split_and!; [discriminate| |done|done].
      apply ascii_text_valid. unfold ascii_text. apply (bool_decide_eq_true_1 _). vm_compute. reflexivity.
    + discriminate.
    + intros n. vm_compute. discriminate.
  - reflexivity.
  - vm_compute. discriminate.
  - exists pk. split; [exact Hk|]. apply Hno. discriminate.
Defined.
