(* ===== verification/Program.v ===== *)
(** * Program: every use case over PostgreSQL

    The remaining use cases wired as [System] wires [submit]: over the unit of
    work, the queries and the snapshot of [internal/adapter/postgres], the
    system clock and the identifier generator.  The broker events are handed
    to, the queue messages come from, and what ends a wait are parameters. *)

From S2P Require Import Prelude Errors GoTime Money Identifier Ledger Wallet Transaction Event.
From S2P Require Import Idempotency Identity Ports Store StoreInv Policy Recorder Reversal.
From S2P Require Import Submit Storable SubmitSpec SubmitProof SubmitExecute SubmitFacts.
From S2P Require Import Opening Reconcile Queries Worker Publisher Consumer Loops Schema.
From S2P Require Import Postgres Rows PostgresLaws PostgresWrites PostgresQueues UowLaws PostgresReads.
From S2P Require Import Readings System.

#[local] Open Scope string_scope.
#[local] Open Scope list_scope.
#[local] Open Scope Z_scope.

(** ** Wiring *)

Section wiring.
Context (env : Environment) (retry : RetryPolicy).

(** [NewOpenWallet(uow, ids, clock).Execute] *)
Definition open_wallet (ctx : Context) (cmd : OpenWalletCommand) : M World Wallet :=
  OpenWallet_Execute (H := Clock_system env) (H0 := IDGenerator_system env)
    (pg_UnitOfWork env retry) ctx cmd.

(** [NewReconcileWallet(snapshot, clock, ...).Execute] *)
Definition reconcile (ctx : Context) (walletID : string) : M World Reconciliation :=
  Reconcile_Execute (H := Clock_system env) (pg_Snapshot env) ctx walletID.

(** [NewTransactionQueries(queries)] and [NewWalletQueries(queries)] *)
Definition get_transaction : Context -> string -> M World WagerTransaction :=
  TransactionQueries_Get (pg_queries env (pool_querier env)).
Definition find_transaction : Context -> string -> string -> M World WagerTransaction :=
  TransactionQueries_GetByBusinessID (pg_queries env (pool_querier env)).
Definition get_wallet : Context -> string -> M World Wallet :=
  WalletQueries_Get (pg_queries env (pool_querier env)).
Definition ledger_page_of : Context -> string -> LedgerCursor -> Z -> M World LedgerPage :=
  WalletQueries_Ledger (pg_queries env (pool_querier env)).
Definition list_ledger : nat -> Context -> string -> LedgerCursor -> Z -> M World (list LedgerEntry * bool) :=
  read_ledger (pg_queries env (pool_querier env)).

(** [NewReferenceWorker(uow, ids, clock, policy).RunOnce], and one of its
    looks. *)
Definition resolve_references (policy : ReferencePolicy) (ctx : Context) (w : World) : Z * result unit * World :=
  Worker_RunOnce (H := Clock_system env) (H0 := IDGenerator_system env) (H1 := Rand_system env)
    (H2 := Cancellation_system env) (pg_UnitOfWork env retry) (ReferencePolicy_normalised policy) ctx w.

Definition resolve_one (policy : ReferencePolicy) (ctx : Context) : M World bool :=
  handleOne (H := Clock_system env) (H0 := IDGenerator_system env) (H1 := Rand_system env)
    (pg_UnitOfWork env retry) (ReferencePolicy_normalised policy) ctx.

(** The broker takes or refuses an event, differently each time it is asked. *)
Definition broker_of (answer : nat -> OutboxRecord -> option error) : EventPublisher World := {|
  Publish := fun _ record w =>
    (match answer (wo_calls w) record with None => Ok () | Some e => Err e end, tick w)
|}.

(** [NewPublisher(uow, broker, clock, policy).RunOnce] *)
Definition publish_events (Error : error -> string) (answer : nat -> OutboxRecord -> option error)
    (policy : PublisherPolicy) (ctx : Context) (w : World) : Z * result unit * World :=
  Publisher_RunOnce (H := Clock_system env) (H0 := Rand_system env) (H1 := broker_of answer)
    Error (PublisherPolicy_normalised policy) (pg_UnitOfWork env retry) ctx w.

(** [NewConsumer(...).handle], up to what is done with the message. *)
Definition consume (cfg : ConsumerConfig) (waiting : ReferencePolicy)
    (ctx : Context) (message : QueueMessage) (w : World)
    : delivery_outcome * World :=
  Consumer_decide (H := Clock_system env) (H0 := IDGenerator_system env) (H1 := Rand_system env)
    (NewConsumer_config cfg) (ReferencePolicy_normalised waiting) (pg_UnitOfWork env retry) ctx message w.

Definition apply_message (cfg : ConsumerConfig) (waiting : ReferencePolicy) (ctx : Context)
    (envelope : Envelope) (cmd : SubmitCommand) (identity : Identity) : M World (SubmitResult * bool) :=
  Consumer_apply (H := Clock_system env) (H0 := IDGenerator_system env) (H1 := Rand_system env)
    (NewConsumer_config cfg) (ReferencePolicy_normalised waiting) (pg_UnitOfWork env retry) ctx envelope cmd identity.

(** What ends a wait, and what the queue answers, differently each time. *)
Definition waiting_of (ticks : nat -> bool) : Waiting World := {|
  ticker_first := fun _ _ w => (ticks (wo_calls w), tick w);
  timer_first := fun _ _ w => (ticks (wo_calls w), tick w)
|}.

Definition queue_of (arrivals : nat -> result (list QueueMessage)) (settled : nat -> result unit) : Queue World := {|
  q_Receive := fun _ _ w => (arrivals (wo_calls w), tick w);
  q_Delete := fun _ _ w => (settled (wo_calls w), tick w);
  q_Release := fun _ _ w => (settled (wo_calls w), tick w)
|}.

(** The loops of the process, for a number of turns. *)
Definition run_worker (ticks : nat -> bool) (policy : ReferencePolicy) : nat -> Context -> World -> bool * World :=
  ReferenceWorker_Run (H := waiting_of ticks) (H0 := Clock_system env) (H1 := IDGenerator_system env)
    (H2 := Rand_system env) (H3 := Cancellation_system env) (pg_UnitOfWork env retry) (ReferencePolicy_normalised policy).

Definition run_publisher (ticks : nat -> bool) (Error : error -> string)
    (answer : nat -> OutboxRecord -> option error) (policy : PublisherPolicy) : nat -> Context -> World -> bool * World :=
  Publisher_Run (H := waiting_of ticks) (H0 := Clock_system env) (H2 := Rand_system env) (H4 := broker_of answer)
    Error (PublisherPolicy_normalised policy) (pg_UnitOfWork env retry).

Definition run_consumer (ticks : nat -> bool) (arrivals : nat -> result (list QueueMessage))
    (settled : nat -> result unit) (is_canceled : error -> bool) (cfg : ConsumerConfig) (waiting : ReferencePolicy)
    : nat -> Context -> World -> bool * World :=
  Consumer_Run (H := waiting_of ticks) (H0 := Clock_system env) (H1 := IDGenerator_system env) (H2 := Rand_system env)
    (H3 := Cancellation_system env) (H4 := queue_of arrivals settled) is_canceled
    (NewConsumer_config cfg) (ReferencePolicy_normalised waiting) (pg_UnitOfWork env retry).
End wiring.

(** What the broker has taken at some time. *)
Definition taken (answer : nat -> OutboxRecord -> option error) (r : OutboxRecord) : Prop :=
  exists n, answer n r = None.

(** The reasons it has given. *)
Definition turned_down (answer : nat -> OutboxRecord -> option error) (r : OutboxRecord) (e : error) : Prop :=
  exists n, answer n r = Some e.

(** Attempts fit their column. *)
Definition worker_fits (p : ReferencePolicy) : Prop := durations_fit p /\ rp_MaxAttempts p <= int32_max.
Definition publisher_fits (p : PublisherPolicy) : Prop :=
  pp_BaseBackoff p <= MaxInt64 /\ pp_MaxBackoff p <= MaxInt64.

(** ** What each of them does *)

Section ends.
Context (env : Environment) `{!EnvironmentLaws env} (retry : RetryPolicy).
#[local] Existing Instance Storage_pg.

Lemma open_wallet_opened ctx cmd w s : cx_insideUnitOfWork ctx = false -> sound env w s ->
  let '(r, w') := open_wallet env retry ctx cmd w in wallet_opened ctx cmd s r w'.
Proof using EnvironmentLaws0.
  intros Hin [Hr Hs].
  exact (OpenWallet_Execute_ends (H := Storage_pg env) (StorageLaws0 := StorageLaws_pg env)
    (ClockLaws0 := clock_laws env) (IDLaws0 := id_laws env)
    (pg_repositories env (tx_querier env)) (RepositoriesLaws0 := repositories_laws env)
    (pg_UnitOfWork env retry) (UnitOfWorkLaws0 := uow_laws env retry) ctx cmd s w Hin Hr Hs).
Qed.

Lemma reconcile_reconciles ctx walletID w s : represents env (wo_db w) s ->
  let '(r, w') := reconcile env ctx walletID w in reconciles ctx walletID s r w'.
Proof using EnvironmentLaws0.
  intros Hr.
  exact (Reconcile_Execute_ends (H := Storage_pg env) (StorageLaws0 := StorageLaws_pg env)
    (ClockLaws0 := clock_laws env) (pg_Snapshot env) (pg_queries env (tx_querier env))
    (SnapshotLaws0 := snapshot_laws env) ctx walletID s w Hr).
Qed.

Lemma get_transaction_answered ctx transactionID w s : sound env w s ->
  answered s (get_transaction env ctx transactionID w)
    (fun s' t => exists i, caller ctx ScopeRead = Ok i /\ own_operations i s' !! transactionID = Some t)
    (fun s' e => caller ctx ScopeRead = Err e \/ ParseTransactionID transactionID = Err e \/
       exists i, caller ctx ScopeRead = Ok i /\ own_operations i s' !! transactionID = None /\
         e = SentinelError ErrNotFound).
Proof using EnvironmentLaws0.
  intros [Hr Hs].
  exact (Get_transaction_answers (H := Storage_pg env) (StorageLaws0 := StorageLaws_pg env)
    _ (QueriesLaws0 := queries_laws env) ctx transactionID s w Hr Hs).
Qed.

Lemma find_transaction_answered ctx provider external w s : sound env w s ->
  answered s (find_transaction env ctx provider external w)
    (fun s' t => exists i, caller ctx ScopeRead = Ok i /\ own_named i s' provider external t)
    (fun s' e => caller ctx ScopeRead = Err e \/ ParseProviderID provider = Err e \/
       ParseExternalTransactionID external = Err e \/
       exists i, caller ctx ScopeRead = Ok i /\ (forall t, ~ own_named i s' provider external t) /\
         e = SentinelError ErrNotFound).
Proof using EnvironmentLaws0.
  intros [Hr Hs].
  exact (GetByBusinessID_answers (H := Storage_pg env) (StorageLaws0 := StorageLaws_pg env)
    _ (QueriesLaws0 := queries_laws env) ctx provider external s w Hr Hs).
Qed.

Lemma get_wallet_answered ctx walletID w s : sound env w s ->
  answered s (get_wallet env ctx walletID w)
    (fun s' wallet => is_Ok (caller ctx ScopeWallets) = true /\ s_wallets s' !! walletID = Some wallet)
    (fun s' e => caller ctx ScopeWallets = Err e \/ ParseWalletID walletID = Err e \/
       (s_wallets s' !! walletID = None /\ e = SentinelError ErrNotFound)).
Proof using EnvironmentLaws0.
  intros [Hr _].
  exact (Wallet_answers (H := Storage_pg env) (StorageLaws0 := StorageLaws_pg env)
    _ (QueriesLaws0 := queries_laws env) ctx walletID s w Hr).
Qed.

Lemma ledger_page_answered ctx walletID limit id l cursor w s :
  ParseWalletID walletID = Ok id -> Ledger_limit limit = Ok l -> sound env w s ->
  answered s (ledger_page_of env ctx walletID cursor limit w)
    (fun s' page => is_Ok (caller ctx ScopeWallets) = true /\ page = ledger_page id cursor l s')
    (ledger_refusal ctx id).
Proof using EnvironmentLaws0.
  intros Hid Hl [Hr Hs].
  exact (Ledger_answers (H := Storage_pg env) (StorageLaws0 := StorageLaws_pg env)
    _ (QueriesLaws0 := queries_laws env) ctx walletID limit id l Hid Hl cursor s w Hr).
Qed.

Lemma list_ledger_answered ctx walletID limit id l fuel cursor w s :
  ParseWalletID walletID = Ok id -> Ledger_limit limit = Ok l -> sound env w s ->
  answered s (list_ledger env fuel ctx walletID cursor limit w) (enumerated id l fuel cursor)
    (ledger_refusal ctx id).
Proof using EnvironmentLaws0.
  intros Hid Hl [Hr Hs].
  exact (read_ledger_answers (H := Storage_pg env) (StorageLaws0 := StorageLaws_pg env)
    _ (QueriesLaws0 := queries_laws env) ctx walletID limit id l Hid Hl fuel cursor s w Hr Hs).
Qed.

Lemma worker_sane policy : worker_fits policy ->
  policy_sane (ReferencePolicy_normalised policy) /\
  rp_MaxAttempts (ReferencePolicy_normalised policy) <= int32_max.
Proof.
  intros [Hfit Hmax]. split; [by apply waiting_sane|].
  unfold ReferencePolicy_normalised, int32_max in *. cbn. case_match; lia.
Qed.

(** The instant a look goes by is one the clock showed during the call. *)
Lemma resolve_one_handled policy ctx w s : worker_fits policy -> cx_insideUnitOfWork ctx = false ->
  sound env w s ->
  let '(r, w') := resolve_one env retry policy ctx w in
  handled_one (reading env (wo_calls w) (wo_calls w')) (ReferencePolicy_normalised policy) s r w'.
Proof using EnvironmentLaws0.
  intros [Hsane Hmax]%worker_sane Hin [Hr Hs].
  pose proof (handleOne_consults env (wo_calls w) 0 retry (ReferencePolicy_normalised policy) ctx w Hin) as Hlt.
  fold (resolve_one env retry policy ctx w) in Hlt.
  pose proof (proj2 (follows_handleOne_call env (wo_calls w) (wo_calls (resolve_one env retry policy ctx w).2)
    retry (ReferencePolicy_normalised policy) ctx w) (le_n _) (le_n _)) as Heq.
  fold (resolve_one env retry policy ctx w) in Heq. revert Hlt Heq.
  destruct (resolve_one env retry policy ctx w) as [r w']. cbn [snd]. intros Hlt Heq.
  pose proof (handleOne_ends (H := Storage_pg env) (StorageLaws0 := StorageLaws_pg env)
    (ClockLaws0 := within_laws env (wo_calls w) (wo_calls w')) (IDLaws0 := id_laws env) (RandLaws0 := rand_laws env)
    (CancellationLaws0 := cancellation_laws env)
    (reading env (wo_calls w) (wo_calls w')) (ClockReads0 := within_reads env (wo_calls w) (wo_calls w') Hlt)
    (pg_repositories env (tx_querier env)) (RepositoriesLaws0 := repositories_laws env)
    (pg_UnitOfWork env retry) (UnitOfWorkLaws0 := uow_laws env retry)
    (ReferencePolicy_normalised policy) Hsane Hmax ctx s w Hin Hr Hs) as Hx.
  rewrite <- Heq in Hx. exact Hx.
Qed.

Lemma resolve_references_ok policy ctx w s : worker_fits policy -> cx_insideUnitOfWork ctx = false ->
  sound env w s ->
  let '(n, r, w') := resolve_references env retry policy ctx w in
  let size := rp_BatchSize (ReferencePolicy_normalised policy) in
  0 <= n <= size /\
  exists s', sound env w' s' /\ evolves s s' /\
    (r = Ok () -> n < size -> st_unlocked ->
     exists at_, reading env (wo_calls w) (wo_calls w') at_ /\ forall t, ~ due_reference at_ s' t).
Proof using EnvironmentLaws0.
  intros [Hsane Hmax]%worker_sane Hin [Hr Hs].
  assert (Hsize : 1 <= rp_BatchSize (ReferencePolicy_normalised policy))
    by (unfold ReferencePolicy_normalised; cbn; case_match; lia).
  set (size := Z.to_nat (rp_BatchSize (ReferencePolicy_normalised policy))).
  assert (Hlt : (wo_calls w < wo_calls (resolve_references env retry policy ctx w).2)%nat)
    by exact (run_batch_consults env (wo_calls w) 0 retry (ReferencePolicy_normalised policy) ctx size 0 w ltac:(lia)).
  pose proof (proj2 (follows_run_batch env (wo_calls w) (wo_calls (resolve_references env retry policy ctx w).2)
    retry (ReferencePolicy_normalised policy) ctx size 0 w) (le_n _) (le_n _)
    : resolve_references env retry policy ctx w = _) as Heq. revert Hlt Heq.
  destruct (resolve_references env retry policy ctx w) as [[n r] w']. cbn [snd]. intros Hlt Heq.
  pose proof (run_batch_ok (H := Storage_pg env) (StorageLaws0 := StorageLaws_pg env)
    (ClockLaws0 := within_laws env (wo_calls w) (wo_calls w')) (IDLaws0 := id_laws env) (RandLaws0 := rand_laws env)
    (CancellationLaws0 := cancellation_laws env)
    (reading env (wo_calls w) (wo_calls w')) (ClockReads0 := within_reads env (wo_calls w) (wo_calls w') Hlt)
    (pg_repositories env (tx_querier env)) (RepositoriesLaws0 := repositories_laws env)
    (pg_UnitOfWork env retry) (UnitOfWorkLaws0 := uow_laws env retry)
    (ReferencePolicy_normalised policy) Hsane Hmax ctx size 0 s w Hin Hr Hs) as Hrun.
  rewrite <- Heq in Hrun. unfold size in Hrun. rewrite Z2Nat.id in Hrun by lia.
  destruct Hrun as [Hn (s' & Hi & Hs' & He & Hdrain)]. cbn zeta. split; [lia|]. exists s'. by split_and!.
Qed.

Lemma broker_laws answer :
  EventPublisherLaws (H := Storage_pg env) (H0 := broker_of answer) World (taken answer) (turned_down answer).
Proof.
  constructor. intros ctx r w s0 s Htx. unfold wp. cbn.
  destruct (answer (wo_calls w) r) eqn:E; (split; [by exists (wo_calls w)|done]).
Qed.

Lemma publisher_sane policy : publisher_fits policy ->
  policy_ok (pp_BaseBackoff (PublisherPolicy_normalised policy)) (pp_MaxBackoff (PublisherPolicy_normalised policy)) /\
  1 <= pp_BatchSize (PublisherPolicy_normalised policy).
Proof.
  intros [? ?]. by destruct (PublisherPolicy_normalised_ok policy) as (? & ? & _).
Qed.

Lemma publish_events_ran Error answer policy ctx w s : publisher_fits policy ->
  cx_insideUnitOfWork ctx = false -> sound env w s ->
  let '(_, r, w') := publish_events env retry Error answer policy ctx w in
  ran_once (taken answer) (turned_down answer) (reading env (wo_calls w) (wo_calls w')) Error
    (PublisherPolicy_normalised policy) s r w'.
Proof using EnvironmentLaws0.
  intros [Hsane Hbatch]%publisher_sane Hin [Hr Hs].
  pose proof (fun a b (_ : Context) r => follows_tick a b (fun w => match answer (wo_calls w) r with None => Ok () | Some e => Err e end)) as Hpub.
  pose proof (RunOnce_consults env (wo_calls w) 0 (H := broker_of answer) (Hpub _ _) Error
    (PublisherPolicy_normalised policy) retry ctx w Hin) as Hlt.
  fold (publish_events env retry Error answer policy ctx w) in Hlt.
  pose proof (proj2 (follows_RunOnce env (wo_calls w) (wo_calls (publish_events env retry Error answer policy ctx w).2)
    (H := broker_of answer) (Hpub _ _) Error (PublisherPolicy_normalised policy) retry ctx w) (le_n _) (le_n _)) as Heq.
  fold (publish_events env retry Error answer policy ctx w) in Heq. revert Hlt Heq.
  destruct (publish_events env retry Error answer policy ctx w) as [[n r] w']. cbn [snd]. intros Hlt Heq.
  pose proof (Publisher_RunOnce_ends (H := Storage_pg env) (StorageLaws0 := StorageLaws_pg env)
    (ClockLaws0 := within_laws env (wo_calls w) (wo_calls w')) (RandLaws0 := rand_laws env)
    (taken answer) (turned_down answer) (EventPublisherLaws0 := broker_laws answer)
    (reading env (wo_calls w) (wo_calls w')) (ClockReads0 := within_reads env (wo_calls w) (wo_calls w') Hlt)
    (pg_repositories env (tx_querier env)) (RepositoriesLaws0 := repositories_laws env)
    (pg_UnitOfWork env retry) (UnitOfWorkLaws0 := uow_laws env retry)
    Error (PublisherPolicy_normalised policy) Hsane Hbatch ctx s w Hin Hr Hs) as Hx.
  rewrite <- Heq in Hx. exact Hx.
Qed.

Lemma apply_message_applied cfg waiting ctx envelope cmd hash identity w s :
  durations_fit waiting -> Command_PayloadHash cmd = Ok hash ->
  cx_insideUnitOfWork ctx = false -> sound env w s ->
  let '(r, w') := apply_message env retry cfg waiting ctx envelope cmd identity w in
  applied_delivery (NewConsumer_config cfg) (ReferencePolicy_normalised waiting) envelope cmd hash
    (Consumer_work ctx envelope identity) s r w'.
Proof using EnvironmentLaws0.
  intros Hfit Hhash Hin [Hr Hs].
  exact (Consumer_apply_ends (H := Storage_pg env) (StorageLaws0 := StorageLaws_pg env)
    (ClockLaws0 := clock_laws env) (IDLaws0 := id_laws env) (RandLaws0 := rand_laws env)
    (pg_repositories env (tx_querier env)) (RepositoriesLaws0 := repositories_laws env)
    (pg_UnitOfWork env retry) (UnitOfWorkLaws0 := uow_laws env retry)
    (NewConsumer_config cfg) (ReferencePolicy_normalised waiting) (waiting_sane waiting Hfit)
    envelope cmd hash Hhash ctx identity s w Hin Hr Hs).
Qed.
End ends.

(** ** Requests *)

(** Whatever the outside world may ask of the program. *)
Inductive request :=
| ReqSubmit (ctx : Context) (cmd : SubmitCommand)
| ReqOpen (ctx : Context) (cmd : OpenWalletCommand)
| ReqReconcile (ctx : Context) (walletID : string)
| ReqTransaction (ctx : Context) (transactionID : string)
| ReqFind (ctx : Context) (provider external : string)
| ReqWallet (ctx : Context) (walletID : string)
| ReqLedger (ctx : Context) (walletID : string) (cursor : LedgerCursor) (limit : Z)
| ReqResolve (ctx : Context)
| ReqPublish (ctx : Context)
| ReqDeliver (ctx : Context) (message : QueueMessage)
| ReqRunWorker (ctx : Context) (turns : nat)
| ReqRunPublisher (ctx : Context) (turns : nat)
| ReqRunConsumer (ctx : Context) (turns : nat).

Definition request_ctx (r : request) : Context :=
  match r with
  | ReqSubmit ctx _ | ReqOpen ctx _ | ReqReconcile ctx _ | ReqTransaction ctx _
  | ReqFind ctx _ _ | ReqWallet ctx _ | ReqLedger ctx _ _ _
  | ReqResolve ctx | ReqPublish ctx | ReqDeliver ctx _
  | ReqRunWorker ctx _ | ReqRunPublisher ctx _ | ReqRunConsumer ctx _ => ctx
  end.

Record Configuration := mkConfiguration {
  cf_retry : RetryPolicy;
  cf_waiting : ReferencePolicy;
  cf_publishing : PublisherPolicy;
  cf_consumer : ConsumerConfig;
  cf_Error : error -> string;
  cf_broker : nat -> OutboxRecord -> option error;
  cf_ticks : nat -> bool;
  cf_arrivals : nat -> result (list QueueMessage);
  cf_settled : nat -> result unit;
  cf_canceled : error -> bool
}.

Definition configured (cf : Configuration) : Prop :=
  worker_fits (cf_waiting cf) /\ publisher_fits (cf_publishing cf).

Definition serve (env : Environment) (cf : Configuration) (r : request) (w : World) : World :=
  match r with
  | ReqSubmit ctx cmd => (submit env (cf_retry cf) (cf_waiting cf) ctx cmd w).2
  | ReqOpen ctx cmd => (open_wallet env (cf_retry cf) ctx cmd w).2
  | ReqReconcile ctx id => (reconcile env ctx id w).2
  | ReqTransaction ctx id => (get_transaction env ctx id w).2
  | ReqFind ctx provider external => (find_transaction env ctx provider external w).2
  | ReqWallet ctx id => (get_wallet env ctx id w).2
  | ReqLedger ctx id cursor limit => (ledger_page_of env ctx id cursor limit w).2
  | ReqResolve ctx => (resolve_references env (cf_retry cf) (cf_waiting cf) ctx w).2
  | ReqPublish ctx =>
    (publish_events env (cf_retry cf) (cf_Error cf) (cf_broker cf) (cf_publishing cf) ctx w).2
  | ReqDeliver ctx message =>
    (consume env (cf_retry cf) (cf_consumer cf) (cf_waiting cf) ctx message w).2
  | ReqRunWorker ctx turns => (run_worker env (cf_retry cf) (cf_ticks cf) (cf_waiting cf) turns ctx w).2
  | ReqRunPublisher ctx turns =>
    (run_publisher env (cf_retry cf) (cf_ticks cf) (cf_Error cf) (cf_broker cf) (cf_publishing cf) turns ctx w).2
  | ReqRunConsumer ctx turns =>
    (run_consumer env (cf_retry cf) (cf_ticks cf) (cf_arrivals cf) (cf_settled cf) (cf_canceled cf)
       (cf_consumer cf) (cf_waiting cf) turns ctx w).2
  end.

Definition serve_all (env : Environment) (cf : Configuration) (rs : list request) (w : World) : World :=
  foldl (fun w r => serve env cf r w) w rs.

Section requests.
Context (env : Environment) `{!EnvironmentLaws env} (cf : Configuration) (Hcf : configured cf).
#[local] Existing Instance Storage_pg.

Lemma wallet_opened_sound ctx cmd s r w : store_ok s -> wallet_opened ctx cmd s r w ->
  exists s', sound env w s' /\ evolves s s'.
Proof using EnvironmentLaws0.
  intros Hs Hw.
  assert (Hop : forall player initial wallet s0 s1, Open_parse cmd = Ok (player, initial) ->
    others env s s0 -> opened s0 player initial wallet s1 -> store_ok s1 /\ evolves s s1).
  { intros player initial wallet s0 s1 Hp Ho Hop. apply (then_ok env s s0 s1 Hs Ho). intros Hs0.
    eapply opened_ok; [exact Hs0|by eapply Open_parse_ok|exact Hop]. }
  destruct r as [wallet|e].
  - destruct Hw as (i & player & initial & s0 & s1 & _ & Hp & Ho & Hopd & Hi).
    destruct (Hop _ _ _ _ _ Hp Ho Hopd). by exists s1.
  - destruct Hw as [(s1 & Ho & Hi & _)|(player & initial & wallet & s0 & s1 & Hp & Ho & Hopd & Hi & _)].
    + destruct (others_ok env _ _ Ho Hs). by exists s1.
    + destruct (Hop _ _ _ _ _ Hp Ho Hopd). by exists s1.
Qed.

Lemma ran_once_sound policy read s r w : store_ok s ->
  ran_once (taken (cf_broker cf)) (turned_down (cf_broker cf)) read (cf_Error cf) policy s r w ->
  exists s', sound env w s' /\ evolves s s'.
Proof using EnvironmentLaws0.
  intros Hs Hr.
  assert (Hb : forall s0 s1, others env s s0 -> batch_published (taken (cf_broker cf)) (turned_down (cf_broker cf)) (cf_Error cf) policy st_unlocked read s0 s1 ->
    store_ok s1 /\ evolves s s1).
  { intros s0 s1 Ho Hb. apply (then_ok env s s0 s1 Hs Ho). intros Hs0. by eapply batch_published_ok. }
  destruct r as [[]|e].
  - destruct Hr as (s0 & s1 & Ho & Hp & Hi). destruct (Hb _ _ Ho Hp). by exists s1.
  - destruct Hr as [(s1 & Ho & Hi & _)|(s0 & s1 & Ho & Hp & Hi & _)].
    + destruct (others_ok env _ _ Ho Hs). by exists s1.
    + destruct (Hb _ _ Ho Hp). by exists s1.
Qed.

Lemma applied_delivery_sound ccfg waiting envelope cmd hash work s r w : 0 <= rp_TTL waiting ->
  store_ok s -> applied_delivery ccfg waiting envelope cmd hash work s r w ->
  exists s', sound env w s' /\ evolves s s'.
Proof using EnvironmentLaws0.
  intros Httl Hs Hr.
  assert (Hd : forall s0 s1 c, others env s s0 -> delivered ccfg waiting (inside work) envelope cmd hash s0 s1 c ->
    store_ok s1 /\ evolves s s1).
  { intros s0 s1 c Ho Hd. apply (then_ok env s s0 s1 Hs Ho). intros Hs0.
    by destruct (delivered_ok _ _ _ _ _ _ _ _ _ Httl Hs0 Hd) as (? & ? & _). }
  destruct r as [c|e].
  - destruct Hr as (s0 & s1 & Ho & Hp & Hi). destruct (Hd _ _ _ Ho Hp). by exists s1.
  - destruct Hr as [(s1 & Ho & Hi & _)|(s0 & s1 & c & Ho & Hp & Hi & _)].
    + destruct (others_ok env _ _ Ho Hs). by exists s1.
    + destruct (Hd _ _ _ Ho Hp). by exists s1.
Qed.

Lemma answered_sound {A} s (x : result A * World) Q E : store_ok s -> answered s x Q E ->
  exists s', sound env x.2 s' /\ evolves s s'.
Proof using EnvironmentLaws0.
  intros Hs (s' & Ho & Hi & _). destruct (others_ok env _ _ Ho Hs). by exists s'.
Qed.

(** What everything the program does keeps: sound states, growing. *)
Definition keeps (w w' : World) : Prop := forall s, sound env w s -> exists s', sound env w' s' /\ evolves s s'.

Lemma keeps_refl w : keeps w w.
Proof. intros s Hw. exists s. split; [done|apply evolves_refl]. Qed.

Lemma keeps_trans w1 w2 w3 : keeps w1 w2 -> keeps w2 w3 -> keeps w1 w3.
Proof.
  intros H1 H2 s Hw. destruct (H1 s Hw) as (s1 & Hw1 & He1). destruct (H2 s1 Hw1) as (s2 & Hw2 & He2).
  exists s2. split; [exact Hw2|by eapply evolves_trans].
Qed.

Lemma keeps_tick w : keeps w (tick w).
Proof. exact (keeps_refl w). Qed.

Lemma resolve_references_keeps ctx w : cx_insideUnitOfWork ctx = false ->
  keeps w (resolve_references env (cf_retry cf) (cf_waiting cf) ctx w).2.
Proof using EnvironmentLaws0 Hcf.
  intros Hin s Hw. pose proof (resolve_references_ok env (cf_retry cf) (cf_waiting cf) ctx w s (proj1 Hcf) Hin Hw) as Hx.
  destruct (resolve_references _ _ _ _ _) as [[n r] w']. destruct Hx as (_ & s' & Hx & He & _). by exists s'.
Qed.

Lemma publish_events_keeps ctx w : cx_insideUnitOfWork ctx = false ->
  keeps w (publish_events env (cf_retry cf) (cf_Error cf) (cf_broker cf) (cf_publishing cf) ctx w).2.
Proof using EnvironmentLaws0 Hcf.
  intros Hin s Hw.
  pose proof (publish_events_ran env (cf_retry cf) (cf_Error cf) (cf_broker cf) (cf_publishing cf) ctx w s
    (proj2 Hcf) Hin Hw) as Hx.
  destruct (publish_events _ _ _ _ _ _ _) as [[n r] w']. by eapply ran_once_sound; [apply Hw|].
Qed.

Lemma consume_keeps ctx message w : cx_insideUnitOfWork ctx = false ->
  keeps w (consume env (cf_retry cf) (cf_consumer cf) (cf_waiting cf) ctx message w).2.
Proof using EnvironmentLaws0 Hcf.
  destruct Hcf as [[Hfit _] _]. intros Hin s Hw. pose proof (keeps_refl w s Hw) as Hsame.
  unfold consume, Consumer_decide. destruct (decodeEnvelope _) as [[envelope cmd]|]; [|done].
  destruct (Consumer_identity _ envelope) as [identity|]; [|done].
  fold (apply_message env (cf_retry cf) (cf_consumer cf) (cf_waiting cf) ctx envelope cmd identity).
  destruct (Command_PayloadHash cmd) as [hash|e] eqn:Hhash.
  2:{ unfold apply_message, Consumer_apply. rewrite Hhash. exact Hsame. }
  pose proof (apply_message_applied env (cf_retry cf) (cf_consumer cf) (cf_waiting cf) ctx envelope cmd hash
    identity w s Hfit Hhash Hin Hw) as Hx.
  pose proof (waiting_ttl _ Hfit) as Httl. pose proof (proj2 Hw) as Hs.
  destruct (apply_message _ _ _ _ _ _ _ _ w) as [[c|e] w']; by eapply applied_delivery_sound.
Qed.

Lemma ledger_page_sound ctx walletID cursor limit w s : sound env w s ->
  exists s', sound env (ledger_page_of env ctx walletID cursor limit w).2 s' /\ evolves s s'.
Proof using EnvironmentLaws0.
  intros Hw.
  destruct (ParseWalletID walletID) as [id|e] eqn:Hid, (Ledger_limit limit) as [l|e'] eqn:Hl.
  1:{ exact (answered_sound s _ _ _ (proj2 Hw) (ledger_page_answered env ctx walletID limit id l cursor w s Hid Hl Hw)). }
  all: exists s; (split; [|apply evolves_refl]); unfold ledger_page_of, WalletQueries_Ledger, mbind, M_bind, pure;
    destruct (caller ctx ScopeWallets); rewrite ?Hid, ?Hl; exact Hw.
Qed.

Lemma serve_keeps r w : cx_insideUnitOfWork (request_ctx r) = false -> keeps w (serve env cf r w).
Proof using EnvironmentLaws0 Hcf.
  intros Hin. destruct r as [ctx cmd|ctx cmd|ctx id|ctx id|ctx p x|ctx id|ctx id c l|ctx|ctx|ctx msg|ctx turns|ctx turns|ctx turns];
    cbn [serve request_ctx] in *.
  - intros s Hw. by apply submit_sound; [apply Hcf|..].
  - intros s Hw. pose proof (open_wallet_opened env (cf_retry cf) ctx cmd w s Hin Hw) as Hx.
    destruct (open_wallet _ _ _ _ _) as [r w']. by eapply wallet_opened_sound; [apply Hw|].
  - intros s Hw. pose proof (reconcile_reconciles env ctx id w s (proj1 Hw)) as Hx.
    destruct (reconcile _ _ _ _) as [r w']. destruct Hx as (s0 & Ho & Hi & _).
    destruct (others_ok env _ _ Ho (proj2 Hw)). by exists s0.
  - intros s Hw. exact (answered_sound s _ _ _ (proj2 Hw) (get_transaction_answered env ctx id w s Hw)).
  - intros s Hw. exact (answered_sound s _ _ _ (proj2 Hw) (find_transaction_answered env ctx p x w s Hw)).
  - intros s Hw. exact (answered_sound s _ _ _ (proj2 Hw) (get_wallet_answered env ctx id w s Hw)).
  - intros s Hw. by apply ledger_page_sound.
  - by apply resolve_references_keeps.
  - by apply publish_events_keeps.
  - by apply consume_keeps.
  - apply (ticking_kept (H := waiting_of (cf_ticks cf)) keeps keeps_refl keeps_trans (fun _ _ => keeps_tick)).
    intros w1. by apply resolve_references_keeps.
  - apply (ticking_kept (H := waiting_of (cf_ticks cf)) keeps keeps_refl keeps_trans (fun _ _ => keeps_tick)).
    intros w1. by apply publish_events_keeps.
  - apply (Consumer_Run_kept (H := waiting_of (cf_ticks cf)) keeps keeps_refl keeps_trans (fun _ _ => keeps_tick));
      try by intros; apply keeps_tick.
    intros m w1. by apply consume_keeps.
Qed.

Lemma serve_sound r w s : cx_insideUnitOfWork (request_ctx r) = false -> sound env w s ->
  exists s', sound env (serve env cf r w) s' /\ evolves s s'.
Proof using EnvironmentLaws0 Hcf. intros Hin. by apply serve_keeps. Qed.

Lemma serve_all_sound rs w s : Forall (fun r => cx_insideUnitOfWork (request_ctx r) = false) rs ->
  sound env w s -> exists s', sound env (serve_all env cf rs w) s' /\ evolves s s'.
Proof using EnvironmentLaws0 Hcf.
  intros Hin. revert w s. induction Hin as [|r rs Hr _ IH]; intros w s Hw.
  - exists s. split; [done|apply evolves_refl].
  - destruct (serve_sound r w s Hr Hw) as (s1 & Hw1 & He1). destruct (IH _ _ Hw1) as (s2 & Hw2 & He2).
    exists s2. split; [exact Hw2|by eapply evolves_trans].
Qed.
End requests.
