(* ===== verification/Edge.v ===== *)
(** * Edge: the HTTP service over the program

    The handlers of the edge built from the wired use cases, as
    [internal/platform] builds them, and what a client that resends a request
    is told. *)

From S2P Require Import Encoding Rfc3339 Json JsonFacts.
From S2P Require Import Prelude Errors GoTime Money Identifier Ledger Wallet Transaction Event.
From S2P Require Import Idempotency Identity Ports Store StoreInv Policy Recorder Reversal.
From S2P Require Import Submit Storable SubmitSpec SubmitProof SubmitExecute SubmitFacts.
From S2P Require Import Opening Reconcile Queries Worker Publisher Consumer Schema.
From S2P Require Import Postgres Rows PostgresLaws PostgresWrites PostgresQueues UowLaws PostgresReads.
From S2P Require Import System Http HttpFacts Oidc Program.

#[local] Open Scope string_scope.
#[local] Open Scope list_scope.
#[local] Open Scope Z_scope.

Section edge.
Context (env : Environment) (retry : RetryPolicy) (waiting : ReferencePolicy).

(** The handlers, over the use cases of the program. *)
Definition edge_handlers (probes : list Prober) : Handlers := {|
  h_open := open_wallet env retry;
  h_wallet := get_wallet env;
  h_ledger := WalletQueries_Ledger (pg_queries env (pool_querier env));
  h_reconcile := reconcile env;
  h_submit := submit env retry waiting;
  h_transaction := get_transaction env;
  h_by_provider := find_transaction env;
  h_probes := probes
|}.

(** [POST /wagering/transactions] *)
Definition post_transaction (Error : error -> string) : Request -> World -> Response * World :=
  TransactionHandler_Submit Error (h_submit (edge_handlers [])).

Lemma statusFor_wrapped e : statusFor (Wrapped e) = statusFor e.
Proof. done. Qed.

Lemma post_transaction_submits Error c r w :
  Forall valid_utf8 (texts c) -> sc_IdempotencyKey c <> "" ->
  rq_header r IdempotencyKeyHeader = sc_IdempotencyKey c -> rq_body r = write (submit_json c) ->
  Z.of_nat (String.length (rq_body r)) <= maxRequestBody ->
  post_transaction Error r w =
  match submit env retry waiting (rq_ctx r) c w with
  | (Ok result, w') => (writeJSON (submitStatus result) (json_submitResponse (toSubmitResponse result)), w')
  | (Err e, w') => (writeError Error r e, w')
  end.
Proof.
  intros Hc Hkne Hh Hb Hl. unfold post_transaction, TransactionHandler_Submit, respond.
  rewrite Hh, (bool_decide_eq_false_2 _ Hkne), (submit_decoded c Hc r Hb Hl).
  rewrite bind_pure_Ok. cbn [sq_Money h_submit edge_handlers]. by destruct c.
Qed.

Context `{!EnvironmentLaws env}.

(** A failure of the infrastructure is this side's fault. *)
Lemma infra_status e : infra env e -> (statusFor e).1 ∈ [StatusInternalServerError; StatusServiceUnavailable].
Proof.
  assert (Hf : forall f, not_a_refusal f ->
    (statusFor (translate (Failure f))).1 ∈ [StatusInternalServerError; StatusServiceUnavailable]).
  { intros f Hf. destruct f as [code name table message|what]; [|by left].
    cbn [translate not_a_refusal] in *. rewrite (bool_decide_eq_false_2 (code = codeUniqueViolation)) by set_solver.
    rewrite (bool_decide_eq_false_2 (code ∈ [codeCheckViolation; _; _; _])) by set_solver.
    case_bool_decide; [right; left|left]. }
  induction 1 as [| |n f Hc| | |e _ IH]; try by left.
  - apply Hf. by eapply el_fault.
  - apply Hf. by eapply el_commit.
  - exact IH.
Qed.

Lemma writeError_status Error r e : rs_status (writeError Error r e) = (statusFor e).1.
Proof. unfold writeError. by destruct (statusFor e). Qed.

(** C12: a request that is sent again, its answer lost on the way or not, is
    answered with the verdict of the first time, as a replay of the same
    operation, once that verdict is final; it changes nothing; the only other
    answers are 500 and 503. *)
Theorem a_resend_gets_the_verdict_again Error c r w s res1 w1 :
  durations_fit waiting -> cx_insideUnitOfWork (rq_ctx r) = false -> sound env w s ->
  Forall valid_utf8 (texts c) -> sc_IdempotencyKey c <> "" ->
  rq_header r IdempotencyKeyHeader = sc_IdempotencyKey c -> rq_body r = write (submit_json c) ->
  Z.of_nat (String.length (rq_body r)) <= maxRequestBody ->
  submit env retry waiting (rq_ctx r) c w = (Ok res1, w1) ->
  (post_transaction Error r w).1 = writeJSON (submitStatus res1) (json_submitResponse (toSubmitResponse res1)) /\
  let '(response, w2) := post_transaction Error r w1 in
  (exists s1 s2, represents env (wo_db w1) s1 /\ others env s1 s2 /\ represents env (wo_db w2) s2) /\
  (rs_status response ∈ [StatusInternalServerError; StatusServiceUnavailable] \/
   exists res2, response = writeJSON (submitStatus res2) (json_submitResponse (toSubmitResponse res2)) /\
     sr_Replay res2 = true /\ t_id (sr_Transaction res2) = t_id (sr_Transaction res1) /\
     (Tx_IsTerminal (sr_Transaction res1) = true -> submitStatus res2 = submitStatus res1)).
Proof.
  intros Hfit Hin Hw Hc Hkne Hh Hb Hl Hsub.
  rewrite !(post_transaction_submits Error c r) by assumption. rewrite Hsub. split; [done|].
  pose proof (resubmission_ends env retry waiting (rq_ctx r) c w s res1 w1 Hfit Hin Hw Hsub) as Hx.
  destruct (submit env retry waiting (rq_ctx r) c w1) as [[res2|e] w2]; destruct Hx as [Hs Hx]; (split; [exact Hs|]).
  - right. exists res2. destruct Hx as (? & ? & Hst). split_and!; [done..|].
    intros Ht. unfold submitStatus. by rewrite (Hst Ht).
  - left. rewrite writeError_status. by apply infra_status.
Qed.
End edge.

(** ** The whole service *)

(** The issuer answers requests, differently each time it is asked. *)
Definition issuer_of (answers : nat -> string -> option (Z * string)) : Issuer World := {|
  Issuer_Get := fun uri w => (answers (wo_calls w) uri, tick w)
|}.

(** A use case of the program, beside a verifier it does not see. *)
Definition beside {V A} (m : M World A) : M (V * World) A := fun vw =>
  let '(r, w) := m vw.2 in (r, (vw.1, w)).

Section service.
Context (env : Environment) (retry : RetryPolicy) (waiting : ReferencePolicy) (Error : error -> string).
Context (answers : nat -> string -> option (Z * string)) `{!Jwt World}.

(** The verifier of [oidc] is what the edge asks about a token. *)
#[local] Instance verifier_of : @TokenVerifier (Verifier * World) := fun _ token vw =>
  let '(r, v, w) := Verifier_Verify (H := Clock_system env) (H0 := issuer_of answers) vw.1 token vw.2 in (r, (v, w)).

Definition service_handlers (probes : list (@Prober World)) : @Handlers (Verifier * World) :=
  let h := edge_handlers env retry waiting probes in {|
  h_open := fun ctx cmd => beside (h_open h ctx cmd);
  h_wallet := fun ctx id => beside (h_wallet h ctx id);
  h_ledger := fun ctx id cursor limit => beside (h_ledger h ctx id cursor limit);
  h_reconcile := fun ctx id => beside (h_reconcile h ctx id);
  h_submit := fun ctx cmd => beside (h_submit h ctx cmd);
  h_transaction := fun ctx id => beside (h_transaction h ctx id);
  h_by_provider := fun ctx provider external => beside (h_by_provider h ctx provider external);
  h_probes := map (fun p => mkProber (pr_Name p) (fun ctx => beside (pr_Ping p ctx))) probes
|}.

(** A request to the service, by the pattern of the route it matches. *)
Definition service (probes : list (@Prober World)) (fresh pattern : string)
    : option (Request -> Verifier * World -> option Response * (Verifier * World)) :=
  Handler Error (service_handlers probes) fresh pattern.

(** C11: a stranger learns and changes nothing: on every route but the two
    health probes a request is served only with a bearer token that a key of
    the issuer and its claims prove, and as the caller they name; any other
    request is answered 401 with a challenge, in the same bytes whatever was
    wrong with it and whatever the tables hold, and leaves the tables as they
    are. *)
Theorem strangers_reach_nothing probes fresh pattern serve r v w :
  (forall options pk raw w, wo_db (jwt_claims options pk raw w).2 = wo_db w) ->
  keySet_ok (vf_keys v) -> service probes fresh pattern = Some serve -> pattern ∉ public_patterns ->
  let id := correlation_id fresh r in
  let request := WithContext r (WithCorrelationID (rq_ctx r) id) in
  let unserved := with_header CorrelationIDHeader id (refuse request) in
  let '(response, (v', w')) := serve r (v, w) in
  rs_status unserved = StatusUnauthorized /\
  ((response = Some unserved /\ wo_db w' = wo_db w /\ keySet_ok (vf_keys v')) \/
   exists token identity v1 w1 rt, bearerToken r = Some token /\ proven v v1 token identity /\
     keySet_ok (vf_keys v1) /\ wo_db w1 = wo_db w /\ rt ∈ routeTable Error (service_handlers probes) /\
     ro_pattern rt = pattern /\
     let '(answer, vw) := ro_handler rt (WithContext request (WithIdentity (rq_ctx request) identity)) (v1, w1) in
     response = Some (with_header CorrelationIDHeader id answer) /\ (v', w') = vw).
Proof.
  intros Hjwt Hk Hserve Hpat. cbn zeta.
  destruct (only_verified_callers_are_served Error (service_handlers probes) fresh pattern serve r (v, w) Hserve) as [_ Hx].
  destruct (Hx Hpat) as [Hst Hs]. clear Hx. destruct (bearerToken r) as [token|] eqn:Et.
  2:{ rewrite Hs. split; [exact Hst|left]. by split_and!. }
  unfold Verify, verifier_of in Hs. cbn [fst snd] in Hs.
  pose proof (Verify_proven (H := Clock_system env) (H0 := issuer_of answers) v token w Hk) as Hp.
  pose proof (Verify_untouched (H := Clock_system env) (H0 := issuer_of answers) (fun w' => wo_db w' = wo_db w)
    (fun w' Hw => Hw) (fun _ w' Hw => Hw) (fun options pk raw w' Hw => eq_trans (Hjwt options pk raw w') Hw)
    v token w eq_refl) as Hdb.
  destruct (Verifier_Verify v token w) as [[[identity|e] v1] w1]; cbn [snd] in Hdb;
    destruct Hp as (Hk1 & _ & _ & Hp).
  - destruct Hs as (rt & Hrt & Hpt & Hs). rewrite <- Hpt in *.
    destruct (ro_handler rt _ (v1, w1)) as [answer [v2 w2]] eqn:Eh. rewrite Hs. split; [exact Hst|right].
    exists token, identity, v1, w1, rt. rewrite Eh. by split_and!.
  - rewrite Hs. split; [exact Hst|left]. by split_and!.
Qed.
End service.
