(* ===== verification/Url.v ===== *)
(** * Url: the part of Go's [net/url] the program uses

    [url.Parse], [URL.String] and what a database address is made of.  A host
    in brackets, or with more than one colon, is read differently by the
    releases of Go; what it is read as is a parameter ([LiteralHosts]). *)

From S2P Require Import Prelude GoStrings Encoding Json.

#[local] Open Scope string_scope.
#[local] Open Scope list_scope.
#[local] Open Scope Z_scope.

(** ** Escaping *)

Variant encoding := encodePath | encodeHost | encodeUserPassword | encodeQueryComponent | encodeFragment.

Definition is_letter (b : ascii) : bool := within 65 90 b || within 97 122 b.
Definition is_number (b : ascii) : bool := within 48 57 b.

Definition shouldEscape (mode : encoding) (b : ascii) : bool :=
  if is_letter b || is_number b then false
  else
    let host := match mode with encodeHost => one_of "!$&'()*+,;=:[]<>" b || (b =? dquote)%char | _ => false end in
    if host then false
    else if one_of "-_.~" b then false
    else if one_of "$&+,/:;=?@" b then
      match mode with
      | encodePath => (b =? "?")%char
      | encodeUserPassword => one_of "@/?:" b
      | encodeQueryComponent => true
      | encodeFragment => false
      | encodeHost => true
      end
    else
      match mode with
      | encodeFragment => negb (one_of "!()*" b)
      | _ => true
      end.

Definition upper_hex (n : Z) : ascii := if n <? 10 then digit_char n else byte_of (55 + n).

Fixpoint Escape (mode : encoding) (s : string) : string :=
  match s with
  | EmptyString => EmptyString
  | String b s =>
    if negb (shouldEscape mode b) then String b (Escape mode s)
    else
      match mode with
      | encodeQueryComponent =>
        if (b =? " ")%char then String "+" (Escape mode s)
        else String "%" (String (upper_hex (byte_val b / 16)) (String (upper_hex (byte_val b mod 16)) (Escape mode s)))
      | _ => String "%" (String (upper_hex (byte_val b / 16)) (String (upper_hex (byte_val b mod 16)) (Escape mode s)))
      end
  end.

Fixpoint Unescape (mode : encoding) (s : string) : option string :=
  match s with
  | EmptyString => Some EmptyString
  | String b s =>
    if (b =? "%")%char then
      match s with
      | String h1 (String h2 s) =>
        a ← hex_val h1; c ← hex_val h2;
        let refused := match mode with
                       | encodeHost => (a <? 8) && negb ((a =? 2) && (c =? 5))
                       | _ => false
                       end in
        if refused : bool then None
        else rest ← Unescape mode s; Some (String (byte_of (a * 16 + c)) rest)
      | _ => None
      end
    else if (b =? "+")%char then
      rest ← Unescape mode s;
      Some (String (match mode with encodeQueryComponent => " "%char | _ => "+"%char end) rest)
    else
      let refused := match mode with encodeHost => (byte_val b <? 128) && shouldEscape mode b | _ => false end in
      if refused : bool then None else rest ← Unescape mode s; Some (String b rest)
  end.

(** ** Addresses *)

(** [url.URL], less what only matters to print one that was read: the raw
    path, the fragment and the flags. *)
Record URL := mkURL {
  u_Scheme : string;
  u_Opaque : string;
  u_User : option (string * option string);
  u_Host : string;
  u_Path : string;
  u_RawQuery : string
}.

(** How a host in brackets or with several colons is read. *)
Class LiteralHosts := literal_host : string -> option string.

Definition validOptionalPort (after_colon : string) : bool := every_byte is_number after_colon.

Definition is_literal (host : string) : bool :=
  Contains host "[" || Contains host "]" || (1 <? Count host ":")%nat.

Definition parseHost `{LiteralHosts} (host : string) : option string :=
  if is_literal host then literal_host host
  else
    match CutLast host ":" with
    | Some (_, port) => if validOptionalPort port then Unescape encodeHost host else None
    | None => Unescape encodeHost host
    end.

Definition validUserinfo (s : string) : bool :=
  every_byte (fun b => is_letter b || is_number b || one_of "-._:~!$&'()*+,;=%@" b) s.

Definition parseAuthority `{LiteralHosts} (authority : string) : option (option (string * option string) * string) :=
  match CutLast authority "@" with
  | None => host ← parseHost authority; Some (None, host)
  | Some (userinfo, host) =>
    host ← parseHost host;
    if negb (validUserinfo userinfo) then None
    else
      match Cut userinfo ":" with
      | None => username ← Unescape encodeUserPassword userinfo; Some (Some (username, None), host)
      | Some (username, password) =>
        username ← Unescape encodeUserPassword username;
        password ← Unescape encodeUserPassword password;
        Some (Some (username, Some password), host)
      end
  end.

(** [getScheme]: [None] for a URL that starts with a colon. *)
Fixpoint scan_scheme (s : string) : option (string * string) :=
  match s with
  | EmptyString => None
  | String b s =>
    if (b =? ":")%char then Some ("", s)
    else if is_letter b || is_number b || one_of "+-." b then '(scheme, rest) ← scan_scheme s; Some (String b scheme, rest)
    else None
  end.

Definition getScheme (raw : string) : option (string * string) :=
  match raw with
  | String b _ =>
    if (b =? ":")%char then None
    else if is_letter b then Some (default ("", raw) (scan_scheme raw))
    else Some ("", raw)
  | EmptyString => Some ("", raw)
  end.

Definition to_lower (b : ascii) : ascii := if within 65 90 b then byte_of (byte_val b + 32) else b.
Fixpoint ToLower (s : string) : string :=
  match s with EmptyString => EmptyString | String b s => String (to_lower b) (ToLower s) end.

(** [strings.HasPrefix] *)
Definition HasPrefix (s prefix : string) : bool :=
  match CutPrefix s prefix with Some _ => true | None => false end.

(** [parse] of a URL without its fragment.  A last question mark with nothing
    behind it leaves the query empty either way. *)
Definition parse_url `{LiteralHosts} (raw : string) : option URL :=
  if negb (every_byte (fun b => (32 <=? byte_val b) && negb (byte_val b =? 127)) raw) then None
  else if bool_decide (raw = "*") then Some (mkURL "" "" None "" "*" "")
  else
    '(scheme, rest) ← getScheme raw;
    let scheme := ToLower scheme in
    let '(rest, query) := default (rest, "") (Cut rest "?") in
    if negb (HasPrefix rest "/") && negb (bool_decide (scheme = "")) then Some (mkURL scheme rest None "" "" query)
    else if negb (HasPrefix rest "/") && Contains (default (rest, "") (Cut rest "/")).1 ":" then None
    else if (negb (bool_decide (scheme = "")) || negb (HasPrefix rest "///")) && HasPrefix rest "//" then
      let authority := default "" (CutPrefix rest "//") in
      let '(authority, path) := match Cut authority "/" with
                                | Some (authority, path) => (authority, String "/" path)
                                | None => (authority, "")
                                end in
      '(user, host) ← parseAuthority authority;
      path ← Unescape encodePath path;
      Some (mkURL scheme "" user host path query)
    else path ← Unescape encodePath rest; Some (mkURL scheme "" None "" path query).

(** [url.Parse] *)
Definition url_Parse `{LiteralHosts} (raw : string) : option URL :=
  match Cut raw "#" with
  | None => parse_url raw
  | Some (u, fragment) =>
    url ← parse_url u;
    match Unescape encodeFragment fragment with Some _ => Some url | None => None end
  end.

(** ** Its parts *)

Definition splitHostPort (hostPort : string) : string * string :=
  let '(host, port) := match CutLast hostPort ":" with
                       | Some (host, port) => if validOptionalPort port then (host, port) else (hostPort, "")
                       | None => (hostPort, "")
                       end in
  (if HasPrefix host "[" && bool_decide (TrimSuffix host "]" <> host) then TrimSuffix (TrimPrefix host "[") "]" else host,
   port).

Definition Hostname (u : URL) : string := (splitHostPort (u_Host u)).1.
Definition Port (u : URL) : string := (splitHostPort (u_Host u)).2.

(** The methods of a [Userinfo] that may be nil. *)
Definition Username (user : option (string * option string)) : string := default "" (fst <$> user).
Definition Password (user : option (string * option string)) : string := default "" (user ≫= snd).

(** One piece of a query; a malformed one is skipped. *)
Definition query_pair (piece : string) : option (string * string) :=
  if bool_decide (piece = "") || Contains piece ";" then None
  else
    let '(key, value) := default (piece, "") (Cut piece "=") in
    key ← Unescape encodeQueryComponent key;
    value ← Unescape encodeQueryComponent value;
    Some (key, value).

Definition Query (u : URL) : list (string * string) := omap query_pair (Split (u_RawQuery u) "&").

(** [Values.Get] *)
Definition Values_Get (values : list (string * string)) (key : string) : string :=
  default "" (snd <$> find (fun kv => bool_decide (kv.1 = key)) values).

(** [Values.Encode] of one value of one key. *)
Definition Values_Encode (key value : string) : string :=
  Escape encodeQueryComponent key +:+ "=" +:+ Escape encodeQueryComponent value.

Definition Userinfo_String (user : string * option string) : string :=
  Escape encodeUserPassword user.1 +:+
  match user.2 with Some password => String ":" (Escape encodeUserPassword password) | None => "" end.

Definition EscapedPath (path : string) : string :=
  if bool_decide (path = "*") then "*" else Escape encodePath path.

(** [URL.String] *)
Definition URL_String (u : URL) : string :=
  let scheme := if bool_decide (u_Scheme u = "") then "" else u_Scheme u +:+ ":" in
  let query := if bool_decide (u_RawQuery u = "") then "" else String "?" (u_RawQuery u) in
  if negb (bool_decide (u_Opaque u = "")) then scheme +:+ u_Opaque u +:+ query
  else
    let slashes := if bool_decide (u_Host u = "") && bool_decide (u_Path u = "") && bool_decide (u_User u = None)
                   then "" else if bool_decide (u_Scheme u = "") && bool_decide (u_Host u = "") && bool_decide (u_User u = None)
                   then "" else "//" in
    let user := match u_User u with Some user => Userinfo_String user +:+ "@" | None => "" end in
    let start := scheme +:+ slashes +:+ user +:+ Escape encodeHost (u_Host u) in
    let path := EscapedPath (u_Path u) in
    let joined := if negb (bool_decide (path = "")) && negb (HasPrefix path "/") && negb (bool_decide (u_Host u = ""))
                  then "/" else "" in
    let dot := if bool_decide (start = "") && Contains (default (path, "") (Cut path "/")).1 ":" then "./" else "" in
    start +:+ joined +:+ dot +:+ path +:+ query.

(** ** Lemmas *)

Lemma hex_val_upper n : 0 <= n < 16 -> hex_val (upper_hex n) = Some n.
Proof.
  intros Hn.
  assert (Hall : forallb (fun k => bool_decide (hex_val (upper_hex (Z.of_nat k)) = Some (Z.of_nat k))) (seq 0 16) = true)
    by (vm_compute; reflexivity).
  rewrite forallb_forall in Hall. specialize (Hall (Z.to_nat n) ltac:(apply in_seq; lia)).
  apply bool_decide_eq_true in Hall. by rewrite Z2Nat.id in Hall by lia.
Qed.

(** What a mode leaves as it is. *)
Definition left_alone (mode : encoding) (b : ascii) : bool :=
  shouldEscape mode b || (negb (b =? "%")%char && match mode with encodeQueryComponent => negb (b =? "+")%char | _ => true end).

Lemma left_alone_all mode b : left_alone mode b = true.
Proof. destruct mode; revert b; apply every_ascii; vm_compute; reflexivity. Qed.

(** The bytes an escaped text consists of. *)
Definition escaped_byte (mode : encoding) (b : ascii) : bool :=
  negb (shouldEscape mode b) || is_number b || within 65 70 b || (b =? "%")%char || (b =? "+")%char.

Lemma upper_hex_bytes n : 0 <= n < 16 -> is_number (upper_hex n) || within 65 70 (upper_hex n) = true.
Proof.
  intros Hn.
  assert (Hall : forallb (fun k => is_number (upper_hex (Z.of_nat k)) || within 65 70 (upper_hex (Z.of_nat k))) (seq 0 16) = true)
    by (vm_compute; reflexivity).
  rewrite forallb_forall in Hall. specialize (Hall (Z.to_nat n) ltac:(apply in_seq; lia)).
  by rewrite Z2Nat.id in Hall by lia.
Qed.

Lemma byte_nibbles b : 0 <= byte_val b / 16 < 16 /\ 0 <= byte_val b mod 16 < 16.
Proof. pose proof (byte_val_range b). Z.to_euclidean_division_equations. lia. Qed.

Lemma escaped_nibble mode n : 0 <= n < 16 -> escaped_byte mode (upper_hex n) = true.
Proof.
  intros Hn. unfold escaped_byte. pose proof (upper_hex_bytes n Hn) as H.
  destruct (negb _); [done|]. cbn [orb]. by rewrite H.
Qed.

Lemma Escape_bytes mode s : every_byte (escaped_byte mode) (Escape mode s) = true.
Proof.
  induction s as [|b s IH]; [done|]. cbn [Escape]. destruct (byte_nibbles b) as [Hh Hl].
  destruct (shouldEscape mode b) eqn:E; cbn [negb].
  - assert (Hx : every_byte (escaped_byte mode)
      (String "%" (String (upper_hex (byte_val b / 16)) (String (upper_hex (byte_val b mod 16)) (Escape mode s)))) = true).
    { cbn [every_byte]. rewrite !escaped_nibble, IH by done. unfold escaped_byte. cbn [Ascii.eqb].
      rewrite !orb_true_r. done. }
    destruct mode; try exact Hx. destruct (b =? " ")%char; [|exact Hx].
    cbn [every_byte]. by rewrite IH.
  - cbn [every_byte]. rewrite IH. unfold escaped_byte. by rewrite E.
Qed.

(** Escaping is reverted, except in a host. *)
Lemma Unescape_Escape mode s : mode <> encodeHost -> Unescape mode (Escape mode s) = Some s.
Proof.
  intros Hmode. induction s as [|b s IH]; [done|]. cbn [Escape]. destruct (byte_nibbles b) as [Hh Hl].
  pose proof (left_alone_all mode b) as Ha. unfold left_alone in Ha.
  destruct (shouldEscape mode b) eqn:E; cbn [negb orb] in *.
  - assert (Hx : Unescape mode
      (String "%" (String (upper_hex (byte_val b / 16)) (String (upper_hex (byte_val b mod 16)) (Escape mode s)))) = Some (String b s)).
    { cbn [Unescape]. rewrite Ascii.eqb_refl, !hex_val_upper by done. cbn [mbind option_bind].
      replace (byte_val b / 16 * 16 + byte_val b mod 16) with (byte_val b)
        by (Z.to_euclidean_division_equations; lia).
      rewrite byte_of_val, IH. by destruct mode. }
    destruct mode; try exact Hx. destruct (Ascii.eqb_spec b " "); [|exact Hx]. subst b.
    cbn [Unescape Ascii.eqb Bool.eqb]. by rewrite IH.
  - apply andb_prop in Ha as [Hp Hq]. apply negb_true_iff in Hp. cbn [Unescape]. rewrite Hp.
    destruct (Ascii.eqb_spec b "+").
    + subst b. rewrite IH. by destruct mode.
    + rewrite IH. by destruct mode.
Qed.
