(* ===== verification/Settings.v ===== *)
(** * Settings: [internal/platform/config.go] and [app.go]

    The settings of the process, read from its environment variables, and what
    [modules.go] makes of them.  An error keeps the settings it names, because
    what it may show is part of what is proved here; [NewLogger] is in
    [RequestLog]. *)

From Stdlib Require Import SpecFloat.
From S2P Require Import Encoding Json Url.
From S2P Require Import Prelude Errors GoTime GoStrings Identity Ports Policy Consumer Http Oidc.

#[local] Open Scope string_scope.
#[local] Open Scope list_scope.
#[local] Open Scope Z_scope.

(** ** Durations: [time.ParseDuration] *)

Definition two63 : Z := 9223372036854775808.

(** [leadingInt]: the digits at the start, refused past 2^63. *)
Fixpoint leadingInt (x : Z) (s : string) : option (Z * string) :=
  match s with
  | EmptyString => Some (x, s)
  | String b rest =>
    if negb (is_number b) then Some (x, s)
    else if two63 / 10 <? x then None
    else
      let x := x * 10 + (byte_val b - 48) in
      if two63 <? x then None else leadingInt x rest
  end.

(** [leadingFraction]: digits that no longer fit are dropped.  The scale, a
    [float64] there, is a power of ten it holds exactly. *)
Fixpoint leadingFraction (x scale : Z) (overflow : bool) (s : string) : Z * Z * string :=
  match s with
  | EmptyString => (x, scale, s)
  | String b rest =>
    if negb (is_number b) then (x, scale, s)
    else if overflow then leadingFraction x scale true rest
    else if MaxInt64 / 10 <? x then leadingFraction x scale true rest
    else
      let y := x * 10 + (byte_val b - 48) in
      if two63 <? y then leadingFraction x scale true rest else leadingFraction y (scale * 10) false rest
  end.

Definition unitMap (u : string) : option Z :=
  if bool_decide (u = "ns") then Some 1
  else if bool_decide (u = "us" \/ u = "µs" \/ u = "μs") then Some 1000
  else if bool_decide (u = "ms") then Some Millisecond
  else if bool_decide (u = "s") then Some Second
  else if bool_decide (u = "m") then Some Minute
  else if bool_decide (u = "h") then Some (60 * Minute)
  else None.

(** A unit ends at a point or a digit. *)
Fixpoint scan_unit (s : string) : string * string :=
  match s with
  | EmptyString => ("", s)
  | String b rest =>
    if (b =? ".")%char || is_number b then ("", s)
    else let '(u, rest) := scan_unit rest in (String b u, rest)
  end.

(** [uint64(float64(f) * (float64(unit) / scale))], in the arithmetic of IEEE
    754 binary64. *)
Definition float64 (n : Z) : spec_float := binary_normalize 53 1024 n 0 false.

Definition trunc (x : spec_float) : Z :=
  match x with
  | S754_finite neg m e => let z := Z.shiftl (Z.pos m) e in if neg then - z else z
  | _ => 0
  end.

Definition fraction (f unit scale : Z) : Z :=
  trunc (SFmul 53 1024 (float64 f) (SFdiv 53 1024 (float64 unit) (float64 scale))).

(** The loop over the numbers and their units; the length of what is left is
    fuel enough, since every turn takes a unit. *)
Fixpoint duration_loop (fuel : nat) (d : Z) (s : string) : option Z :=
  match s, fuel with
  | EmptyString, _ => Some d
  | _, O => None
  | String b _, S fuel =>
    if negb ((b =? ".")%char || is_number b) then None
    else
      '(v, rest) ← leadingInt 0 s;
      let pre := negb (bool_decide (rest = s)) in
      let '(f, scale, after, post) :=
        match rest with
        | String "." rest' =>
          let '(f, scale, after) := leadingFraction 0 1 false rest' in (f, scale, after, negb (bool_decide (after = rest')))
        | _ => (0, 1, rest, false)
        end in
      if negb pre && negb post then None
      else
        let '(u, remaining) := scan_unit after in
        if bool_decide (u = "") then None
        else
          unit ← unitMap u;
          if two63 / unit <? v then None
          else
            let v := v * unit in
            let v := if 0 <? f then v + fraction f unit scale else v in
            if (0 <? f) && (two63 <? v) then None
            else let d := u64 (d + v) in if two63 <? d then None else duration_loop fuel d remaining
  end.

Definition ParseDuration (s : string) : option Duration :=
  let '(neg, s) := match s with
                   | String "-" rest => (true, rest)
                   | String "+" rest => (false, rest)
                   | _ => (false, s)
                   end in
  if bool_decide (s = "0") then Some 0
  else if bool_decide (s = "") then None
  else
    d ← duration_loop (S (String.length s)) 0 s;
    if neg then Some (i64 (- d)) else if MaxInt64 <? d then None else Some d.

(** ** Log levels: [slog.Level.UnmarshalText] *)

Definition LevelDebug : Z := -4.
Definition LevelInfo : Z := 0.
Definition LevelWarn : Z := 4.
Definition LevelError : Z := 8.

(** [strings.ToUpper], as far as a comparison with ASCII letters sees it: the
    dotless i and the long s have ASCII capitals too. *)
Fixpoint ToUpper (s : string) : string :=
  match s with
  | String b (String c rest as tail) =>
    if (byte_val b =? 196) && (byte_val c =? 177) then String "I" (ToUpper rest)
    else if (byte_val b =? 197) && (byte_val c =? 191) then String "S" (ToUpper rest)
    else String (upper b) (ToUpper tail)
  | String b EmptyString => String (upper b) EmptyString
  | EmptyString => EmptyString
  end.

(** The text up to the first sign, and the rest from it on. *)
Fixpoint cut_sign (s : string) : string * option string :=
  match s with
  | EmptyString => ("", None)
  | String b rest =>
    if one_of "+-" b then ("", Some s)
    else let '(name, offset) := cut_sign rest in (String b name, offset)
  end.

Definition Level_parse (s : string) : option Z :=
  let '(name, offset) := cut_sign s in
  offset ← match offset with None => Some 0 | Some text => ParseInt text end;
  let name := ToUpper name in
  level ← (if bool_decide (name = "DEBUG") then Some LevelDebug
           else if bool_decide (name = "INFO") then Some LevelInfo
           else if bool_decide (name = "WARN") then Some LevelWarn
           else if bool_decide (name = "ERROR") then Some LevelError
           else None);
  Some (i64 (level + offset)).

(** ** Settings *)

(** What a refusal names: a setting and its value, or the settings that are
    missing. *)
Inductive setting_error :=
| NotADuration (key raw : string)
| MustBePositive (key raw : string)
| NotAPositiveInteger (key raw : string)
| NotALogLevel (key raw : string)
| MissingDatabaseSettings (keys : list string)
| NotAValidUrl
| MissingIdentitySettings (keys : list string).

#[global] Instance setting_error_eq_dec : EqDecision setting_error.
Proof. solve_decision. Defined.

Abbreviation setting A := (setting_error + A)%type (only parsing).

#[local] Instance setting_bind : MBind (sum setting_error) := fun A B f m =>
  match m with inl e => inl e | inr a => f a end.

Record AppConfig := mkAppConfig {
  ac_Env : string;
  ac_HTTPAddr : string;
  ac_ShutdownTimeout : Duration;
  ac_LogLevel : Z;
  ac_DBMaxConns : Z;
  ac_MetricsAddr : string;
  ac_ReferenceMaxAttempts : Z;
  ac_ReferenceBaseBackoff : Duration;
  ac_ReferenceTTL : Duration;
  ac_QueueEndpoint : string;
  ac_QueueRegion : string;
  ac_QueueName : string;
  ac_QueueDLQName : string;
  ac_QueueVisibilityTimeout : Duration;
  ac_QueueWaitTime : Duration;
  ac_QueueMaxReceiveCount : Z;
  ac_QueueBatchSize : Z;
  ac_QueueConsumers : Z;
  ac_AWSAccessKeyID : string;
  ac_AWSSecretAccessKey : string;
  ac_QueueEventsName : string;
  ac_PublisherBatchSize : Z;
  ac_PublisherInterval : Duration;
  ac_PublisherBaseBackoff : Duration;
  ac_PublisherTimeout : Duration
}.

Record DatabaseConfig := mkDatabaseConfig {
  dc_Host : string;
  dc_Port : string;
  dc_Name : string;
  dc_User : string;
  dc_Password : string;
  dc_SSLMode : string
}.

Record OIDCConfig := mkOIDCConfig {
  oc_IssuerURL : string;
  oc_Audience : string;
  oc_ProviderClaim : string;
  oc_CacheTTL : Duration;
  oc_Leeway : Duration
}.

Section settings.

(** [os.Getenv]: a variable that is not set is empty. *)
Context (Getenv : string -> string).

Definition envOr (key fallback : string) : string :=
  if bool_decide (Getenv key = "") then fallback else Getenv key.

Definition durationEnv (key : string) (fallback : Duration) : setting Duration :=
  let raw := Getenv key in
  if bool_decide (raw = "") then inr fallback
  else
    match ParseDuration raw with
    | None => inl (NotADuration key raw)
    | Some value => if value <=? 0 then inl (MustBePositive key raw) else inr value
    end.

(** [strconv.ParseInt(raw, 10, 32)]: out of range is an error. *)
Definition int32Env (key : string) (fallback : Z) : setting Z :=
  let raw := Getenv key in
  if bool_decide (raw = "") then inr fallback
  else
    match ParseInt raw with
    | None => inl (NotAPositiveInteger key raw)
    | Some value =>
      if (value <? -2147483648) || (2147483647 <? value) || (value <=? 0)
      then inl (NotAPositiveInteger key raw) else inr value
    end.

Definition intEnv (key : string) (fallback : Z) : setting Z :=
  let raw := Getenv key in
  if bool_decide (raw = "") then inr fallback
  else
    match ParseInt raw with
    | None => inl (NotAPositiveInteger key raw)
    | Some value => if value <=? 0 then inl (NotAPositiveInteger key raw) else inr value
    end.

Definition levelEnv (key : string) (fallback : Z) : setting Z :=
  let raw := Getenv key in
  if bool_decide (raw = "") then inr fallback
  else match Level_parse raw with
       | None => inl (NotALogLevel key raw)
       | Some level => inr level
       end.

Definition AppConfigFromEnv : setting AppConfig :=
  shutdownTimeout ← durationEnv "APP_SHUTDOWN_TIMEOUT" (15 * Second);
  logLevel ← levelEnv "APP_LOG_LEVEL" LevelInfo;
  dbMaxConns ← int32Env "DB_MAX_CONNS" 10;
  referenceMaxAttempts ← intEnv "REFERENCE_MAX_ATTEMPTS" 8;
  referenceBaseBackoff ← durationEnv "REFERENCE_BASE_BACKOFF" Second;
  referenceTTL ← durationEnv "REFERENCE_TTL" (2 * Minute);
  visibilityTimeout ← durationEnv "QUEUE_VISIBILITY_TIMEOUT" (30 * Second);
  waitTime ← durationEnv "QUEUE_WAIT_TIME" (10 * Second);
  maxReceiveCount ← intEnv "QUEUE_MAX_RECEIVE_COUNT" 5;
  batchSize ← intEnv "QUEUE_BATCH_SIZE" 10;
  consumers ← intEnv "QUEUE_CONSUMERS" 2;
  publisherBatchSize ← intEnv "PUBLISHER_BATCH_SIZE" 50;
  publisherInterval ← durationEnv "PUBLISHER_INTERVAL" (500 * Millisecond);
  publisherBaseBackoff ← durationEnv "PUBLISHER_BASE_BACKOFF" Second;
  publisherTimeout ← durationEnv "PUBLISHER_TIMEOUT" (10 * Second);
  inr {|
    ac_Env := envOr "APP_ENV" "local";
    ac_HTTPAddr := envOr "APP_HTTP_ADDR" ":8080";
    ac_ShutdownTimeout := shutdownTimeout;
    ac_LogLevel := logLevel;
    ac_DBMaxConns := dbMaxConns;
    ac_MetricsAddr := envOr "APP_METRICS_ADDR" ":9090";
    ac_ReferenceMaxAttempts := referenceMaxAttempts;
    ac_ReferenceBaseBackoff := referenceBaseBackoff;
    ac_ReferenceTTL := referenceTTL;
    ac_QueueEndpoint := Getenv "QUEUE_ENDPOINT";
    ac_QueueRegion := envOr "QUEUE_REGION" "us-east-1";
    ac_QueueName := envOr "QUEUE_NAME" "wager-transactions.fifo";
    ac_QueueDLQName := envOr "QUEUE_DLQ_NAME" "wager-transactions-dlq.fifo";
    ac_QueueVisibilityTimeout := visibilityTimeout;
    ac_QueueWaitTime := waitTime;
    ac_QueueMaxReceiveCount := maxReceiveCount;
    ac_QueueBatchSize := batchSize;
    ac_QueueConsumers := consumers;
    ac_AWSAccessKeyID := Getenv "AWS_ACCESS_KEY_ID";
    ac_AWSSecretAccessKey := Getenv "AWS_SECRET_ACCESS_KEY";
    ac_QueueEventsName := envOr "QUEUE_EVENTS_NAME" "wager-events.fifo";
    ac_PublisherBatchSize := publisherBatchSize;
    ac_PublisherInterval := publisherInterval;
    ac_PublisherBaseBackoff := publisherBaseBackoff;
    ac_PublisherTimeout := publisherTimeout
  |}.

(** The names of the settings that are empty. *)
Definition missing (settings : list (string * string)) : list string :=
  omap (fun kv => if bool_decide (kv.2 = "") then Some kv.1 else None) settings.

Context `{LiteralHosts}.

Definition parseDatabaseURL (raw : string) : setting DatabaseConfig :=
  match url_Parse raw with
  | None => inl NotAValidUrl
  | Some u =>
    let port := Port u in
    let sslmode := envOr "DB_SSLMODE" (Values_Get (Query u) "sslmode") in
    inr {|
      dc_Host := Hostname u;
      dc_Port := if bool_decide (port = "") then "5432" else port;
      dc_Name := TrimPrefix (u_Path u) "/";
      dc_User := Username (u_User u);
      dc_Password := Password (u_User u);
      dc_SSLMode := if bool_decide (sslmode = "") then "disable" else sslmode
    |}
  end.

Definition DatabaseConfigFromEnv : setting DatabaseConfig :=
  if negb (bool_decide (Getenv "DATABASE_URL" = "")) then parseDatabaseURL (Getenv "DATABASE_URL")
  else
    match missing [("DB_NAME", Getenv "DB_NAME"); ("DB_USER", Getenv "DB_USER")] with
    | [] => inr {|
        dc_Host := envOr "DB_HOST" "localhost";
        dc_Port := envOr "DB_PORT" "5432";
        dc_Name := Getenv "DB_NAME";
        dc_User := Getenv "DB_USER";
        dc_Password := Getenv "DB_PASSWORD";
        dc_SSLMode := envOr "DB_SSLMODE" "disable"
      |}
    | keys => inl (MissingDatabaseSettings keys)
    end.

Definition OIDCConfigFromEnv : setting OIDCConfig :=
  match missing [("OIDC_ISSUER_URL", Getenv "OIDC_ISSUER_URL"); ("OIDC_AUDIENCE", Getenv "OIDC_AUDIENCE")] with
  | [] =>
    cacheTTL ← durationEnv "OIDC_JWKS_CACHE_TTL" DefaultCacheTTL;
    leeway ← durationEnv "OIDC_CLOCK_SKEW" DefaultLeeway;
    inr {|
      oc_IssuerURL := Getenv "OIDC_ISSUER_URL";
      oc_Audience := Getenv "OIDC_AUDIENCE";
      oc_ProviderClaim := envOr "OIDC_PROVIDER_CLAIM" DefaultProviderClaim;
      oc_CacheTTL := cacheTTL;
      oc_Leeway := leeway
    |}
  | keys => inl (MissingIdentitySettings keys)
  end.
End settings.

Definition DSN (c : DatabaseConfig) : string :=
  URL_String {|
    u_Scheme := "postgres";
    u_Opaque := "";
    u_User := Some (dc_User c, Some (dc_Password c));
    u_Host := dc_Host c +:+ ":" +:+ dc_Port c;
    u_Path := "/" +:+ dc_Name c;
    u_RawQuery := Values_Encode "sslmode" (dc_SSLMode c)
  |}.

Definition Redacted (c : DatabaseConfig) : string :=
  "postgres://" +:+ dc_User c +:+ ":xxxxx@" +:+ dc_Host c +:+ ":" +:+ dc_Port c +:+ "/" +:+ dc_Name c +:+
  "?sslmode=" +:+ dc_SSLMode c.

(** ** What the modules make of the settings *)

Definition referencePolicy (cfg : AppConfig) : ReferencePolicy := {|
  rp_MaxAttempts := ac_ReferenceMaxAttempts cfg;
  rp_BaseBackoff := ac_ReferenceBaseBackoff cfg;
  rp_MaxBackoff := 0;
  rp_TTL := ac_ReferenceTTL cfg;
  rp_BatchSize := 0;
  rp_Interval := 0
|}.

Definition publisherPolicy (cfg : AppConfig) : PublisherPolicy := {|
  pp_BatchSize := ac_PublisherBatchSize cfg;
  pp_Interval := ac_PublisherInterval cfg;
  pp_BaseBackoff := ac_PublisherBaseBackoff cfg;
  pp_MaxBackoff := 0;
  pp_PublishTimeout := ac_PublisherTimeout cfg
|}.

(** What [runConsumers] gives each of its consumers. *)
Definition consumerConfig (cfg : AppConfig) : ConsumerConfig :=
  mkConsumerConfig (ac_QueueName cfg) (ac_QueueBatchSize cfg) 0.

(** What [newAuthenticator] gives the verifier. *)
Definition verifierConfig (cfg : OIDCConfig) : Oidc.Config :=
  Oidc.mkConfig (oc_IssuerURL cfg) (oc_Audience cfg) (oc_ProviderClaim cfg) (oc_CacheTTL cfg) (oc_Leeway cfg).

Definition newServer (cfg : AppConfig) : ServerConfig :=
  NewServer {|
    sv_Addr := ac_HTTPAddr cfg;
    sv_ShutdownTimeout := ac_ShutdownTimeout cfg;
    sv_ReadHeaderTimeout := 0;
    sv_ReadTimeout := 0;
    sv_WriteTimeout := 0;
    sv_IdleTimeout := 0
  |}.

(** [PoolConfig] of [postgres/pool.go], as [newPool] fills it in. *)
Record PoolConfig := mkPoolConfig { pc_DSN : string; pc_SafeLabel : string; pc_MaxConns : Z }.

Definition poolConfig (cfg : AppConfig) (db : DatabaseConfig) : PoolConfig :=
  mkPoolConfig (DSN db) (Redacted db) (ac_DBMaxConns cfg).
