(* ===== verification/Startup.v ===== *)
(** * Startup: opening the database

    [newPool] of [internal/platform/modules.go], [internal/adapter/postgres/
    pool.go] and [migrate.go], and the command [cmd/migrate]: what is opened,
    in which order, and what is closed again when a step fails.  The driver and
    the migration library (goose) are classes of the calls the program makes;
    what is relied on is that opening gives a resource and closing takes it
    back ([ResourceLaws]). *)

From S2P Require Import Prelude Errors GoTime GoStrings Ports Url Settings.

#[local] Open Scope string_scope.
#[local] Open Scope list_scope.
#[local] Open Scope Z_scope.

(** ** The libraries *)

(** A pool, or a connection pool of [database/sql], by the number the library
    gives it. *)
Variant resource := APool (n : nat) | ADatabase (n : nat).

#[global] Instance resource_eq_dec : EqDecision resource.
Proof. solve_decision. Defined.

(** [pgxpool.Config], as far as the program sets it: what was parsed, and the
    bound on the connections if it was changed. *)
Record pgxConfig := mkPgxConfig { px_parsed : string; px_MaxConns : option Z }.

Class Pgx (W : Type) := {
  ParseConfig : string -> result pgxConfig;
  NewWithConfig : pgxConfig -> M W nat;
  Pool_Ping : nat -> M W unit;
  Pool_Close : nat -> W -> W;
  sql_Open : string -> M W nat;
  DB_Ping : nat -> M W unit;
  DB_Close : nat -> W -> W
}.

(** A provider of the migrations embedded in the program, over a database. *)
Class Goose (W : Type) := {
  goose_NewProvider : nat -> M W unit;
  Provider_Up : nat -> M W unit;
  Provider_Down : nat -> M W unit;
  Provider_GetDBVersion : nat -> M W Z
}.

(** ** [migrate.go] *)

Section startup.
Context {W : Type} `{Pgx W} `{Goose W}.

Definition newProvider (db : nat) : M W unit := wrap_errM (goose_NewProvider db).

Definition Migrate (db : nat) : M W unit :=
  _ ← newProvider db; wrap_errM (Provider_Up db).

Definition MigrateDown (db : nat) : M W unit :=
  _ ← newProvider db; wrap_errM (Provider_Down db).

Definition MigrationStatus (db : nat) : M W Z :=
  _ ← newProvider db; wrap_errM (Provider_GetDBVersion db).

(** ** [pool.go] *)

Definition NewPool (cfg : PoolConfig) : M W nat :=
  poolCfg ← pure (wrap_err (ParseConfig (pc_DSN cfg)));
  let poolCfg := if 0 <? pc_MaxConns cfg then mkPgxConfig (px_parsed poolCfg) (Some (pc_MaxConns cfg)) else poolCfg in
  pool ← wrap_errM (NewWithConfig poolCfg);
  catch (Pool_Ping pool) (fun _ => mret pool) (fun err w => throw (Wrapped err) (Pool_Close pool w)).

(** The probe of the readiness endpoint, [health.go]. *)
Definition Probe_Name : string := "postgres".
Definition Probe_Ping (pool : nat) : M W unit := Pool_Ping pool.

(** [defer db.Close()] around what follows *)
Definition defer_close {A} (db : nat) (m : M W A) : M W A := fun w =>
  let '(r, w) := m w in (r, DB_Close db w).

(** ** [newPool]: the hook that closes the pool is in [Lifecycle]. *)

Definition newPool (cfg : AppConfig) (dbCfg : DatabaseConfig) : M W nat :=
  pool ← NewPool (poolConfig cfg dbCfg);
  catch (sql_Open (DSN dbCfg))
    (fun migrationDB => defer_close migrationDB
       (catch (Migrate migrationDB) (fun _ => mret pool) (fun err w => throw err (Pool_Close pool w))))
    (fun err w => throw err (Pool_Close pool w)).

(** ** [cmd/migrate]: the arguments after the name of the program, and what it
    prints. *)

Definition migrate_command (args : list string) : string := match args with [] => "up" | c :: _ => c end.

Definition migrate_run `{LiteralHosts} (getenv : string -> string) (setting_text : setting_error -> string) (args : list string)
    : M W (string * Z) :=
  match DatabaseConfigFromEnv getenv with
  | inl e => throw (Opaque (setting_text e))
  | inr cfg =>
    db ← wrap_errM (sql_Open (DSN cfg));
    defer_close db (
      _ ← wrap_errM (DB_Ping db);
      let command := migrate_command args in
      _ ← (if bool_decide (command = "up") then Migrate db
           else if bool_decide (command = "down") then MigrateDown db
           else if bool_decide (command = "status") then pure (Ok tt)
           else throw (Opaque ("unknown command " +:+ command)));
      version ← MigrationStatus db;
      pure (Ok (Redacted cfg, version)))
  end.
End startup.

(** ** Resources *)

(** What is open; opening adds, closing takes away, and the other calls change
    nothing of it, whether they fail or not. *)
Class ResourceLaws (W : Type) `{Pgx W, Goose W} (opened : W -> list resource) : Prop := {
  NewWithConfig_law : forall cfg w, let '(r, w') := NewWithConfig cfg w in
    match r with Ok n => opened w' = APool n :: opened w | Err _ => opened w' = opened w end;
  sql_Open_law : forall dsn w, let '(r, w') := sql_Open dsn w in
    match r with Ok n => opened w' = ADatabase n :: opened w | Err _ => opened w' = opened w end;
  Pool_Close_law : forall n w l, opened w = APool n :: l -> opened (Pool_Close n w) = l;
  DB_Close_law : forall n w l, opened w = ADatabase n :: l -> opened (DB_Close n w) = l;
  Pool_Close_under : forall n w d l, opened w = ADatabase d :: APool n :: l -> opened (Pool_Close n w) = ADatabase d :: l;
  Pool_Ping_law : forall n w, opened (Pool_Ping n w).2 = opened w;
  DB_Ping_law : forall n w, opened (DB_Ping n w).2 = opened w;
  goose_law : forall n w, opened (goose_NewProvider n w).2 = opened w /\ opened (Provider_Up n w).2 = opened w /\
    opened (Provider_Down n w).2 = opened w /\ opened (Provider_GetDBVersion n w).2 = opened w
}.

Section resources.
Context {W : Type} `{Pgx W} `{Goose W} (opened : W -> list resource) `{!ResourceLaws W opened}.

(** A call that opens nothing and closes nothing. *)
Definition neutral {A} (m : M W A) : Prop := forall w, opened (m w).2 = opened w.

Lemma neutral_wrap {A} (m : M W A) : neutral m -> neutral (wrap_errM m).
Proof. intros Hm w. specialize (Hm w). unfold wrap_errM. by destruct (m w). Qed.

Lemma neutral_bind {A B} (m : M W A) (f : A -> M W B) : neutral m -> (forall a, neutral (f a)) ->
  neutral (m ≫= f).
Proof.
  intros Hm Hf w. specialize (Hm w). unfold mbind, M_bind.
  destruct (m w) as [[a|e] w1]; cbn in *; [|done]. by rewrite (Hf a).
Qed.

Lemma neutral_pure {A} (r : result A) : neutral (pure (W := W) r).
Proof. done. Qed.

#[local] Hint Resolve neutral_wrap neutral_bind neutral_pure : wager.

Lemma neutral_goose n : neutral (goose_NewProvider n) /\ neutral (Provider_Up n) /\ neutral (Provider_Down n) /\
  neutral (Provider_GetDBVersion n).
Proof. split_and!; intros w; apply goose_law. Qed.

Lemma neutral_Migrate db : neutral (Migrate db).
Proof. destruct (neutral_goose db) as (? & ? & _). unfold Migrate, newProvider. auto with wager. Qed.

Lemma neutral_MigrateDown db : neutral (MigrateDown db).
Proof. destruct (neutral_goose db) as (? & _ & ? & _). unfold MigrateDown, newProvider. auto with wager. Qed.

Lemma neutral_MigrationStatus db : neutral (MigrationStatus db).
Proof. destruct (neutral_goose db) as (? & _ & _ & ?). unfold MigrationStatus, newProvider. auto with wager. Qed.

Lemma neutral_DB_Ping db : neutral (DB_Ping db).
Proof. intros w. apply DB_Ping_law. Qed.

#[local] Hint Resolve neutral_Migrate neutral_MigrateDown neutral_MigrationStatus neutral_DB_Ping : wager.

Lemma NewPool_opens cfg w : let '(r, w') := NewPool cfg w in
  match r with Ok n => opened w' = APool n :: opened w | Err _ => opened w' = opened w end.
Proof using ResourceLaws0.
  unfold NewPool, mbind, M_bind, pure. destruct (ParseConfig (pc_DSN cfg)) as [px|e]; cbn; [|done].
  unfold wrap_errM. match goal with |- context [NewWithConfig ?x w] => set (c := x) end.
  pose proof (NewWithConfig_law c w) as Hn.
  destruct (NewWithConfig c w) as [[n|e] w1]; cbn; [|done]. unfold catch.
  pose proof (Pool_Ping_law n w1) as Hp. destruct (Pool_Ping n w1) as [[[]|e] w2]; cbn in *; [congruence|].
  apply Pool_Close_law. congruence.
Qed.

Lemma defer_close_opens {A} db (m : M W A) w l : opened w = ADatabase db :: l ->
  opened (m w).2 = ADatabase db :: l -> opened (defer_close db m w).2 = l.
Proof using ResourceLaws0.
  intros _ Hm. unfold defer_close. destruct (m w) as [r w1]. cbn in *. by apply DB_Close_law.
Qed.
End resources.

(** ** Properties *)

(** C31: whatever fails while the process opens its database, nothing is left
    open: when [newPool] succeeds exactly the pool it returns is open, and when
    it fails, at any step, everything it had opened is closed; the connection
    the migrations run on is closed in every case. *)
Theorem a_failed_start_leaves_nothing_open {W : Type} `{Pgx W} `{Goose W} (opened : W -> list resource)
    `{!ResourceLaws W opened} cfg dbCfg w :
  let '(r, w') := newPool cfg dbCfg w in
  match r with
  | Ok pool => opened w' = APool pool :: opened w
  | Err _ => opened w' = opened w
  end.
Proof.
  unfold newPool, mbind, M_bind. pose proof (NewPool_opens opened (poolConfig cfg dbCfg) w) as Hp.
  destruct (NewPool (poolConfig cfg dbCfg) w) as [[pool|e] w1]; [|exact Hp]. unfold catch at 1.
  pose proof (sql_Open_law (opened := opened) (DSN dbCfg) w1) as Ho.
  destruct (sql_Open (DSN dbCfg) w1) as [[db|e] w2].
  2:{ cbn. apply Pool_Close_law. congruence. }
  unfold defer_close, catch. pose proof (neutral_Migrate opened db w2) as Hm.
  destruct (Migrate db w2) as [[[]|e] w3]; cbn in *; apply DB_Close_law; [congruence|].
  apply Pool_Close_under. congruence.
Qed.

(** [cmd/migrate] closes what it opens too, and an unknown command, or a
    database that does not answer, runs no migration. *)
Lemma migrate_closes {W : Type} `{LiteralHosts} `{Pgx W} `{Goose W} (opened : W -> list resource) `{!ResourceLaws W opened}
    getenv setting_text args w :
  opened (migrate_run getenv setting_text args w).2 = opened w.
Proof.
  unfold migrate_run. destruct (DatabaseConfigFromEnv getenv) as [e|cfg]; [done|].
  unfold mbind at 1, M_bind at 1, wrap_errM at 1.
  pose proof (sql_Open_law (opened := opened) (DSN cfg) w) as Ho.
  destruct (sql_Open (DSN cfg) w) as [[db|e] w1]; cbn; [|exact Ho].
  apply defer_close_opens; [exact _|exact Ho|]. rewrite <- Ho.
  apply (neutral_bind opened). { apply neutral_wrap. by apply neutral_DB_Ping. }
  intros []. apply (neutral_bind opened).
  { repeat case_bool_decide; [by apply neutral_Migrate|by apply neutral_MigrateDown|done|done]. }
  intros []. apply (neutral_bind opened); [by apply neutral_MigrationStatus|done].
Qed.

(** ** At work *)

(** Libraries that keep a list of what is open, in which the migrations fail. *)
Fixpoint take_back (x : resource) (l : list resource) : list resource :=
  match l with
  | [] => []
  | y :: l => if bool_decide (x = y) then l else y :: take_back x l
  end.

Definition opening (mk : nat -> resource) : M (list resource) nat := fun w => (Ok (length w), mk (length w) :: w).

#[local] Instance listed_pgx : Pgx (list resource) := {|
  ParseConfig := fun dsn => Ok (mkPgxConfig dsn None);
  NewWithConfig := fun _ => opening APool;
  Pool_Ping := fun _ => pure (Ok tt);
  Pool_Close := fun n => take_back (APool n);
  sql_Open := fun _ => opening ADatabase;
  DB_Ping := fun _ => pure (Ok tt);
  DB_Close := fun n => take_back (ADatabase n)
|}.

#[local] Instance failing_goose : Goose (list resource) := {|
  goose_NewProvider := fun _ => pure (Ok tt);
  Provider_Up := fun _ => throw (Opaque "the schema is ahead");
  Provider_Down := fun _ => pure (Ok tt);
  Provider_GetDBVersion := fun _ => pure (Ok 7)
|}.

#[local] Instance listed_laws : ResourceLaws (list resource) id.
Proof.
  constructor; try done; cbn.
  - intros n w l ->. cbn. by rewrite bool_decide_eq_true_2.
  - intros n w l ->. cbn. by rewrite bool_decide_eq_true_2.
  - intros n w d l ->. cbn. rewrite bool_decide_eq_false_2 by done. by rewrite bool_decide_eq_true_2.
Qed.

Lemma a_failed_start_leaves_nothing_open_witness : exists cfg dbCfg e w',
  newPool cfg dbCfg [APool 9] = (Err e, w') /\ e = Wrapped (Opaque "the schema is ahead") /\ id w' = id [APool 9].
Proof.
  pose (cfg := mkAppConfig "" "" 0 LevelInfo 0 "" 0 0 0 "" "" "" "" 0 0 0 0 0 "" "" "" 0 0 0 0).
  pose (dbCfg := mkDatabaseConfig "db" "5432" "wagering" "app" "" "disable").
  pose proof (a_failed_start_leaves_nothing_open (W := list resource) id cfg dbCfg [APool 9]) as Hx.
  assert (E : exists w', newPool cfg dbCfg [APool 9] = (Err (Wrapped (Opaque "the schema is ahead")), w'))
    by (eexists; reflexivity).
  destruct E as [w' E]. rewrite E in Hx. exists cfg, dbCfg, (Wrapped (Opaque "the schema is ahead")), w'.
  split; [exact E|]. split; [reflexivity|exact Hx].
Defined.
