(* ===== verification/Sqs.v ===== *)
(** * Sqs: [internal/adapter/sqs]

    The queue and the destination of events on SQS: how the queues are
    provisioned, what a request to the broker carries, and the message an
    event is published as.  The AWS SDK is two classes of operations: [AWS]
    makes the client of a configuration, [SQS] is the client. *)

From Stdlib Require Import SpecFloat.
From S2P Require Import Encoding Rfc3339 Json JsonFacts.
From S2P Require Import Prelude Errors GoTime GoStrings Money Event Identity Ports Publisher Consumer Settings HttpFacts.

#[local] Open Scope string_scope.
#[local] Open Scope list_scope.
#[local] Open Scope Z_scope.

(** ** The SDK *)

(** A message as the SDK returns it; a field may be missing. *)
Record ReceivedMessage := mkReceivedMessage {
  rm_ReceiptHandle : option string;
  rm_Body : option string
}.

Class SQS (W : Type) := {
  CreateQueue : Context -> string -> list (string * string) -> M W (option string);
  GetQueueAttributes : Context -> string -> list string -> M W (list (string * string));
  ReceiveMessage : Context -> string -> Z -> Z -> M W (list ReceivedMessage);
  DeleteMessage : Context -> string -> string -> M W unit;
  ChangeMessageVisibility : Context -> string -> string -> Z -> M W unit;
  SendMessage : Context -> string -> string -> string -> string -> M W unit;
  is_cancellation : error -> bool   (* [errors.Is] of [context.Canceled] or [context.DeadlineExceeded] *)
}.

(** [aws.ToString] *)
Definition ToString (s : option string) : string := default "" s.

(** ** Configuration *)

Record Config := mkConfig {
  qc_Endpoint : string;
  qc_Region : string;
  qc_QueueName : string;
  qc_DLQName : string;
  qc_AccessKeyID : string;
  qc_SecretKey : string;
  qc_VisibilityTimeout : Duration;
  qc_WaitTime : Duration;
  qc_MaxReceiveCount : Z
}.

Record Client := mkClient { cl_queueURL : string; cl_cfg : Config }.

(** What [newQueueClient] of [modules.go] configures. *)
Definition queueConfig (cfg : AppConfig) : Config := {|
  qc_Endpoint := ac_QueueEndpoint cfg;
  qc_Region := ac_QueueRegion cfg;
  qc_QueueName := ac_QueueName cfg;
  qc_DLQName := ac_QueueDLQName cfg;
  qc_AccessKeyID := ac_AWSAccessKeyID cfg;
  qc_SecretKey := ac_AWSSecretAccessKey cfg;
  qc_VisibilityTimeout := ac_QueueVisibilityTimeout cfg;
  qc_WaitTime := ac_QueueWaitTime cfg;
  qc_MaxReceiveCount := ac_QueueMaxReceiveCount cfg
|}.

(** [int(d.Seconds())], with the sum of [Seconds] in binary64, for a duration
    that is positive. *)
Definition whole_seconds (d : Duration) : Z :=
  trunc (SFadd 53 1024 (float64 (Z.quot d Second)) (SFdiv 53 1024 (float64 (Z.rem d Second)) (float64 1000000000))).

(** [int32(z)] *)
Definition i32 (z : Z) : Z := (z + 2147483648) mod 4294967296 - 2147483648.

(** [%q]: [strconv.Quote], less the runes past 127 that Go would not print. *)
Definition quote_byte (b : ascii) : string :=
  let escape e := String backslash (String e "") in
  if (b =? dquote)%char || (b =? backslash)%char then escape b
  else if byte_val b =? 7 then escape "a"%char
  else if byte_val b =? 8 then escape "b"%char
  else if byte_val b =? 9 then escape "t"%char
  else if byte_val b =? 10 then escape "n"%char
  else if byte_val b =? 11 then escape "v"%char
  else if byte_val b =? 12 then escape "f"%char
  else if byte_val b =? 13 then escape "r"%char
  else if (byte_val b <? 32) || (byte_val b =? 127)
  then String backslash (String "x" (String (hex_char (byte_val b / 16)) (String (hex_char (byte_val b mod 16)) "")))
  else String b "".

Fixpoint Quote (s : string) : string :=
  match s with
  | EmptyString => ""
  | String b s => quote_byte b +:+ Quote s
  end.

Definition redrivePolicy (dlqARN : string) (maxReceiveCount : Z) : string :=
  "{" +:+ quoted "deadLetterTargetArn" +:+ ":" +:+ quoted (Quote dlqARN) +:+ "," +:+
  quoted "maxReceiveCount" +:+ ":" +:+ quoted (FormatInt maxReceiveCount) +:+ "}".

Section sqs.
Context {W : Type} `{SQS W}.

(** ** Provisioning *)

Definition createQueue (ctx : Context) (name : string) (attributes : list (string * string)) : M W string :=
  out ← wrap_errM (CreateQueue ctx name attributes); mret (ToString out).

Definition queueARN (ctx : Context) (url : string) : M W string :=
  out ← wrap_errM (GetQueueAttributes ctx url ["QueueArn"]);
  let arn := default "" (snd <$> find (fun kv => bool_decide (kv.1 = "QueueArn")) out) in
  if bool_decide (arn = "") then throw (Opaque "the queue reported no arn") else mret arn.

Definition provision (ctx : Context) (cfg : Config) : M W string :=
  dlqURL ← createQueue ctx (qc_DLQName cfg) [("FifoQueue", "true")];
  dlqARN ← queueARN ctx dlqURL;
  createQueue ctx (qc_QueueName cfg) [
    ("FifoQueue", "true");
    ("ContentBasedDeduplication", "false");
    ("VisibilityTimeout", FormatInt (whole_seconds (qc_VisibilityTimeout cfg)));
    ("RedrivePolicy", redrivePolicy dlqARN (qc_MaxReceiveCount cfg))].

(** [New] and [NewEventPublisher], once the client of the SDK is made. *)
Definition NewClient (ctx : Context) (cfg : Config) : M W Client :=
  queueURL ← provision ctx cfg; mret (mkClient queueURL cfg).

Definition provision_events (ctx : Context) (eventsQueueName : string) : M W string :=
  createQueue ctx eventsQueueName [("FifoQueue", "true")].

(** ** The queue *)

Definition Client_Receive (c : Client) (ctx : Context) (max : Z) : M W (list QueueMessage) := fun w =>
  match ReceiveMessage ctx (cl_queueURL c) (i32 max) (i32 (whole_seconds (qc_WaitTime (cl_cfg c)))) w with
  | (Err err, w) => if is_cancellation err then (Ok [], w) else (Err (Wrapped err), w)
  | (Ok out, w) => (Ok (map (fun m => mkQueueMessage (ToString (rm_ReceiptHandle m)) (ToString (rm_Body m))) out), w)
  end.

Definition Client_Delete (c : Client) (ctx : Context) (receiptHandle : string) : M W unit :=
  wrap_errM (DeleteMessage ctx (cl_queueURL c) receiptHandle).

Definition Client_Release (c : Client) (ctx : Context) (receiptHandle : string) : M W unit :=
  wrap_errM (ChangeMessageVisibility ctx (cl_queueURL c) receiptHandle 0).

(** The client is the queue the consumer polls. *)
Definition sqs_Queue (c : Client) : Queue W :=
  {| q_Receive := Client_Receive c; q_Delete := Client_Delete c; q_Release := Client_Release c |}.
End sqs.

(** ** Reaching the broker *)

(** What the SDK makes a client of: the default configuration for a region,
    with credentials when they are given, and an endpoint other than that of
    the region. *)
Class AWS (W : Type) := {
  aws_Config : Type;
  LoadDefaultConfig : Context -> string -> option (string * string) -> M W aws_Config;
  NewFromConfig : aws_Config -> option string -> SQS W
}.

Section aws.
Context {W : Type} `{AWS W}.

Definition loadAWS (ctx : Context) (cfg : Config) : M W aws_Config :=
  wrap_errM (LoadDefaultConfig ctx (qc_Region cfg)
    (if bool_decide (qc_AccessKeyID cfg = "") then None else Some (qc_AccessKeyID cfg, qc_SecretKey cfg))).

Definition sqs_api (ctx : Context) (cfg : Config) : M W (SQS W) :=
  awsCfg ← loadAWS ctx cfg;
  mret (NewFromConfig awsCfg (if bool_decide (qc_Endpoint cfg = "") then None else Some (qc_Endpoint cfg))).

Definition New (ctx : Context) (cfg : Config) : M W (SQS W * Client) :=
  api ← sqs_api ctx cfg; client ← NewClient (H := api) ctx cfg; mret (api, client).

Definition NewEventPublisher (ctx : Context) (cfg : Config) (eventsQueueName : string) : M W (SQS W * string) :=
  api ← sqs_api ctx cfg; url ← provision_events (H := api) ctx eventsQueueName; mret (api, url).

(** [newQueueClient] and [newEventPublisher] of [modules.go]. *)
Definition newQueueClient (cfg : AppConfig) : M W (SQS W * Client) := New Background (queueConfig cfg).

Definition newEventPublisher (cfg : AppConfig) : M W (SQS W * string) :=
  NewEventPublisher Background
    (mkConfig (ac_QueueEndpoint cfg) (ac_QueueRegion cfg) "" "" (ac_AWSAccessKeyID cfg) (ac_AWSSecretAccessKey cfg) 0 0 0)
    (ac_QueueEventsName cfg).
End aws.

(** ** Events *)

Record eventEnvelope := mkEventEnvelope {
  ee_EventID : string;
  ee_EventType : string;
  ee_Version : Z;
  ee_AggregateID : string;
  ee_CorrelationID : string;
  ee_CausationID : string;
  ee_OccurredAt : string;
  ee_Data : value
}.

Definition json_eventEnvelope (e : eventEnvelope) : value :=
  of_struct ([("eventId", of_string (ee_EventID e)); ("eventType", of_string (ee_EventType e));
    ("version", of_int (ee_Version e)); ("aggregateId", of_string (ee_AggregateID e))] ++
    of_omitempty "correlationId" (ee_CorrelationID e) ++ of_omitempty "causationId" (ee_CausationID e) ++
    [("occurredAt", of_string (ee_OccurredAt e)); ("data", ee_Data e)]).

(** A payload as a JSON value: [json.RawMessage] is compacted and its HTML
    escaped, which is how [json.Marshal] writes it in the first place. *)
Fixpoint json_value (j : json) : value :=
  match j with
  | JString s => of_string s
  | JInt z => of_int z
  | JTime t => VString (format_nanos t)
  | JObject fields =>
    VObject ((fix members (l : list (string * json)) : list (string * value) :=
                match l with [] => [] | (k, v) :: l => (quote k, json_value v) :: members l end) fields)
  end.

Definition toEventEnvelope (r : OutboxRecord) : eventEnvelope := {|
  ee_EventID := or_EventID r;
  ee_EventType := ev_Type (or_Event r);
  ee_Version := ev_Version (or_Event r);
  ee_AggregateID := ev_AggregateID (or_Event r);
  ee_CorrelationID := or_CorrelationID r;
  ee_CausationID := or_CausationID r;
  ee_OccurredAt := format_nanos (Time_UTC (ev_OccurredAt (or_Event r)));
  ee_Data := json_value (ev_Payload (or_Event r))
|}.

(** [EventPublisher.Publish] *)
Definition EventPublisher_Publish {W} `{SQS W} (queueURL : string) (ctx : Context) (record : OutboxRecord) : M W unit :=
  wrap_errM (SendMessage ctx queueURL (write (json_eventEnvelope (toEventEnvelope record)))
    (ev_AggregateID (or_Event record)) (or_EventID record)).

(** The publisher the outbox hands its events to. *)
Definition sqs_Publisher {W} `{SQS W} (queueURL : string) : EventPublisher W :=
  {| Publish := EventPublisher_Publish queueURL |}.

(** ** What a listener reads *)

(** What a JSON value says, whatever listener reads it: a text, an integer, an
    instant, a payload. The text of a string is what its escapes decode to. *)
Definition is_text (s : string) (v : value) : Prop :=
  exists content, v = VString content /\ unquote content = Some s.

Definition is_number (z : Z) (v : value) : Prop :=
  exists literal, v = VNumber literal /\ ParseInt literal = Some z.

Definition is_instant (t : Time) (v : value) : Prop :=
  exists text, is_text text v /\ parse_time text = Some t.

Fixpoint is_payload (j : json) (v : value) {struct j} : Prop :=
  match j with
  | JString s => is_text s v
  | JInt z => is_number z v
  | JTime t => is_instant t v
  | JObject fields =>
    match v with
    | VObject ms =>
      (fix members (fields : list (string * json)) (ms : list (string * value)) : Prop :=
         match fields, ms with
         | [], [] => True
         | (name, j) :: fields, (k, v) :: ms => unquote k = Some name /\ is_payload j v /\ members fields ms
         | _, _ => False
         end) fields ms
    | _ => False
    end
  end.

(** An object with these members, in this order, and no other. *)
Definition is_object (members : list (string * (value -> Prop))) (v : value) : Prop :=
  exists ms, v = VObject ms /\ Forall2 (fun m member => unquote m.1 = Some member.1 /\ member.2 m.2) ms members.

(** A field that is left out when there is nothing to say. *)
Definition unless_empty (name s : string) : list (string * (value -> Prop)) :=
  if decide (s = "") then [] else [(name, is_text s)].

(** A payload that can be written: texts in UTF-8, integers that count,
    instants of four-digit years in UTC. *)
Fixpoint payload_ok (j : json) : Prop :=
  match j with
  | JString s => valid_utf8 s
  | JInt z => 0 <= z <= MaxInt64
  | JTime t => is_utc t /\ 0 <= (clock_face t).1.1.1.1 <= 9999
  | JObject fields => foldr (fun kv P => valid_utf8 kv.1 /\ payload_ok kv.2 /\ P) True fields
  end.

Lemma json_value_wf j : payload_ok j -> wf (json_value j).
Proof.
  revert j. fix IH 1. intros [s|z|t|fields]; cbn [payload_ok json_value].
  - intros _. apply wf_of_string.
  - intros Hz. apply wf_of_int. width; lia.
  - intros [Hu Hy]. by apply content_ok_format_nanos.
  - intros Hf. apply wf_object. revert Hf. induction fields as [|[k v] fields IHf]; intros Hf; [constructor|].
    cbn in Hf. destruct Hf as (_ & Hv & Hf). constructor; [|by apply IHf].
    split; [apply content_ok_quote|by apply IH].
Qed.

(** The texts of an event. *)
Definition event_texts (r : OutboxRecord) : list string :=
  [or_EventID r; ev_Type (or_Event r); ev_AggregateID (or_Event r); or_CorrelationID r; or_CausationID r].

(** The text of an instant is made of bytes below the backslash: it is ASCII
    and needs no escape. *)
Definition instant_byte (b : ascii) : bool := byte_val b <? 92.

Lemma padded_ascii k n acc : every_byte instant_byte acc = true -> every_byte instant_byte (padded k n acc) = true.
Proof.
  revert n acc. induction k as [|k IH]; intros n acc Ha; [done|]. apply IH. cbn [every_byte]. rewrite Ha, andb_true_r.
  unfold instant_byte, digit_char. rewrite byte_val_of; Z.to_euclidean_division_equations; lia.
Qed.

Lemma trim_zeros_ascii k n : every_byte instant_byte (trim_zeros k n) = true.
Proof.
  revert n. induction k as [|k IH]; intros n; cbn [trim_zeros]; [done|]. destruct (n mod 10 =? 0); [apply IH|].
  rewrite every_byte_app. cbn [every_byte andb]. by apply (padded_ascii (S k)).
Qed.

Lemma format_nanos_bytes t :
  is_utc t -> 0 <= (clock_face t).1.1.1.1 <= 9999 -> every_byte instant_byte (format_nanos t) = true.
Proof.
  intros Hu Hy. unfold format_nanos, format_with. rewrite Hu. cbn [loc_offset].
  destruct (clock_face t) as [[[[y m] d] second] nano]. cbn [fst] in Hy. unfold format_year.
  rewrite (proj2 (Z.leb_le _ _) (proj1 Hy)), (proj2 (Z.leb_le _ _) (proj2 Hy)). cbn [andb].
  change (format_zone 0) with "Z". by rewrite !every_byte_app, !padded_ascii, trim_zeros_ascii.
Qed.

Lemma instant_byte_spec b : instant_byte b = true -> byte_val b < 128 /\ (b =? backslash)%char = false.
Proof.
  unfold instant_byte. intros H%Z.ltb_lt. split; [lia|]. apply Ascii.eqb_neq. intros ->.
  vm_compute in H. discriminate.
Qed.

Lemma format_nanos_valid t : is_utc t -> 0 <= (clock_face t).1.1.1.1 <= 9999 -> valid_utf8 (format_nanos t).
Proof.
  intros Hu Hy. apply ascii_text_valid. unfold ascii_text. pose proof (format_nanos_bytes t Hu Hy) as H. revert H.
  generalize (format_nanos t). intros s. induction s as [|b s IH]; [constructor|]. cbn [every_byte].
  intros [Hb%instant_byte_spec Hs]%andb_prop. constructor; [tauto|auto].
Qed.

Lemma format_nanos_unquoted t :
  is_utc t -> 0 <= (clock_face t).1.1.1.1 <= 9999 -> unquote (format_nanos t) = Some (format_nanos t).
Proof.
  intros Hu Hy. pose proof (format_nanos_bytes t Hu Hy) as H. revert H. unfold unquote.
  generalize (format_nanos t). intros s. induction s as [|b s IH]; [done|]. cbn [every_byte].
  intros [[Hlt Hb]%instant_byte_spec Hs]%andb_prop. rewrite runes_byte, unquote_plain by done. by rewrite IH.
Qed.

Lemma of_string_text s : valid_utf8 s -> is_text s (of_string s).
Proof. intros Hs. eexists. split; [reflexivity|]. by rewrite unquote_quote, ToValid_id. Qed.

Lemma of_int_number n : 0 <= n <= MaxInt64 -> is_number n (of_int n).
Proof. intros Hn. eexists. split; [reflexivity|]. by apply ParseInt_FormatInt. Qed.

Lemma format_nanos_instant t : is_utc t -> 0 <= (clock_face t).1.1.1.1 <= 9999 -> is_instant t (of_string (format_nanos t)).
Proof.
  intros Hu Hy. exists (format_nanos t). split; [|by apply parse_time_format].
  by apply of_string_text, format_nanos_valid.
Qed.

(** The digits and letters of an instant need no escape. *)
Lemma json_value_payload j : payload_ok j -> is_payload j (json_value j).
Proof.
  revert j. fix IH 1. intros [s|z|t|fields]; cbn [payload_ok json_value is_payload].
  - apply of_string_text.
  - apply of_int_number.
  - intros [Hu Hy]. exists (format_nanos t). split; [|by apply parse_time_format].
    eexists. split; [reflexivity|]. by apply format_nanos_unquoted.
  - induction fields as [|[k v] fields IHf]; intros Hf; [done|].
    cbn in Hf. destruct Hf as (Hk & Hv & Hf). cbn. rewrite unquote_quote, ToValid_id by done.
    split; [done|split; [by apply IH|by apply IHf]].
Qed.

Section listener.
Context (r : OutboxRecord) (Htexts : Forall valid_utf8 (event_texts r)).
Context (Hversion : 0 <= ev_Version (or_Event r) <= MaxInt64).
Context (Hyear : 0 <= (clock_face (Time_UTC (ev_OccurredAt (or_Event r)))).1.1.1.1 <= 9999).
Context (Hpay : payload_ok (ev_Payload (or_Event r))).

Lemma envelope_wf : wf (json_eventEnvelope (toEventEnvelope r)).
Proof using Hversion Hpay.
  unfold json_eventEnvelope, of_omitempty, toEventEnvelope. apply wf_object.
  cbn [ee_EventID ee_EventType ee_Version ee_AggregateID ee_CorrelationID ee_CausationID ee_OccurredAt ee_Data].
  assert (Hv : wf (of_int (ev_Version (or_Event r)))) by (apply wf_of_int; width; lia).
  pose proof (json_value_wf _ Hpay) as Hd.
  do 2 case_bool_decide; cbn [app]; names_ok; first [apply wf_of_string|assumption].
Qed.

Lemma envelope_height : height (json_value (ev_Payload (or_Event r))) < maxNestingDepth ->
  height (json_eventEnvelope (toEventEnvelope r)) <= maxNestingDepth.
Proof using.
  intros Hh. pose proof (height_nonneg (json_value (ev_Payload (or_Event r)))) as Hn.
  unfold json_eventEnvelope, of_omitempty, toEventEnvelope.
  cbn [ee_EventID ee_EventType ee_Version ee_AggregateID ee_CorrelationID ee_CausationID ee_OccurredAt ee_Data].
  do 2 case_bool_decide; cbn [app of_struct height foldr of_string of_int]; lia.
Qed.

Lemma envelope_object :
  is_object
    ([("eventId", is_text (or_EventID r)); ("eventType", is_text (ev_Type (or_Event r)));
      ("version", is_number (ev_Version (or_Event r))); ("aggregateId", is_text (ev_AggregateID (or_Event r)))] ++
     unless_empty "correlationId" (or_CorrelationID r) ++ unless_empty "causationId" (or_CausationID r) ++
     [("occurredAt", is_instant (Time_UTC (ev_OccurredAt (or_Event r)))); ("data", is_payload (ev_Payload (or_Event r)))])
    (json_eventEnvelope (toEventEnvelope r)).
Proof using Htexts Hversion Hyear Hpay.
  pose proof Htexts as Hall. unfold event_texts in Hall. rewrite !Forall_cons in Hall. destruct Hall as (? & ? & ? & ? & ? & _).
  pose proof (format_nanos_instant _ (Time_UTC_is_utc (ev_OccurredAt (or_Event r))) Hyear) as Ht.
  pose proof (json_value_payload _ Hpay) as Hd. pose proof (of_int_number _ Hversion) as Hv.
  eexists. split; [reflexivity|]. unfold of_omitempty, unless_empty, toEventEnvelope.
  cbn [ee_EventID ee_EventType ee_Version ee_AggregateID ee_CorrelationID ee_CausationID ee_OccurredAt ee_Data].
  repeat case_bool_decide; repeat case_decide; try congruence; cbn [app];
    repeat (apply Forall2_cons_2; [split; [vm_compute; reflexivity|cbn [snd]; auto using of_string_text]|]);
    apply Forall2_nil_2.
Qed.
End listener.

(** C27: a listener reads an event as it was recorded: the message an event is
    published as is one JSON object with exactly the members of the contract
    ([docs/events.md]), each saying what the record of the outbox says,
    whatever characters it holds: [eventId] the identity minted when the event
    was recorded, [eventType] and [version] what it is, [aggregateId] what it
    is about, [correlationId] and [causationId] when the record has them,
    [occurredAt] the instant of the fact to the nanosecond (not that of the
    publication), and [data] the payload, member by member. It is sent in the
    group of the aggregate, with the event's identity to deduplicate on. *)
Theorem a_listener_reads_what_was_recorded {W} `{SQS W} queueURL ctx r (w : W) :
  Forall valid_utf8 (event_texts r) -> 0 <= ev_Version (or_Event r) <= MaxInt64 ->
  0 <= (clock_face (Time_UTC (ev_OccurredAt (or_Event r)))).1.1.1.1 <= 9999 ->
  payload_ok (ev_Payload (or_Event r)) -> height (json_value (ev_Payload (or_Event r))) < maxNestingDepth ->
  exists body v,
    Publish (EventPublisher := sqs_Publisher queueURL) ctx r w =
      wrap_errM (SendMessage ctx queueURL body (ev_AggregateID (or_Event r)) (or_EventID r)) w /\
    readValue false body = Some (v, "") /\
    is_object
      ([("eventId", is_text (or_EventID r)); ("eventType", is_text (ev_Type (or_Event r)));
        ("version", is_number (ev_Version (or_Event r))); ("aggregateId", is_text (ev_AggregateID (or_Event r)))] ++
       unless_empty "correlationId" (or_CorrelationID r) ++ unless_empty "causationId" (or_CausationID r) ++
       [("occurredAt", is_instant (Time_UTC (ev_OccurredAt (or_Event r))));
        ("data", is_payload (ev_Payload (or_Event r)))]) v.
Proof.
  intros Htexts Hversion Hyear Hpay Hheight.
  exists (write (json_eventEnvelope (toEventEnvelope r))), (json_eventEnvelope (toEventEnvelope r)).
  split; [done|]. split; [by apply readValue_write; [apply envelope_wf|apply envelope_height]|].
  by apply envelope_object.
Qed.

(** ** Provisioning *)

(** The bytes of an ARN. *)
Definition arn_byte (b : ascii) : bool := Url.is_letter b || Url.is_number b || one_of ":-_./" b.

Lemma arn_quoted s : every_byte arn_byte s = true -> quote s = s /\ Quote s = s.
Proof.
  assert (Hb : forall b, arn_byte b = true ->
    byte_val b < 128 /\ quote_rune (Byte b) = String b "" /\ quote_byte b = String b "").
  { intros b Hb. assert (H : negb (arn_byte b) || ((byte_val b <? 128) && bool_decide (quote_rune (Byte b) = String b "") &&
      bool_decide (quote_byte b = String b "")) = true) by (revert b Hb; intros b _; revert b; apply every_ascii; vm_compute; reflexivity).
    rewrite Hb in H. cbn [negb orb] in H. apply andb_prop in H as [[H1 H2%bool_decide_eq_true]%andb_prop H3%bool_decide_eq_true].
    split_and!; [lia|done|done]. }
  induction s as [|b s IH]; [done|]. cbn [every_byte Quote]. intros [Hs Hr]%andb_prop.
  destruct (Hb b Hs) as (Hlt & Hq & Hq'). destruct (IH Hr) as [IH1 IH2]. split.
  - unfold quote in *. rewrite runes_byte by done. cbn [Json.concat_map foldr]. fold (Json.concat_map quote_rune (runes s)). by rewrite Hq, IH1.
  - by rewrite Hq', IH2.
Qed.

Lemma render_bytes ds : Forall is_digit ds -> every_byte arn_byte (render ds) = true.
Proof.
  induction 1 as [|d ds Hd _ IH]; [done|]. rewrite render_cons. cbn [every_byte]. rewrite IH, andb_true_r.
  unfold arn_byte. apply orb_true_iff. left. apply orb_true_iff. right. unfold Url.is_number, within, digit_char.
  unfold is_digit in Hd. rewrite byte_val_of; lia.
Qed.

Lemma FormatInt_bytes n : is_i64 n -> every_byte arn_byte (FormatInt n) = true.
Proof.
  intros Hn. unfold FormatInt. destruct (Z.ltb_spec n 0).
  - destruct (FormatUint_digits (- n)) as (ds & _ & Hds & -> & _); [width; lia|].
    rewrite every_byte_app, render_bytes by done. done.
  - destruct (FormatUint_digits n) as (ds & _ & Hds & -> & _); [width; lia|]. by apply render_bytes.
Qed.

(** The redrive policy is the JSON the broker expects, and names the
    dead-letter queue. *)
Lemma redrive_names_the_queue arn count : every_byte arn_byte arn = true -> is_i64 count ->
  redrivePolicy arn count =
    write (of_struct [("deadLetterTargetArn", of_string arn); ("maxReceiveCount", of_string (FormatInt count))]).
Proof.
  intros Ha Hc. destruct (arn_quoted arn Ha) as [H1 H2]. unfold redrivePolicy, of_string, of_struct. rewrite H1, H2.
  rewrite (proj1 (arn_quoted _ (FormatInt_bytes count Hc))). cbn [write map Json.join]. unfold quoted. by norm_app.
Qed.

(** ** On concrete records *)

(** A broker that keeps what it is sent. *)
#[local] Instance outbox_tray : SQS (list (string * string * string)) := {|
  CreateQueue := fun _ name _ => mret (Some ("https://queue/" +:+ name));
  GetQueueAttributes := fun _ _ _ => mret [("QueueArn", "arn:aws:sqs:us-east-1:000000000000:wager-transactions-dlq.fifo")];
  ReceiveMessage := fun _ _ _ _ => mret [];
  DeleteMessage := fun _ _ _ => mret ();
  ChangeMessageVisibility := fun _ _ _ _ => mret ();
  SendMessage := fun _ _ body group dedup sent => (Ok (), sent ++ [(group, dedup, body)]);
  is_cancellation := fun _ => false
|}.

Definition recorded : OutboxRecord :=
  mkOutboxRecord "e-1"
    (mkEvent EventWalletBalanceChanged 1 "w-1" (mkTime 63000000000000001500 UTC)
       (JObject [("walletId", JString "w-1"); ("direction", JString "<DEBIT>");
                 ("money", json_money (mkMoneyPayload "10.00" "BRL")); ("walletVersion", JInt 2)]))
    "trace-1" "" 0 zeroTime zeroTime "".

Lemma a_listener_reads_what_was_recorded_witness : exists body v,
  (Publish (EventPublisher := sqs_Publisher "https://queue/wager-events.fifo") Background recorded []).2 = [("w-1", "e-1", body)] /\
  readValue false body = Some (v, "") /\
  is_object
    [("eventId", is_text "e-1"); ("eventType", is_text "WalletBalanceChanged"); ("version", is_number 1);
     ("aggregateId", is_text "w-1"); ("correlationId", is_text "trace-1");
     ("occurredAt", is_instant (mkTime 63000000000000001500 UTC)); ("data", is_payload (ev_Payload (or_Event recorded)))] v.
Proof.
  destruct (a_listener_reads_what_was_recorded "https://queue/wager-events.fifo" Background recorded [])
    as (body & v & Hp & Hr & Hi).
  - change (event_texts recorded) with ["e-1"; EventWalletBalanceChanged; "w-1"; "trace-1"; ""].
    repeat (apply Forall_cons_2; [apply ascii_text_valid; unfold ascii_text; apply (bool_decide_eq_true_1 _); vm_compute; reflexivity|]).
    apply Forall_nil_2.
  - vm_compute. split; discriminate.
  - vm_compute. split; discriminate.
  - repeat split; first [apply ascii_text_valid; unfold ascii_text; apply (bool_decide_eq_true_1 _); vm_compute; reflexivity|vm_compute; discriminate].
  - vm_compute. reflexivity.
  - exists body, v. split; [rewrite Hp; reflexivity|split; [exact Hr|exact Hi]].
Defined.

(** Settings are cut to whole seconds on their way to the broker: half a
    second of waiting is none, and half a second of invisibility too. *)
Lemma half_a_second_is_none :
  map whole_seconds [30 * Second; 10 * Second; 500 * Millisecond; 1999 * Millisecond] = [30; 10; 0; 1].
Proof. vm_compute. reflexivity. Qed.
