(* ===== verification/Metrics.v ===== *)
(** * Metrics: [internal/app/metrics.go], [internal/adapter/metrics]

    What is counted and timed, beside the program that does not read it: the
    recorder and its series, the ports, and the use cases and the edge with
    their recorder.  The Prometheus client is a class of two operations
    ([Registry]).  The time each thing took is a parameter.  What is recorded inside
    a unit of work is in [Measured]. *)

From S2P Require Import Encoding Json.
From S2P Require Import Prelude Errors GoTime GoStrings Money Identifier Ledger Wallet Transaction.
From S2P Require Import Identity Ports Store StoreInv Policy Submit Storable SubmitSpec SubmitProof SubmitExecute.
From S2P Require Import Reconcile Worker Consumer Postgres PostgresLaws UowLaws System Http HttpFacts Program.

#[local] Open Scope string_scope.
#[local] Open Scope list_scope.
#[local] Open Scope Z_scope.

(** ** Ports: [metrics.go] *)

Definition SourceHTTP : string := "http".
Definition SourceQueue : string := "queue".

Definition DiscardMalformed : string := "malformed".
Definition DiscardUnusable : string := "unusable".
Definition DiscardNoProvider : string := "no-provider".
Definition DiscardReusedID : string := "reused-message-id".

Section ports.
Context {R : Type}.   (* what is recorded *)

Record OperationMetrics := mkOperationMetrics {
  OperationSettled : string -> string -> string -> R -> R;
  OperationLatency : string -> Duration -> R -> R;
  WalletContention : R -> R
}.

Record QueueMetrics := mkQueueMetrics {
  MessageDeduplicated : R -> R;
  MessageDiscarded : string -> R -> R;
  MessageReleased : R -> R
}.

Record OutboxMetrics := mkOutboxMetrics {
  EventPublished : Duration -> R -> R;
  EventPublishFailed : R -> R
}.

Record ReconciliationMetrics := mkReconciliationMetrics { ReconciliationRun : bool -> R -> R }.

Record StorageMetrics := mkStorageMetrics { TransactionRetried : R -> R }.

(** [RequestObserver] of the edge. *)
Definition RequestObserver : Type := string -> string -> string -> Duration -> R -> R.

(** [NoMetrics] *)
Definition noOperationMetrics : OperationMetrics := mkOperationMetrics (fun _ _ _ r => r) (fun _ _ r => r) (fun r => r).
Definition noQueueMetrics : QueueMetrics := mkQueueMetrics (fun r => r) (fun _ r => r) (fun r => r).
Definition noOutboxMetrics : OutboxMetrics := mkOutboxMetrics (fun _ r => r) (fun r => r).
Definition noReconciliationMetrics : ReconciliationMetrics := mkReconciliationMetrics (fun _ r => r).

(** A recorder that is nil records nothing. *)
Definition operationMetricsOr (m : option OperationMetrics) : OperationMetrics := default noOperationMetrics m.
Definition queueMetricsOr (m : option QueueMetrics) : QueueMetrics := default noQueueMetrics m.
Definition outboxMetricsOr (m : option OutboxMetrics) : OutboxMetrics := default noOutboxMetrics m.
Definition reconciliationMetricsOr (m : option ReconciliationMetrics) : ReconciliationMetrics :=
  default noReconciliationMetrics m.
End ports.
Arguments OperationMetrics : clear implicits.
Arguments QueueMetrics : clear implicits.
Arguments OutboxMetrics : clear implicits.
Arguments ReconciliationMetrics : clear implicits.
Arguments StorageMetrics : clear implicits.
Arguments RequestObserver : clear implicits.

(** ** The recorder: [prometheus.go] *)

(** Counting and observing under the values of the labels of a series. *)
Class Registry (R : Type) := {
  Inc : string -> list string -> R -> R;
  Observe : string -> list string -> Duration -> R -> R
}.

Definition namespace : string := "wagering".

Variant series_kind := Counter | Histogram (buckets_us : list Z).   (* bounds in microseconds *)

(** The series [New] registers, with their labels. *)
Definition registered : list (string * list string * series_kind) := [
  ("operations_total", ["source"; "kind"; "status"], Counter);
  ("operation_duration_seconds", ["source"],
     Histogram [1000; 2500; 5000; 10000; 25000; 50000; 100000; 250000; 500000; 1000000; 2500000; 5000000]);
  ("wallet_contention_total", [], Counter);
  ("transaction_retries_total", [], Counter);
  ("queue_duplicates_total", [], Counter);
  ("queue_discarded_total", ["reason"], Counter);
  ("queue_released_total", [], Counter);
  ("outbox_publish_lag_seconds", [],
     Histogram [50000; 100000; 250000; 500000; 1000000; 2500000; 5000000; 10000000; 30000000; 60000000; 300000000]);
  ("outbox_publish_failures_total", [], Counter);
  ("reconciliations_total", ["result"], Counter);
  ("http_request_duration_seconds", ["route"; "method"; "status"],
     Histogram [1000; 5000; 10000; 25000; 50000; 100000; 250000; 500000; 1000000; 2500000; 5000000])].

Section recorder.
Context {R : Type} `{Registry R}.

Definition Recorder_OperationMetrics : OperationMetrics R := {|
  OperationSettled := fun source kind status => Inc "operations_total" [source; kind; status];
  OperationLatency := fun source took => Observe "operation_duration_seconds" [source] took;
  WalletContention := Inc "wallet_contention_total" []
|}.

Definition Recorder_StorageMetrics : StorageMetrics R :=
  {| TransactionRetried := Inc "transaction_retries_total" [] |}.

Definition Recorder_QueueMetrics : QueueMetrics R := {|
  MessageDeduplicated := Inc "queue_duplicates_total" [];
  MessageDiscarded := fun reason => Inc "queue_discarded_total" [reason];
  MessageReleased := Inc "queue_released_total" []
|}.

(** A lag below zero is a disagreement of clocks. *)
Definition Recorder_OutboxMetrics : OutboxMetrics R := {|
  EventPublished := fun lag => Observe "outbox_publish_lag_seconds" [] (if lag <? 0 then 0 else lag);
  EventPublishFailed := Inc "outbox_publish_failures_total" []
|}.

Definition Recorder_ReconciliationMetrics : ReconciliationMetrics R :=
  {| ReconciliationRun := fun drifted => Inc "reconciliations_total" [if drifted : bool then "drift" else "match"] |}.

Definition Recorder_RequestObserved : RequestObserver R := fun route method status took =>
  Observe "http_request_duration_seconds" [route; method; status] took.
End recorder.

(** ** The use cases and the edge with a recorder *)

Section metered.
Context {R W : Type}.

(** [Settled] of [submit.go]; the line it logs is left out. *)
Definition Settled (m : OperationMetrics R) (source : string) (took : Duration) (r : result SubmitResult) (rec : R) : R :=
  let rec := OperationLatency m source took rec in
  match r with
  | Err err => if is_sentinel err ErrVersionMismatch then WalletContention m rec else rec
  | Ok res => OperationSettled m source (t_kind (sr_Transaction res)) (t_status (sr_Transaction res)) rec
  end.

(** [SubmitTransaction.Execute] around [execute]. *)
Definition metered_Execute (m : OperationMetrics R) (took : Duration) (execute : M W SubmitResult)
    : M (R * W) SubmitResult := fun rw =>
  let '(r, w) := execute rw.2 in (r, (Settled m SourceHTTP took r rw.1, w)).

(** [ReconcileWallet.Execute] with its [report]. *)
Definition metered_Reconcile (m : ReconciliationMetrics R) (execute : M W Reconciliation) : M (R * W) Reconciliation :=
  fun rw =>
    let '(r, w) := execute rw.2 in
    (r, (match r with Ok res => ReconciliationRun m (Drifted res) rw.1 | Err _ => rw.1 end, w)).

(** [observe]: the route and the method come from the pattern, the status from
    what was written. *)
Definition observe (observer : option (RequestObserver R)) (took : Duration) (pattern : string)
    (next : Request -> W -> Response * W) : Request -> R * W -> Response * (R * W) := fun r rw =>
  let '(response, w) := next r rw.2 in
  match observer with
  | None => (response, (rw.1, w))
  | Some RequestObserved =>
    let '(method, path) := default ("", pattern) (Cut pattern " ") in
    (response, (RequestObserved path method (FormatInt (rs_status response)) took rw.1, w))
  end.

(** The mux with every handler observed. *)
Definition observed_Routes `{@TokenVerifier W} (Error : error -> string) (observer : option (RequestObserver R))
    (took : Duration) (h : Handlers) : list (string * (Request -> R * W -> Response * (R * W))) :=
  map (fun '(pattern, next) => (pattern, observe observer took pattern next)) (Routes Error h).
End metered.

(** ** Lemmas *)

(** What a recorder was asked for, in order. *)
Abbreviation Trace := (list (string * list string)) (only parsing).

#[local] Instance trace_registry : Registry Trace :=
  {| Inc := fun name labels tr => tr ++ [(name, labels)]; Observe := fun name labels _ tr => tr ++ [(name, labels)] |}.

Definition answer_statuses : list Z := [StatusOK; StatusCreated; StatusAccepted] ++ edge_statuses.

Definition route_patterns : list string := public_patterns ++ protected_patterns.

Definition pattern_labels (pattern : string) : string * string := default ("", pattern) (Cut pattern " ").

(** The values each label of each series may have. *)
Definition closed : list (string * list (list string)) := [
  ("operations_total", [[SourceHTTP; SourceQueue]; all_kinds; all_statuses]);
  ("operation_duration_seconds", [[SourceHTTP; SourceQueue]]);
  ("wallet_contention_total", []);
  ("transaction_retries_total", []);
  ("queue_duplicates_total", []);
  ("queue_discarded_total", [[DiscardMalformed; DiscardUnusable; DiscardNoProvider; DiscardReusedID]]);
  ("queue_released_total", []);
  ("outbox_publish_lag_seconds", []);
  ("outbox_publish_failures_total", []);
  ("reconciliations_total", [["match"; "drift"]]);
  ("http_request_duration_seconds",
     [map (fun p => (pattern_labels p).2) route_patterns; map (fun p => (pattern_labels p).1) route_patterns;
      map FormatInt answer_statuses])].

(** They are the series that are registered, with as many labels: recording
    under any of them does not panic. *)
Lemma closed_registered : map (fun s => (s.1, length s.2)) closed = map (fun s => (s.1.1, length s.1.2)) registered.
Proof. vm_compute. reflexivity. Qed.

Definition in_series (sample : string * list string) : Prop :=
  exists sets, (sample.1, sets) ∈ closed /\ Forall2 (fun v set => v ∈ set) sample.2 sets.

Lemma in_closed i name labels sets : closed !! i = Some (name, sets) ->
  Forall2 (fun v set => v ∈ set) labels sets -> in_series (name, labels).
Proof. intros Hi H. exists sets. split; [by eapply list_elem_of_lookup_2|done]. Qed.

(** What recording adds. *)
Definition adds (f : Trace -> Trace) : Prop := forall tr, exists new, f tr = tr ++ new /\ Forall in_series new.

Lemma adds_one sample : in_series sample -> adds (fun tr => tr ++ [sample]).
Proof. intros H tr. exists [sample]. by repeat constructor. Qed.

Lemma adds_then f g : adds f -> adds g -> adds (fun tr => g (f tr)).
Proof.
  intros Hf Hg tr. destruct (Hf tr) as (new & -> & Hn). destruct (Hg (tr ++ new)) as (new' & -> & Hn').
  exists (new ++ new'). rewrite app_assoc. split; [done|]. by apply Forall_app.
Qed.

(** An operation whose kind and status are declared. *)
Definition classified (res : SubmitResult) : Prop :=
  t_kind (sr_Transaction res) ∈ all_kinds /\ t_status (sr_Transaction res) ∈ all_statuses.

Lemma Settled_adds source took r : source ∈ [SourceHTTP; SourceQueue] ->
  match r with Ok res => classified res | Err _ => True end ->
  adds (Settled Recorder_OperationMetrics source took r).
Proof.
  intros Hs Hr. unfold Settled. cbn [OperationLatency OperationSettled WalletContention Recorder_OperationMetrics].
  assert (Hl : adds (Observe "operation_duration_seconds" [source] took)).
  { apply adds_one, (in_closed 1 _ _ [[SourceHTTP; SourceQueue]]); [reflexivity|by constructor; [|constructor]]. }
  destruct r as [res|e].
  - destruct Hr as [Hk Ht]. apply (adds_then _ (Inc "operations_total" _)); [exact Hl|].
    apply adds_one, (in_closed 0 _ _ [[SourceHTTP; SourceQueue]; all_kinds; all_statuses]); [reflexivity|].
    by repeat (constructor; [assumption|]).
  - destruct (is_sentinel e ErrVersionMismatch); [|exact Hl].
    apply (adds_then _ (Inc "wallet_contention_total" [])); [exact Hl|].
    apply adds_one, (in_closed 2 _ _ []); [reflexivity|constructor].
Qed.

(** Every answer of every route has a settled status. *)
Section statuses.
Context {W : Type} (Error : error -> string).

Lemma statusFor_status e : (statusFor e).1 ∈ answer_statuses.
Proof.
  apply elem_of_app. right. destruct (As_domain e) as [code|] eqn:E; [|by apply statusFor_edge].
  unfold statusFor. rewrite E. cbn [fst]. destruct (domainStatus !! code) as [st|] eqn:Est.
  - apply domainStatus_values in Est. unfold edge_statuses. cbn. set_solver.
  - apply (bool_decide_eq_true_1 _). vm_compute. reflexivity.
Qed.

Lemma writeError_answer r e : rs_status (writeError Error r e) ∈ answer_statuses.
Proof. unfold writeError. pose proof (statusFor_status e) as H. by destruct (statusFor e). Qed.

Lemma respond_status {A} (r : Request) (answer : A -> Response) (m : M W A) w :
  (forall a, rs_status (answer a) ∈ answer_statuses) -> rs_status (respond Error r answer m w).1 ∈ answer_statuses.
Proof. intros Ha. unfold respond. destruct (m w) as [[a|e] w']; [apply Ha|apply writeError_answer]. Qed.

Lemma probe_all_status ctx (probes : list (@Prober W)) body status w :
  let '(_, status', _) := probe_all ctx probes body status w in status' = status \/ status' = StatusServiceUnavailable.
Proof.
  revert body status w. induction probes as [|p probes IH]; intros body status w; cbn [probe_all]; [by left|].
  destruct (pr_Ping p ctx w) as [[]w1]; [apply IH|].
  pose proof (IH (mkHealthResponse "unavailable" (<[pr_Name p := "unavailable"]> (hr_Dependents body))) StatusServiceUnavailable w1) as H.
  destruct (probe_all _ _ _ _ _) as [[? ?] ?]. by destruct H as [-> | ->]; right.
Qed.

Lemma route_status (h : @Handlers W) (rt : @route W) r (w : W) : rt ∈ routeTable Error h -> rs_status (ro_handler rt r w).1 ∈ answer_statuses.
Proof.
  assert (Hin : forall s, bool_decide (s ∈ answer_statuses) = true -> s ∈ answer_statuses) by (intros s; apply bool_decide_eq_true_1).
  unfold routeTable. rewrite !elem_of_cons, elem_of_nil.
  intros [->|[->|[->|[->|[->|[->|[->|[->|[->|[]]]]]]]]]]; cbn [ro_handler];
    try (apply respond_status; intros a; first [by apply Hin | cbn; unfold submitStatus; repeat case_match; by apply Hin]).
  - by apply Hin.
  - unfold HealthHandler_Ready. pose proof (probe_all_status (rq_ctx r) (h_probes h) (mkHealthResponse "ok" ∅) StatusOK w) as Hp.
    destruct (probe_all _ _ _ _ _) as [[body status] w']. by apply Hin; destruct Hp as [-> | ->].
Qed.
End statuses.

(** A request that is refused or served has a settled status too. *)
Lemma Routes_status {W} `{@TokenVerifier W} Error (h : @Handlers W) pattern next r w :
  (pattern, next) ∈ Routes Error h -> pattern ∈ route_patterns /\ rs_status (next r w).1 ∈ answer_statuses.
Proof.
  unfold Routes. intros (rt & [= -> ->] & Hrt)%list_elem_of_fmap. split.
  { apply (proj1 (route_public Error h rt Hrt)). }
  destruct (ro_public rt); [by apply (route_status Error h)|]. unfold require.
  assert (Hr : rs_status (refuse r) ∈ answer_statuses) by (apply (bool_decide_eq_true_1 _); vm_compute; reflexivity).
  destruct (bearerToken r); [|exact Hr]. destruct (Verify _ _ w) as [[]w1]; [by apply (route_status Error h)|exact Hr].
Qed.

Section recorded.
Context (env : Environment) `{!EnvironmentLaws env} (retry : RetryPolicy) (waiting : ReferencePolicy).
Context (Hfit : durations_fit waiting).

Lemma submit_classified ctx cmd w s res w' : cx_insideUnitOfWork ctx = false -> sound env w s ->
  submit env retry waiting ctx cmd w = (Ok res, w') -> classified res.
Proof using All.
  intros Hin Hw Hsub. pose proof (submit_submitted env retry waiting Hfit ctx cmd w s Hin Hw) as H.
  rewrite Hsub in H. destruct H as (s0 & s1 & Ho & (i & p & _ & Hp & _ & Hout) & _).
  destruct Hw as [_ Hs]. destruct (others_ok env _ _ Ho Hs) as [Hs0 _].
  assert (Hok : forall t, tx_ok t -> t_kind t ∈ all_kinds /\ t_status t ∈ all_statuses).
  { intros t Ht. split; [apply (bool_decide_eq_true_1 _), (to_kind t Ht)|apply (bool_decide_eq_true_1 _), (to_status t Ht)]. }
  destruct Hout as [(t & (Hk & _) & Hr & _)|(tid & at_ & wal & t0 & t & omv & Hap)].
  - unfold Submit_replay in Hr. do 2 (case_match; [done|]). injection Hr as <-. apply Hok.
    by destruct (so_tx s0 Hs0 _ _ Hk) as (_ & [Ht _] & _).
  - destruct (waiting_sane waiting Hfit) as [_ Httl].
    destruct (applies_facts _ _ _ _ _ _ _ _ _ _ _ Hs0 (Submit_parse_ok _ _ Hp) Httl Hap) as ([[Ht _] _ _ _ _ _] & _).
    destruct (ap_writes _ _ _ _ _ _ _ _ _ _ _ Hap) as [_ Hwr]. unfold classified.
    destruct omv; destruct Hwr as [-> _]; by apply Hok.
Qed.
End recorded.

(** The number of series is bounded, and measuring changes nothing: a
    submission or a reconciliation with a recorder answers and commits what it
    does without one, as does every request under its observer, and all that
    is recorded is under registered series, with as many labels as they have
    and values from fixed lists: the entry ports, the kinds and statuses of the
    domain, the routes of the table and the statuses of the edge, never what a
    request or a message holds. *)
Theorem series_are_bounded env `{!EnvironmentLaws env} retry waiting ctx cmd id took w s (tr : Trace) :
  durations_fit waiting -> cx_insideUnitOfWork ctx = false -> sound env w s ->
  (let '(r, (tr', w')) := metered_Execute Recorder_OperationMetrics took (submit env retry waiting ctx cmd) (tr, w) in
   (r, w') = submit env retry waiting ctx cmd w /\ exists new, tr' = tr ++ new /\ Forall in_series new) /\
  (let '(r, (tr', w')) := metered_Reconcile Recorder_ReconciliationMetrics (reconcile env ctx id) (tr, w) in
   (r, w') = reconcile env ctx id w /\ exists new, tr' = tr ++ new /\ Forall in_series new) /\
  (forall W (verify : @TokenVerifier W) Error (h : @Handlers W) pattern serve r (v : W),
   (pattern, serve) ∈ observed_Routes (H := verify) Error (Some Recorder_RequestObserved) took h ->
   exists next, (pattern, next) ∈ Routes (H := verify) Error h /\
     let '(response, (tr', v')) := serve r (tr, v) in
     (response, v') = next r v /\ exists new, tr' = tr ++ new /\ Forall in_series new).
Proof.
  intros Hfit Hin Hw. split_and!.
  - pose proof (submit_classified env retry waiting Hfit ctx cmd w s) as Hc. unfold metered_Execute. cbn [fst snd].
    destruct (submit env retry waiting ctx cmd w) as [r w'] eqn:E. split; [done|].
    apply Settled_adds; [by left|]. destruct r; [by eapply Hc|done].
  - unfold metered_Reconcile. cbn [fst snd]. destruct (reconcile env ctx id w) as [[res|e] w']; (split; [done|]).
    + cbn. eexists. split; [reflexivity|]. constructor; [|constructor].
      apply (in_closed 9 _ _ [["match"; "drift"]]); [reflexivity|]. constructor; [|constructor].
      destruct (Drifted res); [right; left|left].
    + exists []. split; [by rewrite app_nil_r|constructor].
  - intros W verify Error h pattern serve r v (next' & E & Hnext)%list_elem_of_fmap.
    destruct next' as [pattern' next]. injection E as -> ->. exists next. split; [exact Hnext|].
    destruct (Routes_status Error h pattern' next r v Hnext) as [Hp Hs]. unfold observe. cbn [fst snd].
    destruct (next r v) as [response v']. cbn [fst] in Hs.
    change (default ("", pattern') (Cut pattern' " ")) with (pattern_labels pattern').
    destruct (pattern_labels pattern') as [method path] eqn:El. split; [done|]. cbn. eexists. split; [reflexivity|].
    constructor; [|constructor]. eapply (in_closed 10); [reflexivity|].
    constructor; [|constructor; [|constructor; [|constructor]]]; apply list_elem_of_fmap.
    + exists pattern'. by rewrite El.
    + exists pattern'. by rewrite El.
    + by exists (rs_status response).
Qed.
