(* ===== verification/Measured.v ===== *)
(** * Measured: what is counted inside a unit of work

    The publisher, the consumer and the unit of work with their recorder.  What
    is recorded is not rolled back with a transaction: it is threaded through
    the attempts like a captured variable.  Erasing it gives back the
    definitions of [Publisher], [Consumer] and [Postgres]. *)

From S2P Require Import Prelude Errors GoTime Money Identifier Ledger Wallet Transaction Event.
From S2P Require Import Idempotency Identity Ports Policy Submit Publisher Consumer Postgres Metrics.

#[local] Open Scope string_scope.
#[local] Open Scope list_scope.
#[local] Open Scope Z_scope.

(** ** Definitions *)

(** [Do] of a unit of work with its recorder. *)
Definition MeteredUnitOfWork (R W : Type) : Type :=
  forall C, Context -> (Context -> Repositories W -> Callback W (C * R)) -> Callback W (C * R).

Section measured.
Context {R W : Type} `{Clock W} `{Rand W}.

(** *** The publisher *)

Section publisher.
Context `{EventPublisher W} (m : OutboxMetrics R) (Error : error -> string) (policy : PublisherPolicy).

Definition metered_publishOne (ctx : Context) (repos : Repositories W) (record : OutboxRecord) (now_ : Time)
    : Callback W R := fun rec w =>
  match Publish ctx record w with
  | (Err err, w) =>
    let rec := EventPublishFailed m rec in
    let '(r, w) := (next ← Publisher_nextAttemptAt policy now_ (i64 (or_Attempts record + 1));
                    ob_Reschedule (r_Outbox repos) (or_EventID record) next (Error err)) w in
    (r, rec, w)
  | (Ok _, w) =>
    match ob_MarkPublished (r_Outbox repos) (or_EventID record) now_ w with
    | (Err err, w) => (Err err, rec, w)
    | (Ok _, w) => (Ok (), EventPublished m (Time_Sub now_ (ev_OccurredAt (or_Event record))) rec, w)
    end
  end.

Fixpoint metered_publish_each (ctx : Context) (repos : Repositories W) (due : list OutboxRecord) (now_ : Time)
    : Callback W (Z * R) := fun '(published, rec) w =>
  match due with
  | [] => (Ok (), (published, rec), w)
  | record :: due =>
    match metered_publishOne ctx repos record now_ rec w with
    | (Err e, rec, w) => (Err e, (published, rec), w)
    | (Ok _, rec, w) => metered_publish_each ctx repos due now_ (published + 1, rec) w
    end
  end.

Definition metered_RunOnce_callback (ctx : Context) (repos : Repositories W) : Callback W (Z * R) := fun c w =>
  match Publisher_claim policy repos w with
  | (Err e, w) => (Err e, c, w)
  | (Ok (now_, due), w) => metered_publish_each ctx repos due now_ c w
  end.

Definition metered_Publisher_RunOnce (uow : MeteredUnitOfWork R W) (ctx : Context) (rw : R * W)
    : Z * result unit * (R * W) :=
  let '(r, (published, rec), w) := uow Z ctx metered_RunOnce_callback (0, rw.1) rw.2 in (published, r, (rec, w)).
End publisher.

(** *** The consumer *)

Section consumer.
Context `{IDGenerator W} (q : QueueMetrics R) (m : OperationMetrics R) (cfg : ConsumerConfig) (waiting : ReferencePolicy).

Abbreviation captured := (SubmitResult * bool)%type.

Definition metered_alreadySeen (repos : Repositories W) (envelope : Envelope) (hash : PayloadHash) : Callback W R :=
  fun rec w =>
    match in_Find (r_Inbox repos) (cc_Name cfg) (en_MessageID envelope) w with
    | (Err e, w) => (Err e, rec, w)
    | (Ok seen, w) =>
      if negb (bool_decide (im_PayloadHash seen = hash)) then (Ok (), MessageDiscarded q DiscardReusedID rec, w)
      else if negb (Inbox_Handled seen) then (Err (Wrapped (SentinelError ErrSerializationFailure)), rec, w)
      else (Ok (), rec, w)
    end.

Definition metered_consume_new (envelope : Envelope) (cmd : SubmitCommand) (now_ : Time) (ctx : Context)
    (repos : Repositories W) : Callback W (captured * R) := fun '(c, rec) w =>
  let finish result rec w :=
    let '(r, c, w) := complete cfg envelope now_ repos result w in (r, (c, rec), w) in
  match ExecuteIn waiting ctx repos cmd w with
  | (Ok applied, w) => finish applied rec w
  | (Err e, w) =>
    match As_domain e with
    | None => (Err e, (c, rec), w)
    | Some _ => finish c.1 (MessageDiscarded q DiscardUnusable rec) w
    end
  end.

Definition metered_apply_callback (envelope : Envelope) (cmd : SubmitCommand) (hash : PayloadHash)
    (ctx : Context) (repos : Repositories W) : Callback W (captured * R) := fun '(c, rec) w =>
  match (now_ ← now; mret now_) w with
  | (Err e, w) => (Err e, (c, rec), w)
  | (Ok now_, w) =>
    match in_Claim (r_Inbox repos) (received cfg envelope hash now_) w with
    | (Ok _, w) => metered_consume_new envelope cmd now_ ctx repos (c, rec) w
    | (Err claimErr, w) =>
      if is_sentinel claimErr ErrConflict
      then let '(r, rec, w) := metered_alreadySeen repos envelope hash rec w in (r, (c, rec), w)
      else (Err claimErr, (c, rec), w)
    end
  end.

Definition metered_apply (uow : MeteredUnitOfWork R W) (ctx : Context) (envelope : Envelope)
    (cmd : SubmitCommand) (identity : Identity) (rw : R * W) : result captured * (R * W) :=
  match Command_PayloadHash cmd with
  | Err e => (Err e, rw)
  | Ok hash =>
    match uow captured (Consumer_work ctx envelope identity) (metered_apply_callback envelope cmd hash)
            ((noSubmitResult, false), rw.1) rw.2 with
    | (Ok _, (c, rec), w) => (Ok c, (rec, w))
    | (Err e, (_, rec), w) => (Err e, (rec, w))
    end
  end.

(** [handle], with what it counts. *)
Definition metered_handle (took : Duration) (uow : MeteredUnitOfWork R W) (ctx : Context) (message : QueueMessage)
    (rw : R * W) : delivery_outcome * (R * W) :=
  match decodeEnvelope (qm_Body message) with
  | Err _ => (outcomeDelete, (MessageDiscarded q DiscardMalformed rw.1, rw.2))
  | Ok (envelope, cmd) =>
    match Consumer_identity cfg envelope with
    | Err _ => (outcomeDelete, (MessageDiscarded q DiscardNoProvider rw.1, rw.2))
    | Ok identity =>
      match metered_apply uow ctx envelope cmd identity rw with
      | (Err _, (rec, w)) => (outcomeRelease, (MessageReleased q rec, w))
      | (Ok (res, decided), (rec, w)) =>
        let rec := if decided : bool then Settled m SourceQueue took (Ok res) rec else MessageDeduplicated q rec in
        (outcomeDelete, (rec, w))
      end
    end
  end.
End consumer.
End measured.

(** *** The unit of work *)

Section unit_of_work.
Context {R : Type} (env : Environment) (s : StorageMetrics R).

(** The loop of [Do], which counts the attempts it replays. *)
Fixpoint metered_attempts {C} (policy : RetryPolicy) (more : nat) (n : Z) (ctx : Context)
    (fn : Context -> Repositories World -> Callback World (C * R)) : Callback World (C * R) := fun cr w =>
  match attempt env ctx fn cr w with
  | (Ok u, cr, w) => (Ok u, cr, w)
  | (Err e, (c, rec), w) =>
    if negb (transient e) || (rt_MaxAttempts policy <=? n) then (Err e, (c, rec), w)
    else
      let rec := TransactionRetried s rec in
      let '((_, gone), w) := backoff env policy n w in
      if gone then (Err e, (c, rec), w)
      else match more with
           | O => (Err e, (c, rec), w)
           | S more => metered_attempts policy more (n + 1) ctx fn (c, rec) w
           end
  end.

Definition metered_Do (retry : RetryPolicy) : MeteredUnitOfWork R World := fun C ctx fn cr w =>
  if cx_insideUnitOfWork ctx then (Err (SentinelError ErrNestedUnitOfWork), cr, w)
  else
    let policy := RetryPolicy_normalised retry in
    metered_attempts policy (Z.to_nat (rt_MaxAttempts policy)) 1 ctx fn cr w.
End unit_of_work.

(** ** Measuring changes nothing *)

(** [f] does what [g] does, and what it records only grows. *)
Definition measures {R W C} (grows : relation R) (f : Callback W (C * R)) (g : Callback W C) : Prop := forall c rec w,
  let '(r, (c', rec'), w') := f (c, rec) w in (r, c', w') = g c w /\ grows rec rec'.

(** [uow] with its recorder is [u]. *)
Class Measures {R W} (grows : relation R) (uow : MeteredUnitOfWork R W) (u : UnitOfWork W) : Prop :=
  measures_Do C ctx fn gn : (forall ctx repos, measures (C := C) grows (fn ctx repos) (gn ctx repos)) ->
    measures grows (uow C ctx fn) (uow_Do u ctx gn).

(** What was recorded grows by nothing, or by one more thing. *)
Ltac grown := solve [assumption|reflexivity|auto|etrans; [|eassumption]; auto|etrans; [eassumption|]; auto].
Ltac same := solve [cbn; split; [congruence|grown]].

Section erase.
Context {R W : Type} `{Clock W} `{Rand W} (grows : relation R) `{!PreOrder grows}.

Lemma measures_publish_each `{EventPublisher W} m Error policy ctx repos due at_ :
  (forall lag rec, grows rec (EventPublished m lag rec)) -> (forall rec, grows rec (EventPublishFailed m rec)) ->
  measures grows (metered_publish_each m Error policy ctx repos due at_) (publish_each Error policy ctx repos due at_).
Proof using All.
  intros Hp Hf. induction due as [|record due IH]; intros c rec w; [by split|].
  cbn [metered_publish_each publish_each]. unfold metered_publishOne, publishOne, catch.
  destruct (Publish ctx record w) as [[[]|e] w1].
  - destruct (ob_MarkPublished _ _ _ w1) as [[[]|e] w2]; [|same].
    pose proof (IH (c + 1) (EventPublished m (Time_Sub at_ (ev_OccurredAt (or_Event record))) rec) w2) as E.
    destruct (metered_publish_each _ _ _ _ _ _ _ _ _) as [[r [c' rec']] w']. destruct E as [-> Hg].
    same.
  - set (k := (next ← Publisher_nextAttemptAt policy at_ (i64 (or_Attempts record + 1));
               ob_Reschedule (r_Outbox repos) (or_EventID record) next (Error e)) w1).
    destruct k as [[[]|e'] w2]; [|same].
    pose proof (IH (c + 1) (EventPublishFailed m rec) w2) as E.
    destruct (metered_publish_each _ _ _ _ _ _ _ _ _) as [[r [c' rec']] w']. destruct E as [-> Hg].
    same.
Qed.

Lemma measures_RunOnce `{EventPublisher W} m Error policy uow u ctx rw : Measures grows uow u ->
  (forall lag rec, grows rec (EventPublished m lag rec)) -> (forall rec, grows rec (EventPublishFailed m rec)) ->
  let '(n, r, (rec, w)) := metered_Publisher_RunOnce m Error policy uow ctx rw in
  (n, r, w) = Publisher_RunOnce Error policy u ctx rw.2 /\ grows rw.1 rec.
Proof using All.
  intros Hu Hp Hf. unfold metered_Publisher_RunOnce, Publisher_RunOnce.
  assert (Hm : forall ctx repos, measures grows (metered_RunOnce_callback m Error policy ctx repos)
    (RunOnce_callback Error policy ctx repos)).
  { intros ctx' repos c rec w. unfold metered_RunOnce_callback, RunOnce_callback.
    destruct (Publisher_claim _ _ _) as [[[at_ due]|e] w1]; [by apply measures_publish_each|same]. }
  pose proof (Hu Z ctx _ _ Hm 0 rw.1 rw.2) as E. destruct (uow _ _ _ _ _) as [[r [c rec]] w].
  destruct E as [<- Hg]. same.
Qed.

Lemma measures_apply_callback `{IDGenerator W} q cfg waiting envelope cmd hash ctx repos :
  (forall reason rec, grows rec (MessageDiscarded q reason rec)) ->
  measures grows (metered_apply_callback q cfg waiting envelope cmd hash ctx repos)
    (apply_callback cfg waiting envelope cmd hash ctx repos).
Proof using All.
  intros Hq c rec w. unfold metered_apply_callback, apply_callback.
  destruct ((now_ ← now; mret now_) w) as [[at_|e] w1]; [|same].
  destruct (in_Claim _ _ w1) as [[[]|e] w2].
  - unfold metered_consume_new, consume_new. destruct (ExecuteIn _ _ _ _ w2) as [[res|e] w3].
    + destruct (complete _ _ _ _ _ w3) as [[r c'] w4]. same.
    + destruct (As_domain e); [|same]. destruct (complete _ _ _ _ _ w3) as [[r c'] w4]. same.
  - destruct (is_sentinel _ _); [|same]. unfold metered_alreadySeen, alreadySeen. cbn.
    unfold mbind, M_bind. destruct (in_Find _ _ _ w2) as [[seen|e'] w3]; [|same].
    destruct (negb (bool_decide _)); [same|]. destruct (negb _); same.
Qed.

Lemma measures_handle `{IDGenerator W} q m cfg waiting took uow u ctx message rw : Measures grows uow u ->
  (forall reason rec, grows rec (MessageDiscarded q reason rec)) -> (forall rec, grows rec (MessageReleased q rec)) ->
  (forall rec, grows rec (MessageDeduplicated q rec)) -> (forall r rec, grows rec (Settled m SourceQueue took r rec)) ->
  let '(what, (rec, w)) := metered_handle q m cfg waiting took uow ctx message rw in
  (what, w) = Consumer_decide cfg waiting u ctx message rw.2 /\ grows rw.1 rec.
Proof using All.
  intros Hu Hq Hr Hd Hs. destruct rw as [rec0 w0]. unfold metered_handle, Consumer_decide.
  destruct (decodeEnvelope _) as [[envelope cmd]|e]; [|same].
  destruct (Consumer_identity _ _) as [identity|e]; [|same].
  unfold metered_apply, Consumer_apply, Consumer_commit, mbind, M_bind, pure.
  destruct (Command_PayloadHash cmd) as [hash|e]; [|same].
  pose proof (Hu _ (Consumer_work ctx envelope identity) _ (apply_callback cfg waiting envelope cmd hash)
    (fun ctx' repos => measures_apply_callback q cfg waiting envelope cmd hash ctx' repos Hq)
    (noSubmitResult, false) rec0 w0) as E. cbn [fst snd].
  destruct (uow _ _ _ _ _) as [[[[]|e] [[res decided] rec]] w]; destruct E as [<- Hg]; (split; [done|]).
  - destruct decided; grown.
  - grown.
Qed.
End erase.

#[export] Instance metered_Do_measures {R} env (grows : relation R) `{!PreOrder grows} s retry :
  (forall rec, grows rec (TransactionRetried s rec)) -> Measures grows (metered_Do env s retry) (pg_UnitOfWork env retry).
Proof.
  intros Hs C ctx fn gn Hm c rec w. cbn [uow_Do pg_UnitOfWork]. unfold metered_Do, pg_Do.
  destruct (cx_insideUnitOfWork ctx); [by split|]. generalize (RetryPolicy_normalised retry). intros policy.
  generalize (Z.to_nat (rt_MaxAttempts policy)) 1. intros more n.
  assert (Ha : measures grows (attempt env ctx fn) (attempt env ctx gn)).
  { clear c rec w. intros c rec w. unfold attempt. destruct (begin env w) as [[e|] w1]; [by split|].
    pose proof (Hm (mkContext (cx_identity ctx) (cx_correlationID ctx) true) (pg_repositories env (tx_querier env)) c rec w1) as E.
    destruct (fn _ _ _ _) as [[[u|e] [c' rec']] w2]; destruct E as [<- Hg]; [|same].
    destruct (commit env w2) as [r w3]. same. }
  revert n c rec w. induction more as [|more IH]; intros n c rec w; cbn [metered_attempts attempts];
    (pose proof (Ha c rec w) as E; destruct (attempt env ctx fn (c, rec) w) as [[[u|e] [c1 rec1]] w1];
     destruct E as [<- Hg]; [by split|]);
    (destruct (_ || _); [by split|]); destruct (backoff env policy n w1) as [[d gone] w2];
    assert (Hg' : grows rec (TransactionRetried s rec1)) by grown;
    (destruct gone; [by split|]); [by split|].
  pose proof (IH (n + 1) c1 (TransactionRetried s rec1) w2) as E.
  destruct (metered_attempts _ _ _ _ _ _ _ _ _) as [[r [c' rec']] w']. destruct E as [<- Hg2].
  same.
Qed.

(** ** The pass and the delivery of the program, measured *)

#[local] Existing Instance trace_registry.

(** Recording only appends samples of registered series. *)
Definition recorded_more : relation Trace := fun tr tr' => exists new, tr' = tr ++ new /\ Forall in_series new.

#[export] Instance recorded_more_preorder : PreOrder recorded_more.
Proof.
  split.
  - intros tr. exists []. by rewrite app_nil_r.
  - intros tr1 tr2 tr3 (new & -> & Hn) (new' & -> & Hn'). exists (new ++ new'). rewrite app_assoc. split; [done|].
    by apply Forall_app.
Qed.

(** Measuring changes nothing inside a unit of work either: with the recorder
    in its callback and in its retries a pass of the publisher and a delivery
    of the consumer come to the same end and leave the same database as
    without, as does any callback that does what it did; and a pass only adds
    samples of registered series. *)
Theorem measuring_changes_nothing env `{EventPublisher World} `{Clock World} `{Rand World} `{IDGenerator World}
    retry Error policy cfg waiting took ctx message (tr : Trace) (w : World) :
  let uow : MeteredUnitOfWork Trace World := metered_Do env Recorder_StorageMetrics retry in
  (let '(n, r, (tr', w')) := metered_Publisher_RunOnce Recorder_OutboxMetrics Error policy uow ctx (tr, w) in
   (n, r, w') = Publisher_RunOnce Error policy (pg_UnitOfWork env retry) ctx w /\ recorded_more tr tr') /\
  (let '(what, (_, w')) := metered_handle Recorder_QueueMetrics Recorder_OperationMetrics cfg waiting took uow ctx
                             message (tr, w) in
   (what, w') = Consumer_decide cfg waiting (pg_UnitOfWork env retry) ctx message w) /\
  (forall C fn gn, (forall inner repos, measures (C := C) recorded_more (fn inner repos) (gn inner repos)) ->
   measures recorded_more (uow C ctx fn) (uow_Do (pg_UnitOfWork env retry) ctx gn)).
Proof.
  intros uow.
  assert (Hretry : forall rec, recorded_more rec (TransactionRetried Recorder_StorageMetrics rec)).
  { apply adds_one, (in_closed 3 _ _ []); [reflexivity|constructor]. }
  split_and!.
  - pose proof (measures_RunOnce recorded_more Recorder_OutboxMetrics Error policy uow (pg_UnitOfWork env retry) ctx
      (tr, w)) as E. destruct (metered_Publisher_RunOnce _ _ _ _ _ _) as [[n r] [tr' w']]. apply E.
    + by apply metered_Do_measures; [apply _|].
    + intros lag. apply adds_one, (in_closed 7 _ _ []); [reflexivity|constructor].
    + apply adds_one, (in_closed 8 _ _ []); [reflexivity|constructor].
  - assert (Hany : PreOrder (fun _ _ : Trace => True)) by by split.
    pose proof (measures_handle (fun _ _ => True) Recorder_QueueMetrics Recorder_OperationMetrics cfg waiting took uow
      (pg_UnitOfWork env retry) ctx message (tr, w)) as E.
    destruct (metered_handle _ _ _ _ _ _ _ _ _) as [what [tr' w']]. apply E; [|done..].
    by apply metered_Do_measures.
  - intros C fn gn Hm. by apply metered_Do_measures; [apply _|..].
Qed.
