(* ===== verification/RequestLog.v ===== *)
(** * RequestLog: what the edge writes about a request

    The lines of [internal/adapter/http/server.go] and [auth.go]: the request
    log with the recorder that remembers the status, the verdict on a
    credential, a panic.  The log grows beside the program, which does not
    read it; the time a request took is a parameter, and so is the text of an
    error.  The line that [writeError] adds for an internal error is left
    out. *)

From S2P Require Import GoTime GoStrings Identifier.
From S2P Require Import Prelude Errors Identity Ports Http HttpFacts Settings Metrics.

#[local] Open Scope string_scope.
#[local] Open Scope list_scope.
#[local] Open Scope Z_scope.

(** ** The recorder of the status *)

(** What [net/http] keeps of an answer: the first status goes out, later ones
    are superfluous, and a body without one is 200. *)
Record ResponseWriter := mkWriter { wr_status : Z; wr_body : string }.

Definition ResponseWriter_WriteHeader (status : Z) (w : ResponseWriter) : ResponseWriter :=
  if bool_decide (wr_status w = 0) then mkWriter status (wr_body w) else w.

Definition ResponseWriter_Write (b : string) (w : ResponseWriter) : ResponseWriter :=
  mkWriter (if bool_decide (wr_status w = 0) then StatusOK else wr_status w) (wr_body w +:+ b).

Record statusRecorder := mkRecorder { rc_writer : ResponseWriter; rc_status : Z }.

Definition statusRecorder_WriteHeader (status : Z) (rc : statusRecorder) : statusRecorder :=
  mkRecorder (ResponseWriter_WriteHeader status (rc_writer rc)) status.

Definition statusRecorder_Write (b : string) (rc : statusRecorder) : statusRecorder :=
  mkRecorder (ResponseWriter_Write b (rc_writer rc)) (if bool_decide (rc_status rc = 0) then StatusOK else rc_status rc).

(** What a handler does with the writer it is given. *)
Inductive write_call := CallWriteHeader (status : Z) | CallWrite (b : string).

Definition record_call (rc : statusRecorder) (c : write_call) : statusRecorder :=
  match c with
  | CallWriteHeader status => statusRecorder_WriteHeader status rc
  | CallWrite b => statusRecorder_Write b rc
  end.

Definition recorded (calls : list write_call) : statusRecorder := foldl record_call (mkRecorder (mkWriter 0 "") 0) calls.

(** The status that is logged and measured; a handler that wrote nothing is
    answered 200 by the server too. *)
Definition recorded_status (calls : list write_call) : Z :=
  let status := rc_status (recorded calls) in if bool_decide (status = 0) then StatusOK else status.

Definition sent_status (calls : list write_call) : Z :=
  let status := wr_status (rc_writer (recorded calls)) in if bool_decide (status = 0) then StatusOK else status.

(** [writeJSON]: every answer of this package is one status and one body. *)
Definition answer_calls (response : Response) : list write_call :=
  [CallWriteHeader (rs_status response); CallWrite (rs_body response)].

(** ** Lines *)

Inductive slog_value :=
| SlogString (s : string)
| SlogInt (n : Z)
| SlogDuration (d : Duration)
| SlogGroup (attrs : list (string * string)).

Record log_line := mkLine { ln_level : Z; ln_message : string; ln_attrs : list (string * slog_value) }.

Abbreviation Log := (list log_line) (only parsing).

(** [Identity.LogValue] *)
Definition Identity_LogValue (i : Identity) : slog_value :=
  SlogGroup (("subject", i_subject i) ::
    (if Identity_IsProvider i then [("providerId", id_value (i_providerID i))] else [])).

Definition authenticated_line (ctx : Context) (identity : Identity) : log_line :=
  mkLine LevelDebug "authenticated"
    [("identity", Identity_LogValue identity); ("correlationId", SlogString (CorrelationIDFrom ctx))].

(** [method] and [path] are [r.Method] and [r.URL.Path]. *)
Definition refusing_line (method path reason : string) (ctx : Context) : log_line :=
  mkLine LevelWarn "refusing an unauthenticated request"
    [("method", SlogString method); ("path", SlogString path); ("error", SlogString reason);
     ("correlationId", SlogString (CorrelationIDFrom ctx))].

Definition request_line (method path : string) (status : Z) (took : Duration) (ctx : Context) : log_line :=
  mkLine LevelInfo "request"
    [("method", SlogString method); ("path", SlogString path); ("status", SlogInt status);
     ("took", SlogDuration took); ("correlationId", SlogString (CorrelationIDFrom ctx))].

(** [NewLogger]: what is written of a line.  One below the level is not, and
    the environment comes before its own attributes. *)
Definition NewLogger (cfg : AppConfig) (line : log_line) : option log_line :=
  if ac_LogLevel cfg <=? ln_level line
  then Some (mkLine (ln_level line) (ln_message line) (("env", SlogString (ac_Env cfg)) :: ln_attrs line))
  else None.

(** Why [bearerToken] found none. *)
Definition bearer_refusal (r : Request) : string :=
  let header := rq_header r "Authorization" in
  if bool_decide (header = "") then "the Authorization header is missing"
  else
    match Cut header " " with
    | None => "the Authorization header is not a bearer credential"
    | Some (scheme, _) =>
      if negb (EqualFold scheme "Bearer") then "the Authorization header is not a bearer credential"
      else "the bearer credential is empty"
    end.

(** ** The chain with its lines *)

Section logged.
Context {W : Type} `{@TokenVerifier W} (Error : error -> string) (method path : string) (took : Duration).

(** [Authenticator.require] with what it logs. *)
Definition logged_require (next : Request -> W -> Response * W) : Request -> Log * W -> Response * (Log * W) := fun r lw =>
  match bearerToken r with
  | None => (refuse r, (lw.1 ++ [refusing_line method path (bearer_refusal r) (rq_ctx r)], lw.2))
  | Some token =>
    match Verify (rq_ctx r) token lw.2 with
    | (Err e, w) => (refuse r, (lw.1 ++ [refusing_line method path (Error e) (rq_ctx r)], w))
    | (Ok identity, w) =>
      let '(response, w) := next (WithContext r (WithIdentity (rq_ctx r) identity)) w in
      (response, (lw.1 ++ [authenticated_line (rq_ctx r) identity], w))
    end
  end.

Definition unlogged (next : Request -> W -> Response * W) : Request -> Log * W -> Response * (Log * W) := fun r lw =>
  let '(response, w) := next r lw.2 in (response, (lw.1, w)).

Definition logged_route (rt : @route W) : Request -> Log * W -> Response * (Log * W) :=
  if ro_public rt then unlogged (ro_handler rt) else logged_require (ro_handler rt).

(** A panic leaves before the line is written. *)
Definition withRequestLog {L} (next : Request -> Log * L -> served * (Log * L)) : Request -> Log * L -> served * (Log * L) :=
  fun r lw =>
  match next r lw with
  | (Answered response, (log, w)) =>
    (Answered response, (log ++ [request_line method path (recorded_status (answer_calls response)) took (rq_ctx r)], w))
  | out => out
  end.

(** [Handler] around a route. *)
Definition logged_Handler (fresh : string) (rt : @route W) : Request -> Log * W -> option Response * (Log * W) :=
  withRecovery (withCorrelationID fresh (withRequestLog (unfailing (logged_route rt)))).
End logged.

(** ** Lemmas *)

Definition is_body (c : write_call) : bool := match c with CallWrite _ => true | CallWriteHeader _ => false end.

Lemma bodies_agree calls rc : forallb is_body calls = true -> rc_status rc = wr_status (rc_writer rc) ->
  let rc' := foldl record_call rc calls in rc_status rc' = wr_status (rc_writer rc').
Proof.
  revert rc. induction calls as [|[status|b] calls IH]; intros rc Hb Hrc; [done..|]. apply IH; [done|].
  cbn. by rewrite Hrc.
Qed.

Lemma recorder_agrees calls : forallb is_body (tail calls) = true -> recorded_status calls = sent_status calls.
Proof.
  intros Hb. unfold recorded_status, sent_status.
  assert (H : rc_status (recorded calls) = wr_status (rc_writer (recorded calls))); [|by rewrite H].
  destruct calls as [|[status|b] calls]; [done|..]; unfold recorded; cbn [foldl];
    (apply bodies_agree; [exact Hb|reflexivity]).
Qed.

Lemma answer_status response : rs_status response <> 0 -> recorded_status (answer_calls response) = rs_status response.
Proof. intros Hne. unfold recorded_status, answer_calls. cbn. by rewrite !(bool_decide_eq_false_2 _ Hne). Qed.

(** A recorder believes a second status, which the client never sees; no
    handler sends two. *)
Example second_status_is_believed :
  let calls := [CallWriteHeader StatusOK; CallWrite "{}"; CallWriteHeader StatusInternalServerError] in
  recorded_status calls = StatusInternalServerError /\ sent_status calls = StatusOK.
Proof. done. Qed.

(** Requests are written down to [LevelInfo], refused credentials down to
    [LevelWarn], and who called only at [LevelDebug]. *)
Lemma written_at cfg method path reason status took ctx identity :
  (is_Some (NewLogger cfg (request_line method path status took ctx)) <-> ac_LogLevel cfg <= LevelInfo) /\
  (is_Some (NewLogger cfg (refusing_line method path reason ctx)) <-> ac_LogLevel cfg <= LevelWarn) /\
  (is_Some (NewLogger cfg (authenticated_line ctx identity)) <-> ac_LogLevel cfg <= LevelDebug).
Proof.
  unfold NewLogger. cbn [ln_level request_line refusing_line authenticated_line].
  split_and!; (destruct (_ <=? _) eqn:E; [apply Z.leb_le in E|apply Z.leb_gt in E]);
    (split; [intros [? ?]; first [done|lia]|intros ?; first [by eexists|lia]]).
Qed.

(** ** Properties *)

(** The log follows the edge and nothing more: a request is answered as
    without it, whatever was logged before; it adds one line with the status
    the client gets and the correlation id its answer carries, after at most
    one line on the credential, which on a protected route is there, and which
    says who called or why nobody was recognised.  Neither has anything of the
    body, nor of the token unless the verifier's error does. *)
Theorem requests_are_logged {W} `{@TokenVerifier W} Error (h : @Handlers W) fresh method path took rt r log (w : W) :
  rt ∈ routeTable Error h ->
  let id := correlation_id fresh r in
  let ctx := WithCorrelationID (rq_ctx r) id in
  exists answer w' credential,
    logged_Handler Error method path took fresh rt r (log, w) =
      (Some answer, (log ++ credential ++ [request_line method path (rs_status answer) took ctx], w')) /\
    withRecovery (withCorrelationID fresh
      (unfailing (if ro_public rt then ro_handler rt else require (ro_handler rt)))) r w = (Some answer, w') /\
    (CorrelationIDHeader, id) ∈ rs_headers answer /\
    (if ro_public rt then credential = []
     else (exists identity, credential = [authenticated_line ctx identity]) \/
          rs_status answer = StatusUnauthorized /\ exists reason, credential = [refusing_line method path reason ctx] /\
            (reason = bearer_refusal r \/ exists e, reason = Error e)).
Proof.
  intros Hrt id ctx. set (next := if ro_public rt then ro_handler rt else require (ro_handler rt)).
  set (request := WithContext r ctx).
  assert (Hn : (ro_pattern rt, next) ∈ Routes Error h).
  { unfold Routes. apply list_elem_of_fmap. by exists rt. }
  assert (Hroute : exists credential, logged_route Error method path rt request (log, w) =
    ((next request w).1, (log ++ credential, (next request w).2)) /\
    (if ro_public rt then credential = []
     else (exists identity, credential = [authenticated_line ctx identity]) \/
          (next request w).1 = refuse request /\ exists reason, credential = [refusing_line method path reason ctx] /\
            (reason = bearer_refusal r \/ exists e, reason = Error e))).
  { unfold logged_route, next. destruct (ro_public rt).
    - exists []. unfold unlogged. cbn [snd fst]. destruct (ro_handler rt request w). by rewrite app_nil_r.
    - unfold logged_require, require. cbn [snd fst]. destruct (bearerToken request) as [token|].
      + destruct (Verify (rq_ctx request) token w) as [[identity|e] w1].
        * eexists. destruct (ro_handler rt _ w1). split; [done|]. left. by eexists.
        * eexists. split; [done|]. right. split; [done|]. eexists. split; [done|]. right. by eexists.
      + eexists. split; [done|]. right. split; [done|]. eexists. split; [done|]. by left. }
  destruct Hroute as (credential & Hroute & Hcred). pose proof (Routes_status Error h _ _ request w Hn) as [_ Hst].
  unfold logged_Handler, withRecovery, withCorrelationID, withRequestLog, unfailing. cbv zeta.
  fold id ctx request. rewrite Hroute. destruct (next request w) as [response w'] eqn:E. cbn [fst snd] in *.
  exists (with_header CorrelationIDHeader id response), w', credential. split_and!; [|done|left|].
  - rewrite <- app_assoc, answer_status; [done|]. intros E0. rewrite E0 in Hst. revert Hst.
    by apply (bool_decide_eq_false_1 _).
  - destruct (ro_public rt); [done|]. destruct Hcred as [?|[-> ?]]; [by left|by right].
Qed.
