(* ===== verification/Sessions.v ===== *)
(** * Sessions: instances of the program that share a database

    [EnvironmentLaws] says of other sessions only what a proof needs: that they
    keep the invariant.  Here it is derived.  A database is [populated] when
    what other sessions commit between two transactions of this one is what
    further instances of the program, each with a clock, identifiers, failures
    and other sessions of its own, make of it by serving requests.  Then every
    law of the environment holds ([populated_laws]): no assumption on what the
    other sessions commit is left but that they run this program.  What one of
    them commits in the middle of a request is what some request of its own,
    cut short by a failure, leaves behind.

    A session commits between the transactions of another one and before each of
    its reads outside of them; that the statements of two transactions
    alternate is not modelled. *)

From S2P Require Import Prelude Errors GoTime Money Identifier Ledger Wallet Transaction Event.
From S2P Require Import Idempotency Identity Ports Store StoreInv Policy Submit Storable.
From S2P Require Import Schema Postgres Rows PostgresLaws System Program.

#[local] Open Scope string_scope.
#[local] Open Scope list_scope.
#[local] Open Scope Z_scope.

(** What [other] sees of the database that [env] uses: the server and the
    driver are the same, all else is its own. *)
Definition beside (env other : Environment) : Environment := {|
  en_uuid := en_uuid other;
  en_now := en_now other;
  en_rand := en_rand other;
  en_fault := en_fault other;
  en_commit := en_commit other;
  en_others := en_others other;
  en_pick := en_pick other;
  en_locked := en_locked other;
  en_cancelled := en_cancelled other;
  en_encode := en_encode env;
  en_decode := en_decode env;
  en_jsonb := en_jsonb env
|}.

#[local] Instance beside_driver env other `{D : DriverLaws env} : DriverLaws (beside env other) :=
  Build_DriverLaws (beside env other) (@en_encode_law env D) (@en_decode_law env D).

(** The laws of the environment that other sessions have no part in. *)
Record own_laws (env : Environment) : Prop := {
  ow_uuid : forall n s, en_uuid env n = Some s -> String.length s = 36%nat;
  ow_now : forall n, 1000 <= instant (en_now env n);
  ow_rand : forall n m, 0 < m -> 0 <= en_rand env n m < m;
  ow_fault : forall n f, en_fault env n = Some f -> not_a_refusal f;
  ow_commit : forall n f, en_commit env n = CommitRefused f -> not_a_refusal f;
  ow_pick : forall names, names <> [] -> en_pick env names ∈ names
}.

(** Whoever asks anything of the program does so outside of a transaction. *)
Definition from_outside (rs : list request) : Prop :=
  Forall (fun r => cx_insideUnitOfWork (request_ctx r) = false) rs.

(** Between two moments the database is left as it is, or instances of the
    program have served requests on it. *)
Inductive populated : forall env, DriverLaws env -> Prop :=
| populated_by env (D : DriverLaws env) :
  own_laws env ->
  (forall n db, en_others env n db = db \/
    exists other cf rs w s, populated (beside env other) (beside_driver env other) /\
      configured cf /\ from_outside rs /\ wo_db w = db /\ sound (beside env other) w s /\
      en_others env n db = wo_db (serve_all (beside env other) cf rs w)) ->
  populated env D.

(** The sessions of one database agree on what its rows stand for. *)
Lemma represents_beside env other `{!DriverLaws env} db s :
  represents (beside env other) db s <-> represents env db s.
Proof. split; intros []; constructor; assumption. Qed.

Lemma sound_beside env other `{!DriverLaws env} w s : sound (beside env other) w s <-> sound env w s.
Proof. unfold sound. by rewrite represents_beside. Qed.

(** Instances of the program respect each other's books: whatever the sessions
    of a populated database do, the laws of the environment hold. *)
Lemma populated_laws : forall env (D : DriverLaws env), populated env D ->
  exists L : EnvironmentLaws env, @el_driver env L = D.
Proof.
  fix IH 3. intros env D [env' D' [Huuid Hnow Hrand Hfault Hcommit Hpick] Hothers].
  unshelve eexists; [apply (Build_EnvironmentLaws env' D'); try assumption|reflexivity].
  intros n db s Hr. destruct (Hothers n db) as [->|(other & cf & rs & w & s0 & Hpop & Hcf & Hrs & <- & Hw & ->)].
  - exists s. split; [exact Hr|]. intros Hs. split; [exact Hs|apply evolves_refl].
  - destruct (IH _ _ Hpop) as [L HL]. clear IH Hothers Hpop. rewrite <- HL in Hw.
    destruct (serve_all_sound (beside env' other) cf Hcf rs w s0 Hrs Hw) as (s1 & Hw1 & He).
    assert (s = s0) as ->.
    { apply (represents_beside env' other) in Hr. rewrite <- HL in Hr.
      exact (represents_functional (beside env' other) _ _ _ Hr (proj1 Hw)). }
    rewrite HL in Hw1. apply (proj1 (sound_beside env' other _ s1)) in Hw1.
    exists s1. split; [exact (proj1 Hw1)|]. intros _. split; [exact (proj2 Hw1)|exact He].
Qed.
