(* ===== verification/Services.v ===== *)
(** * Services: what the program promises its callers

    Properties of the whole program over PostgreSQL, whatever is asked of it
    and however the environment behaves: the books, the opening of wallets,
    the reconciliation, the read side, the reversals that wait, the events and
    the queue.  [others env s s'] is what other sessions committed in between:
    for the books they are instances of the program ([Sessions]), elsewhere
    whatever keeps the laws of the environment; in an environment that is
    [alone] it is nothing ([others_alone]).  An instant that a call goes by is a
    [reading] of the clock during that call ([Readings]). *)

From stdpp Require Import sorting.
From S2P Require Import Prelude Errors GoTime Money Identifier Ledger Wallet Transaction Event.
From S2P Require Import Idempotency Identity Ports Store StoreInv Policy Recorder Reversal.
From S2P Require Import Submit Storable SubmitSpec SubmitProof SubmitExecute SubmitFacts.
From S2P Require Import Opening Reconcile Queries Worker Publisher Consumer Schema.
From S2P Require Import Postgres Rows PostgresLaws PostgresWrites PostgresQueues UowLaws PostgresReads.
From S2P Require Import Readings Quiet System Program Sessions.

#[local] Open Scope string_scope.
#[local] Open Scope list_scope.
#[local] Open Scope Z_scope.

(** * Properties *)

(** ** The books *)

(** C1: whatever is asked of the program, by callers, by the broker's queue and
    by its own workers, one pass at a time or in their loops, in whatever order,
    and however the clock, the network, the database or the broker fail, the
    books are kept: every balance is the sum of its wallet's entries and not
    negative, every processed operation has exactly one entry with its amount,
    no provider's name or key is used twice, nothing is reversed twice, entries
    are never removed and finished operations never change.  Other instances of
    the program may commit between any two of its transactions and before any
    of its reads outside of one, under failures of their own. *)
Theorem requests_keep_the_books env (D : DriverLaws env) cf rs w s :
  populated env D -> configured cf -> from_outside rs -> sound env w s ->
  exists s', represents env (wo_db (serve_all env cf rs w)) s' /\ books s' /\ evolves s s'.
Proof.
  intros Hpop Hcf Hin Hw. destruct (populated_laws env D Hpop) as [L HL]. subst D.
  destruct (serve_all_sound env cf Hcf rs w s Hin Hw) as (s' & [Hr Hs] & He).
  exists s'. exact (conj Hr (conj (store_ok_books s' Hs) He)).
Qed.

Section properties.
Context (env : Environment) `{!EnvironmentLaws env} (retry : RetryPolicy).
#[local] Existing Instance Storage_pg.

(** ** Wallets *)

(** C16: an answer to the opening of a wallet means that the wallet is its
    player's only one in the currency, holds exactly the initial balance, and
    that all of it is one credit of one processed OPENING operation, there
    being neither when the balance is zero; an error means that nothing was
    opened, unless it reports a failure of the infrastructure, in which case
    the wallet may have been opened without the reply arriving. *)
Theorem a_wallet_opens_once_with_its_money ctx cmd w s :
  cx_insideUnitOfWork ctx = false -> sound env w s ->
  let '(r, w') := open_wallet env retry ctx cmd w in
  match r with
  | Ok wallet => exists player initial s0 s1, Open_parse cmd = Ok (player, initial) /\
      others env s s0 /\ opening_effect s0 player initial wallet s1 /\ represents env (wo_db w') s1
  | Err e =>
    (exists s1, others env s s1 /\ represents env (wo_db w') s1 /\ (open_error ctx cmd s1 e \/ infra env e)) \/
    (exists player initial wallet s0 s1, Open_parse cmd = Ok (player, initial) /\ others env s s0 /\
       opening_effect s0 player initial wallet s1 /\ represents env (wo_db w') s1 /\ infra env e)
  end.
Proof.
  intros Hin Hw. pose proof (open_wallet_opened env retry ctx cmd w s Hin Hw) as Hx.
  destruct (open_wallet env retry ctx cmd w) as [[wallet|e] w'].
  - destruct Hx as (i & player & initial & s0 & s1 & _ & Hp & Ho & Hop & Hi).
    exists player, initial, s0, s1. split_and!; [done|done|by apply opened_effect|done].
  - destruct Hx as [Hx|(player & initial & wallet & s0 & s1 & Hp & Ho & Hop & Hi & He)]; [by left|right].
    exists player, initial, wallet, s0, s1. split_and!; [done|done|by apply opened_effect|done|done].
Qed.

(** A player that has a wallet in a currency never gets another one in
    it: the attempt is refused with a conflict and changes nothing. *)
Theorem a_second_wallet_is_refused ctx cmd w s i player initial :
  cx_insideUnitOfWork ctx = false -> sound env w s -> caller ctx ScopeWallets = Ok i ->
  Open_parse cmd = Ok (player, initial) -> has_wallet s player (currency initial) ->
  let '(r, w') := open_wallet env retry ctx cmd w in
  exists e s', r = Err e /\ others env s s' /\ represents env (wo_db w') s' /\
    (is_sentinel e ErrConflict = true \/ infra env e).
Proof.
  intros Hin Hw Hcal Hp Hhas.
  assert (Hstill : forall s0, others env s s0 -> has_wallet s0 player (currency initial)).
  { intros s0 Ho. destruct Hhas as (k & w0 & Hk & Hpl & Hc).
    destruct (others_ok env _ _ Ho (proj2 Hw)) as [_ [Hg _]].
    destruct (ev_wallets _ _ Hg k w0 Hk) as (w1 & Hk1 & _ & ? & ? & _). exists k, w1. split_and!; congruence. }
  pose proof (open_wallet_opened env retry ctx cmd w s Hin Hw) as Hx.
  destruct (open_wallet env retry ctx cmd w) as [[wallet|e] w'].
  - destruct Hx as (_ & player' & initial' & s0 & s1 & _ & Hp' & Ho & (_ & _ & _ & _ & _ & Hno & _) & _).
    rewrite Hp in Hp'. injection Hp' as <- <-. by destruct (Hno (Hstill _ Ho)).
  - destruct Hx as [(s1 & Ho & Hi & He)|(player' & initial' & wallet & s0 & s1 & Hp' & Ho & (_ & _ & _ & _ & _ & Hno & _) & _)].
    2:{ rewrite Hp in Hp'. injection Hp' as <- <-. by destruct (Hno (Hstill _ Ho)). }
    exists e, s1. split_and!; [done..|]. destruct He as [[He|[[_ He]|(player' & initial' & Hp' & He)]]|He];
      [congruence|congruence|left|by right]. by destruct He.
Qed.

(** ** Reconciliation *)

(** C21: a reconciliation reports exactly what the tables hold at one moment,
    sound or not: the stored balance, the sum of the wallet's entries, their
    number and the difference, which is drift exactly when the balance is not
    the sum; and it changes nothing. *)
Theorem reconciliation_is_exact ctx walletID w s : represents env (wo_db w) s ->
  let '(r, w') := reconcile env ctx walletID w in
  exists s0, others env s s0 /\ represents env (wo_db w') s0 /\
  match r with
  | Ok rec => exists id wallet, id_value id = walletID /\ reconciled s0 id wallet rec /\
      (Drifted rec = true <-> minor (w_balance wallet) <> entries_sum (entries_of id s0))
  | Err e => caller ctx ScopeWallets = Err e \/ ParseWalletID walletID = Err e \/
      (exists id, id_value id = walletID /\ reconcile_error s0 id e) \/ infra env e
  end.
Proof.
  intros Hr. pose proof (reconcile_reconciles env ctx walletID w s Hr) as Hx.
  destruct (reconcile env ctx walletID w) as [r w']. destruct Hx as (s0 & Ho & Hi & Hx).
  exists s0. split_and!; [done..|]. destruct r as [rec|e].
  - destruct Hx as (i & id & wallet & _ & [_ Hid]%parseIdentifier_iff & Hrec). exists id, wallet.
    split_and!; [done..|]. by apply reconciled_drift.
  - destruct Hx as [He|[[_ He]|[(id & [_ Hid]%parseIdentifier_iff & He)|He]]]; [by left|by right; left| |by do 3 right].
    right; right; left. by exists id.
Qed.

(** C22: on the books this program keeps, a reconciliation never finds drift,
    never overflows, and fails only for a caller without the scope, a wallet
    that is not there, or the infrastructure. *)
Theorem kept_books_never_drift ctx walletID w s : sound env w s ->
  match (reconcile env ctx walletID w).1 with
  | Ok rec => Drifted rec = false /\ rn_Stored rec = rn_Rebuilt rec /\ 0 <= minor (rn_Stored rec)
  | Err e => caller ctx ScopeWallets = Err e \/ ParseWalletID walletID = Err e \/
      e = SentinelError ErrNotFound \/ infra env e
  end.
Proof.
  intros [Hr Hs]. pose proof (reconcile_reconciles env ctx walletID w s Hr) as Hx.
  destruct (reconcile env ctx walletID w) as [r w']. destruct Hx as (s0 & Ho & Hi & Hx). cbn [fst].
  destruct (others_ok env _ _ Ho Hs) as [Hs0 _]. pose proof (store_ok_books s0 Hs0) as Hb.
  destruct r as [rec|e].
  - destruct Hx as (_ & id & wallet & _ & _ & Hrec). pose proof (rd_wallet _ _ _ _ Hrec) as Hw.
    destruct (so_wallet s0 Hs0 _ _ Hw) as (Hk & Hst & _). apply id_value_inj in Hk. subst id.
    destruct (bk_balance _ Hb _ _ Hw) as [Hnn Hsum].
    pose proof (wo_currency _ (ws_ok _ Hst)) as Hcur.
    rewrite (rd_stored _ _ _ _ Hrec), (rd_rebuilt _ _ _ _ Hrec). split_and!; [|rewrite <- Hsum, <- Hcur|done].
    + destruct (Drifted rec) eqn:Hd; [|done]. by apply (reconciled_drift _ _ _ _ Hrec) in Hd.
    + by destruct (w_balance wallet).
  - assert (Hfit : forall id wallet, s_wallets s0 !! id_value id = Some wallet ->
      entries_sum (entries_of id s0) = minor (w_balance wallet) /\ is_i64 (minor (w_balance wallet))).
    { intros id wallet Hw. destruct (so_wallet s0 Hs0 _ _ Hw) as (Hk & Hst & _). apply id_value_inj in Hk.
      rewrite Hk. destruct (bk_balance _ Hb _ _ Hw) as [_ Hsum]. split; [done|].
      pose proof (wo_balance _ (ws_ok _ Hst)). width; lia. }
    destruct Hx as [He|[[_ He]|[(id & _ & He)|He]]]; [by left|by right; left| |by do 3 right].
    right; right. destruct He as [Hno|e Hno|wallet Hw Hno]; [by left| |].
    + left. destruct (s_wallets s0 !! id_value id) as [wallet|] eqn:Hw.
      * destruct Hno. destruct (Hfit _ _ Hw) as [-> ?]. done.
      * destruct Hno. unfold is_i64. rewrite (fresh_wallet_no_entries s0 id Hs0 Hw). cbn. width; lia.
    + destruct Hno. destruct (Hfit _ _ Hw) as [-> Hb']. rewrite Z.sub_diag. width; lia.
Qed.

(** ** The read side *)

(** C23: a provider sees only its own operations: what it is told is what the
    part of the store that is its own says, so an operation of another one is
    answered like one that does not exist; and asking changes nothing. *)
Theorem callers_see_only_their_own ctx i transactionID provider external w s :
  sound env w s -> caller ctx ScopeRead = Ok i ->
  (let '(r, w') := get_transaction env ctx transactionID w in
   exists s', others env s s' /\ represents env (wo_db w') s' /\
   match r with
   | Ok t => own_operations i s' !! transactionID = Some t
   | Err e => ParseTransactionID transactionID = Err e \/
       (own_operations i s' !! transactionID = None /\ e = SentinelError ErrNotFound) \/ infra env e
   end) /\
  (let '(r, w') := find_transaction env ctx provider external w in
   exists s', others env s s' /\ represents env (wo_db w') s' /\
   match r with
   | Ok t => own_named i s' provider external t
   | Err e => ParseProviderID provider = Err e \/ ParseExternalTransactionID external = Err e \/
       ((forall t, ~ own_named i s' provider external t) /\ e = SentinelError ErrNotFound) \/ infra env e
   end).
Proof.
  intros Hw Hcal. split.
  - pose proof (get_transaction_answered env ctx transactionID w s Hw) as (s' & Ho & Hi & Hx).
    destruct (get_transaction env ctx transactionID w) as [[t|e] w']; exists s'; (split_and!; [done..|]); cbn in Hx.
    + destruct Hx as (i' & Hi' & Hx). congruence.
    + destruct Hx as [[He|[He|(i' & Hi' & Hno & ->)]]|He]; [congruence|by left| |by right; right].
      right; left. assert (i' = i) as -> by congruence. done.
  - pose proof (find_transaction_answered env ctx provider external w s Hw) as (s' & Ho & Hi & Hx).
    destruct (find_transaction env ctx provider external w) as [[t|e] w']; exists s'; (split_and!; [done..|]); cbn in Hx.
    + destruct Hx as (i' & Hi' & Hx). congruence.
    + destruct Hx as [[He|[He|[He|(i' & Hi' & Hno & ->)]]]|He];
        [congruence|by left|by right; left| |by do 3 right].
      right; right; left. assert (i' = i) as -> by congruence. done.
Qed.

(** C24: a client that follows the cursors reads each entry of the wallet after
    the one it started from exactly once and oldest first, whatever is
    committed meanwhile, and it reaches the end unless entries keep arriving
    faster than it reads: a reader that was given [fuel] pages and did not
    finish has read that many full pages. *)
Theorem ledger_is_enumerated_once fuel ctx walletID id limit l cursor w s :
  sound env w s -> ParseWalletID walletID = Ok id -> Ledger_limit limit = Ok l ->
  let '(r, w') := list_ledger env fuel ctx walletID cursor limit w in
  exists s', others env s s' /\ represents env (wo_db w') s' /\
  match r with
  | Ok (entries, finished) =>
    NoDup (le_transactionID <$> entries) /\
    (if finished then entries = (entries_after id cursor s').*2
     else exists rest, (entries_after id cursor s').*2 = entries ++ rest /\
            Z.of_nat fuel * l <= Z.of_nat (length entries))
  | Err e => caller ctx ScopeWallets = Err e \/
      (s_wallets s' !! walletID = None /\ e = SentinelError ErrNotFound) \/ infra env e
  end.
Proof.
  intros Hw Hid Hl.
  pose proof (list_ledger_answered env ctx walletID limit id l fuel cursor w s Hid Hl Hw) as (s' & Ho & Hi & Hx).
  destruct (list_ledger env fuel ctx walletID cursor limit w) as [[[es fin]|e] w']; exists s';
    (split; [exact Ho|split; [exact Hi|]]); cbn in Hx.
  - destruct Hx as (rest & E & Hfin). cbn in E, Hfin. destruct (others_ok env _ _ Ho (proj2 Hw)) as [Hs' _]. split.
    + pose proof (entries_after_once id cursor s' Hs') as Hnd. rewrite E, fmap_app in Hnd. by apply NoDup_app in Hnd as [? _].
    + destruct fin; [by rewrite E, Hfin, app_nil_r|by exists rest].
  - apply parseIdentifier_iff in Hid as [_ Hv]. destruct Hx as [[He|[Hno ->]]|He]; [by left| |by right; right].
    right; left. by rewrite <- Hv.
Qed.

(** ** Reversals that wait *)

(** C17: a call of the worker looks at one waiting reversal that is due, or at
    none, at an instant the system clock showed during the call.  A look ends in
    one of three ways: the reversal is applied, exactly undoing the operation it
    names; it is rejected, because it can never be applied or because at that
    instant its deadline has passed, or its attempts have run out; or it goes on
    waiting, with one more attempt counted, the next one set no later than the
    maximal backoff after that instant, and its deadline as it was.  Without a
    failure of the infrastructure nothing else is changed, a call that reports a
    reversal handled did look at one, and a call that found nothing left nothing
    that was due at an instant the clock showed during it. *)
Theorem a_look_decides_or_waits policy ctx w s :
  worker_fits policy -> cx_insideUnitOfWork ctx = false -> sound env w s ->
  let P := ReferencePolicy_normalised policy in
  let '(r, w') := resolve_one env retry policy ctx w in
  let read := reading env (wo_calls w) (wo_calls w') in
  exists s0 s1, others env s s0 /\ represents env (wo_db w') s1 /\
    ((exists k, looked_at P read k s0 s1) \/ s1 = s0) /\
    match r with
    | Ok true => (exists k, looked_at P read k s0 s1) \/ exists e, infra env e
    | Ok false => s1 = s0 /\ ((forall call name, en_locked env call name = false) ->
        exists at_, read at_ /\ forall t, ~ due_reference at_ s1 t)
    | Err e => (s1 = s0 /\ worker_error s1 e) \/ infra env e
    end.
Proof.
  intros Hfit Hin Hw P. pose proof (proj2 (worker_sane _ Hfit)) as Hmax.
  pose proof (resolve_one_handled env retry policy ctx w s Hfit Hin Hw) as Hx.
  destruct (resolve_one env retry policy ctx w) as [r w']. cbn zeta. set (read := reading env _ _) in *.
  assert (Hstep : forall s0 s1, others env s s0 -> worker_step P st_unlocked read s0 s1 ->
    (exists k, looked_at P read k s0 s1) \/
    (s1 = s0 /\ (st_unlocked -> exists at_, clock_time at_ /\ read at_ /\ forall t, ~ due_reference at_ s1 t))).
  { intros s0 s1 Ho. apply worker_step_looked; [done|]. by apply (others_ok env _ _ Ho), Hw. }
  destruct r as [[]|e].
  - destruct Hx as (s0 & s1 & Ho & Hst & [_ Htrue] & Hi). exists s0, s1. split_and!; [done..| |].
    + destruct (Hstep _ _ Ho Hst) as [?|[? _]]; auto.
    + destruct (Hstep _ _ Ho Hst) as [Hl|[Hsame _]]; [by left|right]. by destruct (Htrue eq_refl).
  - destruct Hx as (s0 & s1 & Ho & Hst & [Hsame _] & Hi). specialize (Hsame eq_refl). subst s1.
    exists s0, s0. split_and!; [done..|by right|done|]. intros Hfree.
    destruct (Hstep _ _ Ho Hst) as [(k & Hl)|[_ Hno]].
    + by destruct (looked_at_changes _ _ _ _ _ Hl).
    + destruct (Hno Hfree) as (at_ & _ & Hread & Hdue). by exists at_.
  - destruct Hx as [(s1 & Ho & Hi & He)|(s0 & s1 & Ho & Hst & Hi & He)].
    + exists s1, s1. split_and!; [done..|by right|]. destruct He as [He|He]; [left|right]; done.
    + exists s0, s1. split_and!; [done..| |by right]. destruct (Hstep _ _ Ho Hst) as [?|[? _]]; auto.
Qed.

(** The row of the operation named [k]. *)
Definition row (k : string) (w : World) : option tx_row := db_txs (wo_db w) !! k.

(** A call of the worker that went from [w] to [w1] and answered [r] has looked
    at [k] when it changed that row; or, where nothing can fail, when it reports
    a reversal handled and has changed no other row. *)
Definition looks (k : string) (r : result bool) (w w1 : World) : Prop :=
  row k w1 <> row k w \/
  ((forall e, ~ infra env e) /\ r = Ok true /\ forall k', k' <> k -> row k' w1 = row k' w).

(** A run of the program: calls of the worker, [n] of which look at the operation
    named [k], and any requests in between. *)
Inductive run (cf : Configuration) (k : string) : nat -> World -> World -> Prop :=
| run_end w : run cf k 0 w w
| run_request n r w w2 :
  cx_insideUnitOfWork (request_ctx r) = false -> run cf k n (serve env cf r w) w2 -> run cf k n w w2
| run_look n ctx r w w1 w2 :
  cx_insideUnitOfWork ctx = false -> resolve_one env (cf_retry cf) (cf_waiting cf) ctx w = (r, w1) ->
  looks k r w w1 -> run cf k n w1 w2 -> run cf k (S n) w w2
| run_elsewhere n ctx r w w1 w2 :
  cx_insideUnitOfWork ctx = false -> resolve_one env (cf_retry cf) (cf_waiting cf) ctx w = (r, w1) ->
  ~ looks k r w w1 -> run cf k n w1 w2 -> run cf k n w w2.

Lemma normalised_attempts policy : 1 <= rp_MaxAttempts (ReferencePolicy_normalised policy).
Proof. unfold ReferencePolicy_normalised. cbn. case_match; lia. Qed.

(** The rows tell operations apart. *)
Lemma row_same k w w' s s' : represents env (wo_db w) s -> represents env (wo_db w') s' ->
  s_txs s' !! k = s_txs s !! k -> row k w' = row k w.
Proof.
  intros Hr Hr' E. unfold row. by rewrite (rep_txs _ _ _ Hr), (rep_txs _ _ _ Hr'), !lookup_fmap, E.
Qed.

Lemma row_changed k w w' s s' : represents env (wo_db w) s -> represents env (wo_db w') s' ->
  s_txs s' !! k <> s_txs s !! k -> row k w' <> row k w.
Proof.
  intros Hr Hr' Hne E. unfold row in E.
  rewrite (rep_txs _ _ _ Hr), (rep_txs _ _ _ Hr'), !lookup_fmap in E. apply Hne.
  destruct (s_txs s' !! k) as [t'|] eqn:Ht', (s_txs s !! k) as [t|] eqn:Ht; try done.
  apply (scan_stored_tx env _ _ _ _ Hr) in Ht. apply (scan_stored_tx env _ _ _ _ Hr') in Ht'.
  apply (inj Some) in E. rewrite E in Ht'. congruence.
Qed.

(** What a call of the worker uses up. *)
Lemma call_uses policy k ctx w s r w1 : alone env -> worker_fits policy -> cx_insideUnitOfWork ctx = false ->
  sound env w s -> resolve_one env retry policy ctx w = (r, w1) ->
  let P := ReferencePolicy_normalised policy in
  exists s1, sound env w1 s1 /\ used P s k <= used P s1 k /\ (looks k r w w1 -> used P s k + 1 <= used P s1 k).
Proof.
  intros Halone Hfit Hin Hw Hrun P. pose proof (proj2 (worker_sane _ Hfit)) as Hmax.
  pose proof (normalised_attempts policy) as Hone. fold P in Hmax, Hone.
  pose proof (resolve_one_handled env retry policy ctx w s Hfit Hin Hw) as Hx. rewrite Hrun in Hx.
  assert (Hstep : forall s0 s1, others env s s0 -> represents env (wo_db w1) s1 ->
    worker_step P st_unlocked (reading env (wo_calls w) (wo_calls w1)) s0 s1 ->
    (r = Ok true -> s1 <> s0 \/ exists e, infra env e) ->
    exists s1, sound env w1 s1 /\ used P s k <= used P s1 k /\ (looks k r w w1 -> used P s k + 1 <= used P s1 k)).
  { intros s0 s1 Ho Hi Hst Htrue. apply others_alone in Ho as ->; [|done..]. exists s1.
    destruct (worker_step_ok _ _ _ _ _ Hmax (proj2 Hw) Hst) as [Hs1 He].
    split; [by split|]. split; [by apply used_grows; [|apply He]|].
    destruct (worker_step_looked _ _ _ _ _ Hmax (proj2 Hw) Hst) as [(k' & Hl)|[-> _]].
    - intros Hlook. destruct (decide (k' = k)) as [->|Hne]; [by eapply used_look; [..|apply Hw|]|exfalso].
      destruct Hlook as [Hch|(_ & _ & Hsame)].
      + apply Hch. eapply row_same; [apply Hw|exact Hi|]. by eapply looked_at_others; [exact Hl|].
      + eapply row_changed; [apply Hw|exact Hi|by eapply looked_at_changes|by apply Hsame].
    - intros [Hch|(Hcalm & Hr & _)]; exfalso.
      + apply Hch. by eapply row_same; [apply Hw|exact Hi|].
      + destruct (Htrue Hr) as [Hne|[e He']]; [done|by apply (Hcalm e)]. }
  assert (Hstay : forall s1, others env s s1 -> represents env (wo_db w1) s1 -> (exists e, r = Err e) ->
    exists s1, sound env w1 s1 /\ used P s k <= used P s1 k /\ (looks k r w w1 -> used P s k + 1 <= used P s1 k)).
  { intros s1 Ho Hi [e ->]. apply others_alone in Ho as ->; [|done..]. exists s.
    split; [split; [exact Hi|apply Hw]|]. split; [done|]. intros [Hch|(_ & [=] & _)].
    destruct Hch. by eapply row_same; [apply Hw|exact Hi|]. }
  destruct r as [worked|e].
  - destruct Hx as (s0 & s1 & Ho & Hst & [_ Htrue] & Hi). apply (Hstep s0 s1); try done. intros [= ->]. by apply Htrue.
  - destruct Hx as [(s1 & Ho & Hi & _)|(s0 & s1 & Ho & Hst & Hi & _)]; [by apply (Hstay s1); eauto|].
    by apply (Hstep s0 s1).
Qed.
End properties.

Section runs.
Context (env : Environment) `{!EnvironmentLaws env}.
#[local] Existing Instance Storage_pg.

Lemma run_uses cf k n w s w' : alone env -> configured cf -> sound env w s -> run env cf k n w w' ->
  let P := ReferencePolicy_normalised (cf_waiting cf) in
  exists s', sound env w' s' /\ Z.of_nat n + used P s k <= used P s' k.
Proof.
  intros Halone Hcf Hw Hrun P. pose proof (normalised_attempts (cf_waiting cf)) as Hmax. fold P in Hmax.
  revert s Hw. induction Hrun as [w|n r w w2 Hin _ IH|n ctx r w w1 w2 Hin E Hl _ IH|n ctx r w w1 w2 Hin E _ _ IH];
    intros s Hw.
  - exists s. split; [done|lia].
  - destruct (serve_sound env cf Hcf r w s Hin Hw) as (s1 & Hw1 & He).
    destruct (IH s1 Hw1) as (s2 & Hw2 & Hu). exists s2. split; [done|].
    pose proof (used_grows P s s1 k Hmax (ev_grows _ _ He)). lia.
  - destruct (call_uses env _ _ k ctx w s r w1 Halone (proj1 Hcf) Hin Hw E) as (s1 & Hw1 & _ & Hu1).
    specialize (Hu1 Hl). destruct (IH s1 Hw1) as (s2 & Hw2 & Hu). exists s2. split; [done|]. fold P in Hu1. lia.
  - destruct (call_uses env _ _ k ctx w s r w1 Halone (proj1 Hcf) Hin Hw E) as (s1 & Hw1 & Hu1 & _).
    destruct (IH s1 Hw1) as (s2 & Hw2 & Hu). exists s2. split; [done|]. fold P in Hu1. lia.
Qed.
End runs.

(** C18: no reversal waits for ever: however the program runs, and whatever is
    asked of it in between, at most MaxAttempts calls of its worker look at one
    reversal, and after the last of them it is decided.  What fails may fail;
    where nothing does, a call that reports a reversal handled is counted even
    if it left no trace.  Requests and calls follow one another here: no other
    session commits inside of one. *)
Theorem no_reversal_waits_for_ever env `{!EnvironmentLaws env} cf k n w s w' :
  alone env -> configured cf -> sound env w s -> run env cf k n w w' ->
  let max := rp_MaxAttempts (ReferencePolicy_normalised (cf_waiting cf)) in
  Z.of_nat n <= max /\
  (Z.of_nat n = max -> exists s' t, represents env (wo_db w') s' /\ s_txs s' !! k = Some t /\ Tx_IsTerminal t = true).
Proof.
  intros Halone Hcf Hw Hrun. cbn zeta. destruct (run_uses env cf k n w s w' Halone Hcf Hw Hrun) as (s' & Hw' & Hused).
  pose proof (normalised_attempts (cf_waiting cf)) as Hmax.
  pose proof (used_bounds _ s k Hmax). pose proof (used_bounds _ s' k Hmax).
  split; [lia|]. intros Hn.
  assert (Hend : used (ReferencePolicy_normalised (cf_waiting cf)) s' k =
    rp_MaxAttempts (ReferencePolicy_normalised (cf_waiting cf))) by lia.
  unfold used in Hend. destruct (s_txs s' !! k) as [t|] eqn:Ht; [|lia]. exists s', t.
  split; [apply Hw'|]. split; [done|]. destruct (Tx_IsTerminal t); [done|lia].
Qed.

Section more_properties.
Context (env : Environment) `{!EnvironmentLaws env} (retry : RetryPolicy).
#[local] Existing Instance Storage_pg.

(** A batch that ends on its own before it is full leaves no reversal that was
    due at an instant the clock showed during it: with enough batches the worker
    catches up.  No row is held by another
    session here. *)
Theorem a_batch_leaves_nothing_due policy ctx w s :
  worker_fits policy -> cx_insideUnitOfWork ctx = false -> sound env w s ->
  (forall call name, en_locked env call name = false) ->
  let size := rp_BatchSize (ReferencePolicy_normalised policy) in
  let '(n, r, w') := resolve_references env retry policy ctx w in
  0 <= n <= size /\
  exists s', sound env w' s' /\ evolves s s' /\
    (r = Ok () -> n < size ->
     exists at_, reading env (wo_calls w) (wo_calls w') at_ /\ forall t, ~ due_reference at_ s' t).
Proof.
  intros Hfit Hin Hw Hfree size.
  pose proof (resolve_references_ok env retry policy ctx w s Hfit Hin Hw) as Hx.
  destruct (resolve_references env retry policy ctx w) as [[n r] w'].
  destruct Hx as [Hn (s' & Hs' & He & Hdrain)]. split; [exact Hn|]. exists s'. split_and!; [done..|].
  intros Hr Hlt. exact (Hdrain Hr Hlt Hfree).
Qed.

(** ** Events *)

(** C19: whatever the broker answers, a run of the publisher touches nothing but
    the outbox, loses no event, and marks an event as published only after the
    broker has taken it; an event it turned down is kept with the reason. *)
Theorem only_taken_events_are_published Error answer policy ctx w s :
  publisher_fits policy -> cx_insideUnitOfWork ctx = false -> sound env w s ->
  let '(_, r, w') := publish_events env retry Error answer policy ctx w in
  exists s0 s1, others env s s0 /\ represents env (wo_db w') s1 /\ grows s0 s1 /\
    s_wallets s1 = s_wallets s0 /\ s_txs s1 = s_txs s0 /\ s_ledger s1 = s_ledger s0 /\ s_inbox s1 = s_inbox s0 /\
    (forall q rec, (q, rec) ∈ s_outbox s1 -> Outbox_Published rec = true ->
       (q, rec) ∈ s_outbox s0 \/ exists rec0, taken answer rec0 /\ or_EventID rec0 = or_EventID rec) /\
    match r with
    | Ok _ => True
    | Err e => (s1 = s0 /\ exists l, publisher_error l s1 e) \/ infra env e
    end.
Proof.
  intros Hfit Hin Hw. pose proof (publish_events_ran env retry Error answer policy ctx w s Hfit Hin Hw) as Hx.
  destruct (publish_events env retry Error answer policy ctx w) as [[n r] w'].
  set (read := reading env (wo_calls w) (wo_calls w')) in Hx.
  assert (Hb : forall s0 s1 (P : Prop), others env s s0 -> represents env (wo_db w') s1 -> P ->
    batch_published (taken answer) (turned_down answer) Error (PublisherPolicy_normalised policy) st_unlocked read s0 s1 ->
    exists s0 s1, others env s s0 /\ represents env (wo_db w') s1 /\ grows s0 s1 /\
    s_wallets s1 = s_wallets s0 /\ s_txs s1 = s_txs s0 /\ s_ledger s1 = s_ledger s0 /\ s_inbox s1 = s_inbox s0 /\
    (forall q rec, (q, rec) ∈ s_outbox s1 -> Outbox_Published rec = true ->
       (q, rec) ∈ s_outbox s0 \/ exists rec0, taken answer rec0 /\ or_EventID rec0 = or_EventID rec) /\ P).
  { intros s0 s1 P Ho Hi HP (at_ & qrs & _ & _ & _ & _ & _ & _ & _ & Hp). exists s0, s1.
    destruct (publishes_grows _ _ _ _ _ _ _ _ Hp) as (Hg & Hwal & Htx & Hl & Hinb). split_and!; try done.
    intros q rec Hq Hpub. destruct (publishes_accepted _ _ _ _ _ _ _ _ _ _ Hp Hq Hpub) as [?|(rec0 & _ & ? & ?)];
      [by left|right; by exists rec0]. }
  destruct r as [[]|e].
  - destruct Hx as (s0 & s1 & Ho & Hp & Hi). by apply (Hb s0 s1 True).
  - destruct Hx as [(s1 & Ho & Hi & He)|(s0 & s1 & Ho & Hp & Hi & He)].
    + exists s1, s1. split_and!; try done; [apply grows_refl|by left|]. destruct He; [left|right]; done.
    + destruct (Hb s0 s1 (infra env e) Ho Hi He Hp) as (s2 & s3 & Hrest). exists s2, s3.
      destruct_and!. split_and!; try done. by right.
Qed.

(** A broker that takes every event gets them: a run of the publisher that
    succeeds publishes, oldest first, every event that was due, or as many as
    its batch holds.  No row is held by another session here. *)
Theorem a_run_publishes_what_is_due Error answer policy ctx w s n w' :
  publisher_fits policy -> cx_insideUnitOfWork ctx = false -> sound env w s ->
  (forall call name, en_locked env call name = false) -> (forall m rec, answer m rec = None) ->
  publish_events env retry Error answer policy ctx w = (n, Ok (), w') ->
  exists s0 s1 at_ qrs, others env s s0 /\ represents env (wo_db w') s1 /\
    reading env (wo_calls w) (wo_calls w') at_ /\
    StronglySorted Z.lt qrs.*1 /\
    Forall (fun qr => due_event at_ s0 qr /\ (qr.1, published_record at_ qr.2) ∈ s_outbox s1) qrs /\
    ((forall qr, due_event at_ s0 qr -> qr ∈ qrs) \/
     Z.of_nat (length qrs) = pp_BatchSize (PublisherPolicy_normalised policy)).
Proof.
  intros Hfit Hin Hw Hfree Htakes Hrun.
  pose proof (publish_events_ran env retry Error answer policy ctx w s Hfit Hin Hw) as Hx. rewrite Hrun in Hx.
  destruct Hx as (s0 & s1 & Ho & (at_ & qrs & Hat & Hread & Hdue & Hsort & Hnd & Hlen & Hall & Hp) & Hi).
  exists s0, s1, at_, qrs. split_and!; try done.
  - rewrite Forall_forall in Hdue |- *. intros [q rec] Hq. split; [by apply Hdue|].
    destruct (Hdue _ Hq) as (Hq0 & Hun & _).
    destruct (publishes_fate _ _ _ _ _ _ _ _ q rec Hp Hnd) as (sent & rec' & Hfate & Hin'); try done.
    { by apply (list_elem_of_fmap_2 snd qrs (q, rec)). }
    destruct Hfate as [_|wait err (m & Hm) _]; [done|]. by rewrite Htakes in Hm.
  - specialize (Hall Hfree). destruct (decide (Z.of_nat (length qrs) = pp_BatchSize (PublisherPolicy_normalised policy)));
      [by right|left]. intros qr Hqr. by destruct (Hall qr Hqr).
Qed.

(** ** Messages *)

(** C8: a delivery is applied whole or not at all: the operation, its events
    and the record that its message was handled are committed together; an
    error means that none of them was, unless it reports a failure of the
    infrastructure. *)
Theorem a_delivery_is_atomic cfg waiting ctx envelope cmd hash identity w s :
  durations_fit waiting -> Command_PayloadHash cmd = Ok hash -> cx_insideUnitOfWork ctx = false ->
  sound env w s ->
  let applied := delivered (NewConsumer_config cfg) (ReferencePolicy_normalised waiting)
    (inside (Consumer_work ctx envelope identity)) envelope cmd hash in
  let '(r, w') := apply_message env retry cfg waiting ctx envelope cmd identity w in
  match r with
  | Ok c => exists s0 s1, others env s s0 /\ applied s0 s1 c /\ sound env w' s1
  | Err e =>
    (exists s1, others env s s1 /\ sound env w' s1 /\
       (delivery_error (NewConsumer_config cfg) (inside (Consumer_work ctx envelope identity)) envelope cmd hash s1 e \/
        infra env e)) \/
    (exists s0 s1 c, others env s s0 /\ applied s0 s1 c /\ sound env w' s1 /\ infra env e)
  end.
Proof.
  intros Hfit Hhash Hin Hw applied.
  pose proof (apply_message_applied env retry cfg waiting ctx envelope cmd hash identity w s Hfit Hhash Hin Hw) as Hx.
  assert (Hok : forall s0 s1 c, others env s s0 -> applied s0 s1 c -> store_ok s1).
  { intros s0 s1 c Ho Hd. destruct (others_ok env _ _ Ho (proj2 Hw)) as [Hs0 _].
    by destruct (delivered_ok _ _ _ _ _ _ _ _ _ (waiting_ttl _ Hfit) Hs0 Hd). }
  destruct (apply_message env retry cfg waiting ctx envelope cmd identity w) as [[c|e] w'].
  - destruct Hx as (s0 & s1 & Ho & Hd & Hi). exists s0, s1. split_and!; [done..|]. split; [done|by eapply Hok].
  - destruct Hx as [(s1 & Ho & Hi & He)|(s0 & s1 & c & Ho & Hd & Hi & He)]; [left|right].
    + exists s1. split_and!; [done| |done]. split; [done|by apply (others_ok env _ _ Ho), Hw].
    + exists s0, s1, c. split_and!; [done..| |done]. split; [done|by eapply Hok].
Qed.

(** C9: a message is applied at most once: after one delivery of it has
    succeeded, whatever happens in between, no other delivery under the same
    identifier changes anything, whatever its content. *)
Theorem a_message_is_applied_once cfg waiting ctx envelope cmd identity w s c w1
    cf rs ctx' envelope' cmd' identity' :
  configured cf -> durations_fit waiting ->
  cx_insideUnitOfWork ctx = false -> cx_insideUnitOfWork ctx' = false ->
  Forall (fun r => cx_insideUnitOfWork (request_ctx r) = false) rs -> sound env w s ->
  en_MessageID envelope' = en_MessageID envelope ->
  apply_message env retry cfg waiting ctx envelope cmd identity w = (Ok c, w1) ->
  let w2 := serve_all env cf rs w1 in
  let '(r, w3) := apply_message env retry cfg waiting ctx' envelope' cmd' identity' w2 in
  exists s2 s3, sound env w2 s2 /\ others env s2 s3 /\ represents env (wo_db w3) s3 /\
    match r with
    | Ok _ => True
    | Err e => Command_PayloadHash cmd' = Err e \/ e = Wrapped (SentinelError ErrSerializationFailure) \/ infra env e
    end.
Proof.
  intros Hcf Hfit Hin Hin' Hrs Hw Hsame Happ. cbn zeta.
  assert (Hfirst : exists s1, sound env w1 s1 /\
    is_Some (s_inbox s1 !! (cc_Name (NewConsumer_config cfg), en_MessageID envelope))).
  { destruct (Command_PayloadHash cmd) as [hash|e] eqn:Hhash.
    2:{ unfold apply_message, Consumer_apply in Happ. by rewrite Hhash in Happ. }
    pose proof (apply_message_applied env retry cfg waiting ctx envelope cmd hash identity w s Hfit Hhash Hin Hw) as Hx.
    rewrite Happ in Hx. destruct Hx as (s0 & s1 & Ho & Hd & Hi).
    destruct (others_ok env _ _ Ho (proj2 Hw)) as [Hs0 _].
    destruct (delivered_ok _ _ _ _ _ _ _ _ _ (waiting_ttl _ Hfit) Hs0 Hd) as (Hs1 & _ & Hm). by exists s1. }
  destruct Hfirst as (s1 & Hw1 & m & Hm).
  destruct (serve_all_sound env cf Hcf rs w1 s1 Hrs Hw1) as (s2 & Hw2 & [Hg2 _]).
  destruct (ev_inbox _ _ Hg2 _ _ Hm) as (m2 & Hm2 & _).
  assert (Hseen : forall s3, others env s2 s3 ->
    is_Some (s_inbox s3 !! (cc_Name (NewConsumer_config cfg), en_MessageID envelope'))).
  { intros s3 Ho. destruct (others_ok env _ _ Ho (proj2 Hw2)) as [_ [Hg3 _]]. rewrite Hsame.
    destruct (ev_inbox _ _ Hg3 _ _ Hm2) as (m3 & Hm3 & _). eauto. }
  destruct (Command_PayloadHash cmd') as [hash|e] eqn:Hhash.
  2:{ unfold apply_message, Consumer_apply, mbind, M_bind, pure. rewrite Hhash. exists s2, s2.
      split_and!; [done|apply others_none|apply Hw2|by left]. }
  pose proof (apply_message_applied env retry cfg waiting ctx' envelope' cmd' hash identity' _ s2 Hfit Hhash Hin' Hw2) as Hx.
  destruct (apply_message env retry cfg waiting ctx' envelope' cmd' identity' _) as [[c'|e] w3].
  - destruct Hx as (s0 & s3 & Ho & Hd & Hi). apply delivered_again in Hd as ->; [|by apply Hseen].
    exists s2, s0. by split_and!.
  - destruct Hx as [(s3 & Ho & Hi & He)|(s0 & s3 & c' & Ho & Hd & Hi & He)].
    + exists s2, s3. split_and!; [done..|]. destruct He as [He|He]; [|by right; right].
      destruct He as [m' e' _ _ Hno|m' _ _ _]; [|by right; left]. destruct (Hseen _ Ho). congruence.
    + apply delivered_again in Hd as ->; [|by apply Hseen]. exists s2, s0. split_and!; [done..|by right; right].
Qed.

(** C10: a message is taken off the queue only when it is done with: either it
    could never become an operation, because it cannot be decoded or has no
    usable provider, or its inbox record is committed. *)
Theorem no_message_is_lost cfg waiting ctx message w s w' :
  durations_fit waiting -> cx_insideUnitOfWork ctx = false -> sound env w s ->
  consume env retry cfg waiting ctx message w = (outcomeDelete, w') ->
  match decodeEnvelope (qm_Body message) with
  | Err _ => w' = w
  | Ok (envelope, cmd) =>
    match Consumer_identity (NewConsumer_config cfg) envelope with
    | Err _ => w' = w
    | Ok _ => exists s' m, sound env w' s' /\
        s_inbox s' !! (cc_Name (NewConsumer_config cfg), en_MessageID envelope) = Some m
    end
  end.
Proof.
  intros Hfit Hin Hw. unfold consume, Consumer_decide.
  destruct (decodeEnvelope (qm_Body message)) as [[envelope cmd]|]; [|by intros [= <-]].
  destruct (Consumer_identity _ envelope) as [identity|]; [|by intros [= <-]].
  fold (apply_message env retry cfg waiting ctx envelope cmd identity).
  destruct (Command_PayloadHash cmd) as [hash|e] eqn:Hhash.
  2:{ unfold apply_message, Consumer_apply, mbind, M_bind, pure. by rewrite Hhash. }
  pose proof (apply_message_applied env retry cfg waiting ctx envelope cmd hash identity w s Hfit Hhash Hin Hw) as Hx.
  destruct (apply_message env retry cfg waiting ctx envelope cmd identity w) as [[c|e] w2]; intros [= <-].
  destruct Hx as (s0 & s1 & Ho & Hd & Hi). destruct (others_ok env _ _ Ho (proj2 Hw)) as [Hs0 _].
  destruct (delivered_ok _ _ _ _ _ _ _ _ _ (waiting_ttl _ Hfit) Hs0 Hd) as (Hs1 & _ & m & Hm). by exists s1, m.
Qed.
End more_properties.
