(* ===== verification/Scenarios.v ===== *)
(** * Scenarios: the services at work

    Each property of [Services] on a concrete run of the program: wallets
    opened, operations submitted and queued, a reversal that waits, events
    published, a balance that was tampered with. *)

From stdpp Require Import sorting.
From S2P Require Import Encoding Rfc3339 Json.
From S2P Require Import Prelude Errors GoTime Money Identifier Ledger Wallet Transaction Event.
From S2P Require Import Idempotency Identity Ports Store StoreInv Policy Recorder Reversal.
From S2P Require Import Submit Storable SubmitSpec SubmitProof SubmitExecute SubmitFacts.
From S2P Require Import Opening Reconcile Queries Worker Publisher Consumer Locks Schema.
From S2P Require Import Postgres Rows PostgresLaws PostgresWrites PostgresQueues UowLaws PostgresReads Guard.
From S2P Require Import Readings Quiet System HttpFacts Program Sessions Services.

#[local] Open Scope string_scope.
#[local] Open Scope list_scope.
#[local] Open Scope Z_scope.

(** ** Callers, messages and configuration *)

Definition operator : Context :=
  mkContext (Some (mkIdentity "operations" zeroId [ScopeWallets])) "corr-2" false.

Definition reader : Context :=
  mkContext (Some (mkIdentity "acme-service" (mkId "acme") [ScopeRead])) "corr-3" false.

Definition internal : Context := mkContext None "" false.

Definition new_player : OpenWalletCommand := mkOpenWalletCommand "p2" "25.00" "BRL".
Definition same_player : OpenWalletCommand := mkOpenWalletCommand "p1" "25.00" "BRL".

Definition queued_bet (id : string) : Envelope :=
  mkEnvelope id TypeWagerTransactionRequested (mkTime 63000000000000000000 UTC)
    (mkEnvelopeData "acme" "x7" "k7" "p1" "w1" "r1" "g1" "BET" (mkMoneyData "30.00" "BRL") "").

Definition bet_of (id : string) : SubmitCommand := Envelope_Command (queued_bet id).

(** The message, as a producer writes it. *)
Definition a_bet : string := write (message_json "m-1" (mkTime 63000000000000000000 UTC) (bet_of "m-1")).

Definition queue_of_bets : ConsumerConfig := mkConsumerConfig "" 0 0.

Definition takes_all : nat -> OutboxRecord -> option error := fun _ _ => None.
Definition any_text : error -> string := fun _ => "refused".

Definition defaults : Configuration :=
  mkConfiguration DefaultRetryPolicy DefaultReferencePolicy DefaultPublisherPolicy queue_of_bets
    any_text takes_all (fun n => Nat.ltb n 100000) (fun _ => Ok [mkQueueMessage "receipt" a_bet]) (fun _ => Ok ())
    (fun _ => false).

Lemma defaults_fit : configured defaults.
Proof. by repeat split. Qed.

Lemma worker_default_fits : worker_fits DefaultReferencePolicy.
Proof. by repeat split. Qed.

Lemma publisher_default_fits : publisher_fits DefaultPublisherPolicy.
Proof. by split. Qed.

#[local] Notation sound_start := (sound0 (fun _ => Committed)).

(** ** Books and wallets *)

Definition a_day : list request :=
  [ReqOpen operator new_player; ReqSubmit acme win; ReqDeliver internal (mkQueueMessage "h1" a_bet);
   ReqDeliver internal (mkQueueMessage "h2" a_bet); ReqSubmit acme rollback_win; ReqResolve internal;
   ReqPublish internal; ReqReconcile operator "w1";
   ReqRunConsumer internal 2; ReqRunWorker internal 2; ReqRunPublisher internal 2].

Lemma quiet_own : own_laws quiet.
Proof. constructor; apply quiet_laws. Qed.

Section shared_database.

(** Nothing was ever written. *)
Definition untouched (db : DB) : bool :=
  bool_decide (db_wallets db = ∅) && bool_decide (db_txs db = ∅) && bool_decide (db_ledger db = []) &&
  bool_decide (db_inbox db = ∅) && bool_decide (db_outbox db = []) && (db_ledger_seq db =? 1) && (db_outbox_seq db =? 1).

Lemma untouched_empty db : untouched db = true -> db = emptyDB.
Proof.
  destruct db. unfold untouched. rewrite !andb_true_iff, !bool_decide_eq_true, !Z.eqb_eq. cbn.
  intros ((((((-> & ->) & ->) & ->) & ->) & ->) & ->). reflexivity.
Qed.

Definition opening_world : World := mkWorld emptyDB emptyDB false 0.

(** Another instance of the program opens the same wallet first, and deposits
    into it. *)
Definition into (wallet external key amount : string) : SubmitCommand :=
  mkSubmitCommand key "acme" external "p2" wallet "r1" "g1" "WIN" amount "BRL" "".

Definition theirs : list request :=
  [ReqOpen operator new_player; ReqSubmit acme (into "01890000-0000-7000-8000-000000000000" "y1" "q1" "5.00")].

Definition shared : Environment := {|
  en_uuid := en_uuid quiet;
  en_now := en_now quiet;
  en_rand := en_rand quiet;
  en_fault := en_fault quiet;
  en_commit := en_commit quiet;
  en_others := fun _ db => if untouched db then wo_db (serve_all quiet defaults theirs (mkWorld db db false 0)) else db;
  en_pick := en_pick quiet;
  en_locked := en_locked quiet;
  en_cancelled := en_cancelled quiet;
  en_encode := en_encode quiet;
  en_decode := en_decode quiet;
  en_jsonb := en_jsonb quiet
|}.

#[local] Instance shared_driver : DriverLaws shared.
Proof. by constructor. Defined.

Lemma sound_opening env `{!DriverLaws env} : sound env opening_world emptyStore.
Proof. split; [apply represents_empty|apply emptyStore_ok]. Qed.

Lemma shared_populated : populated shared shared_driver.
Proof.
  constructor; [constructor; apply quiet_own|]. intros n db. cbn [en_others shared].
  destruct (untouched db) eqn:E; [right|by left]. apply untouched_empty in E as ->.
  exists quiet, defaults, theirs, opening_world, emptyStore. split_and!.
  - constructor; [constructor; apply quiet_own|]. intros m db. by left.
  - apply defaults_fit.
  - repeat constructor.
  - reflexivity.
  - apply sound_opening.
  - reflexivity.
Qed.

(** Both instances are asked to open the wallet of one player. *)
Definition ours : list request :=
  ReqOpen operator new_player :: ReqSubmit acme (into "01890000-0000-7000-8000-000000000000" "y2" "q2" "7.00") :: a_day.

Lemma requests_keep_the_books_witness :
  cw_balance_minor <$> map snd (map_to_list (db_wallets (wo_db (serve_all shared defaults ours opening_world)))) = [3700] /\
  exists s', represents shared (wo_db (serve_all shared defaults ours opening_world)) s' /\ books s' /\
    evolves emptyStore s'.
Proof.
  split; [vm_compute; reflexivity|].
  apply (requests_keep_the_books shared shared_driver defaults ours opening_world emptyStore).
  - apply shared_populated.
  - apply defaults_fit.
  - repeat constructor.
  - apply sound_opening.
Defined.
End shared_database.

(** What a run answered. *)
Definition answers_with {A} (x : result A * World) (P : A -> bool) : bool :=
  match x.1 with Ok a => P a | Err _ => false end.

Lemma answers_with_Ok {A} (x : result A * World) P : answers_with x P = true ->
  exists a w', x = (Ok a, w') /\ P a = true.
Proof. destruct x as [[a|e] w']; [|done]. intros HP. by exists a, w'. Qed.

Lemma a_wallet_opens_once_with_its_money_witness : exists wallet w',
  open_wallet quiet DefaultRetryPolicy operator new_player (world0 quiet) = (Ok wallet, w') /\
  exists player initial s0 s1, Open_parse new_player = Ok (player, initial) /\
    others quiet store0 s0 /\ opening_effect s0 player initial wallet s1 /\ represents quiet (wo_db w') s1.
Proof.
  destruct (answers_with_Ok (open_wallet quiet DefaultRetryPolicy operator new_player (world0 quiet))
    (fun w => minor (w_balance w) =? 2500)) as (wallet & w' & E & _); [vm_compute; reflexivity|].
  exists wallet, w'. split; [exact E|].
  pose proof (a_wallet_opens_once_with_its_money quiet DefaultRetryPolicy operator new_player (world0 quiet)
    store0 eq_refl sound_start) as Hx.
  rewrite E in Hx. exact Hx.
Defined.

Lemma a_second_wallet_is_refused_witness : exists player initial,
  Open_parse same_player = Ok (player, initial) /\
  let '(r, w') := open_wallet quiet DefaultRetryPolicy operator same_player (world0 quiet) in
  exists e s', r = Err e /\ others quiet store0 s' /\ represents quiet (wo_db w') s' /\
    (is_sentinel e ErrConflict = true \/ infra quiet e).
Proof.
  assert (Hp : Open_parse same_player = Ok (mkId "p1", mkMoney 2500 (mkCurrency "BRL"))) by (vm_compute; reflexivity).
  exists (mkId "p1"), (mkMoney 2500 (mkCurrency "BRL")). split; [exact Hp|].
  refine (a_second_wallet_is_refused quiet DefaultRetryPolicy operator same_player (world0 quiet) store0
    (mkIdentity "operations" zeroId [ScopeWallets]) (mkId "p1") (mkMoney 2500 (mkCurrency "BRL"))
    eq_refl sound_start _ Hp _).
  - vm_compute. reflexivity.
  - exists "w1", wallet0. split; [reflexivity|split; reflexivity].
Defined.

(** ** Reconciliation *)

(** A balance that no entry explains. *)
Definition tampered : Wallet :=
  mkWallet (mkId "w1") (mkId "p1") (mkCurrency "BRL") (mkMoney 500 (mkCurrency "BRL")) 1
    (mkTime 63000000000000000000 UTC) (mkTime 63000000000000000000 UTC).

Definition tampered_world : World :=
  let db := with_wallets (insert "w1" (wallet_row_of quiet tampered)) emptyDB in mkWorld db db false 0.

Lemma tampered_represents : represents quiet (wo_db tampered_world) (put_wallet tampered emptyStore).
Proof.
  apply (represents_put_wallet quiet emptyDB emptyStore tampered).
  - apply represents_empty.
  - constructor; try done; by right.
  - reflexivity.
Qed.

Lemma reconciliation_is_exact_witness : exists rec w',
  reconcile quiet operator "w1" tampered_world = (Ok rec, w') /\ Drifted rec = true /\
  exists s0, others quiet (put_wallet tampered emptyStore) s0 /\ represents quiet (wo_db w') s0 /\
    exists id wallet, id_value id = "w1" /\ reconciled s0 id wallet rec /\
      (Drifted rec = true <-> minor (w_balance wallet) <> entries_sum (entries_of id s0)).
Proof.
  destruct (answers_with_Ok (reconcile quiet operator "w1" tampered_world) Drifted) as (rec & w' & E & Hd);
    [vm_compute; reflexivity|].
  exists rec, w'. split; [exact E|]. split; [exact Hd|].
  pose proof (reconciliation_is_exact quiet operator "w1" tampered_world _ tampered_represents) as Hx.
  rewrite E in Hx. exact Hx.
Defined.

Lemma kept_books_never_drift_witness : exists rec w',
  reconcile quiet operator "w1" after_win = (Ok rec, w') /\ minor (rn_Stored rec) = 10000 /\
  Drifted rec = false /\ rn_Stored rec = rn_Rebuilt rec /\ 0 <= minor (rn_Stored rec).
Proof.
  destruct after_win_sound as [s Hs].
  destruct (answers_with_Ok (reconcile quiet operator "w1" after_win) (fun r => minor (rn_Stored r) =? 10000))
    as (rec & w' & E & Hb); [vm_compute; reflexivity|].
  exists rec, w'. split; [exact E|]. split; [by apply Z.eqb_eq|].
  pose proof (kept_books_never_drift quiet operator "w1" after_win s Hs) as Hx.
  rewrite E in Hx. exact Hx.
Defined.

(** ** Reading *)

Lemma callers_see_only_their_own_witness : exists s i,
  sound quiet after_win s /\ caller reader ScopeRead = Ok i /\
  (let '(r, w') := get_transaction quiet reader "nothing" after_win in
   exists s', others quiet s s' /\ represents quiet (wo_db w') s' /\
   match r with
   | Ok t => own_operations i s' !! "nothing" = Some t
   | Err e => ParseTransactionID "nothing" = Err e \/
       (own_operations i s' !! "nothing" = None /\ e = SentinelError ErrNotFound) \/ infra quiet e
   end) /\
  (let '(r, w') := find_transaction quiet reader "acme" "x1" after_win in
   is_Ok r = true /\
   exists s', others quiet s s' /\ represents quiet (wo_db w') s' /\
   match r with
   | Ok t => own_named i s' "acme" "x1" t
   | Err e => ParseProviderID "acme" = Err e \/ ParseExternalTransactionID "x1" = Err e \/
       ((forall t, ~ own_named i s' "acme" "x1" t) /\ e = SentinelError ErrNotFound) \/ infra quiet e
   end).
Proof.
  destruct after_win_sound as [s Hs].
  assert (Hcal : caller reader ScopeRead = Ok (mkIdentity "acme-service" (mkId "acme") [ScopeRead]))
    by (vm_compute; reflexivity).
  exists s, (mkIdentity "acme-service" (mkId "acme") [ScopeRead]). split; [exact Hs|]. split; [exact Hcal|].
  destruct (callers_see_only_their_own quiet reader _ "nothing" "acme" "x1" after_win s Hs Hcal) as [H1 H2].
  split; [exact H1|].
  assert (Hok : is_Ok (find_transaction quiet reader "acme" "x1" after_win).1 = true) by (vm_compute; reflexivity).
  destruct (find_transaction quiet reader "acme" "x1" after_win) as [r w']. split; [exact Hok|exact H2].
Defined.

Lemma ledger_is_enumerated_once_witness : exists s entries w',
  sound quiet after_win s /\
  list_ledger quiet 3 operator "w1" (NewLedgerCursor 0) 1 after_win = (Ok (entries, true), w') /\
  length entries = 1%nat /\
  exists s', others quiet s s' /\ represents quiet (wo_db w') s' /\
    NoDup (le_transactionID <$> entries) /\ entries = (entries_after (mkId "w1") (NewLedgerCursor 0) s').*2.
Proof.
  destruct after_win_sound as [s Hs].
  destruct (answers_with_Ok (list_ledger quiet 3 operator "w1" (NewLedgerCursor 0) 1 after_win)
    (fun ef => ef.2 && Nat.eqb (length ef.1) 1)) as ([entries fin] & w' & E & Hb); [vm_compute; reflexivity|].
  apply andb_true_iff in Hb as [Hfin Hlen%Nat.eqb_eq]. cbn in Hfin, Hlen. subst fin.
  exists s, entries, w'. split; [exact Hs|]. split; [exact E|]. split; [exact Hlen|].
  pose proof (ledger_is_enumerated_once quiet 3 operator "w1" (mkId "w1") 1 1 (NewLedgerCursor 0) after_win s Hs
    ltac:(vm_compute; reflexivity) ltac:(vm_compute; reflexivity)) as Hx.
  rewrite E in Hx. exact Hx.
Defined.

(** ** A reversal that waits *)

Section waiting.

(** Every call to the outside takes a second. *)
Definition slow : Environment := environment_stepping Second (fun _ => Committed).

#[local] Instance slow_laws : EnvironmentLaws slow.
Proof. by apply environment_stepping_laws. Qed.

Lemma sound_slow : sound slow (world0 slow) store0.
Proof.
  split.
  - exact (represents_world0_stepping Second (fun _ => Committed)).
  - exact (store0_ok_stepping Second (fun _ => Committed)).
Qed.

(** It comes before the bet it names. *)
Definition early_rollback : SubmitCommand := operation "ROLLBACK" "x3" "k3" "30.00" "x2".

Definition parked : World := (submit slow DefaultRetryPolicy DefaultReferencePolicy acme early_rollback (world0 slow)).2.

Lemma parked_sound : exists s, sound slow parked s.
Proof.
  destruct (submit_sound slow DefaultRetryPolicy DefaultReferencePolicy default_fits acme early_rollback
    (world0 slow) store0 eq_refl sound_slow) as (s & Hs & _). by exists s.
Qed.

Definition statuses (w : World) : list (string * Z) :=
  (fun r => (ct_status r, ct_reference_attempts r)) <$> map snd (map_to_list (db_txs (wo_db w))).

Lemma parked_waits : statuses parked = [("PENDING_REFERENCE", 1)].
Proof. vm_compute. reflexivity. Qed.

Lemma a_look_decides_or_waits_witness : exists s w',
  sound slow parked s /\ resolve_one slow DefaultRetryPolicy DefaultReferencePolicy internal parked = (Ok true, w') /\
  statuses w' = [("PENDING_REFERENCE", 2)] /\
  let read := reading slow (wo_calls parked) (wo_calls w') in
  exists s0 s1, others slow s s0 /\ represents slow (wo_db w') s1 /\
    ((exists k, looked_at (ReferencePolicy_normalised DefaultReferencePolicy) read k s0 s1) \/ s1 = s0) /\
    ((exists k, looked_at (ReferencePolicy_normalised DefaultReferencePolicy) read k s0 s1) \/ exists e, infra slow e).
Proof.
  destruct parked_sound as [s Hs].
  destruct (answers_with_Ok (resolve_one slow DefaultRetryPolicy DefaultReferencePolicy internal parked) (fun b => b))
    as (b & w' & E & Hb); [vm_compute; reflexivity|]. subst b.
  exists s, w'. split; [exact Hs|]. split; [exact E|]. split.
  - apply (f_equal snd) in E. cbn in E. rewrite <- E. vm_compute. reflexivity.
  - pose proof (a_look_decides_or_waits slow DefaultRetryPolicy DefaultReferencePolicy internal parked s
      worker_default_fits eq_refl Hs) as Hx. cbn zeta in Hx. rewrite E in Hx. exact Hx.
Defined.

(** The worker is called, or the wallet is reconciled. *)
Definition turn (look : bool) (w : World) : World :=
  if look then (resolve_one slow (cf_retry defaults) (cf_waiting defaults) internal w).2
  else serve slow defaults (ReqReconcile operator "w1") w.

Fixpoint play (l : list bool) (w : World) : World :=
  match l with [] => w | look :: l => play l (turn look w) end.

Definition mark (k : string) (w : World) : option (string * Z) :=
  (fun r => (ct_status r, ct_reference_attempts r)) <$> row k w.

(** Each call of the worker left its mark on the row. *)
Fixpoint marks (k : string) (l : list bool) (w : World) : bool :=
  match l with
  | [] => true
  | look :: l => (negb look || bool_decide (mark k (turn look w) <> mark k w)) && marks k l (turn look w)
  end.

Lemma play_run k l w : marks k l w = true -> run slow defaults k (length (filter (fun look => look = true) l)) w (play l w).
Proof.
  revert w. induction l as [|look l IH]; intros w; [intros _; apply run_end|]. cbn [marks play].
  rewrite andb_true_iff. intros [Hmark Hl]. specialize (IH _ Hl). destruct look.
  - apply bool_decide_eq_true in Hmark. change (filter _ (true :: l)) with (true :: filter (fun look => look = true) l).
    destruct (resolve_one slow (cf_retry defaults) (cf_waiting defaults) internal w) as [r w1] eqn:E.
    assert (turn true w = w1) as Hw1 by (unfold turn; rewrite E; reflexivity).
    rewrite Hw1 in *. eapply run_look; [|exact E| |exact IH]; [reflexivity|]. left. intros Heq.
    apply Hmark. unfold mark. by rewrite Heq.
  - eapply run_request; [|exact IH]. reflexivity.
Qed.

Definition waiting_key : string := "01890000-0000-7000-8000-000000000002".

(** It is looked at five times at once, and three times after a while. *)
Definition patience : list bool :=
  [true; true; true; true; true; false; false; false; true; false; false; false; true; false; false; false; true].

Lemma no_reversal_waits_for_ever_witness : exists s,
  sound slow parked s /\ run slow defaults waiting_key 8 parked (play patience parked) /\
  statuses (play patience parked) = [("REJECTED", 8)] /\
  (8 <= 8 /\
   (8 = 8 -> exists s' t, represents slow (wo_db (play patience parked)) s' /\
      s_txs s' !! waiting_key = Some t /\ Tx_IsTerminal t = true)).
Proof.
  destruct parked_sound as [s Hs]. exists s. split; [exact Hs|].
  assert (Hrun : run slow defaults waiting_key 8 parked (play patience parked)).
  { apply (play_run waiting_key patience). vm_compute. reflexivity. }
  split; [exact Hrun|]. split; [vm_compute; reflexivity|].
  exact (no_reversal_waits_for_ever slow defaults waiting_key 8 parked s (play patience parked)
    (fun _ _ => eq_refl) defaults_fit Hs Hrun).
Defined.

Lemma a_batch_leaves_nothing_due_witness : exists s r w',
  sound slow parked s /\
  resolve_references slow DefaultRetryPolicy DefaultReferencePolicy internal parked = (5, r, w') /\ r = Ok () /\
  statuses w' = [("PENDING_REFERENCE", 6)] /\ 0 <= 5 <= 20 /\
  exists s', sound slow w' s' /\ evolves s s' /\
    (r = Ok () -> 5 < 20 ->
     exists at_, reading slow (wo_calls parked) (wo_calls w') at_ /\ forall t, ~ due_reference at_ s' t).
Proof.
  destruct parked_sound as [s Hs].
  pose proof (a_batch_leaves_nothing_due slow DefaultRetryPolicy DefaultReferencePolicy internal parked s
    worker_default_fits eq_refl Hs (fun _ _ => eq_refl)) as Hx.
  assert (Hrun : let '(n, r, w') := resolve_references slow DefaultRetryPolicy DefaultReferencePolicy internal parked in
    (n, r, statuses w') = (5, Ok (), [("PENDING_REFERENCE", 6)])) by (vm_compute; reflexivity).
  destruct (resolve_references slow DefaultRetryPolicy DefaultReferencePolicy internal parked) as [[n r] w'].
  injection Hrun as -> -> Hst. exists s, (Ok ()), w'. split; [exact Hs|]. split; [reflexivity|].
  split; [reflexivity|]. split; [exact Hst|exact Hx].
Defined.
End waiting.

(** ** Events *)

Definition published_count (w : World) : nat :=
  length (filter (fun r => co_published_at r <> None) (db_outbox (wo_db w))).

Lemma only_taken_events_are_published_witness : exists s,
  sound quiet after_win s /\
  let '(_, r, w') := publish_events quiet DefaultRetryPolicy any_text takes_all DefaultPublisherPolicy internal after_win in
  exists s0 s1, others quiet s s0 /\ represents quiet (wo_db w') s1 /\ grows s0 s1 /\
    s_wallets s1 = s_wallets s0 /\ s_txs s1 = s_txs s0 /\ s_ledger s1 = s_ledger s0 /\ s_inbox s1 = s_inbox s0 /\
    (forall q rec, (q, rec) ∈ s_outbox s1 -> Outbox_Published rec = true ->
       (q, rec) ∈ s_outbox s0 \/ exists rec0, taken takes_all rec0 /\ or_EventID rec0 = or_EventID rec) /\
    match r with
    | Ok _ => True
    | Err e => (s1 = s0 /\ exists l, publisher_error l s1 e) \/ infra quiet e
    end.
Proof.
  destruct after_win_sound as [s Hs]. exists s. split; [exact Hs|].
  exact (only_taken_events_are_published quiet DefaultRetryPolicy any_text takes_all DefaultPublisherPolicy internal
    after_win s publisher_default_fits eq_refl Hs).
Defined.

Lemma a_run_publishes_what_is_due_witness : exists s n w',
  sound quiet after_win s /\ published_count after_win = 0%nat /\ published_count w' = 2%nat /\
  publish_events quiet DefaultRetryPolicy any_text takes_all DefaultPublisherPolicy internal after_win = (n, Ok (), w') /\
  exists s0 s1 at_ qrs, others quiet s s0 /\ represents quiet (wo_db w') s1 /\ reading quiet (wo_calls after_win) (wo_calls w') at_ /\
    StronglySorted Z.lt qrs.*1 /\
    Forall (fun qr => due_event at_ s0 qr /\ (qr.1, published_record at_ qr.2) ∈ s_outbox s1) qrs /\
    ((forall qr, due_event at_ s0 qr -> qr ∈ qrs) \/
     Z.of_nat (length qrs) = pp_BatchSize (PublisherPolicy_normalised DefaultPublisherPolicy)).
Proof.
  destruct after_win_sound as [s Hs].
  assert (Hrun : let '(n, r, w') := publish_events quiet DefaultRetryPolicy any_text takes_all DefaultPublisherPolicy internal after_win in
    (r, published_count w') = (Ok (), 2%nat)) by (vm_compute; reflexivity).
  destruct (publish_events quiet DefaultRetryPolicy any_text takes_all DefaultPublisherPolicy internal after_win)
    as [[n r] w'] eqn:E. injection Hrun as -> Hc. exists s, n, w'. split; [exact Hs|].
  split; [vm_compute; reflexivity|]. split; [exact Hc|]. split; [reflexivity|].
  exact (a_run_publishes_what_is_due quiet DefaultRetryPolicy any_text takes_all DefaultPublisherPolicy internal
    after_win s n w' publisher_default_fits eq_refl Hs (fun _ _ => eq_refl) (fun _ _ => eq_refl) E).
Defined.

(** ** The order of the events

    A batch is read in the order of the outbox, but an event that the broker
    refuses is put off while those behind it go out: the changes of one wallet
    can be published out of order. *)

Definition balance_version (payload : json) : option Z :=
  match payload with
  | JObject fields => match field "walletVersion" fields with Some (JInt v) => Some v | _ => None end
  | _ => None
  end.

Definition refuses_version (v : Z) : nat -> OutboxRecord -> option error := fun _ r =>
  if bool_decide (balance_version (ev_Payload (or_Event r)) = Some v) then Some (Opaque "throttled") else None.

(** The changes of balance in the outbox: the wallet, the version it came to,
    and whether the event went out. *)
Definition balance_events (w : World) : list (string * Z * bool) :=
  omap (fun r => v ← balance_version (co_payload r); Some (co_aggregate_id r, v, bool_decide (is_Some (co_published_at r))))
    (db_outbox (wo_db w)).

Definition two_changes : World :=
  (submit quiet DefaultRetryPolicy DefaultReferencePolicy acme bet after_win).2.

Example events_of_a_wallet_go_out_of_order :
  let '(_, r, w') := publish_events quiet DefaultRetryPolicy any_text (refuses_version 2) DefaultPublisherPolicy
    internal two_changes in
  r = Ok () /\ balance_events two_changes = [("w1", 2, false); ("w1", 3, false)] /\
  balance_events w' = [("w1", 2, false); ("w1", 3, true)].
Proof. vm_compute. repeat split. Qed.

(** ** Messages *)

Definition queue_identity : Identity := mkIdentity "queue:wager-transactions" (mkId "acme") [ScopeSubmit].

(** A caller's money pays for the bet of the message. *)
Definition deliver (w : World) : result (SubmitResult * bool) * World :=
  apply_message quiet DefaultRetryPolicy queue_of_bets DefaultReferencePolicy internal (queued_bet "m-1")
    (bet_of "m-1") queue_identity w.

Lemma bet_hash : exists hash, Command_PayloadHash (bet_of "m-1") = Ok hash.
Proof.
  destruct (Command_PayloadHash (bet_of "m-1")) as [hash|e] eqn:E; [by exists hash|].
  assert (Hok : is_Ok (Command_PayloadHash (bet_of "m-1")) = true) by (vm_compute; reflexivity).
  rewrite E in Hok. discriminate Hok.
Qed.

Lemma delivers : exists c w1, deliver after_win = (Ok c, w1) /\
  cw_balance_minor <$> db_wallets (wo_db w1) !! "w1" = Some 7000.
Proof.
  assert (Hb : cw_balance_minor <$> db_wallets (wo_db (deliver after_win).2) !! "w1" = Some 7000)
    by (vm_compute; reflexivity).
  destruct (answers_with_Ok (deliver after_win) (fun c => c.2)) as (c & w1 & E & _); [vm_compute; reflexivity|].
  exists c, w1. split; [exact E|]. rewrite E in Hb. exact Hb.
Qed.

Lemma a_delivery_is_atomic_witness : exists s hash c w1,
  sound quiet after_win s /\ deliver after_win = (Ok c, w1) /\
  cw_balance_minor <$> db_wallets (wo_db w1) !! "w1" = Some 7000 /\
  exists s0 s1, others quiet s s0 /\
    delivered (NewConsumer_config queue_of_bets) (ReferencePolicy_normalised DefaultReferencePolicy)
      (inside (Consumer_work internal (queued_bet "m-1") queue_identity)) (queued_bet "m-1") (bet_of "m-1") hash s0 s1 c /\
    sound quiet w1 s1.
Proof.
  destruct after_win_sound as [s Hs]. destruct bet_hash as [hash Hhash]. destruct delivers as (c & w1 & E & Hb).
  exists s, hash, c, w1. split; [exact Hs|]. split; [exact E|]. split; [exact Hb|].
  pose proof (a_delivery_is_atomic quiet DefaultRetryPolicy queue_of_bets DefaultReferencePolicy internal
    (queued_bet "m-1") (bet_of "m-1") hash queue_identity after_win s default_fits Hhash eq_refl Hs) as Hx.
  cbn zeta in Hx. fold (deliver after_win) in Hx. rewrite E in Hx. exact Hx.
Defined.

Lemma a_message_is_applied_once_witness : exists s c w1,
  sound quiet after_win s /\ deliver after_win = (Ok c, w1) /\
  let w2 := serve_all quiet defaults [ReqSubmit acme win; ReqPublish internal] w1 in
  let '(r, w3) := deliver w2 in
  exists s2 s3, sound quiet w2 s2 /\ others quiet s2 s3 /\ represents quiet (wo_db w3) s3 /\
    match r with
    | Ok _ => True
    | Err e => Command_PayloadHash (bet_of "m-1") = Err e \/
        e = Wrapped (SentinelError ErrSerializationFailure) \/ infra quiet e
    end.
Proof.
  destruct after_win_sound as [s Hs]. destruct delivers as (c & w1 & E & _).
  exists s, c, w1. split; [exact Hs|]. split; [exact E|].
  refine (a_message_is_applied_once quiet DefaultRetryPolicy queue_of_bets DefaultReferencePolicy internal
    (queued_bet "m-1") (bet_of "m-1") queue_identity after_win s c w1 defaults
    [ReqSubmit acme win; ReqPublish internal] internal (queued_bet "m-1") (bet_of "m-1") queue_identity
    defaults_fit default_fits eq_refl eq_refl _ Hs eq_refl E).
  repeat constructor.
Defined.

Lemma no_message_is_lost_witness : exists s w',
  sound quiet after_win s /\
  consume quiet DefaultRetryPolicy queue_of_bets DefaultReferencePolicy internal
    (mkQueueMessage "h1" a_bet) after_win = (outcomeDelete, w') /\
  exists s' m, sound quiet w' s' /\ s_inbox s' !! ("wager-transactions", "m-1") = Some m.
Proof.
  destruct after_win_sound as [s Hs].
  destruct (consume quiet DefaultRetryPolicy queue_of_bets DefaultReferencePolicy internal
    (mkQueueMessage "h1" a_bet) after_win) as [what w'] eqn:E.
  assert (Hwhat : (consume quiet DefaultRetryPolicy queue_of_bets DefaultReferencePolicy internal
    (mkQueueMessage "h1" a_bet) after_win).1 = outcomeDelete) by (vm_compute; reflexivity).
  rewrite E in Hwhat. cbn in Hwhat. subst what. exists s, w'. split; [exact Hs|]. split; [reflexivity|].
  exact (no_message_is_lost quiet DefaultRetryPolicy queue_of_bets DefaultReferencePolicy internal
    (mkQueueMessage "h1" a_bet) after_win s w' default_fits eq_refl Hs E).
Defined.

(** ** Statements by hand *)

(** A wallet with its opening, in one transaction; then somebody raises the
    balance and tries to lose the entry. *)
Definition opening_by_hand : list dml :=
  [InsertWallet (mkWalletRow "w1" "p1" "BRL" 1000 1 5000 5000);
   InsertTransaction (mkTxRow "t1" "INTERNAL" "OPENING" "PROCESSED" "w1" "p1" 1000 "BRL" None None None None None None
     None None 0 None None None (Some 1000) 5000 5000);
   InsertEntry (mkLedgerRow 0 "e1" "w1" "t1" "CREDIT" 1000 0 1000 "BRL" 5000)].

Definition tampering : list dml :=
  [UpdateWallet "w1" (mkWalletRow "w1" "p1" "BRL" 900000 2 5000 6000);
   DeleteEntry "e1"; DeleteTransaction "t1"; DeleteWallet "w1"; Truncate WalletLedgerEntries; Truncate Wallets;
   InsertEntry (mkLedgerRow 0 "e2" "w1" "t1" "CREDIT" 899000 1000 900000 "BRL" 6000)].

Definition opened_by_hand : DB := executes quiet opening_by_hand emptyDB.
Definition tampered_by_hand : DB := executes quiet tampering opened_by_hand.

(** Only the balance goes through, which reconciliation finds. *)
Lemma tampering_by_hand :
  (fun stmt => match fst (execute quiet stmt opened_by_hand) with inr _ => true | inl _ => false end) <$> tampering =
    [true; false; false; false; false; false; false] /\
  cw_balance_minor <$> db_wallets tampered_by_hand !! "w1" = Some 900000 /\
  cl_amount_minor <$> db_ledger tampered_by_hand = [1000].
Proof. split_and!; vm_compute; reflexivity. Qed.

Lemma the_schema_guards_the_books_witness : exists e, e ∈ db_ledger tampered_by_hand /\ 0 < cl_amount_minor e /\
  execute quiet (DeleteEntry (cl_id e)) tampered_by_hand = (inl reject_mutation, tampered_by_hand).
Proof.
  assert (Hrun : rtc (session quiet) emptyDB tampered_by_hand).
  { eapply rtc_l; [exact (se_commit quiet opening_by_hand emptyDB)|].
    apply rtc_once. exact (se_commit quiet tampering opened_by_hand). }
  destruct (the_schema_guards_the_books quiet tampered_by_hand Hrun) as (_ & He & _ & _ & _ & Ht & _).
  assert (Hin : exists e, e ∈ db_ledger tampered_by_hand).
  { destruct tampering_by_hand as (_ & _ & Hl). destruct (db_ledger tampered_by_hand) as [|e l]; [done|].
    exists e. left. }
  destruct Hin as [e Hin]. exists e.
  exact (conj Hin (conj (proj1 (He e Hin)) (proj1 (proj2 (Ht e e Hin))))).
Defined.

(** ** Two bets on one wallet *)

Section one_wallet.
#[local] Instance quiet_clock : Clock World := Clock_system quiet.
#[local] Instance quiet_ids : IDGenerator World := IDGenerator_system quiet.
#[local] Instance quiet_rand : Rand World := Rand_system quiet.
#[local] Instance quiet_broker : EventPublisher World := broker_of takes_all.

Definition quiet_tables : Repositories World := pg_repositories quiet (tx_querier quiet).

(** What a win does to the rows of wallets. *)
Definition win_accesses : list access :=
  let '(_, (tr, _)) := ExecuteIn DefaultReferencePolicy acme (traced quiet_tables) win ([], world0 quiet) in tr.

Lemma win_accesses_eq :
  let w1 : WalletID := mkId "w1" in win_accesses = [Locked w1 (Some w1); Referenced w1; Stored w1; Referenced w1].
Proof. vm_compute. reflexivity. Qed.

(** The first one has the row, the second one waits for it. *)
Definition contended_row : gmap nat txn :=
  let w1 : WalletID := mkId "w1" in
  <[1%nat := mkTxn [w1] (tail win_accesses)]> (<[2%nat := mkTxn [] win_accesses]> (<[1%nat := mkTxn [] win_accesses]> ∅)).

Lemma wallet_locks_never_deadlock_witness :
  waits_for contended_row 2 1 /\ (forall n, ~ waits_for contended_row n 2) /\
  notes_callback (fun tr => one_wallet tr = true)
    (assign noSubmitResult (ExecuteIn DefaultReferencePolicy acme (traced quiet_tables) win))
    (assign noSubmitResult (ExecuteIn DefaultReferencePolicy acme quiet_tables win)).
Proof.
  destruct (wallet_locks_never_deadlock quiet_tables acme DefaultReferencePolicy queue_of_bets DefaultPublisherPolicy any_text)
    as (Hsubmit & _ & _ & _ & _ & Hrun).
  assert (Hr : rtc transaction_locks ∅ contended_row).
  { eapply rtc_l; [apply (tl_begin 1 win_accesses); [done|by rewrite win_accesses_eq..]|].
    eapply rtc_l; [apply (tl_begin 2 win_accesses); [done|by rewrite win_accesses_eq..]|].
    apply rtc_once. unfold contended_row. rewrite win_accesses_eq.
    apply (tl_step 1 [] (Locked (mkId "w1") (Some (mkId "w1")))); [done|].
    intros n' t Ht Hne. apply lookup_insert_Some in Ht as [[<- <-]|[_ Ht]]; [apply not_elem_of_nil|].
    by rewrite lookup_insert_ne in Ht. }
  assert (Hw : waits_for contended_row 2 1).
  { unfold waits_for, contended_row. rewrite win_accesses_eq. eexists _, _, _, _. split_and!; [done|done|done|left]. }
  split; [exact Hw|]. destruct (Hrun contended_row Hr) as [_ Hwait]. split; [exact (proj2 (Hwait 2%nat 1%nat Hw))|].
  exact (Hsubmit win).
Defined.
End one_wallet.
