(* ===== verification/EdgeScenarios.v ===== *)
(** * EdgeScenarios: the edge at work

    The properties of the edge on concrete requests, and a few things its code
    does that its comments do not say. *)

From S2P Require Import Encoding Rfc3339 Json JsonFacts.
From S2P Require Import Prelude Errors GoTime GoStrings Money Identifier Ledger Wallet Transaction.
From S2P Require Import Idempotency Identity Ports Store StoreInv Policy Submit SubmitFacts Opening Reconcile.
From S2P Require Import Consumer Schema Postgres Rows PostgresLaws UowLaws.
From S2P Require Import Quiet System Http HttpFacts Oidc Program Edge Url Settings Lifecycle Metrics Measured.

#[local] Open Scope string_scope.
#[local] Open Scope list_scope.
#[local] Open Scope Z_scope.

(** ** Requests *)

Definition headers (named : list (string * string)) (name : string) : string :=
  default "" (snd <$> find (fun h => bool_decide (h.1 = name)) named).

Definition no_values (name : string) : string := "".

(** A command posted by a caller. *)
Definition posted (ctx : Context) (c : SubmitCommand) : Request :=
  mkRequest (headers [(IdempotencyKeyHeader, sc_IdempotencyKey c)]) no_values no_values (write (submit_json c)) ctx.

Definition with_token (authorization : string) : Request :=
  mkRequest (headers [("Authorization", authorization); (CorrelationIDHeader, "trace-1")])
    (headers [("transactionId", "t1")]) no_values "" Background.

(** A verifier that knows one token, and use cases that are not there. *)
Definition acme_service : Identity := mkIdentity "acme-service" (mkId "acme") [ScopeRead].

#[local] Instance one_token : @TokenVerifier unit := fun _ token w =>
  (if bool_decide (token = "valid") then Ok acme_service else Err (Wrapped (SentinelError ErrUnauthenticated)), w).

Definition absent {A} : M unit A := throw (SentinelError ErrNotImplemented).

Definition no_use_cases : @Handlers unit := {|
  h_open := fun _ _ => absent; h_wallet := fun _ _ => absent; h_ledger := fun _ _ _ _ => absent;
  h_reconcile := fun _ _ => absent; h_submit := fun _ _ => absent; h_transaction := fun _ _ => absent;
  h_by_provider := fun _ _ _ => absent; h_probes := []
|}.

Definition silent : error -> string := fun _ => "refused".

Definition read_route : string := "GET /wagering/transactions/{transactionId}".

Lemma read_route_served : exists serve, Handler silent no_use_cases "fresh" read_route = Some serve.
Proof. eexists. reflexivity. Qed.

Lemma only_verified_callers_are_served_witness : exists serve,
  Handler silent no_use_cases "fresh" read_route = Some serve /\
  rs_status <$> (serve (with_token "bearer valid") tt).1 = Some StatusNotImplemented /\
  serve (with_token "Bearer forged") tt =
  (Some (with_header CorrelationIDHeader "trace-1"
     (refuse (WithContext (with_token "Bearer forged") (WithCorrelationID Background "trace-1")))), tt).
Proof.
  assert (H : exists serve, Handler silent no_use_cases "fresh" read_route = Some serve) by (eexists; reflexivity).
  destruct H as [serve E]. exists serve. split; [exact E|]. split.
  - assert (Hs : match Handler silent no_use_cases "fresh" read_route with
      | Some serve => rs_status <$> (serve (with_token "bearer valid") tt).1 = Some StatusNotImplemented
      | None => False end) by (vm_compute; reflexivity).
    rewrite E in Hs. exact Hs.
  - destruct (only_verified_callers_are_served silent no_use_cases "fresh" read_route serve
      (with_token "Bearer forged") tt E) as [_ Hx].
    assert (Hnot : read_route ∉ public_patterns) by (apply (bool_decide_eq_false_1 _); vm_compute; reflexivity).
    destruct (Hx Hnot) as [_ Hserve].
    assert (Ht : bearerToken (with_token "Bearer forged") = Some "forged") by (vm_compute; reflexivity).
    rewrite Ht in Hserve. exact Hserve.
Defined.

(** ** Two ports *)

Definition moment : Time := mkTime 63000000000000001500 UTC.

Lemma win_texts : Forall valid_utf8 (texts win).
Proof.
  assert (H : Forall (fun s => Forall (fun r => r <> Invalid) (runes s)) (texts win)); [|exact H].
  repeat constructor; discriminate.
Qed.

Lemma one_operation_two_ports_witness :
  decodeEnvelope (write (message_json "m-1" moment win)) = Ok (message_of "m-1" moment win, win) /\
  TransactionHandler_Submit silent (submit quiet DefaultRetryPolicy DefaultReferencePolicy) (posted acme win) (world0 quiet) =
  match submit quiet DefaultRetryPolicy DefaultReferencePolicy acme win (world0 quiet) with
  | (Ok result, w') => (writeJSON (submitStatus result) (json_submitResponse (toSubmitResponse result)), w')
  | (Err e, w') => (writeError silent (posted acme win) e, w')
  end.
Proof.
  apply (one_operation_two_ports silent (submit quiet DefaultRetryPolicy DefaultReferencePolicy) win (posted acme win)
    (world0 quiet) "m-1" moment); try reflexivity.
  - repeat constructor; discriminate.
  - repeat constructor; discriminate.
  - discriminate.
  - vm_compute. discriminate.
  - discriminate.
  - repeat constructor; discriminate.
  - vm_compute. split; discriminate.
Defined.

(** ** A request sent again *)

Definition post : Request -> World -> Response * World :=
  post_transaction quiet DefaultRetryPolicy DefaultReferencePolicy silent.

Lemma a_resend_gets_the_verdict_again_witness : exists res1 w1,
  submit quiet DefaultRetryPolicy DefaultReferencePolicy acme win (world0 quiet) = (Ok res1, w1) /\
  rs_status (post (posted acme win) (world0 quiet)).1 = StatusOK /\
  let '(response, w2) := post (posted acme win) w1 in
  (exists s1 s2, represents quiet (wo_db w1) s1 /\ others quiet s1 s2 /\ represents quiet (wo_db w2) s2) /\
  (rs_status response ∈ [StatusInternalServerError; StatusServiceUnavailable] \/
   exists res2, response = writeJSON (submitStatus res2) (json_submitResponse (toSubmitResponse res2)) /\
     sr_Replay res2 = true /\ t_id (sr_Transaction res2) = t_id (sr_Transaction res1) /\
     (Tx_IsTerminal (sr_Transaction res1) = true -> submitStatus res2 = submitStatus res1)).
Proof.
  destruct (answers_Ok (submit quiet DefaultRetryPolicy DefaultReferencePolicy acme win (world0 quiet)) StatusProcessed)
    as (res1 & w1 & E & _ & _); [vm_compute; reflexivity|].
  exists res1, w1. split; [exact E|]. split; [vm_compute; reflexivity|].
  assert (Hlen : Z.of_nat (String.length (rq_body (posted acme win))) <= maxRequestBody) by (vm_compute; discriminate).
  assert (Hkey : sc_IdempotencyKey win <> "") by discriminate.
  pose proof (proj2 (a_resend_gets_the_verdict_again quiet DefaultRetryPolicy DefaultReferencePolicy silent win
    (posted acme win) (world0 quiet) store0 res1 w1 default_fits eq_refl (sound0 (fun _ => Committed))
    win_texts Hkey eq_refl eq_refl Hlen E)) as Hx.
  revert Hx. fold (post (posted acme win) w1). generalize (post (posted acme win) w1). intros [response w2] Hx. exact Hx.
Defined.

(** ** The issuer's keys *)

Definition jwks_uri : string := "https://issuer/keys".
Definition config_uri : string := "https://issuer/.well-known/openid-configuration".

Definition jwk (kid use kty : string) : value :=
  of_struct [("kty", of_string kty); ("kid", of_string kid); ("use", of_string use);
             ("n", of_string "wQ"); ("e", of_string "AQAB")].

(** A signing key among keys this service has no use for. *)
Definition jwks_document : string :=
  write (of_struct [("keys", VArray [jwk "enc" "enc" "RSA"; jwk "curve" "sig" "EC"; jwk "k1" "sig" "RSA"; jwk "" "sig" "RSA"])]).

Definition discovery_document : string :=
  write (of_struct [("issuer", of_string "https://issuer/"); ("jwks_uri", of_string jwks_uri)]).

Definition issuer_answers (_ : nat) (uri : string) : option (Z * string) :=
  if bool_decide (uri = jwks_uri) then Some (200, jwks_document)
  else if bool_decide (uri = config_uri) then Some (200, discovery_document)
  else None.

Definition signing_key : PublicKey := mkPublicKey 193 65537.

Lemma the_usable_key : jwks_keys (Some (200, jwks_document)) = Ok {["k1" := signing_key]}.
Proof. vm_compute. reflexivity. Qed.

(** A world that is a clock, and an issuer that answers while it is up. *)
Record Desk := mkDesk { dk_now : Z; dk_requests : nat; dk_up : bool }.

#[local] Instance desk_clock : Clock Desk := {| Clock_Now := fun w => (mkTime (dk_now w) UTC, w) |}.

#[local] Instance desk_issuer : Issuer Desk := {|
  Issuer_Get := fun uri w =>
    (if dk_up w then issuer_answers 0 uri else None, mkDesk (dk_now w) (S (dk_requests w)) (dk_up w))
|}.

Definition fetched : keySet := mkKeySet jwks_uri (5 * Minute) (Some {["k1" := signing_key]}) (mkTime 1000 UTC).

Lemma fetched_ok : keySet_ok fetched.
Proof.
  intros keys [= <-]. split; [discriminate|]. apply map_Forall_singleton. split; [discriminate|].
  unfold usable, signing_key. cbn [pk_E]. lia.
Qed.

Lemma keys_are_the_issuers_witness :
  (keySet_key "k1" fetched (mkDesk 2000 0 false)).1.1 = Ok signing_key /\
  let '(r, k', w') := keySet_key "k2" fetched (mkDesk 2000 0 true) in
  k' = fetched /\ dk_requests w' = O /\ exists e, r = Err e.
Proof.
  split.
  - pose proof (keys_are_the_issuers "k1" fetched (mkDesk 2000 0 false) fetched_ok) as Hx. revert Hx.
    generalize (keySet_key "k1" fetched (mkDesk 2000 0 false)). intros [[r k'] w'] (_ & _ & _ & _ & _ & Hx).
    assert (Hage : Time_Sub (mkTime 2000 UTC) (ks_fetchedAt fetched) < ks_ttl fetched) by (vm_compute; reflexivity).
    pose proof (Hx _ eq_refl Hage) as He. assert (Hk : ({["k1" := signing_key]} : gmap string PublicKey) !! "k1" = Some signing_key)
      by (vm_compute; reflexivity).
    rewrite Hk in He. injection He as -> -> ->. reflexivity.
  - pose proof (keys_are_the_issuers "k2" fetched (mkDesk 2000 0 true) fetched_ok) as Hx. revert Hx.
    generalize (keySet_key "k2" fetched (mkDesk 2000 0 true)). intros [[r k'] w'] (_ & _ & _ & _ & _ & Hx).
    assert (Hage : Time_Sub (mkTime 2000 UTC) (ks_fetchedAt fetched) < ks_ttl fetched) by (vm_compute; reflexivity).
    pose proof (Hx _ eq_refl Hage) as He. assert (Hk : ({["k1" := signing_key]} : gmap string PublicKey) !! "k2" = None)
      by (vm_compute; reflexivity).
    rewrite Hk in He. destruct He as (-> & -> & He); [vm_compute; reflexivity|]. split; [reflexivity|split; [reflexivity|exact He]].
Defined.

(** The five seconds are counted from the last answer, not from the last
    request: while the issuer fails, every token with an unknown key id sends
    it a request. *)
Lemma a_failing_issuer_is_asked_each_time :
  let old := mkDesk (1000 + 6 * Second) 0 false in
  let '(_, k1, w1) := keySet_key "k2" fetched old in
  let '(_, k2, w2) := keySet_key "k2" k1 w1 in
  let '(_, _, w3) := keySet_key "k2" k2 w2 in
  dk_now w3 = dk_now old /\ dk_requests w3 = 3%nat.
Proof. vm_compute. split; reflexivity. Qed.

(** ** Strangers *)

(** A library that takes one token for signed by the issuer's key. *)
#[local] Instance one_signature : Jwt World := {|
  jwt_header := fun _ raw => if bool_decide (raw = "signed") then Some "k1" else if bool_decide (raw = "forged") then Some "k1" else None;
  jwt_claims := fun _ pk raw w =>
    (if bool_decide (raw = "signed") && bool_decide (pk = signing_key)
     then Some {["provider_id" := ClaimString "acme"; "scope" := ClaimString (ScopeRead +:+ " " +:+ ScopeSubmit)]} else None, w);
  jwt_subject := fun _ => Ok "acme-service"
|}.

Definition verifier_config : Config := mkConfig "https://issuer" "wagering" "" 0 0.

Definition verifier0 : Verifier :=
  mkVerifier "https://issuer" "provider_id" (newKeySet jwks_uri DefaultCacheTTL)
    (mkParserOptions signingMethods "https://issuer" "wagering" true DefaultLeeway).

Lemma the_verifier_starts :
  (NewVerifier (H0 := issuer_of issuer_answers) verifier_config (world0 quiet)).1 = Ok verifier0.
Proof. vm_compute. reflexivity. Qed.

Definition the_service (pattern : string) : option (Request -> Verifier * World -> option Response * (Verifier * World)) :=
  service quiet DefaultRetryPolicy DefaultReferencePolicy silent issuer_answers [] "fresh" pattern.

Definition wallet_route : string := "POST /wallets".

Lemma strangers_reach_nothing_witness : exists serve,
  the_service read_route = Some serve /\
  rs_status <$> (serve (with_token "Bearer signed") (verifier0, world0 quiet)).1 = Some StatusNotFound /\
  rs_status <$> (serve (with_token "Bearer forged") (verifier0, world0 quiet)).1 = Some StatusUnauthorized /\
  rs_status (with_header CorrelationIDHeader "trace-1"
    (refuse (WithContext (with_token "Bearer forged") (WithCorrelationID Background "trace-1")))) = StatusUnauthorized.
Proof.
  assert (H : exists serve, the_service read_route = Some serve) by (eexists; reflexivity).
  destruct H as [serve E]. exists serve. split; [exact E|].
  assert (Hs : match the_service read_route with
    | Some serve => rs_status <$> (serve (with_token "Bearer signed") (verifier0, world0 quiet)).1 = Some StatusNotFound /\
        rs_status <$> (serve (with_token "Bearer forged") (verifier0, world0 quiet)).1 = Some StatusUnauthorized
    | None => False end) by (vm_compute; split; reflexivity).
  rewrite E in Hs. split; [exact (proj1 Hs)|split; [exact (proj2 Hs)|]].
  assert (Hnot : read_route ∉ public_patterns) by (apply (bool_decide_eq_false_1 _); vm_compute; reflexivity).
  assert (Hk : keySet_ok (vf_keys verifier0)) by (intros keys; discriminate).
  pose proof (strangers_reach_nothing quiet DefaultRetryPolicy DefaultReferencePolicy silent issuer_answers [] "fresh"
    read_route serve (with_token "Bearer forged") verifier0 (world0 quiet) (fun _ _ _ _ => eq_refl) Hk E Hnot) as Hx.
  cbv zeta in Hx. revert Hx. generalize (serve (with_token "Bearer forged") (verifier0, world0 quiet)).
  intros [response [v' w']] [Hx _]. exact Hx.
Defined.

(** ** What is measured *)

Lemma series_are_bounded_witness :
  let '(r, (samples, w')) := metered_Execute (Recorder_OperationMetrics (H := trace_registry)) Second
    (submit quiet DefaultRetryPolicy DefaultReferencePolicy acme win) ([], world0 quiet) in
  (r, w') = submit quiet DefaultRetryPolicy DefaultReferencePolicy acme win (world0 quiet) /\
  exists new, samples = [] ++ new /\ Forall in_series new.
Proof.
  destruct (series_are_bounded quiet DefaultRetryPolicy DefaultReferencePolicy acme win "w1" Second (world0 quiet)
    store0 [] default_fits eq_refl (sound0 (fun _ => Committed))) as [Hx _].
  revert Hx. generalize (metered_Execute (Recorder_OperationMetrics (H := trace_registry)) Second
    (submit quiet DefaultRetryPolicy DefaultReferencePolicy acme win) ([], world0 quiet)).
  intros [r [samples w']] Hx. exact Hx.
Defined.

(** What the consumer records for one delivery. *)
Definition delivered_samples (cmd : SubmitCommand) : list (string * list string) :=
  fst (snd (metered_handle (H := Clock_system quiet) (H0 := Rand_system quiet) (H1 := IDGenerator_system quiet)
    (Recorder_QueueMetrics (H := trace_registry)) (Recorder_OperationMetrics (H := trace_registry))
    (NewConsumer_config (mkConsumerConfig "" 0 0)) (ReferencePolicy_normalised DefaultReferencePolicy) Second
    (metered_Do quiet (Recorder_StorageMetrics (H := trace_registry)) DefaultRetryPolicy) Background
    (mkQueueMessage "receipt" (write (message_json "m-1" moment cmd))) ([], world0 quiet))).

Definition of_kind (kind : string) (c : SubmitCommand) : SubmitCommand := operation kind (sc_ExternalID c) (sc_IdempotencyKey c) (sc_Amount c) "".

(** A message with an unusable command is counted as discarded, and as a
    settled operation of no kind and no status too. *)
Lemma an_unusable_command_is_counted_as_settled :
  delivered_samples win = [("operation_duration_seconds", [SourceQueue]); ("operations_total", [SourceQueue; KindWin; StatusProcessed])] /\
  delivered_samples (of_kind "NOPE" win) = [("queue_discarded_total", [DiscardUnusable]);
    ("operation_duration_seconds", [SourceQueue]); ("operations_total", [SourceQueue; ""; ""])].
Proof. split; vm_compute; reflexivity. Qed.

Definition of_provider (provider : string) (c : SubmitCommand) : SubmitCommand := {|
  sc_IdempotencyKey := sc_IdempotencyKey c; sc_ProviderID := provider; sc_ExternalID := sc_ExternalID c;
  sc_PlayerID := sc_PlayerID c; sc_WalletID := sc_WalletID c; sc_RoundID := sc_RoundID c; sc_GameID := sc_GameID c;
  sc_Kind := sc_Kind c; sc_Amount := sc_Amount c; sc_Currency := sc_Currency c;
  sc_ReferenceExternalID := sc_ReferenceExternalID c
|}.

(** A message that names no provider is not discarded as one: it acts as a
    caller without a provider, and its command is the one that is unusable.
    Only a provider with a name that is too long is. *)
Lemma no_provider_is_an_unusable_command :
  delivered_samples (of_provider "" win) = [("queue_discarded_total", [DiscardUnusable]);
    ("operation_duration_seconds", [SourceQueue]); ("operations_total", [SourceQueue; ""; ""])] /\
  delivered_samples (of_provider (String.concat "" (repeat "x" 129)) win) = [("queue_discarded_total", [DiscardNoProvider])].
Proof. split; vm_compute; reflexivity. Qed.

(** ** What the comments do not say *)

(** The body of a request may be followed by anything that is not an empty
    object or [null]: the check for a second value only refuses those two. *)
Definition trailing (rest : string) : Request :=
  mkRequest (headers [(IdempotencyKeyHeader, "k1")]) no_values no_values (write (submit_json win) +:+ rest) acme.

Lemma trailing_content_is_accepted :
  rs_status (post (trailing " 1 and more") (world0 quiet)).1 = StatusOK /\
  rs_status (post (trailing (write (submit_json bet))) (world0 quiet)).1 = StatusOK /\
  rs_status (post (trailing "{}") (world0 quiet)).1 = StatusBadRequest.
Proof. split_and!; vm_compute; reflexivity. Qed.

(** The answer to a rejected operation shows the balance; its replay shows an
    amount without a currency. *)
Definition too_much : SubmitCommand := operation "BET" "x9" "k9" "900.00" "".

Lemma a_rejected_resend_shows_no_balance :
  let '(first, w1) := submit quiet DefaultRetryPolicy DefaultReferencePolicy acme too_much (world0 quiet) in
  let '(second, _) := submit quiet DefaultRetryPolicy DefaultReferencePolicy acme too_much w1 in
  match first, second with
  | Ok res1, Ok res2 =>
    t_status (sr_Transaction res1) = StatusRejected /\ sr_Replay res2 = true /\
    sp_Balance (toSubmitResponse res1) = mkMoneyDTO "0.00" "BRL" /\
    sp_Balance (toSubmitResponse res2) = mkMoneyDTO "0.00" ""
  | _, _ => False
  end.
Proof. vm_compute. repeat split. Qed.

(** ** The time to stop *)

(** The drain of the server may be given more time than the whole stop. *)
Definition slow_drain (key : string) : string := if bool_decide (key = "APP_SHUTDOWN_TIMEOUT") then "2m" else "".

Example the_drain_can_outlast_the_grace :
  match AppConfigFromEnv slow_drain with
  | inr cfg => shutdownGrace < ac_ShutdownTimeout cfg
  | inl _ => False
  end.
Proof. vm_compute. reflexivity. Qed.
