(* ===== verification/Backlog.v ===== *)
(** * Backlog: the publisher's loop catches up

    What the passes of [Publisher.Run] achieve together, while the broker takes
    what it is given and nobody stops the loop. *)

From stdpp Require Import sorting.
From S2P Require Import Prelude Errors GoTime Money Identifier Ledger Wallet Transaction Event.
From S2P Require Import Identity Ports Store StoreInv Policy Submit Storable SubmitSpec SubmitProof SubmitExecute.
From S2P Require Import Worker Publisher Consumer Loops Schema Postgres Rows PostgresLaws UowLaws System Program.
From S2P Require Import Readings Quiet Services Scenarios.

#[local] Open Scope string_scope.
#[local] Open Scope list_scope.
#[local] Open Scope Z_scope.

(** ** What a batch leaves *)

Section batch.
Context `{Precision} (accepted : OutboxRecord -> Prop) (refused : OutboxRecord -> error -> Prop)
  (Error : error -> string) (policy : PublisherPolicy) (Htakes : forall r e, ~ refused r e).

(** The events that have not gone out. *)
Definition to_publish (o : list (Z * OutboxRecord)) : list (Z * OutboxRecord) :=
  filter (fun qr => Outbox_Published qr.2 = false) o.

Definition backlog (s : Store) : Z := Z.of_nat (length (to_publish (s_outbox s))).

Lemma published_published at_ r : clock_time at_ -> Outbox_Published (published_record at_ r) = true.
Proof. intros Hat. exact (completed_handled at_ (mkInboxMessage "" "" (mkId "") zeroTime zeroTime) Hat). Qed.

Lemma to_publish_cons x o : to_publish (x :: o) = if Outbox_Published x.2 then to_publish o else x :: to_publish o.
Proof. unfold to_publish. rewrite filter_cons. by destruct (Outbox_Published x.2). Qed.

(** Marking one record, of the event or of another one. *)
Lemma marking_cons at_ id q r o : clock_time at_ ->
  length (to_publish (update_record id (published_record at_) ((q, r) :: o))) =
  (length (to_publish (update_record id (published_record at_) o)) +
   if Outbox_Published r || bool_decide (or_EventID r = id) then 0 else 1)%nat.
Proof.
  intros Hat.
  change (update_record id (published_record at_) ((q, r) :: o)) with
    ((if bool_decide (or_EventID r = id) && negb (Outbox_Published r) then (q, published_record at_ r) else (q, r))
     :: update_record id (published_record at_) o).
  rewrite to_publish_cons. destruct (Outbox_Published r) eqn:E, (bool_decide (or_EventID r = id)); cbn [andb orb negb snd];
    rewrite ?E, ?published_published by done; cbn [length]; lia.
Qed.

(** Marking an event takes it out of the backlog. *)
Lemma marking_shrinks at_ r o : clock_time at_ -> (exists q, (q, r) ∈ o) -> Outbox_Published r = false ->
  (length (to_publish (update_record (or_EventID r) (published_record at_) o)) < length (to_publish o))%nat.
Proof.
  intros Hat (q & Hin) Hun.
  assert (Hle : forall o, (length (to_publish (update_record (or_EventID r) (published_record at_) o)) <=
    length (to_publish o))%nat).
  { clear o Hin. induction o as [|[q' r'] o IH]; [done|]. rewrite marking_cons, to_publish_cons by done. cbn [snd].
    destruct (Outbox_Published r'); cbn [orb length]; [lia|]. case_bool_decide; lia. }
  induction o as [|[q' r'] o IH]; [by apply not_elem_of_nil in Hin|].
  rewrite marking_cons, to_publish_cons by done. cbn [snd]. apply elem_of_cons in Hin as [[= <- <-]|Hin].
  - rewrite Hun, bool_decide_eq_true_2 by done. cbn [orb length]. specialize (Hle o). lia.
  - specialize (IH Hin). destruct (Outbox_Published r'); cbn [orb length]; [lia|]. case_bool_decide; lia.
Qed.

(** A record that has not gone out after a batch is one that was there before,
    and not in the batch. *)
Lemma left_over at_ l s s' q r : clock_time at_ -> publishes accepted refused Error policy at_ l s s' ->
  (q, r) ∈ s_outbox s' -> Outbox_Published r = false ->
  (q, r) ∈ s_outbox s /\ or_EventID r ∉ or_EventID <$> l.
Proof using Htakes.
  intros Hat Hp Hin Hun. revert Hin. induction Hp as [s|r0 rest s s' _ _ IH|r0 rest wait err s s' Href _ _ _]; intros Hin.
  - split; [done|apply not_elem_of_nil].
  - destruct (IH Hin) as [Hin1 Hni]. cbn in Hin1. apply update_record_elem in Hin1 as (r1 & Hin1 & E).
    destruct (bool_decide (or_EventID r1 = or_EventID r0)) eqn:Eid; cbn in E.
    + apply bool_decide_eq_true in Eid. destruct (Outbox_Published r1) eqn:Ep; cbn in E; subst; [congruence|].
      by rewrite published_published in Hun.
    + apply bool_decide_eq_false in Eid. subst r1. split; [done|]. rewrite fmap_cons. by apply not_elem_of_cons.
  - by destruct (Htakes r0 err).
Qed.

Lemma batch_shrinks at_ l s s' : clock_time at_ -> publishes accepted refused Error policy at_ l s s' ->
  NoDup (or_EventID <$> l) ->
  Forall (fun r => (exists q, (q, r) ∈ s_outbox s) /\ Outbox_Published r = false) l ->
  backlog s' + Z.of_nat (length l) <= backlog s.
Proof using Htakes.
  intros Hat Hp. induction Hp as [s|r0 rest s s' _ _ IH|r0 rest wait err s s' Href _ _ _]; intros Hnd Hl.
  - cbn. lia.
  - rewrite fmap_cons in Hnd. apply NoDup_cons in Hnd as [Hni Hnd].
    apply Forall_cons in Hl as [[Hin Hun] Hl].
    pose proof (marking_shrinks at_ r0 (s_outbox s) Hat Hin Hun) as Hone.
    assert (Hstill : Forall (fun r => (exists q, (q, r) ∈ s_outbox
      (set_outbox (update_record (or_EventID r0) (published_record at_) (s_outbox s)) s)) /\
      Outbox_Published r = false) rest).
    { apply Forall_forall. intros r Hr. rewrite Forall_forall in Hl. destruct (Hl r Hr) as [(q & Hq) Hu].
      split; [|done]. exists q. cbn. apply update_record_elem. exists r. split; [done|].
      rewrite bool_decide_eq_false_2; [done|]. intros E. apply Hni. rewrite <- E. by apply list_elem_of_fmap_2. }
    specialize (IH Hnd Hstill). unfold backlog in *. cbn [s_outbox set_outbox length] in *. lia.
  - by destruct (Htakes r0 err).
Qed.
End batch.

(** ** One pass *)

Section passes.
Context (env : Environment) `{!EnvironmentLaws env} (retry : RetryPolicy).
Context (Error : error -> string) (answer : nat -> OutboxRecord -> option error) (policy : PublisherPolicy) (ctx : Context).
Context (Hfit : publisher_fits policy) (Hin : cx_insideUnitOfWork ctx = false).
Context (Halone : alone env) (Hcalm : forall e, ~ infra env e)
  (Hfree : forall call name, en_locked env call name = false) (Htakes : forall m rec, answer m rec = None).

#[local] Abbreviation size := (pp_BatchSize (PublisherPolicy_normalised policy)).

(** No event has used up its attempts. *)
Definition attempts_left (s : Store) : Prop := forall q r, (q, r) ∈ s_outbox s -> or_Attempts r <> int32_max.

(** The backlog after passes that found nothing new: [k] full batches are
    gone, or nothing is left that was due at an instant the clock showed between
    the consultations numbered [a] and [b], during which they ran. *)
Definition worked_off (a b : nat) (k : Z) (s s' : Store) : Prop :=
  backlog s' + k * size <= backlog s \/ exists at_, reading env a b at_ /\ forall qr, ~ due_event at_ s' qr.

Lemma worked_off_weaken a b a' b' k s s' : (a' <= a)%nat -> (b <= b')%nat ->
  worked_off a b k s s' -> worked_off a' b' k s s'.
Proof.
  intros Ha Hb [H|(at_ & Hat & H)]; [by left|right]. exists at_. split; [by eapply reading_weaken|done].
Qed.

(** Nothing but the publisher touches the outbox, and it only publishes. *)
Definition only_published (s s' : Store) : Prop :=
  backlog s' <= backlog s /\ attempts_left s' /\
  forall q r, (q, r) ∈ s_outbox s' -> Outbox_Published r = false -> (q, r) ∈ s_outbox s.

Lemma publishes_attempts accepted refused at_ l s s' q r :
  (forall r e, ~ refused r e) -> publishes accepted refused Error (PublisherPolicy_normalised policy) at_ l s s' ->
  (q, r) ∈ s_outbox s' -> exists r0, (q, r0) ∈ s_outbox s /\ or_Attempts r = or_Attempts r0.
Proof.
  intros Hno Hp Hr. induction Hp as [s|r0 rest s s' _ _ IH|r0 rest wait err s s' Href _ _ _]; [by exists r| |by destruct (Hno r0 err)].
  destruct (IH Hr) as (r1 & Hr1 & E). cbn in Hr1. apply update_record_elem in Hr1 as (r2 & Hr2 & E2).
  exists r2. split; [done|]. rewrite E, E2. by destruct (_ && _).
Qed.

Lemma not_turned_down r e : ~ turned_down answer r e.
Proof using Htakes. intros [m Hm]. by rewrite Htakes in Hm. Qed.

Lemma a_pass w s : sound env w s -> attempts_left s ->
  exists n w' s', publish_events env retry Error answer policy ctx w = (n, Ok (), w') /\ sound env w' s' /\
    only_published s s' /\ (wo_calls w < wo_calls w')%nat /\ worked_off (wo_calls w) (wo_calls w') 1 s s'.
Proof using All.
  intros Hw Hleft. pose proof (publish_events_ran env retry Error answer policy ctx w s Hfit Hin Hw) as Hx.
  destruct (publish_events env retry Error answer policy ctx w) as [[n r] w']. exists n, w'.
  destruct r as [[]|e].
  2:{ exfalso. destruct Hx as [(s1 & Ho & Hi & [(l & what & q & r & _ & _ & Hq & Hmax)|He])|(s0 & s1 & _ & _ & _ & He)];
      [|by apply (Hcalm e)..].
      apply others_alone in Ho as ->; [|done..]. by apply (Hleft q r). }
  destruct Hx as (s0 & s' & Ho & Hb & Hi). apply others_alone in Ho as ->; [|done..]. exists s'.
  destruct (batch_published_ok _ _ _ _ _ _ s s' (proj2 Hw) Hb) as [Hs' _].
  destruct Hb as (at_ & qrs & Hat & Hread & Hdue & _ & Hnd & _ & Hall & Hp). specialize (Hall Hfree).
  pose proof (left_over (taken answer) (turned_down answer) Error (PublisherPolicy_normalised policy) not_turned_down
    at_ qrs.*2 s s') as Hover.
  assert (Hshrink : backlog s' + Z.of_nat (length qrs) <= backlog s).
  { rewrite <- (length_fmap snd qrs). eapply batch_shrinks; [exact not_turned_down|exact Hat|exact Hp|exact Hnd|].
    apply Forall_forall. intros r ([q r'] & -> & Hqr)%list_elem_of_fmap. rewrite Forall_forall in Hdue.
    destruct (Hdue _ Hqr) as (Hq & Hun & _). split; [by exists q|done]. }
  split; [done|]. split; [by split|]. split; [split_and!|split].
  - lia.
  - intros q r Hr. destruct (publishes_attempts _ _ _ _ _ _ q r not_turned_down Hp Hr) as (r0 & Hr0 & ->). by apply (Hleft q).
  - intros q r Hr Hun. by apply (Hover q r Hat Hp Hr Hun).
  - destruct Hread as (m & Hm & _). lia.
  - destruct (decide (Z.of_nat (length qrs) = size)) as [Hfull|Hfull]; [left; lia|right].
    exists at_. split; [exact Hread|]. intros [q r] (Hq & Hun & Hrest). destruct (Hover q r Hat Hp Hq Hun) as [Hq0 Hni].
    destruct (Hall (q, r)) as [Hqr|?]; [by split|..|done]. apply Hni. apply list_elem_of_fmap. exists r.
    split; [done|]. by apply (list_elem_of_fmap_2 snd qrs (q, r)).
Qed.

Lemma only_published_trans s s1 s2 : only_published s s1 -> only_published s1 s2 -> only_published s s2.
Proof.
  intros (Hb1 & _ & H1) (Hb2 & Ha2 & H2). split_and!; [lia|done|]. intros q r Hq Hun.
  apply H1; [|done]. by apply H2.
Qed.

(** What was worked off stays worked off. *)
Lemma worked_off_more a b k s s1 s2 : worked_off a b k s s1 -> only_published s1 s2 -> worked_off a b 1 s1 s2 ->
  worked_off a b (k + 1) s s2.
Proof.
  intros Hk (Hb & _ & Hsub) [Hone|Hone]; [|by right]. destruct Hk as [Hk|(at_ & Hat & Hk)].
  - left. lia.
  - right. exists at_. split; [done|]. intros [q r] (Hq & Hun & Hrest). apply (Hk (q, r)). split; [|done].
    by apply Hsub.
Qed.

(** ** The loop *)

Lemma passes_catch_up ticks turns w s : (forall n, ticks n = true) -> sound env w s -> attempts_left s ->
  exists w' s', run_publisher env retry ticks Error answer policy turns ctx w = (false, w') /\ sound env w' s' /\
    only_published s s' /\ ((0 < turns)%nat -> worked_off (wo_calls w) (wo_calls w') (Z.of_nat turns) s s').
Proof using All.
  intros Hticks. revert w s.
  assert (Hloop : forall turns a w s0 s k, sound env w s -> only_published s0 s -> (a <= wo_calls w)%nat ->
    (0 < k -> worked_off a (wo_calls w) k s0 s) -> 0 <= k ->
    exists w' s', run_publisher env retry ticks Error answer policy turns ctx w = (false, w') /\ sound env w' s' /\
      only_published s0 s' /\ (0 < k + Z.of_nat turns -> worked_off a (wo_calls w') (k + Z.of_nat turns) s0 s')).
  { clear turns. induction turns as [|turns IH]; intros a w s0 s k Hw Hpub Ha Hk Hk0.
    - exists w, s. rewrite Z.add_0_r. split_and!; done.
    - destruct (a_pass (tick w) s Hw (proj1 (proj2 Hpub))) as (n & w1 & s1 & Hrun & Hw1 & Hp1 & Hlt & Hone).
      cbn [tick wo_calls] in Hlt, Hone.
      apply (worked_off_weaken _ _ a (wo_calls w1)) in Hone; [|lia..].
      assert (Hnext : worked_off a (wo_calls w1) (k + 1) s0 s1).
      { destruct (decide (0 < k)) as [Hpos|Hneg].
        { eapply worked_off_more; [|exact Hp1|exact Hone].
          eapply worked_off_weaken; [| |by apply Hk]; lia. }
        replace k with 0 by lia. destruct Hone as [Hone|Hone]; [left|by right]. destruct Hpub as [? _]. lia. }
      destruct (IH a w1 s0 s1 (k + 1) Hw1 (only_published_trans _ _ _ Hpub Hp1) ltac:(lia) (fun _ => Hnext)) as (w' & s' & Hrest & Hw' & Hp' & Hk');
        [lia|].
      exists w', s'. split; [|split; [done|split; [done|]]].
      + unfold run_publisher, Publisher_Run. cbn. rewrite Hticks.
        unfold publish_events in Hrun. rewrite Hrun. exact Hrest.
      + replace (k + Z.of_nat (S turns)) with (k + 1 + Z.of_nat turns) by lia. exact Hk'. }
  intros w s Hw Hleft.
  destruct (Hloop turns (wo_calls w) w s s 0 Hw) as (w' & s' & Hrun & Hw' & Hp & Hk); [split_and!; [lia|done|done]|lia|lia|lia|].
  exists w', s'. split_and!; try done. intros Hpos. apply Hk. lia.
Qed.
End passes.

(** C20: left running, the publisher catches up.  When it runs alone, no other
    session writing or holding a row, nothing fails, every tick comes, the
    broker takes what it is given and no event has used up its attempts, [turns]
    ticks of its loop take [turns] full batches out of the backlog, or leave no
    event that was due at an instant the clock showed during the run; nothing is
    added to the outbox or put off meanwhile. *)
Theorem a_running_publisher_catches_up env `{!EnvironmentLaws env} retry Error answer policy ticks turns ctx w s :
  publisher_fits policy -> cx_insideUnitOfWork ctx = false -> sound env w s -> attempts_left s ->
  alone env -> (forall e, ~ infra env e) -> (forall call name, en_locked env call name = false) ->
  (forall m rec, answer m rec = None) -> (forall n, ticks n = true) -> (0 < turns)%nat ->
  exists w' s', run_publisher env retry ticks Error answer policy turns ctx w = (false, w') /\
    represents env (wo_db w') s' /\
    (forall q r, (q, r) ∈ s_outbox s' -> Outbox_Published r = false -> (q, r) ∈ s_outbox s) /\
    (backlog s' + Z.of_nat turns * pp_BatchSize (PublisherPolicy_normalised policy) <= backlog s \/
     exists at_, reading env (wo_calls w) (wo_calls w') at_ /\ forall qr, ~ due_event at_ s' qr).
Proof.
  intros Hfit Hin Hw Hleft Halone Hcalm Hfree Htakes Hticks Hpos.
  destruct (passes_catch_up env retry Error answer policy ctx Hfit Hin Halone Hcalm Hfree Htakes ticks turns w s
    Hticks Hw Hleft) as (w' & s' & Hrun & [Hr _] & (_ & _ & Hsub) & Hk).
  exists w', s'. split_and!; [exact Hrun|exact Hr|exact Hsub|exact (Hk Hpos)].
Qed.

(** ** At work *)

Lemma nothing_fails_quietly e : ~ infra quiet e.
Proof. intros H. induction H; try discriminate; done. Qed.

Lemma after_win_attempts s : sound quiet after_win s -> attempts_left s.
Proof.
  intros [Hr _] q r Hq. rewrite (rep_outbox _ _ _ Hr) in Hq. apply list_elem_of_fmap in Hq as (row & E & Hrow).
  assert (Hall : forallb (fun row => co_attempts row =? 0) (db_outbox (wo_db after_win)) = true)
    by (vm_compute; reflexivity).
  rewrite forallb_forall in Hall. apply list_elem_of_In in Hrow. specialize (Hall row Hrow).
  apply Z.eqb_eq in Hall. injection E as _ ->. unfold record_of_row, int32_max. cbn. lia.
Qed.

Lemma a_running_publisher_catches_up_witness : exists s w',
  sound quiet after_win s /\ published_count after_win = 0%nat /\ published_count w' = 2%nat /\
  run_publisher quiet DefaultRetryPolicy (fun _ => true) any_text takes_all DefaultPublisherPolicy 3 internal after_win =
    (false, w') /\
  exists s', represents quiet (wo_db w') s' /\
    (forall q r, (q, r) ∈ s_outbox s' -> Outbox_Published r = false -> (q, r) ∈ s_outbox s) /\
    (backlog s' + Z.of_nat 3 * pp_BatchSize (PublisherPolicy_normalised DefaultPublisherPolicy) <= backlog s \/
     exists at_, reading quiet (wo_calls after_win) (wo_calls w') at_ /\ forall qr, ~ due_event at_ s' qr).
Proof.
  destruct after_win_sound as [s Hs].
  assert (Hrun : published_count (run_publisher quiet DefaultRetryPolicy (fun _ => true) any_text takes_all
    DefaultPublisherPolicy 3 internal after_win).2 = 2%nat) by (vm_compute; reflexivity).
  destruct (a_running_publisher_catches_up quiet DefaultRetryPolicy any_text takes_all DefaultPublisherPolicy
    (fun _ => true) 3 internal after_win s publisher_default_fits eq_refl Hs (after_win_attempts s Hs)
    (fun _ _ => eq_refl) nothing_fails_quietly (fun _ _ => eq_refl) (fun _ _ => eq_refl) (fun _ => eq_refl)
    ltac:(lia)) as (w' & s' & E & Hrest).
  rewrite E in Hrun. exists s, w'. split; [exact Hs|]. split; [vm_compute; reflexivity|]. split; [exact Hrun|].
  split; [exact E|]. exists s'. exact Hrest.
Defined.
